(* ===== verification/_CoqProject ===== *)
-Q . S2P
Prelude.v
Payload.v
Proto.v
Codec.v
Framing.v
StreamCodec.v
Challenge.v
NodeInfo.v
SlotManager.v
ServerState.v
SessionManager.v
SessionNodes.v
SessionStore.v
ServerCore.v
IpChecker.v
Handlers.v
Server.v
ToyServer.v
ServerUi.v
UdpServer.v
ServerProps.v
ServerTypes.v
RelayProps.v
DirectoryProps.v
ServerRestart.v
IpCheckProps.v
SessionState.v
NetworkView.v
NetworkViewProps.v
DirectSession.v
Encryption.v
ClientForward.v
RelayDelivery.v
ClientSessions.v
ClientSessionsProps.v
SessionInit.v
SessionInitProps.v
HandshakeProps.v
ConnectSession.v
ConnectProps.v
HonestHandshake.v
RelayHandshake.v
RelayAgreement.v
FallbackCrypto.v
Dispatch.v
Requests.v
ClientDispatch.v
SessionEntry.v
SessionEntryProps.v
EncryptionSync.v
EncryptionSyncProps.v
Housekeeping.v
HousekeepingProps.v
UdpStream.v
Ports.v
StackMetrics.v
StackSocket.v
StackPacket.v
StackNetwork.v
StackNetworkProps.v
StackNetworkToy.v
StackSend.v
StackSendToy.v
ClientConfig.v
TcpRegistry.v
VirtualLayer.v
VirtualLayerToy.v
ClientApi.v
ClientApiProps.v
Examples.v
