(* ===== verification/Prelude.v ===== *)
(** * Verification of the ya-relay network

    The repository is a relay network.  A relay server
    accepts sessions from nodes over UDP, tells them about each other, checks
    whether they can be reached directly, and forwards packets between those
    that cannot.  A client keeps sessions with the server and other nodes, and
    runs a virtual TCP network over them.  This library translates the code into
    executable definitions and proves what makes it correct.  Paths below are
    relative to the sources.

    ** Wire formats ([crates/util], [crates/proto])
    - [Payload]: the payload container of [util/src/payload.rs].
    - [Proto]: the protobuf messages, [Forward] packets ([proto/src/proto.rs]).
    - [Codec]: the datagram codec ([codec.rs], [codec/datagram.rs]).  Encoding and
      decoding are inverse; decoding never panics.
    - [Framing]: the length-prefixed messages of [codec/forward.rs], reassembled
      from any chunking.
    - [StreamCodec]: the decoder of [codec/stream.rs] as a state machine.  It
      delivers what was written; two inputs on which it stalls or panics are
      proved as such.

    ** Core ([crates/core])
    - [Challenge]: the proof of work, identities and session keys of
      [challenge.rs], [identity.rs].  The search terminates with the first
      solution; recovered identities are backed by signatures.
    - [NodeInfo]: session ids, request history and authenticated node
      descriptions of [server_session.rs].
    - [UdpStream]: the UDP stream and sink and the packet sizes of
      [udp_stream.rs].  Packets of the virtual network fit their datagrams.

    ** Relay server ([server/src])
    - [SlotManager]: the numbering of nodes, with its save file.
    - [ServerState]: clock and distance of ids.
    - [SessionManager], [SessionNodes], [SessionStore]: the sessions in sixteen
      hashed maps, the weak references of the node table, and the save file of
      [state/session_manager.rs].  Operations are data ([Op], [run_op]) with an
      abstract specification ([spec_op]) the implementation refines; cleanup,
      linking, latest session and nearest neighbours are characterised exactly.
    - [ServerCore], [Handlers]: the state the handlers share, and one definition
      per request handler of [server/src/server].
    - [IpChecker]: the tasks that check the address of a node.
    - [Server]: dispatch, control commands and start of [server.rs], and the
      transition system of all tasks ([Event], [server_step]).
    - [UdpServer]: the sockets and the loop of a worker ([udp_server.rs],
      [udp_server/socket.rs]).  No datagram stops a worker, and each is handled once.
    - [ServerProps], [RelayProps], [DirectoryProps], [IpCheckProps]: the
      properties of reachable servers: how sessions begin and end, who may use
      them, where datagrams are relayed, that a node that is found can be reached
      by the slot returned for it, and when an address counts as checked.
    - [ServerTypes]: whatever the server receives, all it holds and sends stays
      within the ranges of its Rust types.
    - [ServerRestart]: a server that is started from the state another one saved
      serves its clients as before.
    - [ServerUi]: the web interface of [bin/ya-relay-server.rs].  Strangers learn
      nothing secret and change nothing; the ids an operator sees name their
      sessions.
    - [ToyServer]: concrete instances of the parameters, for the examples.

    ** Sessions of the client ([client/src/session])
    - [SessionState]: the state machine of a connection
      ([session/session_state.rs]); a session is established only after a
      complete handshake.
    - [NetworkView], [NetworkViewProps]: the registry of nodes, the permits to
      connect to one and the tasks that wait ([session/network_view.rs]), as a
      transition system.  Permits are exclusive, no waiting task is stranded, and
      an entry that was replaced does not come back.
    - [DirectSession], [Encryption], [ClientForward]: the nodes a session may
      forward for ([direct_session.rs]), negotiation and use of the cipher
      ([encryption.rs]), sending through a route ([routing_session.rs]), the
      handler of forward packets and the filter of repeated requests
      ([session.rs]).  What one node sends the other delivers, and nothing
      unprotected is delivered on an encrypted route.
    - [ClientSessions], [ClientSessionsProps]: the tables of sessions and routes
      of [session.rs], registering and closing them.  A node that was closed stays
      away, and a disconnect of a peer closes only its own session.
    - [SessionInit], [SessionInitProps]: both sides of the handshake of
      [session_initializer.rs], the admission of incoming ones and their leases,
      which are bounded.  A handshake is a [Task]: it runs against the answers of
      the other party and against whatever other tasks do at every point where it
      waits.
    - [HandshakeProps], [HonestHandshake]: a handshake that succeeds has
      authenticated the identities it registers, whatever answers; and two honest
      nodes that are left alone do succeed, with the same session.
    - [FallbackCrypto]: the provider of keys of [core/src/crypto.rs], which gives a
      node the keys a handshake needs.
    - [ConnectSession], [ConnectProps]: direct, reverse and relayed connections
      and the session with the server, and the states they lead through.
    - [SessionEntry], [SessionEntryProps]: the entry points of [session.rs]: calls
      for a session, with the lookup of the node at the server, requests to be
      connected to, and handshakes of other nodes.  Whoever asks, the permit leaves
      the node established in the session returned, or retired with the error.
    - [Dispatch], [ClientDispatch]: the matching of responses with requests
      ([dispatch.rs], [core/src/sync.rs]) and the handlers of received packets.
    - [Requests]: the request of [raw_session.rs] and [core/src/session.rs], which is
      sent again until it is answered; it ends in time and after five copies.
    - [EncryptionSync], [EncryptionSyncProps]: the handler of forward packets as a
      task, senders ([routing_session.rs]), and the refresh of keys after packets
      that cannot be decrypted; afterwards the nodes understand each other again.
    - [Housekeeping], [HousekeepingProps]: pings, the expiration of silent sessions
      ([session/expire.rs], [raw_session.rs]), the loop of [session/keep_alive.rs]
      and the shutdown.  Exactly the silent sessions are closed, and in time.

    - [ClientConfig]: the builder of a client, its defaults and its start
      ([config.rs], [client.rs], [core/src/utils.rs], [StackConfig] of the stack): when
      a configuration results, what it holds, and which failures stop a client.

    ** Client and server together
    - [RelayHandshake]: a client joins the relay: each side's messages are those the
      other side acts on, and both end with the same session.
    - [RelayDelivery], [RelayAgreement]: two clients of the relay look each other up,
      agree on a key, and what one sends the other delivers, from bytes to bytes.

    ** Virtual network ([crates/stack], [client/src/transport])
    - [Ports], [StackSocket]: the port allocator, socket descriptions and buffer
      sizes ([port.rs], [protocol.rs], [socket.rs], [connection.rs]).
    - [StackMetrics]: the moving averages of [metrics.rs], equal to weighted means of
      samples that account for every value.
    - [StackPacket]: the parsers of [packet.rs] and the description of packets to
      send of [network.rs], with the exact inputs on which they panic.
    - [StackNetwork], [StackNetworkProps]: the sockets and connections of
      [stack.rs] and [network.rs] over smoltcp.  Its tables agree with the
      sockets, and polling it returns.  [StackNetworkToy] has an instance of the
      library and the run in which a refused attempt to connect succeeds on a
      connection of another node.
    - [StackSend]: the tasks that send ([StackSender] of [network.rs], [Send] of
      [connection.rs]).  What is sent over a connection goes out in order and whole.
      [StackSendToy] has the run in which data of a closed connection goes out over
      another one.
    - [TcpRegistry]: the channels, permits and waiting tasks of
      [transport/tcp_registry.rs] as a transition system; attempts to connect
      are exclusive and no wake-up is lost.
    - [VirtualLayer], [VirtualLayerToy]: the layer of
      [transport/virtual_layer.rs] that carries the virtual network over
      sessions, and what the identities it delivers say about their sender.
    - [ClientApi], [ClientApiProps]: the tables of senders ([transport.rs],
      [transport/transport_sender.rs]), neighbours and broadcasts ([client.rs]).  The
      senders are of the channel that was asked for, and opening them never panics.

    ** Example programs ([client/examples])
    - [Examples]: how [http_client.rs] cuts what it receives into messages, and the
      plans of requests of [perf.rs].

    ** Conventions
    - [Result] is [result], an expression that may panic has type [outcome].
      Integers and bytes are [Z] with their width written out where the code
      depends on it; buffers are lists; hash maps are [gmap]s.  Properties of the
      registry of nodes assume that its 64-bit generations do not run out.
    - State shared through [Arc], [Weak] or locks is a heap and locations.  A
      handler or a task step between two suspension points is one step, and tasks
      interleave between steps.  The server is modelled with one worker, and
      [UdpServer] lets other workers act between the steps of one.
    - Code from outside the repository is a class with its documented laws:
      [Prost] (protobuf), [IpText] (printed addresses), [Hashes], [EthSign] and
      [Keccak] (hashes and signatures), [Semver], [CacheOps] (bounded caches),
      [Rmp] (MessagePack), [Aead] and [KeyAgreement] (encryption),
      [CryptoProvider] (keys of a node), [ExponentialBackoff], [SmolSockets] and
      [SmolIface] with [SmolLaws] and [SendLaws] (smoltcp), [Hex] and [WebText] (texts
      of the web interface), [UrlOps] (URLs), and [Num] (the numbers of the averages,
      with the laws of exact arithmetic: floating-point rounding is not modelled).
      Each is instantiated, so that no law is vacuous.
    - Random numbers, clocks and environment variables are arguments.

    ** Loops and fuel
    - [solve_challenge] runs on fuel; it is proved to return from some fuel on,
      and handshakes are given that much.
    - [drain], [state_loop] and [udp_stream] take one unit per poll, record or
      datagram, and are proved to finish with as many as their input is long.
    - [search_port] makes one attempt per port, as the code does.
    - [await_loop] of a task that waits for a session takes one unit per
      notification.
    - [recv_loop] has as much fuel as the socket has data, [process_ingress] one
      unit more than there are listening sockets; both are proved to return.
    - [establish_server_session] takes one unit per attempt to reach the server.
    - [run_request] and [server_run] follow a list of polls or events.

    ** Not modelled
    - System calls on sockets and files, logging, command lines and signals, which
      have no state of their own.
    - The counters of the metrics of server and client, which a third-party recorder
      keeps.
    - Devices and the capture of packets ([stack/src/device.rs], [interface.rs]): queues
      handed to smoltcp, whose behaviour is a class here.
    - The rest of the older session of [core/src/session.rs], which the client only
      re-exports, and of the examples all but the above.
    - Tests and test tools.

    This file holds the shared definitions: results, panics, machine integers,
    byte strings, and the tactics and lemmas the component files use. *)

From stdpp Require Export base gmap sets list strings relations.
From Stdlib Require Export ZArith Lia.

#[global] Open Scope Z_scope.
#[global] Set Default Goal Selector "!".

(** ** Results and panics *)

(** [Result<A, E>] of the Rust standard library. *)
Inductive result (A E : Type) : Type :=
| Ok (a : A)
| Err (e : E).
Arguments Ok {A E} a.
Arguments Err {A E} e.

(** The outcome of an expression that may panic (slice out of range, [unwrap]
    of an error, arithmetic overflow in debug builds). *)
Inductive outcome (A : Type) : Type :=
| Ret (a : A)
| Panic.
Arguments Ret {A} a.
Arguments Panic {A}.

#[export] Instance result_eq_dec {A E} `{EqDecision A, EqDecision E} :
  EqDecision (result A E).
Proof. solve_decision. Defined.

#[export] Instance outcome_eq_dec {A} `{EqDecision A} : EqDecision (outcome A).
Proof. solve_decision. Defined.

Definition result_bind {A B E} (m : result A E) (f : A -> result B E) : result B E :=
  match m with Ok a => f a | Err e => Err e end.

Definition outcome_bind {A B} (m : outcome A) (f : A -> outcome B) : outcome B :=
  match m with Ret a => f a | Panic => Panic end.

Definition ok_or {A E} (o : option A) (e : E) : result A E :=
  match o with Some a => Ok a | None => Err e end.

Definition map_err {A E F} (f : E -> F) (m : result A E) : result A F :=
  match m with Ok a => Ok a | Err e => Err (f e) end.

Definition res_ok {A E} (m : result A E) : option A :=
  match m with Ok a => Some a | Err _ => None end.

(** [Option::is_some]. *)
Definition is_some {A} (o : option A) : bool := match o with Some _ => true | None => false end.

Definition is_ok {A E} (m : result A E) : bool :=
  match m with Ok _ => true | Err _ => false end.

Declare Scope relay_scope.
Delimit Scope relay_scope with relay.
Notation "'let?' x := m 'in' k" := (result_bind m (fun x => k))
  (at level 10, x pattern, m at level 100, k at level 200) : relay_scope.
Notation "'let!' x := m 'in' k" := (outcome_bind m (fun x => k))
  (at level 10, x pattern, m at level 100, k at level 200) : relay_scope.
#[global] Open Scope relay_scope.

(** ** Tactics *)

(** Case analysis on the innermost scrutinee of a [match] or [if]. *)
Ltac case_match_goal :=
  match goal with
  | |- context [ match ?x with _ => _ end ] =>
      lazymatch x with
      | context [ match _ with _ => _ end ] => fail
      | _ => let E := fresh "E" in destruct x eqn:E
      end
  end.

Ltac case_match_hyp H :=
  match type of H with
  | context [ match ?x with _ => _ end ] =>
      lazymatch x with
      | context [ match _ with _ => _ end ] => fail
      | _ => let E := fresh "E" in destruct x eqn:E
      end
  end.

(** Open existentials, keeping their names. *)
Ltac deex :=
  repeat match goal with
  | H : exists x, _ |- _ => let x' := fresh x in destruct H as [x' H]
  end.

(** Turn boolean comparisons of hypotheses and goal into propositions. *)
Ltac b2p :=
  repeat match goal with
  | H : andb _ _ = true |- _ => apply andb_true_iff in H; destruct H
  | H : orb _ _ = false |- _ => apply orb_false_iff in H; destruct H
  | H : negb _ = true |- _ => apply negb_true_iff in H
  | H : negb _ = false |- _ => apply negb_false_iff in H
  | H : Z.eqb _ _ = true |- _ => apply Z.eqb_eq in H
  | H : Z.eqb _ _ = false |- _ => apply Z.eqb_neq in H
  | H : Z.ltb _ _ = true |- _ => apply Z.ltb_lt in H
  | H : Z.ltb _ _ = false |- _ => apply Z.ltb_ge in H
  | H : Z.leb _ _ = true |- _ => apply Z.leb_le in H
  | H : Z.leb _ _ = false |- _ => apply Z.leb_gt in H
  | H : Nat.eqb _ _ = true |- _ => apply Nat.eqb_eq in H
  | H : Nat.eqb _ _ = false |- _ => apply Nat.eqb_neq in H
  | H : Nat.ltb _ _ = true |- _ => apply Nat.ltb_lt in H
  | H : Nat.ltb _ _ = false |- _ => apply Nat.ltb_ge in H
  | H : Nat.leb _ _ = true |- _ => apply Nat.leb_le in H
  | H : Nat.leb _ _ = false |- _ => apply Nat.leb_gt in H
  | H : bool_decide _ = true |- _ => apply bool_decide_eq_true in H
  | H : bool_decide _ = false |- _ => apply bool_decide_eq_false in H
  end.

(** [lia] on goals with [Z.div] and [Z.modulo] by constants. *)
Ltac dlia := Z.div_mod_to_equations; lia.

Create HintDb relay discriminated.
Create Rewrite HintDb relay.

(** ** Machine integers *)

Definition u8_max : Z := 2 ^ 8 - 1.
Definition u16_max : Z := 2 ^ 16 - 1.
Definition u32_max : Z := 2 ^ 32 - 1.
Definition u64_max : Z := 2 ^ 64 - 1.

(** [x as uN] on an unsigned value. *)
Definition wrap (w : Z) (x : Z) : Z := x mod 2 ^ w.

Definition in_width (w x : Z) : Prop := 0 <= x < 2 ^ w.

(** [saturating_sub] on unsigned integers. *)
Definition saturating_sub (a b : Z) : Z := Z.max 0 (a - b).

(** [checked_add] on [w]-bit unsigned integers. *)
Definition checked_add (w a b : Z) : option Z :=
  if a + b <? 2 ^ w then Some (a + b) else None.

Lemma wrap_small w x : in_width w x -> wrap w x = x.
Proof. intros H. apply Z.mod_small, H. Qed.

Lemma wrap_in_width w x : 0 <= w -> in_width w (wrap w x).
Proof. intros. apply Z.mod_pos_bound. apply Z.pow_pos_nonneg; lia. Qed.

#[export] Hint Resolve wrap_small wrap_in_width : relay.

(** ** Byte strings *)

Definition is_byte (b : Z) : Prop := 0 <= b < 256.
Definition bytes_ok (l : list Z) : Prop := Forall is_byte l.

#[export] Instance is_byte_dec b : Decision (is_byte b).
Proof. unfold is_byte. apply _. Defined.

#[export] Instance bytes_ok_dec l : Decision (bytes_ok l).
Proof. unfold bytes_ok. apply _. Defined.

(** Lengths are [usize]: they are kept in [Z]. *)
Definition zlen {A} (l : list A) : Z := Z.of_nat (length l).
Definition ztake {A} (n : Z) (l : list A) : list A := take (Z.to_nat n) l.
Definition zdrop {A} (n : Z) (l : list A) : list A := drop (Z.to_nat n) l.

(** [a[lo..hi]]: a panic when [lo > hi] or [hi > len]. *)
Definition slice {A} (lo hi : Z) (l : list A) : outcome (list A) :=
  if (lo <=? hi) && (hi <=? zlen l) then Ret (ztake (hi - lo) (zdrop lo l)) else Panic.

Section ZLists.
Context {A : Type}.
Implicit Types l : list A.

Lemma zlen_nonneg l : 0 <= zlen l.
Proof. unfold zlen. lia. Qed.

Lemma zlen_nil : zlen (@nil A) = 0.
Proof. done. Qed.

Lemma zlen_cons x l : zlen (x :: l) = 1 + zlen l.
Proof. unfold zlen. rewrite length_cons. lia. Qed.

Lemma zlen_app l1 l2 : zlen (l1 ++ l2) = zlen l1 + zlen l2.
Proof. unfold zlen. rewrite length_app. lia. Qed.

Lemma zlen_ztake n l : 0 <= n -> zlen (ztake n l) = Z.min n (zlen l).
Proof. intros. unfold zlen, ztake. rewrite length_take. lia. Qed.

Lemma zlen_zdrop n l : 0 <= n -> zlen (zdrop n l) = Z.max 0 (zlen l - n).
Proof. intros. unfold zlen, zdrop. rewrite length_drop. lia. Qed.

Lemma zlen_0 l : zlen l = 0 -> l = [].
Proof. destruct l; [done|]. rewrite zlen_cons. pose proof (zlen_nonneg l). lia. Qed.

Lemma ztake_app_exact n l1 l2 : n = zlen l1 -> ztake n (l1 ++ l2) = l1.
Proof. intros ->. unfold ztake, zlen. rewrite Nat2Z.id. apply take_app_length. Qed.

Lemma zdrop_app_exact n l1 l2 : n = zlen l1 -> zdrop n (l1 ++ l2) = l2.
Proof. intros ->. unfold zdrop, zlen. rewrite Nat2Z.id. apply drop_app_length. Qed.

Lemma ztake_all n l : zlen l <= n -> ztake n l = l.
Proof. intros. unfold ztake, zlen in *. apply take_ge. lia. Qed.

Lemma zdrop_all n l : zlen l <= n -> zdrop n l = [].
Proof. intros. unfold zdrop, zlen in *. apply drop_ge. lia. Qed.

Lemma zdrop_0 l : zdrop 0 l = l.
Proof. done. Qed.

Lemma ztake_zdrop n l : ztake n l ++ zdrop n l = l.
Proof. apply take_drop. Qed.

Lemma ztake_app_ge n l1 l2 :
  zlen l1 <= n -> ztake n (l1 ++ l2) = l1 ++ ztake (n - zlen l1) l2.
Proof.
  intros. unfold ztake, zlen in *. rewrite take_app_ge by lia. do 2 f_equal. lia.
Qed.

Lemma ztake_app_le n l1 l2 : n <= zlen l1 -> ztake n (l1 ++ l2) = ztake n l1.
Proof. intros. unfold ztake, zlen in *. apply take_app_le. lia. Qed.

Lemma zdrop_app_le n l1 l2 : n <= zlen l1 -> zdrop n (l1 ++ l2) = zdrop n l1 ++ l2.
Proof. intros. unfold zdrop, zlen in *. apply drop_app_le. lia. Qed.

Lemma zdrop_zdrop n m l : 0 <= n -> 0 <= m -> zdrop n (zdrop m l) = zdrop (m + n) l.
Proof. intros. unfold zdrop. rewrite drop_drop. f_equal. lia. Qed.

End ZLists.

#[export] Hint Rewrite @zlen_nil @zlen_cons @zlen_app : relay.

Ltac zlen_simpl := repeat progress
  (autorewrite with relay in *; rewrite ?zlen_ztake, ?zlen_zdrop in * by lia).

(** Make the lengths in sight non-negative. *)
Ltac zpos :=
  repeat match goal with
  | |- context [@zlen ?A []] => change (@zlen A []) with 0
  | H : context [@zlen ?A []] |- _ => change (@zlen A []) with 0 in H
  | |- context [zlen ?l] =>
      lazymatch goal with
      | _ : 0 <= zlen l |- _ => fail
      | _ => pose proof (zlen_nonneg l)
      end
  | _ : context [zlen ?l] |- _ =>
      lazymatch goal with
      | _ : 0 <= zlen l |- _ => fail
      | _ => pose proof (zlen_nonneg l)
      end
  end.

Ltac zlia := zpos; lia.

(** ** Big-endian integers: [to_be_bytes] and [from_be_bytes] *)

Fixpoint be_bytes (n : nat) (z : Z) : list Z :=
  match n with
  | O => []
  | S m => Z.shiftr z (8 * Z.of_nat m) mod 256 :: be_bytes m z
  end.

Definition be_value (bs : list Z) : Z :=
  fold_left (fun acc b => acc * 256 + b) bs 0.

Lemma length_be_bytes n z : length (be_bytes n z) = n.
Proof. induction n; simpl; congruence. Qed.

Lemma zlen_be_bytes n z : zlen (be_bytes n z) = Z.of_nat n.
Proof. unfold zlen. by rewrite length_be_bytes. Qed.

Lemma be_bytes_ok n z : bytes_ok (be_bytes n z).
Proof. induction n; constructor; [|done]. apply Z.mod_pos_bound. lia. Qed.

Lemma be_value_acc bs a :
  fold_left (fun acc b => acc * 256 + b) bs a = a * 2 ^ (8 * zlen bs) + be_value bs.
Proof.
  unfold be_value. revert a. induction bs as [|b bs IH]; intros a; simpl.
  - change (2 ^ (8 * zlen [])) with 1. lia.
  - rewrite IH, (IH (0 * 256 + b)), zlen_cons.
    replace (8 * (1 + zlen bs)) with (8 + 8 * zlen bs) by lia.
    pose proof (zlen_nonneg bs). rewrite Z.pow_add_r by lia. lia.
Qed.

Lemma be_value_cons b bs : be_value (b :: bs) = b * 2 ^ (8 * zlen bs) + be_value bs.
Proof. unfold be_value at 1. simpl. apply be_value_acc. Qed.

Lemma be_value_bound bs : bytes_ok bs -> 0 <= be_value bs < 2 ^ (8 * zlen bs).
Proof.
  induction 1 as [|b bs Hb _ IH]; [by vm_compute|].
  rewrite be_value_cons, zlen_cons.
  replace (8 * (1 + zlen bs)) with (8 + 8 * zlen bs) by lia.
  pose proof (zlen_nonneg bs). rewrite Z.pow_add_r by lia.
  unfold is_byte in Hb. nia.
Qed.

Lemma be_value_bytes n z : be_value (be_bytes n z) = z mod 2 ^ (8 * Z.of_nat n).
Proof.
  induction n as [|n IH]; [by rewrite Z.mod_1_r|].
  simpl be_bytes. rewrite be_value_cons, zlen_be_bytes, IH, Z.shiftr_div_pow2 by lia.
  replace (8 * Z.of_nat (S n)) with (8 * Z.of_nat n + 8) by lia.
  rewrite Z.pow_add_r by lia. change (2 ^ 8) with 256.
  rewrite (Z.rem_mul_r z (2 ^ (8 * Z.of_nat n)) 256) by lia. lia.
Qed.

Lemma be_value_bytes_id n z :
  in_width (8 * Z.of_nat n) z -> be_value (be_bytes n z) = z.
Proof. intros. rewrite be_value_bytes. by apply Z.mod_small. Qed.

Lemma be_bytes_value bs : bytes_ok bs -> be_bytes (length bs) (be_value bs) = bs.
Proof.
  intros Hok. assert (forall k, be_bytes (length bs) (k * 2 ^ (8 * zlen bs) + be_value bs) = bs)
    as H; [|by specialize (H 0); rewrite Z.mul_0_l, Z.add_0_l in H].
  induction Hok as [|b bs Hb Hbs IH]; intros k; [done|].
  simpl. pose proof (be_value_bound bs Hbs). unfold is_byte in Hb.
  fold (zlen bs). rewrite be_value_cons, zlen_cons.
  replace (8 * (1 + zlen bs)) with (8 + 8 * zlen bs) by lia.
  pose proof (zlen_nonneg bs). rewrite Z.pow_add_r by lia. change (2 ^ 8) with 256.
  f_equal.
  - rewrite Z.shiftr_div_pow2 by lia.
    replace (k * (256 * 2 ^ (8 * zlen bs)) + (b * 2 ^ (8 * zlen bs) + be_value bs))
      with ((k * 256 + b) * 2 ^ (8 * zlen bs) + be_value bs) by lia.
    rewrite Z.div_add_l, Z.div_small, Z.add_0_r by lia.
    rewrite Z.add_comm, Z.mod_add by lia. apply Z.mod_small. lia.
  - etransitivity; [|apply (IH (k * 256 + b))]. f_equal. lia.
Qed.

#[global] Arguments be_bytes : simpl never.

(** ** Reachability *)

(** An invariant of the initial state that every step preserves holds of every
    reachable state. *)
Lemma rtc_invariant {S} (R : S -> S -> Prop) (P : S -> Prop) :
  (forall a b, P a -> R a b -> P b) -> forall a b, P a -> rtc R a b -> P b.
Proof. intros H a b Ha Hr. induction Hr; eauto. Qed.

(** ** Lists and options *)

(** [Vec::push]-style append keeps earlier positions. *)
Lemma lookup_snoc_Some {A} (l : list A) x i y :
  (l ++ [x]) !! i = Some y <-> l !! i = Some y \/ (i = length l /\ y = x).
Proof.
  rewrite lookup_app_Some, list_lookup_singleton_Some. split.
  - intros [H|[Hi [Hz ->]]]; [by left|right]. split; [lia|done].
  - intros [H|[-> ->]]; [by left|right]. split; [lia|]. split; [lia|done].
Qed.

(** [VecDeque::back] / [Vec::last]. *)
Lemma last_app_singleton {A} (l : list A) x : last (l ++ [x]) = Some x.
Proof. apply last_snoc. Qed.

(** A value put into a map under several keys. *)
Lemma foldl_insert_lookup `{Countable K} {A} (ks : list K) (x : A) (m : gmap K A) (k : K) :
  foldl (fun m k => <[k := x]> m) m ks !! k = if decide (k ∈ ks) then Some x else m !! k.
Proof.
  revert m. induction ks as [|k0 ks IH]; intros m; [done|]. simpl. rewrite IH.
  destruct (decide (k = k0)) as [->|Hne].
  - rewrite lookup_insert_eq. repeat case_decide; set_solver.
  - rewrite lookup_insert_ne by done. repeat case_decide; set_solver.
Qed.

(** ** Fallible code that may also panic *)

(** The [?] operator in code that can panic. *)
Definition try_bind {A B E} (m : outcome (result A E)) (f : A -> outcome (result B E))
  : outcome (result B E) :=
  match m with
  | Ret (Ok a) => f a
  | Ret (Err e) => Ret (Err e)
  | Panic => Panic
  end.

Notation "'let*' x := m 'in' k" := (try_bind m (fun x => k))
  (at level 10, x pattern, m at level 100, k at level 200) : relay_scope.

(** [data[i]] and [&data[lo..]]. *)
Definition index {A} (i : Z) (l : list A) : outcome A :=
  match (if 0 <=? i then l !! Z.to_nat i else None) with
  | Some x => Ret x
  | None => Panic
  end.

Definition slice_from {A} (lo : Z) (l : list A) : outcome (list A) := slice lo (zlen l) l.

Lemma slice_ok {A} lo hi (l : list A) :
  lo <= hi <= zlen l -> slice lo hi l = Ret (ztake (hi - lo) (zdrop lo l)).
Proof. intros. unfold slice. by rewrite !(proj2 (Z.leb_le _ _)) by lia. Qed.

Lemma slice_from_ok {A} lo (l : list A) : 0 <= lo <= zlen l -> slice_from lo l = Ret (zdrop lo l).
Proof.
  intros. unfold slice_from. rewrite slice_ok by lia. f_equal. apply ztake_all.
  rewrite zlen_zdrop by lia. lia.
Qed.

Lemma slice_from_panic {A} lo (l : list A) : zlen l < lo -> slice_from lo l = Panic.
Proof. intros. unfold slice_from, slice. by rewrite (proj2 (Z.leb_gt _ _)). Qed.

Lemma index_ok {A} i (l : list A) : 0 <= i < zlen l -> exists x, index i l = Ret x /\ l !! Z.to_nat i = Some x.
Proof.
  intros. unfold index. rewrite (proj2 (Z.leb_le _ _)) by lia.
  destruct (lookup_lt_is_Some_2 l (Z.to_nat i)) as [x Hx]; [unfold zlen in *; lia|].
  rewrite Hx. eauto.
Qed.
