(* ===== verification/Payload.v ===== *)
(** [crates/util/src/payload.rs]: the payload of a packet, held as one of three
    byte containers.  [Payload_prepend] follows the in-place shift of the
    [BytesMut] case, index by index. *)

From S2P Require Import Prelude.

Inductive Payload : Type :=
| PBytesMut (b : list Z)
| PVec (b : list Z)
| PBytes (b : list Z).

#[export] Instance Payload_eq_dec : EqDecision Payload.
Proof. solve_decision. Defined.

(** [AsRef<[u8]>]. *)
Definition Payload_as_ref (p : Payload) : list Z :=
  match p with PBytesMut b => b | PVec b => b | PBytes b => b end.

Definition Payload_len (p : Payload) : Z :=
  match p with PBytesMut b => zlen b | PVec b => zlen b | PBytes b => zlen b end.

Definition Payload_is_empty (p : Payload) : bool :=
  match p with
  | PBytesMut b => bool_decide (b = [])
  | PVec b => bool_decide (b = [])
  | PBytes b => bool_decide (b = [])
  end.

Definition Payload_default : Payload := PVec [].

(** A shared [Bytes] becomes a [BytesMut] with the same bytes, whether
    [try_into_mut] succeeds or the bytes are copied. *)
Definition make_mutable (p : Payload) : Payload :=
  match p with PBytes b => PBytesMut b | _ => p end.

(** [Vec::reserve] and [BytesMut::reserve] do not change the bytes. *)
Definition Payload_reserve (p : Payload) (additional : Z) : outcome Payload :=
  match make_mutable p with
  | PBytesMut b => Ret (PBytesMut b)
  | PVec b => Ret (PVec b)
  | PBytes _ => Panic
  end.

Definition Payload_extend (p : Payload) (bytes : list Z) : Payload :=
  match p with
  | PBytesMut b => PBytesMut (b ++ bytes)
  | PVec v => PVec (v ++ bytes)
  | PBytes b => PBytesMut (b ++ bytes)
  end.

(** The loop [for i in (0..n).rev()] of [prepend] on a buffer [b]: an index
    out of range is a panic. *)
Fixpoint prepend_loop (n : nat) (w b : list Z) : outcome (list Z) :=
  match n with
  | O => Ret b
  | S i =>
      match (if Nat.leb (length w) i then b !! (i - length w)%nat else w !! i) with
      | Some x => if Nat.ltb i (length b) then prepend_loop i w (<[i := x]> b) else Panic
      | None => Panic
      end
  end.

Definition Payload_prepend (p : Payload) (w : list Z) : outcome Payload :=
  if bool_decide (w = []) then Ret p
  else
    match make_mutable p with
    | PBytesMut b =>
        if bool_decide (b = []) then Ret (PBytesMut (b ++ w))
        else
          let b0 := b ++ replicate (length w) 0 in
          let! b1 := prepend_loop (length b0) w b0 in Ret (PBytesMut b1)
    | PVec b => Ret (PVec (w ++ b))
    | PBytes _ => Panic
    end.

Definition Payload_into_vec (p : Payload) : list Z :=
  match p with PBytesMut b => b | PVec b => b | PBytes b => b end.

Definition Payload_into_bytes (p : Payload) : list Z :=
  match p with PBytesMut b => b | PVec b => b | PBytes b => b end.

(** [PartialEq]: payloads are equal when their bytes are. *)
Definition Payload_eq (p q : Payload) : bool :=
  bool_decide (Payload_as_ref p = Payload_as_ref q).

(** ** Lemmas *)

Lemma make_mutable_as_ref p : Payload_as_ref (make_mutable p) = Payload_as_ref p.
Proof. by destruct p. Qed.

Lemma Payload_len_as_ref p : Payload_len p = zlen (Payload_as_ref p).
Proof. by destruct p. Qed.

Lemma Payload_is_empty_as_ref p :
  Payload_is_empty p = bool_decide (Payload_as_ref p = []).
Proof. by destruct p. Qed.

Lemma Payload_reserve_as_ref p n :
  exists q, Payload_reserve p n = Ret q /\ Payload_as_ref q = Payload_as_ref p.
Proof. destruct p; eexists; done. Qed.

(** The loop started at index [n] turns a buffer whose first [n] cells are
    still the old content and whose other cells are already final into the
    final content. *)
Lemma prepend_loop_spec w o n b :
  length b = (length w + length o)%nat ->
  (n <= length b)%nat ->
  (forall j, (j < n)%nat -> b !! j = (o ++ replicate (length w) 0) !! j) ->
  (forall j, (n <= j)%nat -> b !! j = (w ++ o) !! j) ->
  prepend_loop n w b = Ret (w ++ o).
Proof.
  revert b. induction n as [|i IH]; intros b Hlen Hn Hlow Hhigh; simpl.
  - f_equal. apply list_eq. intros j. apply Hhigh. lia.
  - set (v := if Nat.leb _ _ then _ else _).
    assert (v = (w ++ o) !! i) as Hv.
    { unfold v. destruct (Nat.leb_spec (length w) i).
      - rewrite Hlow, lookup_app_l, lookup_app_r by lia. done.
      - by rewrite lookup_app_l by lia. }
    destruct (lookup_lt_is_Some_2 (w ++ o) i) as [x Hx].
    { rewrite length_app. lia. }
    rewrite Hv, Hx. destruct (Nat.ltb_spec i (length b)); [|lia].
    apply IH.
    + by rewrite length_insert.
    + rewrite length_insert. lia.
    + intros j Hj. rewrite list_lookup_insert_ne by lia. apply Hlow. lia.
    + intros j Hj. destruct (decide (i = j)) as [<-|].
      * by rewrite list_lookup_insert_eq by lia.
      * rewrite list_lookup_insert_ne by lia. apply Hhigh. lia.
Qed.

Lemma prepend_loop_app w o :
  prepend_loop (length (o ++ replicate (length w) 0)) w (o ++ replicate (length w) 0)
  = Ret (w ++ o).
Proof.
  assert (length (o ++ replicate (length w) 0) = (length w + length o)%nat) as Hl.
  { rewrite length_app, length_replicate. lia. }
  apply prepend_loop_spec; [done|lia|done|].
  intros j Hj. rewrite !lookup_ge_None_2; [done| |lia]. rewrite length_app. lia.
Qed.

Lemma Payload_prepend_as_ref p w :
  exists q, Payload_prepend p w = Ret q /\ Payload_as_ref q = w ++ Payload_as_ref p.
Proof.
  unfold Payload_prepend. case_bool_decide; [subst; by eexists|].
  destruct p as [b|b|b]; simpl; [|by eexists|].
  all: case_bool_decide; [subst; eexists; split; [done|by rewrite app_nil_r]|].
  all: rewrite prepend_loop_app; by eexists.
Qed.
