(* ===== verification/Proto.v ===== *)
(** [crates/proto]: the messages of [protobuf/ya_relay.proto] as data types, the
    constructors of [Packet] and [Request], and the [Forward] packet with its
    fixed binary header ([proto.rs]).  The protobuf runtime is third-party
    code: the class [Prost] names the functions the sources call, and
    [ProstLaws] what the protobuf wire format documents of them. *)

From S2P Require Import Prelude Payload.

(** ** Addresses *)

Inductive IpAddr : Type :=
| IpV4 (a : Z)
| IpV6 (a : Z).

Record SocketAddr : Type := { sa_ip : IpAddr; sa_port : Z }.

#[export] Instance IpAddr_eq_dec : EqDecision IpAddr.
Proof. solve_decision. Defined.

#[export] Instance SocketAddr_eq_dec : EqDecision SocketAddr.
Proof. solve_decision. Defined.

#[export] Instance IpAddr_countable : Countable IpAddr.
Proof.
  refine (inj_countable'
    (fun i => match i with IpV4 a => (true, a) | IpV6 a => (false, a) end)
    (fun p => match p with (true, a) => IpV4 a | (false, a) => IpV6 a end) _).
  by intros [].
Defined.

#[export] Instance SocketAddr_countable : Countable SocketAddr.
Proof.
  refine (inj_countable' (fun s => (sa_ip s, sa_port s))
    (fun p => {| sa_ip := p.1; sa_port := p.2 |}) _).
  by intros [].
Defined.

(** ** Messages *)

Inductive StatusCode : Type :=
| Undefined | StatusOk | BadRequest | Unauthorized | NotFound | Timeout
| Conflict | PayloadTooLarge | TooManyRequests | ServerError | GatewayTimeout.

Definition StatusCode_to_i32 (c : StatusCode) : Z :=
  match c with
  | Undefined => 0 | StatusOk => 200 | BadRequest => 400 | Unauthorized => 401
  | NotFound => 404 | Timeout => 408 | Conflict => 409 | PayloadTooLarge => 413
  | TooManyRequests => 429 | ServerError => 500 | GatewayTimeout => 504
  end.

Record Identity : Type := { id_public_key : list Z; id_node_id : list Z }.

(** [protocol] is the wire value: 0 unsupported, 6 TCP, 17 UDP. *)
Record Endpoint : Type := { ep_protocol : Z; ep_address : string; ep_port : Z }.

Record ChallengeRequest : Type := {
  cq_version : string;
  cq_caps : Z;
  cq_kind : Z;
  cq_difficulty : Z;
  cq_challenge : list Z }.

Record ChallengeResponse : Type := {
  cs_solution : list Z;
  cs_signatures : list (list Z);
  cs_session_sign : list (list Z);
  cs_session_pub_key : list Z }.

Record request_Session : Type := {
  rqs_challenge_req : option ChallengeRequest;
  rqs_challenge_resp : option ChallengeResponse;
  rqs_supported_encryptions : list string;
  rqs_identities : list Identity;
  rqs_client_version : string }.

Inductive request_Kind : Type :=
| RqSession (s : request_Session)
| RqRegister (endpoints : list Endpoint)
| RqNode (node_id : list Z) (public_key : bool)
| RqSlot (slot : Z) (public_key : bool)
| RqNeighbours (count : Z) (public_key : bool)
| RqReverseConnection (node_id : list Z)
| RqPing.

Record Request : Type := { rq_request_id : Z; rq_kind : option request_Kind }.

Record response_Session : Type := {
  rss_challenge_req : option ChallengeRequest;
  rss_challenge_resp : option ChallengeResponse;
  rss_supported_encryptions : list string;
  rss_identities : list Identity }.

Record response_Node : Type := {
  rn_identities : list Identity;
  rn_endpoints : list Endpoint;
  rn_seen_ts : Z;
  rn_slot : Z;
  rn_supported_encryptions : list string;
  rn_session_pub_key : list Z;
  rn_session_key_proof : list Z;
  rn_session_key_proofs : list (list Z) }.

Inductive response_Kind : Type :=
| RsSession (s : response_Session)
| RsRegister (endpoints : list Endpoint)
| RsNode (n : response_Node)
| RsNeighbours (nodes : list response_Node)
| RsReverseConnection
| RsPong.

Record Response : Type := {
  rs_request_id : Z; rs_code : Z; rs_kind : option response_Kind }.

Inductive disconnected_By : Type :=
| BySlot (slot : Z)
| ByNodeId (node_id : list Z)
| BySessionId (session_id : list Z).

Inductive control_Kind : Type :=
| CtReverseConnection (node_id : list Z) (endpoints : list Endpoint)
| CtPauseForwarding (slot : Z)
| CtResumeForwarding (slot : Z)
| CtStopForwarding (slot : Z) (code : Z)
| CtDisconnected (by_ : option disconnected_By).

Inductive packet_Kind : Type :=
| PkRequest (r : Request)
| PkResponse (r : Response)
| PkControl (kind : option control_Kind).

Record Packet : Type := { pkt_session_id : list Z; pkt_kind : option packet_Kind }.

(** [Default] of a node response: every field empty. *)
Definition response_Node_default : response_Node :=
  {| rn_identities := []; rn_endpoints := []; rn_seen_ts := 0; rn_slot := 0;
     rn_supported_encryptions := []; rn_session_pub_key := [];
     rn_session_key_proof := []; rn_session_key_proofs := [] |}.

Definition response_Session_default : response_Session :=
  {| rss_challenge_req := None; rss_challenge_resp := None;
     rss_supported_encryptions := []; rss_identities := [] |}.

(** [impl From<T> for Request]: the id comes from the process-wide counter
    [REQUEST_ID], which the model passes and returns. *)
Definition Request_from (REQUEST_ID : Z) (kind : request_Kind) : Request * Z :=
  ({| rq_request_id := REQUEST_ID; rq_kind := Some kind |}, wrap 64 (REQUEST_ID + 1)).

Definition Packet_request (REQUEST_ID : Z) (session_id : list Z) (kind : request_Kind)
  : Packet * Z :=
  let '(r, next) := Request_from REQUEST_ID kind in
  ({| pkt_session_id := session_id; pkt_kind := Some (PkRequest r) |}, next).

Definition Packet_response (request_id : Z) (session_id : list Z) (code : StatusCode)
  (kind : response_Kind) : Packet :=
  {| pkt_session_id := session_id;
     pkt_kind := Some (PkResponse
       {| rs_request_id := request_id; rs_code := StatusCode_to_i32 code;
          rs_kind := Some kind |}) |}.

Definition Packet_error (request_id : Z) (session_id : list Z) (code : StatusCode) : Packet :=
  {| pkt_session_id := session_id;
     pkt_kind := Some (PkResponse
       {| rs_request_id := request_id; rs_code := StatusCode_to_i32 code;
          rs_kind := Some RsPong |}) |}.

Definition Packet_control (session_id : list Z) (kind : control_Kind) : Packet :=
  {| pkt_session_id := session_id; pkt_kind := Some (PkControl (Some kind)) |}.

(** The textual form of addresses: [Display] and [FromStr] of [IpAddr], and
    [FromStr] of [SocketAddr]. *)
Class IpText : Type := {
  ip_to_string : IpAddr -> string;
  ip_from_str : string -> option IpAddr;
  sock_from_str : string -> option SocketAddr }.

(** Printing an address and parsing it back gives the address. *)
Class IpTextLaws `{IpText} : Prop := {
  ip_from_to ip : ip_from_str (ip_to_string ip) = Some ip }.

(** [impl TryFrom<Endpoint> for SocketAddr]: the 32-bit port field is cut to
    16 bits. *)
Definition SocketAddr_try_from `{IpText} (endpoint : Endpoint) : option SocketAddr :=
  match ip_from_str (ep_address endpoint) with
  | Some ip => Some {| sa_ip := ip; sa_port := wrap 16 (ep_port endpoint) |}
  | None => None
  end.

(** ** Forward packets *)

Definition FORWARD_SLOT_ID : Z := 0.
Definition FORWARD_TAG : Z := 1.
Definition SESSION_ID_SIZE : Z := 16.
Definition KEY_SIZE : Z := 1.
Definition UNRELIABLE_FLAG : Z := 1.
Definition ENCRYPTED_FLAG : Z := 2.
Definition ENCRYPTION_SYNC_FLAG : Z := 4.

Definition is_direct_message (slot : Z) : bool := slot =? FORWARD_SLOT_ID.

Record Forward : Type := {
  fw_session_id : list Z;
  fw_slot : Z;
  fw_flags : Z;
  fw_payload : Payload }.

Definition Forward_header_size : Z := KEY_SIZE + SESSION_ID_SIZE + 4 + 2.

Definition Forward_new (session_id : list Z) (slot : Z) (payload : Payload) : Forward :=
  {| fw_session_id := session_id; fw_slot := slot; fw_flags := 0; fw_payload := payload |}.

Definition Forward_unreliable (session_id : list Z) (slot : Z) (payload : Payload) : Forward :=
  {| fw_session_id := session_id; fw_slot := slot; fw_flags := UNRELIABLE_FLAG;
     fw_payload := payload |}.

Definition is_reliable (f : Forward) : bool :=
  negb (Z.land (fw_flags f) UNRELIABLE_FLAG =? UNRELIABLE_FLAG).

Definition is_encrypted (f : Forward) : bool :=
  Z.land (fw_flags f) ENCRYPTED_FLAG =? ENCRYPTED_FLAG.

Definition set_flags (f : Forward) (flags : Z) : Forward :=
  {| fw_session_id := fw_session_id f; fw_slot := fw_slot f; fw_flags := flags;
     fw_payload := fw_payload f |}.

Definition set_encrypted (f : Forward) : Forward :=
  set_flags f (Z.lor (fw_flags f) ENCRYPTED_FLAG).

Definition is_encryption_sync (f : Forward) : bool :=
  Z.land (fw_flags f) ENCRYPTION_SYNC_FLAG =? ENCRYPTION_SYNC_FLAG.

Definition set_encryption_sync (f : Forward) : Forward :=
  set_flags f (Z.lor (fw_flags f) ENCRYPTION_SYNC_FLAG).

Definition Forward_encoded_len (f : Forward) : Z :=
  Forward_header_size + Payload_len (fw_payload f).

(** ** The protobuf runtime *)

(** [decode_key] returns the tag, the wire type and the rest of the buffer;
    [msg_encode]/[msg_decode] are the generated methods of the message type
    [P], with decoding errors as [None]. *)
Class Prost (P : Type) : Type := {
  encode_key : Z -> Z -> list Z;
  decode_key : list Z -> option (Z * Z * list Z);
  encode_varint : Z -> list Z;
  msg_encode : P -> list Z;
  msg_decode : list Z -> option P }.

Definition LengthDelimited : Z := 2.

(** What the protobuf encoding documents: one-byte keys and base-128 varints. *)
Class ProstKeyLaws (P : Type) `{Prost P} : Prop := {
  encode_key_short tag wt :
    1 <= tag < 16 -> 0 <= wt <= 5 -> encode_key tag wt = [tag * 8 + wt];
  decode_key_short b r :
    0 <= b < 128 ->
    decode_key (b :: r) =
      (if (1 <=? b / 8) && (b mod 8 <=? 5) then Some (b / 8, b mod 8, r) else None);
  encode_varint_last v : 0 <= v < 128 -> encode_varint v = [v];
  encode_varint_more v :
    128 <= v -> encode_varint v = (v mod 128 + 128) :: encode_varint (v / 128) }.

(** Of messages: a message decodes to itself, and (the fields of [Packet] being
    numbered 2 to 5) begins with a key byte with a field number of at least 2. *)
Class ProstLaws (P : Type) `{Prost P} : Prop := {
  prost_key_laws :: ProstKeyLaws P;
  msg_roundtrip p : msg_decode (msg_encode p) = Some p;
  msg_first_key p b r : msg_encode p = b :: r -> 2 <= b / 8 < 16 }.

(** ** An executable instance of the wire format

    Varints and one-byte keys as protobuf defines them; messages are opaque
    byte strings under a key of field 3.  It is used to evaluate the codec on
    concrete packets. *)
Module RawProst.

Fixpoint varint (fuel : nat) (v : Z) : list Z :=
  match fuel with
  | O => []
  | S fuel => if v <? 128 then [v] else (v mod 128 + 128) :: varint fuel (v / 128)
  end.

Definition key_decode (buf : list Z) : option (Z * Z * list Z) :=
  match buf with
  | b :: r =>
      if b <? 128 then
        if (1 <=? b / 8) && (b mod 8 <=? 5) then Some (b / 8, b mod 8, r) else None
      else None
  | [] => None
  end.

#[export] Instance raw : Prost (list Z) := {
  encode_key tag wt := [tag * 8 + wt];
  decode_key := key_decode;
  encode_varint v := varint (S (Z.to_nat v)) v;
  msg_encode p := 26 :: p;
  msg_decode b := match b with 26 :: p => Some p | _ => None end }.

Lemma varint_fuel f g v :
  0 <= v -> (Z.to_nat v < f)%nat -> (Z.to_nat v < g)%nat -> varint f v = varint g v.
Proof.
  revert g v. induction f as [|f IH]; intros [|g] v Hv Hf Hg; try lia. simpl.
  destruct (Z.ltb_spec v 128); [done|]. f_equal.
  apply IH; [apply Z.div_pos; lia|..]; pose proof (Z.div_lt v 128); lia.
Qed.

#[export] Instance raw_key_laws : ProstKeyLaws (list Z).
Proof.
  split; simpl.
  - done.
  - intros b r Hb. by rewrite (proj2 (Z.ltb_lt _ _)) by lia.
  - intros v Hv. by rewrite (proj2 (Z.ltb_lt _ _)) by lia.
  - intros v Hv. rewrite (proj2 (Z.ltb_ge _ _)) by lia. f_equal.
    pose proof (Z.div_lt v 128).
    change (varint (Z.to_nat v) (v / 128) = varint (S (Z.to_nat (v / 128))) (v / 128)).
    apply varint_fuel; [apply Z.div_pos; lia|lia..].
Qed.

#[export] Instance raw_laws : ProstLaws (list Z).
Proof. split; [apply _|done|]. intros p b r [= <- <-]. done. Qed.
End RawProst.
