(* ===== verification/Codec.v ===== *)
(** [crates/proto/src/codec.rs], [codec/datagram.rs] and the binary form of
    [Forward] ([proto.rs]): the datagram codec of the relay protocol.

    Buffers are byte lists; a function that consumes a [&mut BytesMut] returns
    the rest of the buffer.  [split_to], [advance] and slicing beyond the end
    of a buffer panic. *)

From S2P Require Import Prelude Payload Proto.

Definition MAX_PACKET_SIZE : Z := 2097151.
Definition MAX_PARSE_MESSAGE_SIZE : Z := 600.

(** ** Errors *)

Inductive EncodeError : Type :=
| PacketTooLong (size : Z)
| PacketNotSupported
| NoData.

Inductive DecodeError : Type :=
| PacketFormatInvalid
| PacketTooShort
| PrefixTooShort
| PrefixTooLong
| PrefixFormatInvalid
| PayloadTooShort (left_ : Z)
| PayloadTooLong (left_ : Z)
| PayloadInvalid (left_ : Z)
| DForward (left_ : Z) (bytes : list Z).

(** [codec::Error], the variants the codecs produce. *)
Inductive CodecError : Type :=
| EEncode (e : EncodeError)
| EDecode (e : DecodeError)
| EProtobufDecode
| EIo.

#[export] Instance EncodeError_eq_dec : EqDecision EncodeError.
Proof. solve_decision. Defined.

#[export] Instance DecodeError_eq_dec : EqDecision DecodeError.
Proof. solve_decision. Defined.

#[export] Instance CodecError_eq_dec : EqDecision CodecError.
Proof. solve_decision. Defined.

(** ** Packet kinds *)

Inductive PacketKind (P : Type) : Type :=
| KPacket (p : P)
| KForward (f : Forward)
| KForwardCtd (b : list Z).
Arguments KPacket {P} p.
Arguments KForward {P} f.
Arguments KForwardCtd {P} b.

Definition PacketKind_request_id (k : PacketKind Packet) : option Z :=
  match k with
  | KPacket {| pkt_kind := Some (PkResponse r) |} => Some (rs_request_id r)
  | KPacket {| pkt_kind := Some (PkRequest r) |} => Some (rq_request_id r)
  | _ => None
  end.

Definition PacketKind_session_id (k : PacketKind Packet) : list Z :=
  match k with
  | KPacket p => pkt_session_id p
  | KForward f => fw_session_id f
  | KForwardCtd _ => []
  end.

Definition is_forward {P} (k : PacketKind P) : bool :=
  match k with KPacket _ => false | KForward _ => true | KForwardCtd _ => true end.

Definition is_protocol_packet {P} (k : PacketKind P) : bool := negb (is_forward k).

(** ** Length prefixes *)

(** The field number of the first key of a payload, when it fits one byte. *)
Definition peek_tag (buf : list Z) : result (option Z) DecodeError :=
  match buf with
  | [] => Ok None
  | tag :: _ => if tag <? 128 then Ok (Some (Z.shiftr tag 3)) else Err PrefixTooLong
  end.

(** A base-128 length of at most three bytes, and how many bytes it takes. *)
Definition peek_size (buf : list Z) : result (Z * Z) DecodeError :=
  match buf !! 0%nat with
  | None => Err PrefixTooShort
  | Some b0 =>
      let part0 := b0 in
      if b0 <? 128 then Ok (part0, 1) else
      let part0 := part0 - 128 in
      match buf !! 1%nat with
      | None => Err PrefixTooShort
      | Some b1 =>
          let part0 := part0 + Z.shiftl b1 7 in
          if b1 <? 128 then Ok (part0, 2) else
          let part0 := part0 - Z.shiftl 128 7 in
          match buf !! 2%nat with
          | None => Err PrefixTooShort
          | Some b2 =>
              let part0 := part0 + Z.shiftl b2 14 in
              if b2 <? 128 then Ok (part0, 3) else Err PrefixTooLong
          end
      end
  end.

(** [BytesMut::advance] and [BytesMut::split_to]. *)
Definition advance (n : Z) (buf : list Z) : outcome (list Z) :=
  if n <=? zlen buf then Ret (zdrop n buf) else Panic.

Definition split_to (n : Z) (buf : list Z) : outcome (list Z * list Z) :=
  if n <=? zlen buf then Ret (ztake n buf, zdrop n buf) else Panic.

(** The result and the rest of the buffer. *)
Definition read_bytes_inner (buf : list Z) (total off max : Z)
  : outcome (result (option (list Z)) DecodeError * list Z) :=
  let! rest := slice off (zlen buf) buf in
  match peek_tag rest with
  | Err e => Ret (Err e, buf)
  | Ok tag =>
      let available := Z.min total (zlen buf - off) in
      let left := total - available in
      match tag with
      | Some 0 =>
          let! buf' := advance (off + available) buf in
          Ret (Err (PayloadInvalid left), buf')
      | Some 1 =>
          if off + Forward_header_size <=? zlen buf then
            let! buf' := advance off buf in
            let! (bytes, buf'') := split_to available buf' in
            Ret (Err (DForward left bytes), buf'')
          else Ret (Ok None, buf)
      | Some kind =>
          if 1 <? kind then
            if max <? total then
              let! buf' := advance (off + available) buf in
              Ret (Err (PayloadTooLong left), buf')
            else if off + total <=? zlen buf then
              let! buf' := advance off buf in
              let! (bytes, buf'') := split_to available buf' in
              Ret (Ok (Some bytes), buf'')
            else Ret (Err (PayloadTooShort left), buf)
          else Ret (Ok None, buf)
      | None => Ret (Ok None, buf)
      end
  end.

Definition read_bytes (buf : list Z) (max : Z)
  : outcome (result (option (list Z)) DecodeError * list Z) :=
  match peek_size buf with
  | Err e => Ret (Err e, buf)
  | Ok (total, off) => read_bytes_inner buf total off max
  end.

Definition read_datagram (buf : list Z)
  : outcome (result (option (list Z)) DecodeError * list Z) :=
  let total := zlen buf in
  read_bytes_inner buf total 0 total.

Section WithProst.
Context {P : Type} `{Prost P}.

(** The prefix is appended to [buf]. *)
Definition write_size (size : Z) (buf : list Z) : result (list Z) EncodeError :=
  if size =? 0 then Err NoData
  else if MAX_PACKET_SIZE <? size then Err (PacketTooLong size)
  else Ok (buf ++ encode_varint size).

(** ** Forward packets *)

Definition Forward_encode (f : Forward) (buf : list Z) : list Z :=
  let buf := buf ++ encode_key FORWARD_TAG LengthDelimited in
  let buf := buf ++ fw_session_id f in
  let buf := buf ++ be_bytes 4 (fw_slot f) in
  let buf := buf ++ be_bytes 2 (fw_flags f) in
  buf ++ Payload_as_ref (fw_payload f).

Definition Forward_decode (buf : list Z) : outcome (result Forward DecodeError) :=
  if zlen buf <? Forward_header_size then Ret (Err PacketTooShort)
  else
    match decode_key buf with
    | None => Ret (Err PacketFormatInvalid)
    | Some (tag, _, buf) =>
        if negb (tag =? FORWARD_TAG) then Ret (Err PacketFormatInvalid)
        else
          let! (session_id, buf) := split_to SESSION_ID_SIZE buf in
          let! (slot, buf) := split_to 4 buf in
          let! (flags, buf) := split_to 2 buf in
          Ret (Ok {| fw_session_id := session_id; fw_slot := be_value slot;
                     fw_flags := be_value flags; fw_payload := PBytesMut buf |})
    end.

(** ** The datagram codec *)

(** [Encoder::encode]: the item is appended to [dst]. *)
Definition datagram_encode (item : PacketKind P) (dst : list Z)
  : result (list Z) CodecError :=
  match item with
  | KPacket pkt => Ok (dst ++ msg_encode pkt)
  | KForward fwd => Ok (Forward_encode fwd dst)
  | KForwardCtd _ => Err (EEncode PacketNotSupported)
  end.

(** [Decoder::decode]: the decoded item and the rest of the source buffer. *)
Definition datagram_decode (src : list Z)
  : outcome (result (option (PacketKind P)) CodecError * list Z) :=
  let! (r, src') := read_datagram src in
  match r with
  | Ok (Some bytes) =>
      match msg_decode bytes with
      | Some p => Ret (Ok (Some (KPacket p)), src')
      | None => Ret (Err EProtobufDecode, src')
      end
  | Ok None => Ret (Err (EDecode PacketFormatInvalid), src')
  | Err (DForward left_ bytes) =>
      if left_ =? 0 then
        let! fr := Forward_decode bytes in
        match fr with
        | Ok f => Ret (Ok (Some (KForward f)), src')
        | Err e => Ret (Err (EDecode e), src')
        end
      else Ret (Err (EDecode (PayloadTooShort left_)), src')
  | Err e => Ret (Err (EDecode e), src')
  end.

End WithProst.

(** ** Lemmas *)

Lemma shiftr3 b : Z.shiftr b 3 = b / 8.
Proof. by rewrite Z.shiftr_div_pow2 by lia. Qed.

Lemma slice_full {A} (l : list A) : slice 0 (zlen l) l = Ret l.
Proof.
  unfold slice. pose proof (zlen_nonneg l).
  rewrite (proj2 (Z.leb_le _ _)), Z.leb_refl by lia. simpl.
  by rewrite zdrop_0, ztake_all by lia.
Qed.

Lemma advance_all buf : advance (0 + Z.min (zlen buf) (zlen buf - 0)) buf = Ret [].
Proof.
  unfold advance. rewrite Z.sub_0_r, Z.min_id, Z.add_0_l, Z.leb_refl.
  by rewrite zdrop_all by lia.
Qed.

Lemma split_all buf : split_to (Z.min (zlen buf) (zlen buf - 0)) buf = Ret (buf, []).
Proof.
  unfold split_to. rewrite Z.sub_0_r, Z.min_id, Z.leb_refl.
  by rewrite zdrop_all, ztake_all by lia.
Qed.

Lemma advance_0 buf : advance 0 buf = Ret buf.
Proof.
  unfold advance. pose proof (zlen_nonneg buf).
  by rewrite (proj2 (Z.leb_le _ _)) by lia.
Qed.

(** What [read_datagram] does, by the first byte of the datagram. *)
Definition read_datagram_spec (buf : list Z)
  : result (option (list Z)) DecodeError * list Z :=
  match buf with
  | [] => (Ok None, [])
  | b :: _ =>
      if 128 <=? b then (Err PrefixTooLong, buf)
      else if b / 8 =? 0 then (Err (PayloadInvalid 0), [])
      else if b / 8 =? 1 then
        if Forward_header_size <=? zlen buf then (Err (DForward 0 buf), [])
        else (Ok None, buf)
      else (Ok (Some buf), [])
  end.

Lemma read_datagram_eq buf :
  bytes_ok buf -> read_datagram buf = Ret (read_datagram_spec buf).
Proof.
  intros Hok. unfold read_datagram, read_bytes_inner. rewrite slice_full. simpl.
  destruct buf as [|b r] eqn:Eb; [done|].
  assert (0 <= b / 8) as Hb.
  { apply Forall_cons_1 in Hok as [[? ?] _]. apply Z.div_pos; lia. }
  unfold peek_tag. rewrite shiftr3. unfold read_datagram_spec. rewrite <- Eb.
  destruct (Z.ltb_spec b 128) as [|]; destruct (Z.leb_spec 128 b); try lia; [|done].
  replace (zlen buf - Z.min (zlen buf) (zlen buf - 0)) with 0 by lia.
  destruct (b / 8) as [|[p|p|]|p] eqn:Ed; simpl; [| | | |lia].
  1: by rewrite advance_all.
  3: rewrite Z.add_0_l, advance_0; simpl; rewrite split_all; simpl; by case_match_goal.
  all: rewrite Z.ltb_irrefl, Z.add_0_l, Z.leb_refl, advance_0; simpl;
    by rewrite split_all.
Qed.

(** *** Length prefixes *)

Section PrefixLemmas.
Context {P : Type} `{ProstLaws P}.

(** The three shapes of the varint of a size up to [MAX_PACKET_SIZE]. *)
Lemma encode_varint_small n : 0 <= n < 128 -> encode_varint n = [n].
Proof. apply encode_varint_last. Qed.

Lemma encode_varint_two n :
  128 <= n < 16384 -> encode_varint n = [n mod 128 + 128; n / 128].
Proof.
  intros. rewrite encode_varint_more, encode_varint_last; [done|dlia|lia].
Qed.

Lemma encode_varint_three n :
  16384 <= n <= MAX_PACKET_SIZE ->
  encode_varint n = [n mod 128 + 128; n / 128 mod 128 + 128; n / 16384].
Proof.
  unfold MAX_PACKET_SIZE. intros. rewrite encode_varint_more by lia.
  rewrite encode_varint_more, encode_varint_last by dlia.
  by rewrite Z.div_div by lia.
Qed.

Lemma peek_size_encode_varint n rest :
  0 <= n <= MAX_PACKET_SIZE ->
  peek_size (encode_varint n ++ rest) = Ok (n, zlen (encode_varint n)).
Proof.
  intros Hn. destruct (decide (n < 128)); [|destruct (decide (n < 16384))].
  - rewrite encode_varint_small by lia. unfold peek_size. simpl.
    by destruct (Z.ltb_spec n 128); [|lia].
  - rewrite encode_varint_two by lia. unfold peek_size. simpl.
    rewrite (proj2 (Z.ltb_ge _ _)), (proj2 (Z.ltb_lt _ _)) by dlia.
    rewrite Z.shiftl_mul_pow2 by lia. change (2 ^ 7) with 128.
    do 2 f_equal; dlia.
  - rewrite encode_varint_three by lia. unfold MAX_PACKET_SIZE in Hn.
    unfold peek_size. simpl.
    rewrite (proj2 (Z.ltb_ge _ _)), (proj2 (Z.ltb_ge _ _)), (proj2 (Z.ltb_lt _ _)) by dlia.
    rewrite !Z.shiftl_mul_pow2 by lia. change (2 ^ 7) with 128. change (2 ^ 14) with 16384.
    do 2 f_equal; dlia.
Qed.
End PrefixLemmas.

Lemma peek_size_bounds buf n k :
  bytes_ok buf -> peek_size buf = Ok (n, k) ->
  0 <= n <= MAX_PACKET_SIZE /\ 1 <= k <= 3 /\ k <= zlen buf.
Proof.
  unfold peek_size, MAX_PACKET_SIZE. intros Hok Hp.
  destruct buf as [|b0 buf]; simpl in Hp; [done|].
  apply Forall_cons_1 in Hok as [Hb0 Hok]. unfold is_byte in Hb0.
  rewrite zlen_cons. pose proof (zlen_nonneg buf).
  destruct (Z.ltb_spec b0 128); [simplify_eq; lia|].
  destruct buf as [|b1 buf]; simpl in Hp; [done|].
  apply Forall_cons_1 in Hok as [Hb1 Hok]. unfold is_byte in Hb1.
  rewrite !Z.shiftl_mul_pow2 in Hp by lia.
  change (2 ^ 7) with 128 in Hp. change (2 ^ 14) with 16384 in Hp.
  rewrite zlen_cons in *. pose proof (zlen_nonneg buf).
  destruct (Z.ltb_spec b1 128); [simplify_eq; lia|].
  destruct buf as [|b2 buf]; simpl in Hp; [done|].
  apply Forall_cons_1 in Hok as [Hb2 _]. unfold is_byte in Hb2.
  rewrite Z.shiftl_mul_pow2 in Hp by lia. change (2 ^ 14) with 16384 in Hp.
  rewrite zlen_cons in *. pose proof (zlen_nonneg buf).
  destruct (Z.ltb_spec b2 128); [simplify_eq; lia|done].
Qed.

(** *** Forward packets *)

(** The ranges the Rust types give the fields of a [Forward]. *)
Definition Forward_wf (f : Forward) : Prop :=
  zlen (fw_session_id f) = SESSION_ID_SIZE /\ bytes_ok (fw_session_id f) /\
  in_width 32 (fw_slot f) /\ in_width 16 (fw_flags f) /\
  bytes_ok (Payload_as_ref (fw_payload f)).

(** The packet as the receiver sees it: same fields, payload in a [BytesMut]. *)
Definition Forward_received (f : Forward) : Forward :=
  {| fw_session_id := fw_session_id f; fw_slot := fw_slot f; fw_flags := fw_flags f;
     fw_payload := PBytesMut (Payload_as_ref (fw_payload f)) |}.

Lemma split_to_app n l1 l2 : n = zlen l1 -> split_to n (l1 ++ l2) = Ret (l1, l2).
Proof.
  intros ->. unfold split_to. rewrite zlen_app. pose proof (zlen_nonneg l2).
  rewrite (proj2 (Z.leb_le _ _)) by lia.
  by rewrite ztake_app_exact, zdrop_app_exact.
Qed.

Lemma split_to_le n l : n <= zlen l -> split_to n l = Ret (ztake n l, zdrop n l).
Proof. intros. unfold split_to. by rewrite (proj2 (Z.leb_le _ _)). Qed.

Section ForwardLemmas.
Context {P : Type} `{ProstKeyLaws P}.

(** The bytes of an encoded packet: the key byte, then the fixed header. *)
Lemma Forward_encode_eq f buf :
  Forward_encode f buf =
  buf ++ 10 :: fw_session_id f ++ be_bytes 4 (fw_slot f) ++ be_bytes 2 (fw_flags f)
      ++ Payload_as_ref (fw_payload f).
Proof.
  unfold Forward_encode, FORWARD_TAG, LengthDelimited.
  rewrite encode_key_short by lia. by rewrite <- !app_assoc.
Qed.

Lemma zlen_Forward_encode f :
  zlen (fw_session_id f) = SESSION_ID_SIZE ->
  zlen (Forward_encode f []) = Forward_encoded_len f.
Proof.
  intros Hs. rewrite Forward_encode_eq, app_nil_l.
  unfold Forward_encoded_len. rewrite Payload_len_as_ref.
  rewrite zlen_cons, !zlen_app, Hs, !zlen_be_bytes.
  unfold Forward_header_size, KEY_SIZE. lia.
Qed.

(** A buffer with a one-byte key and room for the header never panics. *)
Lemma Forward_decode_short b r :
  0 <= b < 128 -> Forward_header_size <= zlen (b :: r) ->
  Forward_decode (b :: r) =
    Ret (if (b / 8 =? 1) && (b mod 8 <=? 5) then
           Ok {| fw_session_id := ztake 16 r; fw_slot := be_value (ztake 4 (zdrop 16 r));
                 fw_flags := be_value (ztake 2 (zdrop 20 r));
                 fw_payload := PBytesMut (zdrop 22 r) |}
         else Err PacketFormatInvalid).
Proof.
  unfold Forward_header_size, KEY_SIZE, SESSION_ID_SIZE. intros Hb Hl.
  unfold Forward_decode, FORWARD_TAG, SESSION_ID_SIZE.
  rewrite (proj2 (Z.ltb_ge _ _)) by done. rewrite zlen_cons in Hl.
  rewrite decode_key_short by done.
  destruct (Z.eqb_spec (b / 8) 1) as [->|]; simpl; destruct (Z.leb_spec (b mod 8) 5); simpl.
  - rewrite split_to_le by lia. simpl.
    rewrite split_to_le by (rewrite zlen_zdrop; lia). simpl.
    rewrite !zdrop_zdrop by lia.
    rewrite split_to_le by (rewrite zlen_zdrop; lia). simpl.
    by rewrite !zdrop_zdrop by lia.
  - done.
  - destruct (1 <=? b / 8); simpl; [|done]. by destruct (Z.eqb_spec (b / 8) 1).
  - destruct (1 <=? b / 8); done.
Qed.

Lemma Forward_decode_encode f :
  Forward_wf f -> Forward_decode (Forward_encode f []) = Ret (Ok (Forward_received f)).
Proof.
  intros (Hs & _ & Hslot & Hfl & _). pose proof (zlen_Forward_encode f Hs) as Hl.
  rewrite Forward_encode_eq, app_nil_l in *.
  rewrite Forward_decode_short; [|lia|].
  2: { rewrite Hl. unfold Forward_encoded_len. rewrite Payload_len_as_ref.
       pose proof (zlen_nonneg (Payload_as_ref (fw_payload f))). lia. }
  change ((10 / 8 =? 1) && (10 mod 8 <=? 5)) with true. cbv iota.
  unfold Forward_received, SESSION_ID_SIZE in *. do 2 f_equal.
  rewrite ztake_app_exact by done. rewrite (zdrop_app_exact 16) by done.
  rewrite ztake_app_exact by by rewrite zlen_be_bytes.
  rewrite be_value_bytes_id by done.
  replace (zdrop 20) with (fun l : list Z => zdrop (16 + 4) l) by done.
  replace (zdrop 22) with (fun l : list Z => zdrop (16 + 6) l) by done.
  rewrite <- !(zdrop_zdrop _ 16), !(zdrop_app_exact 16) by done.
  rewrite (zdrop_app_exact 4) by by rewrite zlen_be_bytes.
  rewrite ztake_app_exact by by rewrite zlen_be_bytes.
  rewrite be_value_bytes_id by done. do 2 f_equal.
Qed.

(** On any byte string the decoder returns: nothing it slices is out of range. *)
Lemma datagram_decode_returns (src : list Z) :
  bytes_ok src -> exists r rest, datagram_decode (P := P) src = Ret (r, rest).
Proof.
  intros Hok. unfold datagram_decode. rewrite read_datagram_eq by done. simpl.
  destruct src as [|b src]; [by do 2 eexists|]. unfold read_datagram_spec.
  destruct (Z.leb_spec 128 b); [by do 2 eexists|].
  destruct (b / 8 =? 0); [by do 2 eexists|].
  destruct (b / 8 =? 1).
  - destruct (Z.leb_spec Forward_header_size (zlen (b :: src))); [|by do 2 eexists].
    simpl. rewrite Forward_decode_short; [|apply Forall_cons_1 in Hok as [[]]; lia|done].
    simpl. case_match_goal; by do 2 eexists.
  - case_match_goal; by do 2 eexists.
Qed.

(** An encoded forward packet decodes to what the receiver sees. *)
Lemma datagram_decode_forward f :
  Forward_wf f ->
  datagram_decode (Forward_encode f []) = Ret (Ok (Some (KForward (Forward_received f))), []).
Proof.
  intros Hwf. pose proof (Forward_decode_encode f Hwf) as Hd.
  destruct Hwf as (Hs & Hsb & ? & ? & Hpb).
  pose proof (zlen_Forward_encode f Hs) as Hl.
  rewrite Forward_encode_eq, app_nil_l in *.
  unfold datagram_decode. rewrite read_datagram_eq.
  2: { constructor; [unfold is_byte; lia|]. repeat (apply Forall_app; split);
       [done|apply be_bytes_ok|apply be_bytes_ok|done]. }
  unfold read_datagram_spec.
  change (128 <=? 10) with false. change (10 / 8 =? 0) with false.
  change (10 / 8 =? 1) with true. cbv iota.
  rewrite (proj2 (Z.leb_le _ _)).
  2: { rewrite Hl. unfold Forward_encoded_len. rewrite Payload_len_as_ref.
       pose proof (zlen_nonneg (Payload_as_ref (fw_payload f))). lia. }
  cbn [outcome_bind]. rewrite Z.eqb_refl. by rewrite Hd.
Qed.
End ForwardLemmas.

(** *** The datagram codec *)

Section DatagramLemmas.
Context {P : Type} `{ProstLaws P}.

Lemma datagram_decode_packet (p : P) :
  bytes_ok (msg_encode p) -> msg_encode p <> [] ->
  datagram_decode (msg_encode p) = Ret (Ok (Some (KPacket p)), []).
Proof.
  intros Hok Hne. unfold datagram_decode. rewrite read_datagram_eq by done.
  destruct (msg_encode p) as [|b r] eqn:E; [done|].
  pose proof (msg_first_key p b r E) as Hk. unfold read_datagram_spec.
  rewrite (proj2 (Z.leb_gt _ _)), (proj2 (Z.eqb_neq _ _)), (proj2 (Z.eqb_neq _ _)) by dlia.
  simpl. by rewrite <- E, msg_roundtrip.
Qed.

(** The bytes of an accepted forward datagram, but for the ignored wire type
    of the key, are the encoding of the decoded packet. *)
Lemma datagram_decode_forward_inv src f rest :
  bytes_ok src ->
  datagram_decode (P := P) src = Ret (Ok (Some (KForward f)), rest) ->
  Forward_wf f /\ rest = [] /\
  exists k, 8 <= k <= 13 /\ src = k :: tail (Forward_encode f []).
Proof.
  intros Hok Hd. unfold datagram_decode in Hd. rewrite read_datagram_eq in Hd by done.
  destruct src as [|b r]; [done|]. pose proof Hok as Hok'.
  apply Forall_cons_1 in Hok' as [Hb Hr]. unfold is_byte in Hb.
  unfold read_datagram_spec in Hd.
  destruct (Z.leb_spec 128 b); [done|].
  destruct (b / 8 =? 0) eqn:E0; [done|].
  destruct (b / 8 =? 1) eqn:E1; [|simpl in Hd; by case_match].
  destruct (Z.leb_spec Forward_header_size (zlen (b :: r))) as [Hl|]; [|done].
  simpl in Hd. rewrite Forward_decode_short in Hd by (done || lia).
  rewrite E1 in Hd. simpl in Hd.
  destruct (Z.leb_spec (b mod 8) 5); [|done]. simpl in Hd. simplify_eq.
  apply Z.eqb_eq in E1.
  unfold Forward_header_size, KEY_SIZE, SESSION_ID_SIZE in Hl. rewrite zlen_cons in Hl.
  assert (forall n m, 0 <= n -> 0 <= m -> n + m <= zlen r ->
    bytes_ok (ztake m (zdrop n r)) /\ zlen (ztake m (zdrop n r)) = m) as Hsub.
  { intros n m ? ? ?. split; [by apply Forall_take, Forall_drop|].
    rewrite zlen_ztake, zlen_zdrop by lia. lia. }
  destruct (Hsub 0 16) as [Hb16 Hl16]; [lia..|].
  destruct (Hsub 16 4) as [Hb4 Hl4]; [lia..|].
  destruct (Hsub 20 2) as [Hb2 Hl2]; [lia..|].
  rewrite zdrop_0 in *.
  pose proof (be_value_bound _ Hb4) as Hv4. pose proof (be_value_bound _ Hb2) as Hv2.
  rewrite Hl4 in Hv4. rewrite Hl2 in Hv2.
  split; [repeat split; simpl; unfold in_width; try (done || lia); by apply Forall_drop|].
  split; [done|]. exists b. split; [dlia|].
  rewrite Forward_encode_eq, app_nil_l.
  cbn [tl fw_session_id fw_slot fw_flags fw_payload Payload_as_ref]. f_equal.
  replace 4%nat with (length (ztake 4 (zdrop 16 r))) by (unfold zlen in Hl4; lia).
  replace 2%nat with (length (ztake 2 (zdrop 20 r))) by (unfold zlen in Hl2; lia).
  rewrite !be_bytes_value by done.
  replace (zdrop 22 r) with (zdrop 2 (zdrop 20 r)) by (by rewrite zdrop_zdrop).
  rewrite ztake_zdrop.
  replace (zdrop 20 r) with (zdrop 4 (zdrop 16 r)) by (by rewrite zdrop_zdrop).
  by rewrite ztake_zdrop, ztake_zdrop.
Qed.
End DatagramLemmas.

(** ** Properties *)

Section Properties.
Context {P : Type} `{ProstLaws P}.

(** C32: the datagram codec round-trips.  A forward packet whose fields are in
    the ranges of their Rust types is decoded to itself and consumes the whole
    datagram; so is a protobuf packet with a non-empty encoding, while one
    whose encoding is empty (all fields default) is refused as malformed; a
    continuation chunk cannot be sent as a datagram. *)
Theorem datagram_roundtrip (item : PacketKind P) :
  match item with
  | KForward f =>
      Forward_wf f ->
      exists bs, datagram_encode item [] = Ok bs /\
        datagram_decode bs = Ret (Ok (Some (KForward (Forward_received f))), [])
  | KPacket p =>
      bytes_ok (msg_encode p) ->
      exists bs, datagram_encode item [] = Ok bs /\
        datagram_decode bs =
          (if bool_decide (bs = []) then Ret (Err (EDecode PacketFormatInvalid), [])
           else Ret (Ok (Some (KPacket p)), []))
  | KForwardCtd _ => datagram_encode item [] = Err (EEncode PacketNotSupported)
  end.
Proof.
  destruct item as [p|f|b]; [| |done].
  - intros Hok. exists (msg_encode p). split; [done|]. case_bool_decide as Hne.
    + by rewrite Hne.
    + by apply datagram_decode_packet.
  - intros Hwf. eexists. split; [done|]. by apply datagram_decode_forward.
Qed.

(** decoding an arbitrary datagram never panics, and whatever forward
    packet it accepts has in-range fields and is, but for the wire-type bits of
    the key byte, exactly the byte string that encoding the packet produces. *)
Theorem datagram_decode_safe (src : list Z) :
  bytes_ok src ->
  exists r rest, datagram_decode (P := P) src = Ret (r, rest) /\
    (forall f, r = Ok (Some (KForward f)) ->
      Forward_wf f /\ rest = [] /\
      exists k, 8 <= k <= 13 /\ src = k :: tail (Forward_encode f [])).
Proof.
  intros Hok. destruct (datagram_decode_returns (P := P) src Hok) as (r & rest & Hd).
  exists r, rest. split; [done|]. intros f ->.
  by apply datagram_decode_forward_inv.
Qed.

(** The length prefix of the stream codec.  A size of 0 and a size above
    2097151 are refused; any other size is written as at most three bytes that
    [peek_size] reads back, whatever follows. *)
Theorem size_prefix_roundtrip (size : Z) (buf rest : list Z) :
  0 <= size ->
  match write_size size buf with
  | Err e => (size = 0 /\ e = NoData) \/ (MAX_PACKET_SIZE < size /\ e = PacketTooLong size)
  | Ok buf' =>
      0 < size <= MAX_PACKET_SIZE /\
      exists pre, buf' = buf ++ pre /\ zlen pre <= 3 /\ peek_size (pre ++ rest) = Ok (size, zlen pre)
  end.
Proof.
  intros Hs. unfold write_size. destruct (Z.eqb_spec size 0); [by left|].
  destruct (Z.ltb_spec MAX_PACKET_SIZE size); [by right|].
  split; [lia|]. exists (encode_varint size). split; [done|].
  rewrite peek_size_encode_varint by lia. split; [|done].
  destruct (decide (size < 128)); [|destruct (decide (size < 16384))].
  - by rewrite encode_varint_small by lia.
  - by rewrite encode_varint_two by lia.
  - by rewrite encode_varint_three by lia.
Qed.

End Properties.

(** *** Witnesses *)

Import RawProst.

Definition sample_forward : Forward :=
  {| fw_session_id := replicate 16 15; fw_slot := 42; fw_flags := 3;
     fw_payload := PVec [1; 2; 3] |}.

Lemma datagram_roundtrip_witness :
  exists bs, datagram_encode (KForward sample_forward) [] = Ok bs /\
    datagram_decode (P := list Z) bs =
      Ret (Ok (Some (KForward (Forward_received sample_forward))), []).
Proof.
  apply (datagram_roundtrip (P := list Z) (KForward sample_forward)).
  unfold Forward_wf, in_width. simpl.
  repeat split; try lia; apply (bool_decide_unpack _); vm_compute; exact I.
Defined.

Lemma datagram_decode_safe_witness :
  exists r rest, datagram_decode (P := list Z) (14 :: replicate 30 7) = Ret (r, rest) /\
    (forall f, r = Ok (Some (KForward f)) ->
      Forward_wf f /\ rest = [] /\
      exists k, 8 <= k <= 13 /\
        14 :: replicate 30 7 = k :: tail (Forward_encode (P := list Z) f [])).
Proof.
  apply (datagram_decode_safe (P := list Z)).
  apply (bool_decide_unpack _). vm_compute. exact I.
Defined.

Lemma size_prefix_roundtrip_witness :
  match write_size (P := list Z) 624485 [] with
  | Err e =>
      (624485 = 0 /\ e = NoData) \/ (MAX_PACKET_SIZE < 624485 /\ e = PacketTooLong 624485)
  | Ok buf' =>
      0 < 624485 <= MAX_PACKET_SIZE /\
      exists pre, buf' = [] ++ pre /\ zlen pre <= 3 /\
        peek_size (pre ++ [7]) = Ok (624485, zlen pre)
  end.
Proof. apply (size_prefix_roundtrip (P := list Z) 624485 [] [7]). lia. Defined.
