(* ===== verification/Framing.v ===== *)
(** [crates/proto/src/codec/forward.rs]: the 4-byte length prefix put around
    the messages of a reliable channel, and the stream adapter that cuts them
    out of an arbitrarily chunked byte stream again.

    The inner stream is the list of results its successive polls give; a list
    that has run out stays pending. *)

From S2P Require Import Prelude Payload.

Definition PREFIX_SIZE : Z := 4.

(** [encode]: the length is cut to 32 bits. *)
Definition frame_encode (data : Payload) : outcome Payload :=
  let len := wrap 32 (Payload_len data) in
  let! payload := Payload_reserve data PREFIX_SIZE in
  Payload_prepend payload (be_bytes 4 len).

(** [decode]: the message and the rest of the buffer, or [None] when the
    buffer (left untouched) does not hold a whole message. *)
Definition frame_decode (buf : list Z) : option (list Z * list Z) :=
  if zlen buf <? PREFIX_SIZE then None
  else
    let length := be_value (ztake PREFIX_SIZE buf) in
    let prefixed_length := PREFIX_SIZE + length in
    if prefixed_length <=? zlen buf then
      let buf := zdrop PREFIX_SIZE buf in
      Some (ztake length buf, zdrop length buf)
    else None.

(** ** Sinks: what has been handed to the inner sink *)

Inductive SinkKind : Type :=
| SkSink (sent : list Payload)
| SkPrefixed (sent : list Payload).

Definition PrefixedSink_start_send (sent : list Payload) (item : Payload)
  : outcome (list Payload) :=
  let! dst := frame_encode item in Ret (sent ++ [dst]).

Definition SinkKind_start_send (s : SinkKind) (item : Payload) : outcome SinkKind :=
  match s with
  | SkSink sent => Ret (SkSink (sent ++ [item]))
  | SkPrefixed sent =>
      let! sent' := PrefixedSink_start_send sent item in Ret (SkPrefixed sent')
  end.

(** ** The stream adapter *)

Inductive inner_poll : Type :=
| SPayload (p : Payload)
| SEnd
| SPending.

Inductive poll_item : Type :=
| PReady (bytes : list Z)
| PEnd
| PPending.

Definition try_frame (buf : list Z) : option (list Z * list Z) :=
  if bool_decide (buf = []) then None else frame_decode buf.

(** [PrefixedStream::poll_next]: the item, the buffer and the inner stream
    after the poll.  The tail call of the source is the recursive call. *)
Fixpoint PrefixedStream_poll_next (buf : list Z) (stream : list inner_poll)
  : poll_item * list Z * list inner_poll :=
  match try_frame buf with
  | Some (bytes, buf') => (PReady bytes, buf', stream)
  | None =>
      match stream with
      | SPayload payload :: stream' =>
          if Payload_is_empty payload then (PEnd, buf, stream')
          else PrefixedStream_poll_next (buf ++ Payload_into_vec payload) stream'
      | SEnd :: stream' => (PEnd, buf, stream')
      | SPending :: stream' => (PPending, buf, stream')
      | [] => (PPending, buf, [])
      end
  end.

(** Polling until the stream ends, at most [fuel] times: the items received. *)
Fixpoint drain (fuel : nat) (buf : list Z) (stream : list inner_poll)
  : option (list (list Z)) :=
  match fuel with
  | O => None
  | S fuel =>
      match PrefixedStream_poll_next buf stream with
      | (PReady m, buf', stream') => (fun ms => m :: ms) <$> drain fuel buf' stream'
      | (PPending, buf', stream') => drain fuel buf' stream'
      | (PEnd, _, _) => Some []
      end
  end.

(** ** Lemmas *)

(** The bytes one message takes on the wire. *)
Definition frame (m : list Z) : list Z := be_bytes 4 (zlen m) ++ m.

Definition frames (ms : list (list Z)) : list Z := concat (map frame ms).

Definition message_ok (m : list Z) : Prop := zlen m < 2 ^ 32.

Lemma frame_encode_as_ref p :
  message_ok (Payload_as_ref p) ->
  exists q, frame_encode p = Ret q /\ Payload_as_ref q = frame (Payload_as_ref p).
Proof.
  intros Hm. unfold frame_encode, frame. rewrite Payload_len_as_ref.
  rewrite wrap_small by (split; [apply zlen_nonneg|done]).
  destruct (Payload_reserve_as_ref p PREFIX_SIZE) as (q & -> & <-). simpl.
  apply Payload_prepend_as_ref.
Qed.

Lemma frame_decode_frame m rest :
  message_ok m -> frame_decode (frame m ++ rest) = Some (m, rest).
Proof.
  intros Hm. unfold frame_decode, frame. pose proof (zlen_nonneg m).
  pose proof (zlen_nonneg rest). rewrite <- app_assoc.
  rewrite ztake_app_exact, zdrop_app_exact by by rewrite zlen_be_bytes.
  rewrite be_value_bytes_id by (split; done).
  rewrite ztake_app_exact, zdrop_app_exact by done.
  rewrite !zlen_app, zlen_be_bytes. unfold PREFIX_SIZE.
  by rewrite (proj2 (Z.ltb_ge _ _)), (proj2 (Z.leb_le _ _)) by lia.
Qed.

(** More bytes do not change a message that is already complete. *)
Lemma frame_decode_app buf x m r :
  bytes_ok buf ->
  frame_decode buf = Some (m, r) -> frame_decode (buf ++ x) = Some (m, r ++ x).
Proof.
  unfold frame_decode, PREFIX_SIZE. intros Hok Hd. pose proof (zlen_nonneg x).
  destruct (Z.ltb_spec (zlen buf) 4); [done|].
  rewrite zlen_app, ztake_app_le, zdrop_app_le by lia.
  pose proof (be_value_bound (ztake 4 buf) ltac:(by apply Forall_take)).
  destruct (Z.leb_spec (4 + be_value (ztake 4 buf)) (zlen buf)); [|done]. simplify_eq.
  rewrite (proj2 (Z.ltb_ge _ _)), (proj2 (Z.leb_le _ _)) by lia.
  by rewrite ztake_app_le, zdrop_app_le by (rewrite zlen_zdrop; lia).
Qed.

Lemma frames_cons m ms : frames (m :: ms) = frame m ++ frames ms.
Proof. done. Qed.

Lemma frame_nonempty m : frame m <> [].
Proof. done. Qed.

(** What a well-behaved inner stream delivers: chunks that are not empty and
    pending polls, then the end. *)
Definition chunk_ok (e : inner_poll) : Prop :=
  match e with
  | SPayload p => Payload_as_ref p <> [] /\ bytes_ok (Payload_as_ref p)
  | SPending => True
  | SEnd => False
  end.

Definition chunk_bytes (e : inner_poll) : list Z :=
  match e with SPayload p => Payload_as_ref p | _ => [] end.

Definition stream_bytes (es : list inner_poll) : list Z := concat (map chunk_bytes es).

Lemma try_frame_some buf rest m ms :
  bytes_ok buf -> message_ok m -> buf ++ rest = frames (m :: ms) ->
  forall m' r, try_frame buf = Some (m', r) -> m' = m /\ r ++ rest = frames ms.
Proof.
  intros Hok Hm Heq m' r Ht. unfold try_frame in Ht. case_bool_decide; [done|].
  apply (frame_decode_app _ rest) in Ht; [|done].
  rewrite Heq, frames_cons, frame_decode_frame in Ht by done. by simplify_eq.
Qed.

Lemma try_frame_bytes_ok buf m r :
  bytes_ok buf -> try_frame buf = Some (m, r) -> bytes_ok r.
Proof.
  intros Hok Ht. unfold try_frame in Ht. case_bool_decide; [done|].
  unfold frame_decode in Ht. repeat case_match; try done. simplify_eq.
  apply Forall_drop, Forall_drop, Hok.
Qed.

Lemma try_frame_complete m ms : message_ok m -> try_frame (frames (m :: ms)) <> None.
Proof.
  intros Hm. unfold try_frame. rewrite frames_cons. case_bool_decide as Hc; [done|].
  by rewrite frame_decode_frame.
Qed.

(** One poll: the next message, or the pending poll that stands before it, or
    the end when all messages have been delivered. *)
Lemma poll_next_step buf es ms :
  bytes_ok buf -> Forall chunk_ok es -> Forall message_ok ms ->
  buf ++ stream_bytes es = frames ms ->
  match PrefixedStream_poll_next buf (es ++ [SEnd]) with
  | (PReady m, buf', st') =>
      exists es' ms', st' = es' ++ [SEnd] /\ ms = m :: ms' /\ bytes_ok buf' /\
        Forall chunk_ok es' /\ (length es' <= length es)%nat /\
        buf' ++ stream_bytes es' = frames ms'
  | (PPending, buf', st') =>
      exists es', st' = es' ++ [SEnd] /\ bytes_ok buf' /\ Forall chunk_ok es' /\
        (length es' < length es)%nat /\ buf' ++ stream_bytes es' = frames ms
  | (PEnd, _, _) => ms = []
  end.
Proof.
  revert buf. induction es as [|e es IH]; intros buf Hok Hes Hms Heq;
    (destruct (try_frame buf) as [[m r]|] eqn:Et;
     [destruct ms as [|m0 ms];
       [apply app_eq_nil in Heq as [-> _]; done|];
      apply Forall_cons_1 in Hms as [Hm Hms];
      destruct (try_frame_some _ _ _ _ Hok Hm Heq _ _ Et) as [-> Hr]|]).
  - simpl. rewrite Et. exists [], ms. repeat split; try done.
    by eapply try_frame_bytes_ok.
  - simpl. rewrite Et. destruct ms as [|m ms]; [done|]. exfalso.
    unfold stream_bytes in Heq. simpl in Heq. rewrite app_nil_r in Heq. subst buf.
    apply Forall_cons_1 in Hms as [Hm _]. by apply (try_frame_complete m ms Hm).
  - simpl. rewrite Et. exists (e :: es), ms. repeat split; try done.
    by eapply try_frame_bytes_ok.
  - apply Forall_cons_1 in Hes as [He Hes]. simpl. rewrite Et.
    destruct e as [p| |]; simpl in He; [|done|].
    + rewrite Payload_is_empty_as_ref, bool_decide_eq_false_2 by apply He.
      assert (Payload_into_vec p = Payload_as_ref p) as -> by by destruct p.
      assert (bytes_ok (buf ++ Payload_as_ref p)) as Hok'
        by (apply Forall_app; split; [done|apply He]).
      assert ((buf ++ Payload_as_ref p) ++ stream_bytes es = frames ms) as Heq'
        by (by rewrite <- app_assoc).
      specialize (IH _ Hok' Hes Hms Heq').
      destruct (PrefixedStream_poll_next _ _) as [[[m| |] buf'] st']; [| |].
      * destruct IH as (es' & ms' & ? & ? & ? & ? & ? & ?). exists es', ms'.
        repeat split; try done. simpl. lia.
      * done.
      * destruct IH as (es' & ? & ? & ? & ? & ?). exists es'.
        repeat split; try done. simpl. lia.
    + exists es. repeat split; try done. simpl. lia.
Qed.

Lemma drain_frames fuel buf es ms :
  bytes_ok buf -> Forall chunk_ok es -> Forall message_ok ms ->
  buf ++ stream_bytes es = frames ms ->
  (length ms + length es < fuel)%nat ->
  drain fuel buf (es ++ [SEnd]) = Some ms.
Proof.
  revert buf es ms. induction fuel as [|fuel IH]; intros buf es ms Hok Hes Hms Heq Hf; [lia|].
  simpl. pose proof (poll_next_step buf es ms Hok Hes Hms Heq) as Hs.
  destruct (PrefixedStream_poll_next _ _) as [[[m| |] buf'] st'].
  - destruct Hs as (es' & ms' & -> & -> & ? & ? & ? & ?).
    apply Forall_cons_1 in Hms as [_ Hms]. simpl in Hf.
    by rewrite (IH buf' es' ms') by (done || lia).
  - by subst.
  - destruct Hs as (es' & -> & ? & ? & ? & ?). apply IH; (done || lia).
Qed.

(** ** Properties *)

(** framing is independent of how the transport cuts the bytes.  Whatever
    non-empty chunks, with pending polls between them, carry the frames of a
    list of messages (each shorter than 2^32 bytes, sent through a prefixed
    sink), draining the adapter returns exactly these messages and ends, after
    at most one poll per message and per inner event. *)
Theorem prefixed_stream_reassembles (items : list Payload) (es : list inner_poll) :
  Forall (fun p => message_ok (Payload_as_ref p)) items ->
  Forall chunk_ok es ->
  exists sent,
    foldl (fun acc p => let! s := acc in PrefixedSink_start_send s p) (Ret []) items
      = Ret sent /\
    (stream_bytes es = concat (map Payload_as_ref sent) ->
     drain (S (length items + length es)) [] (es ++ [SEnd])
       = Some (map Payload_as_ref items)).
Proof.
  intros Hit Hes.
  assert (forall s0, exists sent,
    foldl (fun acc p => let! s := acc in PrefixedSink_start_send s p) (Ret s0) items
      = Ret (s0 ++ sent) /\
    concat (map Payload_as_ref sent) = frames (map Payload_as_ref items)) as Hsent.
  { induction Hit as [|p items Hp _ IH]; intros s0; simpl.
    - exists []. by rewrite app_nil_r.
    - destruct (frame_encode_as_ref p Hp) as (q & Hq & Hqr).
      unfold PrefixedSink_start_send at 2. rewrite Hq. simpl.
      destruct (IH (s0 ++ [q])) as (sent & -> & Hc). exists (q :: sent).
      rewrite <- app_assoc. split; [done|]. simpl. by rewrite Hqr, Hc. }
  destruct (Hsent []) as (sent & Hf & Hc). exists sent. split; [done|].
  intros Hb. apply drain_frames; [by apply Forall_nil|done|by apply Forall_map|by rewrite app_nil_l, Hb|].
  rewrite length_map. lia.
Qed.

Lemma prefixed_stream_reassembles_witness :
  drain 7 [] ([SPayload (PVec [0; 0; 0]); SPending; SPayload (PBytes [2; 7; 8; 0]);
               SPayload (PVec [0; 0; 0])] ++ [SEnd]) = Some [[7; 8]; []].
Proof.
  destruct (prefixed_stream_reassembles [PVec [7; 8]; PBytesMut []]
    [SPayload (PVec [0; 0; 0]); SPending; SPayload (PBytes [2; 7; 8; 0]);
     SPayload (PVec [0; 0; 0])]) as (sent & Hs & Hd).
  - repeat constructor.
  - repeat constructor; (discriminate || (unfold is_byte; lia)).
  - vm_compute in Hs. injection Hs as <-. exact (Hd eq_refl).
Defined.
