(* ===== verification/StreamCodec.v ===== *)
(** [crates/proto/src/codec/stream.rs]: packets over a byte stream.  Every
    packet is preceded by its length; the decoder is a state machine over the
    chunks of the inner stream, which hands the payload of a forward packet on
    as it arrives and skips packets it will not parse. *)

From S2P Require Import Prelude Payload Proto Codec.

Section WithProst.
Context {P : Type} `{Prost P}.

(** ** Encoding *)

(** The length is cut to 32 bits before its range is checked. *)
Definition reserve_and_encode (dst : list Z) (len : Z) : result (list Z) EncodeError :=
  write_size (wrap 32 len) dst.

(** [EncoderSink::start_send]: the bytes handed to the inner sink. *)
Definition EncoderSink_start_send (item : PacketKind P) : result (list Z) EncodeError :=
  match item with
  | KPacket pkt =>
      let? dst := reserve_and_encode [] (zlen (msg_encode pkt)) in
      Ok (dst ++ msg_encode pkt)
  | KForward fwd =>
      let? dst := reserve_and_encode [] (Forward_encoded_len fwd) in
      Ok (Forward_encode fwd dst)
  | KForwardCtd buf => Ok buf
  end.

(** Sending several packets: all the bytes written. *)
Fixpoint send_all (items : list (PacketKind P)) : result (list Z) EncodeError :=
  match items with
  | [] => Ok []
  | it :: items =>
      let? b := EncoderSink_start_send it in
      let? bs := send_all items in
      Ok (b ++ bs)
  end.

(** ** Decoding *)

Inductive State : Type :=
| AwaitingPrefix
| Buffering (left_ read : Z)
| Forwarding (left_ read : Z)
| Discarding (left_ read : Z)
| Poisoned.

(** [State::read]: note that [count] more bytes have arrived. *)
Definition State_read (s : State) (count : Z) : State :=
  match s with
  | Buffering l r => Buffering l (Z.min l (r + count))
  | Forwarding l r => Forwarding l (Z.min l (r + count))
  | Discarding l r => Discarding l (Z.min l (r + count))
  | _ => s
  end.

(** How the part of [poll_next] that looks at the buffer ends: it returns an
    item, or goes on to poll the inner stream. *)
Inductive phase : Type :=
| Item (s : State) (buf : list Z) (r : result (PacketKind P) CodecError)
| Fall (s : State) (buf : list Z).

Definition awaiting_phase (limit : Z) (buf : list Z) : outcome phase :=
  let! (r, buf') := read_bytes buf limit in
  match r with
  | Ok (Some bytes) =>
      match msg_decode bytes with
      | Some pkt => Ret (Item AwaitingPrefix buf' (Ok (KPacket pkt)))
      | None => Ret (Item AwaitingPrefix buf' (Err EProtobufDecode))
      end
  | Ok None => Ret (Fall AwaitingPrefix buf')
  | Err PrefixTooShort => Ret (Fall AwaitingPrefix buf')
  | Err (PayloadInvalid left_) => Ret (Fall (Discarding left_ 0) buf')
  | Err (PayloadTooLong left_) => Ret (Fall (Discarding left_ 0) buf')
  | Err (PayloadTooShort left_) => Ret (Fall (Buffering left_ 0) buf')
  | Err (DForward left_ bytes) =>
      let s := if 0 <? left_ then Forwarding left_ 0 else AwaitingPrefix in
      let! fr := Forward_decode bytes in
      match fr with
      | Ok fwd => Ret (Item s buf' (Ok (KForward fwd)))
      | Err _ => Panic
      end
  | Err e => Ret (Item AwaitingPrefix buf' (Err (EDecode e)))
  end.

(** The tail call [self.poll_next(cx)] from [AwaitingPrefix]. *)
Definition reenter (limit : Z) (buf : list Z) : outcome phase :=
  if bool_decide (buf = []) then Ret (Fall AwaitingPrefix buf)
  else awaiting_phase limit buf.

Definition buffer_phase (limit : Z) (s : State) (buf : list Z) : outcome phase :=
  if bool_decide (buf = []) then Ret (Fall s buf)
  else
    match s with
    | AwaitingPrefix => awaiting_phase limit buf
    | Buffering left_ read =>
        if left_ <? read then Panic else
        let left_ := left_ - read in
        if left_ =? 0 then reenter limit buf else Ret (Fall (Buffering left_ 0) buf)
    | Forwarding left_ read =>
        if left_ <? read then Panic else
        let left_ := left_ - read in
        if 0 <? read then
          let! (bytes, buf') := split_to read buf in
          Ret (Item (if left_ =? 0 then AwaitingPrefix else Forwarding left_ 0) buf'
                 (Ok (KForwardCtd bytes)))
        else Ret (Fall (Forwarding left_ 0) buf)
    | Discarding left_ read =>
        if left_ <? read then Panic else
        let left_ := left_ - read in
        if 0 <? read then
          let! buf' := advance read buf in
          if left_ =? 0 then reenter limit buf'
          else Ret (Fall (Discarding left_ 0) buf')
        else Ret (Fall (Discarding left_ 0) buf)
    | Poisoned => Panic
    end.

Inductive chunk_poll : Type :=
| CBytes (b : list Z)
| CError
| CEnd
| CPending.

Inductive decoder_poll : Type :=
| DItem (r : result (PacketKind P) CodecError)
| DEnd
| DPending.

(** [DecoderStream::poll_next]: the result of the poll, the state, the buffer
    and the inner stream after it. *)
Fixpoint DecoderStream_poll_next (limit : Z) (s : State) (buf : list Z)
  (stream : list chunk_poll) : outcome (decoder_poll * State * list Z * list chunk_poll) :=
  let! ph := buffer_phase limit s buf in
  match ph with
  | Item s' buf' r => Ret (DItem r, s', buf', stream)
  | Fall s' buf' =>
      match stream with
      | CBytes bytes :: stream' =>
          if bool_decide (bytes = []) then Ret (DEnd, s', buf', stream')
          else DecoderStream_poll_next limit (State_read s' (zlen bytes)) (buf' ++ bytes) stream'
      | CError :: stream' => Ret (DItem (Err EIo), s', buf', stream')
      | CEnd :: stream' => Ret (DEnd, s', buf', stream')
      | CPending :: stream' => Ret (DPending, s', buf', stream')
      | [] => Ret (DPending, s', buf', [])
      end
  end.

(** [DecoderStream::with]: the initial state. *)
Definition DecoderStream_poll_first (limit : Z) (stream : list chunk_poll) :=
  DecoderStream_poll_next limit AwaitingPrefix [] stream.

End WithProst.

Arguments phase P : clear implicits.
Arguments decoder_poll P : clear implicits.

(** ** The delivery specification

    What a receiver may get for the packets a sender wrote: protobuf packets
    one to one, in order; a forward packet as a packet with an initial part of
    its payload followed by continuation chunks that hold the rest. *)
Section Delivery.
Context {P : Type}.

Definition with_payload (f : Forward) (b : list Z) : Forward :=
  {| fw_session_id := fw_session_id f; fw_slot := fw_slot f; fw_flags := fw_flags f;
     fw_payload := PBytesMut b |}.

Inductive Delivers : list (PacketKind P) -> list (PacketKind P) -> Prop :=
| D_nil : Delivers [] []
| D_packet p items outs :
    Delivers items outs -> Delivers (KPacket p :: items) (KPacket p :: outs)
| D_forward f items first rem outs :
    first ++ rem = Payload_as_ref (fw_payload f) ->
    DeliversRest rem items outs ->
    Delivers (KForward f :: items) (KForward (with_payload f first) :: outs)
with DeliversRest : list Z -> list (PacketKind P) -> list (PacketKind P) -> Prop :=
| D_rest_done items outs : Delivers items outs -> DeliversRest [] items outs
| D_rest_chunk c rem items outs :
    c <> [] -> DeliversRest rem items outs ->
    DeliversRest (c ++ rem) items (KForwardCtd c :: outs).
End Delivery.

Section Decoding.
Context {P : Type} `{ProstLaws P}.

(** Polling until the stream ends, at most [fuel] times. *)
Fixpoint decoder_drain (fuel : nat) (limit : Z) (s : State) (buf : list Z)
  (stream : list chunk_poll) : outcome (option (list (result (PacketKind P) CodecError))) :=
  match fuel with
  | O => Ret None
  | S fuel =>
      let! (r, s', buf', stream') := DecoderStream_poll_next limit s buf stream in
      match r with
      | DItem x =>
          let! xs := decoder_drain fuel limit s' buf' stream' in
          Ret ((fun l => x :: l) <$> xs)
      | DPending => decoder_drain fuel limit s' buf' stream'
      | DEnd => Ret (Some [])
      end
  end.

(** Packets the decoder with this limit can take. *)
Definition item_ok (limit : Z) (item : PacketKind P) : Prop :=
  match item with
  | KPacket p =>
      bytes_ok (msg_encode p) /\ 0 < zlen (msg_encode p) <= limit /\
      zlen (msg_encode p) <= MAX_PACKET_SIZE
  | KForward f => Forward_wf f /\ Forward_encoded_len f <= MAX_PACKET_SIZE
  | KForwardCtd _ => False
  end.

Definition body (item : PacketKind P) : list Z :=
  match item with
  | KPacket p => msg_encode p
  | KForward f => Forward_encode f []
  | KForwardCtd b => b
  end.

Definition wire (item : PacketKind P) : list Z :=
  encode_varint (zlen (body item)) ++ body item.

Definition wires (items : list (PacketKind P)) : list Z := concat (map wire items).

Lemma body_size limit item :
  item_ok limit item -> 0 < zlen (body item) <= MAX_PACKET_SIZE.
Proof.
  destruct item as [p|f|b]; simpl; [lia| |done].
  intros [(Hs & _) Hl]. rewrite zlen_Forward_encode by done. split; [|done].
  unfold Forward_encoded_len, Forward_header_size, KEY_SIZE, SESSION_ID_SIZE.
  rewrite Payload_len_as_ref. pose proof (zlen_nonneg (Payload_as_ref (fw_payload f))). lia.
Qed.

(** The sink writes exactly the wire form. *)
Lemma start_send_wire limit item :
  item_ok limit item -> EncoderSink_start_send item = Ok (wire item).
Proof.
  intros Hok. pose proof (body_size limit item Hok) as Hb. unfold MAX_PACKET_SIZE in Hb.
  destruct item as [p|f|b]; [| |done]; unfold EncoderSink_start_send, reserve_and_encode, wire.
  - simpl in *. rewrite wrap_small by (unfold in_width; lia). unfold write_size, MAX_PACKET_SIZE.
    rewrite (proj2 (Z.eqb_neq _ _)), (proj2 (Z.ltb_ge _ _)) by lia. done.
  - simpl in *. destruct Hok as [(Hs & _) _]. rewrite <- zlen_Forward_encode by done.
    rewrite wrap_small by (unfold in_width; lia). unfold write_size, MAX_PACKET_SIZE.
    rewrite (proj2 (Z.eqb_neq _ _)), (proj2 (Z.ltb_ge _ _)) by lia. simpl.
    by rewrite (Forward_encode_eq f (encode_varint _)), (Forward_encode_eq f []) .
Qed.

(** A length prefix that has only partly arrived asks for more bytes; once it
    is complete what follows does not matter. *)
Lemma peek_size_partial n buf rest tl_ :
  0 <= n <= MAX_PACKET_SIZE ->
  buf ++ rest = encode_varint n ++ tl_ ->
  zlen buf < zlen (encode_varint n) -> peek_size buf = Err PrefixTooShort.
Proof.
  intros Hn Heq Hlt.
  destruct (decide (n < 128)); [|destruct (decide (n < 16384))];
    [rewrite encode_varint_small in * by lia
    |rewrite encode_varint_two in * by lia
    |rewrite encode_varint_three in * by lia];
    destruct buf as [|x0 [|x1 [|x2 buf]]]; autorewrite with relay in Hlt;
    try zlia; try done; simpl in Heq;
    unfold peek_size; simpl; injection Heq; intros; subst.
  all: rewrite ?(proj2 (Z.ltb_ge _ _)) by dlia; done.
Qed.

(** What [read_bytes_inner] does on a buffer with a complete length prefix. *)
Definition inner_spec (buf b' : list Z) (total max : Z)
  : result (option (list Z)) DecodeError * list Z :=
  let avail := Z.min total (zlen b') in
  match b' with
  | [] => (Ok None, buf)
  | k :: _ =>
      if 128 <=? k then (Err PrefixTooLong, buf)
      else if k / 8 =? 0 then (Err (PayloadInvalid (total - avail)), zdrop avail b')
      else if k / 8 =? 1 then
        if Forward_header_size <=? zlen b' then
          (Err (DForward (total - avail) (ztake avail b')), zdrop avail b')
        else (Ok None, buf)
      else if max <? total then (Err (PayloadTooLong (total - avail)), zdrop avail b')
      else if total <=? zlen b' then (Ok (Some (ztake avail b')), zdrop avail b')
      else (Err (PayloadTooShort (total - avail)), buf)
  end.

Lemma read_bytes_inner_app pre b' total max :
  bytes_ok b' -> 0 <= total ->
  read_bytes_inner (pre ++ b') total (zlen pre) max =
    Ret (inner_spec (pre ++ b') b' total max).
Proof.
  intros Hok Ht. unfold read_bytes_inner, slice. rewrite zlen_app.
  assert (forall n, 0 <= n -> zdrop (zlen pre + n) (pre ++ b') = zdrop n b') as Hdrop.
  { intros n Hn. rewrite <- zdrop_zdrop by zlia. by rewrite zdrop_app_exact. }
  assert (zdrop (zlen pre) (pre ++ b') = b') as Hdrop0 by by rewrite zdrop_app_exact.
  rewrite (proj2 (Z.leb_le _ _)), (proj2 (Z.leb_le _ _)) by zlia. simpl.
  rewrite Hdrop0, ztake_all by lia.
  replace (zlen pre + zlen b' - zlen pre) with (zlen b') by lia.
  unfold peek_tag, inner_spec. destruct b' as [|k r] eqn:Eb; [done|].
  rewrite <- Eb in *. rewrite shiftr3.
  assert (0 <= k / 8) as Hk.
  { rewrite Eb in Hok. apply Forall_cons_1 in Hok as [[? ?] _]. apply Z.div_pos; lia. }
  destruct (Z.ltb_spec k 128); destruct (Z.leb_spec 128 k); try lia; [|done].
  assert (advance (zlen pre + Z.min total (zlen b')) (pre ++ b')
          = Ret (zdrop (Z.min total (zlen b')) b')) as Hadv.
  { unfold advance. rewrite zlen_app, (proj2 (Z.leb_le _ _)) by zlia.
    by rewrite Hdrop by zlia. }
  assert (advance (zlen pre) (pre ++ b') = Ret b') as Hadv0.
  { unfold advance. rewrite zlen_app, (proj2 (Z.leb_le _ _)) by zlia. by rewrite Hdrop0. }
  assert (split_to (Z.min total (zlen b')) b'
    = Ret (ztake (Z.min total (zlen b')) b', zdrop (Z.min total (zlen b')) b')) as Hsp.
  { apply split_to_le. lia. }
  assert (forall n, (zlen pre + n <=? zlen pre + zlen b') = (n <=? zlen b')) as Hle.
  { intros n. destruct (Z.leb_spec n (zlen b')); [apply Z.leb_le; lia|apply Z.leb_gt; lia]. }
  rewrite !Hle.
  destruct (k / 8) as [|[p|p|]|p] eqn:Ed; simpl; [by rewrite Hadv| | | |lia].
  3: { case_match_goal; [|done]. rewrite Hadv0. simpl. by rewrite Hsp. }
  all: case_match_goal; [by rewrite Hadv|]; case_match_goal; [|done].
  all: rewrite Hadv0; simpl; by rewrite Hsp.
Qed.

Lemma read_bytes_wire n pre_tl buf rest limit :
  0 <= n <= MAX_PACKET_SIZE -> bytes_ok buf ->
  buf ++ rest = encode_varint n ++ pre_tl ->
  if zlen buf <? zlen (encode_varint n) then
    read_bytes buf limit = Ret (Err PrefixTooShort, buf)
  else
    exists b', buf = encode_varint n ++ b' /\ b' ++ rest = pre_tl /\
      read_bytes buf limit = Ret (inner_spec buf b' n limit).
Proof.
  intros Hn Hok Heq. destruct (Z.ltb_spec (zlen buf) (zlen (encode_varint n))).
  - unfold read_bytes. by rewrite (peek_size_partial n buf rest pre_tl).
  - apply app_eq_inv in Heq as [(b' & -> & ->)|(k & Hk & ->)].
    + exists b'. repeat split. unfold read_bytes. rewrite peek_size_encode_varint by done.
      apply read_bytes_inner_app; [|lia]. by apply Forall_app in Hok as [_ ?].
    + assert (k = []) as ->.
      { apply zlen_0. rewrite Hk, zlen_app in *. zlia. }
      rewrite app_nil_r in Hk. subst buf. exists []. rewrite app_nil_r. repeat split.
      unfold read_bytes. rewrite <- (app_nil_r (encode_varint n)) at 1.
      rewrite peek_size_encode_varint by done.
      rewrite <- (app_nil_r (encode_varint n)) at 1 3.
      rewrite read_bytes_inner_app; [done|by apply Forall_nil|lia].
Qed.

(** *** One look at the buffer *)

(** What awaiting a packet can lead to, when the buffer is a part of the
    encoding of [it] and what follows it. *)
Inductive awaits (it : PacketKind P) (tl_ buf rest : list Z) : phase P -> Prop :=
| Aw_more :
    zlen buf < zlen (wire it) -> awaits it tl_ buf rest (Fall AwaitingPrefix buf)
| Aw_buffer p l :
    it = KPacket p -> 0 < l -> zlen buf + l = zlen (wire it) ->
    awaits it tl_ buf rest (Fall (Buffering l 0) buf)
| Aw_packet p buf' :
    it = KPacket p -> buf' ++ rest = tl_ ->
    awaits it tl_ buf rest (Item AwaitingPrefix buf' (Ok (KPacket p)))
| Aw_forward f first :
    it = KForward f -> first = Payload_as_ref (fw_payload f) ->
    forall buf', buf' ++ rest = tl_ ->
    awaits it tl_ buf rest (Item AwaitingPrefix buf' (Ok (KForward (with_payload f first))))
| Aw_forward_part f first rem :
    it = KForward f -> first ++ rem = Payload_as_ref (fw_payload f) -> rem <> [] ->
    rest = rem ++ tl_ ->
    awaits it tl_ buf rest
      (Item (Forwarding (zlen rem) 0) [] (Ok (KForward (with_payload f first)))).

Lemma awaiting_packet limit p tl_ buf rest b' :
  item_ok limit (KPacket p) ->
  buf = encode_varint (zlen (msg_encode p)) ++ b' -> b' ++ rest = msg_encode p ++ tl_ ->
  read_bytes buf limit = Ret (inner_spec buf b' (zlen (msg_encode p)) limit) ->
  exists ph, awaiting_phase limit buf = Ret ph /\ awaits (KPacket p) tl_ buf rest ph.
Proof.
  intros (Hok & Hlim & _) Hbuf Hb' Hr. unfold awaiting_phase. rewrite Hr.
  assert (zlen (wire (KPacket p))
    = zlen (encode_varint (zlen (msg_encode p))) + zlen (msg_encode p)) as Hw.
  { unfold wire. by rewrite zlen_app. }
  destruct b' as [|k b0] eqn:Eb.
  { eexists. split; [done|]. apply Aw_more. rewrite Hbuf, app_nil_r. lia. }
  unfold inner_spec. rewrite <- Eb in *.
  assert (exists m0, msg_encode p = k :: m0) as [m0 Hm].
  { rewrite Eb in Hb'. clear - Hb' Hlim. revert Hb' Hlim.
    destruct (msg_encode p); intros Hb' Hlim; [by destruct Hlim|].
    simpl in Hb'. simplify_eq. eauto. }
  pose proof (msg_first_key p k m0 Hm) as Hk.
  rewrite (proj2 (Z.leb_gt _ _)), (proj2 (Z.eqb_neq _ _)), (proj2 (Z.eqb_neq _ _)) by dlia.
  rewrite (proj2 (Z.ltb_ge _ _)) by lia.
  destruct (Z.leb_spec (zlen (msg_encode p)) (zlen b')) as [Hle|Hgt]; simpl.
  - rewrite Z.min_l by lia.
    assert (exists w, b' = msg_encode p ++ w /\ w ++ rest = tl_) as (w & -> & Hwt).
    { apply app_eq_inv in Hb' as [(w & -> & ->)|(w & Hw' & ->)]; [eauto|].
      exists []. rewrite Hw', zlen_app in Hle.
      assert (w = []) as -> by (apply zlen_0; zlia). rewrite app_nil_r in *. eauto. }
    rewrite ztake_app_exact, zdrop_app_exact, msg_roundtrip by done.
    eexists. split; [done|]. by eapply Aw_packet.
  - eexists. split; [done|].
    apply (Aw_buffer (KPacket p) tl_ buf rest p); [done|lia|].
    rewrite Hbuf, Hw, zlen_app. lia.
Qed.

(** The header of a forward packet and an initial part of its payload decode
    to the packet with that part as payload. *)
Lemma Forward_decode_part f first rem :
  Forward_wf f -> first ++ rem = Payload_as_ref (fw_payload f) ->
  exists hdr, Forward_encode f [] = hdr ++ first ++ rem /\ zlen hdr = Forward_header_size /\
    Forward_decode (hdr ++ first) = Ret (Ok (with_payload f first)).
Proof.
  intros Hwf Heq.
  exists (10 :: fw_session_id f ++ be_bytes 4 (fw_slot f) ++ be_bytes 2 (fw_flags f)).
  assert (Forward_wf (with_payload f first)) as Hwf'.
  { destruct Hwf as (? & ? & ? & ? & Hb). do 4 (split; [done|]).
    rewrite <- Heq in Hb. by apply Forall_app in Hb as [? _]. }
  pose proof (Forward_decode_encode _ Hwf') as Hd. rewrite !Forward_encode_eq, !app_nil_l in *.
  simpl Payload_as_ref in Hd. rewrite Heq. rewrite <- !app_comm_cons, <- !app_assoc.
  split; [done|]. split; [|exact Hd].
  destruct Hwf as (Hs & _). rewrite zlen_cons, !zlen_app, Hs, !zlen_be_bytes. done.
Qed.

Lemma awaiting_forward limit f tl_ buf rest b' :
  item_ok limit (KForward f) ->
  buf = encode_varint (zlen (Forward_encode f [])) ++ b' ->
  b' ++ rest = Forward_encode f [] ++ tl_ ->
  read_bytes buf limit = Ret (inner_spec buf b' (zlen (Forward_encode f [])) limit) ->
  exists ph, awaiting_phase limit buf = Ret ph /\ awaits (KForward f) tl_ buf rest ph.
Proof.
  intros [Hwf Hmax] Hbuf Hb' Hr. unfold awaiting_phase. rewrite Hr.
  set (E := Forward_encode f []) in *.
  assert (zlen (wire (KForward f)) = zlen (encode_varint (zlen E)) + zlen E) as Hw.
  { unfold wire. by rewrite zlen_app. }
  assert (exists e0, E = 10 :: e0) as [e0 He0].
  { unfold E. rewrite Forward_encode_eq. simpl. eauto. }
  assert (Forward_header_size <= zlen E) as HlE.
  { unfold E. destruct Hwf as (Hs & _). rewrite zlen_Forward_encode by done.
    unfold Forward_encoded_len. rewrite Payload_len_as_ref. zlia. }
  destruct b' as [|k b0] eqn:Eb.
  { eexists. split; [done|]. apply Aw_more. rewrite Hbuf, app_nil_r.
    unfold Forward_header_size, KEY_SIZE, SESSION_ID_SIZE in HlE. lia. }
  assert (k = 10) as -> by (rewrite He0 in Hb'; by simplify_eq).
  unfold inner_spec. rewrite <- Eb in *.
  change (128 <=? 10) with false. change (10 / 8 =? 0) with false.
  change (10 / 8 =? 1) with true. cbv iota.
  destruct (Z.leb_spec Forward_header_size (zlen b')) as [Hh|Hh].
  2: { eexists. split; [done|]. apply Aw_more. rewrite Hbuf, zlen_app. lia. }
  cbn [outcome_bind].
  apply app_eq_inv in Hb' as [(w & Hb'' & Htl)|(w & HE & Hrest)].
  - (* the whole packet is there *)
    rewrite Hb'', zlen_app, Z.min_l by zlia. rewrite Z.sub_diag.
    rewrite ztake_app_exact, zdrop_app_exact by done.
    change (0 <? 0) with false. cbv iota. unfold E at 1.
    rewrite Forward_decode_encode by done. cbn [outcome_bind].
    eexists. split; [done|]. by eapply Aw_forward.
  - (* a part of it *)
    assert (zlen E = zlen b' + zlen w) as HlEw by by rewrite HE, zlen_app.
    rewrite Z.min_r by zlia. rewrite zdrop_all, ztake_all by lia.
    replace (zlen E - zlen b') with (zlen w) by lia.
    assert (exists first, first ++ w = Payload_as_ref (fw_payload f)) as [first Hf].
    { destruct (Forward_decode_part f [] (Payload_as_ref (fw_payload f)) Hwf eq_refl)
        as (hdr & HE' & Hlh & _). fold E in HE'. rewrite HE' in HE. simpl in HE.
      apply app_eq_inv in HE as [(u & -> & ->)|(u & -> & ->)]; [|by exists u].
      rewrite zlen_app in Hlh. assert (u = []) as -> by (apply zlen_0; zlia).
      by exists []. }
    destruct (Forward_decode_part f first w Hwf Hf) as (hdr & HE' & Hlh & Hd).
    fold E in HE'. rewrite HE', app_assoc in HE. apply app_inv_tail in HE.
    rewrite <- HE, Hd. cbn [outcome_bind].
    destruct (decide (w = [])) as [->|Hne].
    + change (0 <? zlen (@nil Z)) with false. cbv iota.
      eexists. split; [done|]. rewrite app_nil_r in Hf. by apply Aw_forward.
    + assert (0 < zlen w) as Hpos.
      { destruct w; [done|]. rewrite zlen_cons. zlia. }
      rewrite (proj2 (Z.ltb_lt _ _)) by done.
      eexists. split; [done|]. by eapply Aw_forward_part.
Qed.

Lemma awaiting_spec limit it items buf rest :
  item_ok limit it -> bytes_ok buf -> buf ++ rest = wires (it :: items) ->
  exists ph, awaiting_phase limit buf = Ret ph /\ awaits it (wires items) buf rest ph.
Proof.
  intros Hit Hok Heq. pose proof (body_size limit it Hit) as Hsz.
  unfold wires in Heq. simpl in Heq. unfold wire at 1 in Heq. rewrite <- app_assoc in Heq.
  pose proof (read_bytes_wire _ _ _ _ limit (conj (Z.lt_le_incl _ _ (proj1 Hsz)) (proj2 Hsz)) Hok Heq)
    as Hr.
  destruct (Z.ltb_spec (zlen buf) (zlen (encode_varint (zlen (body it))))).
  - unfold awaiting_phase. rewrite Hr. simpl. eexists. split; [done|].
    apply Aw_more. unfold wire. rewrite zlen_app. lia.
  - destruct Hr as (b' & Hb & Hb' & Hr). destruct it as [p|f|b]; [| |done].
    + by eapply awaiting_packet.
    + by eapply awaiting_forward.
Qed.

(** *** The decoder invariant *)

Definition dchunk_ok (e : chunk_poll) : Prop :=
  match e with
  | CBytes b => b <> [] /\ bytes_ok b
  | CPending => True
  | _ => False
  end.

Definition dchunk_bytes (e : chunk_poll) : list Z :=
  match e with CBytes b => b | _ => [] end.

Definition dstream_bytes (es : list chunk_poll) : list Z := concat (map dchunk_bytes es).

(** [rem] is what is still due of the forward packet being handed on, [items]
    the packets that follow. *)
Definition dec_inv (limit : Z) (s : State) (buf rest : list Z)
  (items : list (PacketKind P)) (rem : list Z) : Prop :=
  bytes_ok buf /\ Forall (item_ok limit) items /\ buf ++ rest = rem ++ wires items /\
  match s with
  | AwaitingPrefix => rem = []
  | Buffering l r =>
      rem = [] /\ buf <> [] /\ 0 <= r <= l /\
      exists p items', items = KPacket p :: items' /\
        l - r = Z.max 0 (zlen (wire (KPacket p)) - zlen buf)
  | Forwarding l r => l = zlen rem /\ 0 < l /\ r = Z.min l (zlen buf)
  | _ => False
  end.

(** A decoder that has looked at its buffer and needs more bytes. *)
Definition hungry (s : State) (buf : list Z) : Prop :=
  match s with
  | Buffering l r => r = 0 /\ 0 < l
  | Forwarding l r => r = 0 /\ buf = []
  | _ => True
  end.

Definition dec_measure (s : State) (items : list (PacketKind P)) (es : list chunk_poll) : nat :=
  length items + length es +
  match s with Forwarding _ r => if decide (0 < r) then 1 else 0 | _ => 0 end.

Lemma wires_nil items limit : Forall (item_ok limit) items -> wires items = [] -> items = [].
Proof.
  intros Hok Hw. destruct items as [|it items]; [done|].
  apply Forall_cons_1 in Hok as [Hit _]. pose proof (body_size limit it Hit).
  unfold wires in Hw. simpl in Hw. apply app_eq_nil in Hw as [Hw _].
  unfold wire in Hw. apply app_eq_nil in Hw as [_ Hb]. rewrite Hb in *.
  destruct H1 as [Hpos _]. by vm_compute in Hpos.
Qed.

Lemma encode_varint_bytes_ok n : 0 <= n <= MAX_PACKET_SIZE -> bytes_ok (encode_varint n).
Proof.
  unfold bytes_ok, is_byte. intros Hn.
  destruct (decide (n < 128)); [|destruct (decide (n < 16384))];
    [rewrite encode_varint_small by lia
    |rewrite encode_varint_two by lia
    |rewrite encode_varint_three by lia; unfold MAX_PACKET_SIZE in Hn];
    repeat (apply Forall_cons; split); try apply Forall_nil; try done; dlia.
Qed.

Lemma wires_bytes_ok limit items : Forall (item_ok limit) items -> bytes_ok (wires items).
Proof.
  induction 1 as [|it items Hit _ IH]; [by apply Forall_nil|].
  unfold wires, wire. simpl. pose proof (body_size limit it Hit).
  apply Forall_app. split; [|done]. apply Forall_app.
  split; [apply encode_varint_bytes_ok; lia|].
  destruct it as [p|f|b]; [by apply Hit| |done].
  destruct Hit as [(_ & Hs & _ & _ & Hb) _]. simpl. rewrite Forward_encode_eq, app_nil_l.
  apply Forall_cons. split; [unfold is_byte; lia|]. repeat (apply Forall_app; split);
    [done|apply be_bytes_ok|apply be_bytes_ok|done].
Qed.

(** What one look at the buffer gives. *)
Definition phase_ok (limit : Z) (rest : list Z) (items : list (PacketKind P))
  (rem : list Z) (s : State) (ph : phase P) : Prop :=
  match ph with
  | Item s' buf' r =>
      exists k items' rem', r = Ok k /\ dec_inv limit s' buf' rest items' rem' /\
        (forall outs, DeliversRest rem' items' outs -> DeliversRest rem items (k :: outs)) /\
        forall es, (dec_measure s' items' es < dec_measure s items es)%nat
  | Fall s' buf' =>
      dec_inv limit s' buf' rest items rem /\ hungry s' buf' /\
      (rest = [] -> items = [] /\ rem = []) /\
      forall es, (dec_measure s' items es <= dec_measure s items es)%nat
  end.

Lemma awaiting_phase_ok limit buf rest items s :
  buf <> [] ->
  (match s with Forwarding _ _ => False | _ => True end) ->
  dec_inv limit AwaitingPrefix buf rest items [] ->
  exists ph, awaiting_phase limit buf = Ret ph /\ phase_ok limit rest items [] s ph.
Proof.
  intros Hne Hs (Hok & Hits & Heq & _). simpl in Heq.
  destruct items as [|it items].
  { simpl in Heq. apply app_eq_nil in Heq as [-> _]. done. }
  apply Forall_cons_1 in Hits as [Hit Hits].
  destruct (awaiting_spec limit it items buf rest Hit Hok Heq) as (ph & Hph & Haw).
  exists ph. split; [done|]. assert (Forall (item_ok limit) (it :: items)) as Hall by by constructor.
  assert (zlen buf + zlen rest = zlen (wire it) + zlen (wires items)) as Hlen.
  { rewrite <- !zlen_app. by rewrite Heq. }
  assert (forall w t, w ++ rest = t -> bytes_ok t -> bytes_ok w) as Hsub.
  { intros w t <- Ht. by apply Forall_app in Ht as [? _]. }
  destruct Haw as [Hlt|p l -> Hl Hz|p buf' -> Hb|f first -> -> buf' Hb|f first rem -> Hf Hrem Hrest];
    simpl.
  - split; [done|]. split; [done|]. split; [|intros; destruct s; (done || lia)].
    intros ->. rewrite zlen_nil in Hlen. zlia.
  - split; [|split; [done|split]].
    + do 5 (split; [done|]). split; [lia|]. exists p, items. split; [done|]. lia.
    + intros ->. rewrite zlen_nil in Hlen. zlia.
    + intros. destruct s; (done || simpl; lia).
  - exists (KPacket p), items, []. split; [done|].
    split; [split; [by eapply Hsub, wires_bytes_ok|done]|]. split.
    + intros outs Ho. inversion Ho; subst; [by repeat constructor|].
      destruct c; done.
    + intros. unfold dec_measure. simpl. destruct s; (done || lia).
  - exists (KForward (with_payload f (Payload_as_ref (fw_payload f)))), items, [].
    split; [done|]. split; [split; [by eapply Hsub, wires_bytes_ok|done]|]. split.
    + intros outs Ho. constructor. apply (D_forward f items _ []); [by rewrite app_nil_r|done].
    + intros. unfold dec_measure. simpl. destruct s; (done || lia).
  - exists (KForward (with_payload f first)), items, rem. split; [done|].
    split; [|split].
    + split; [by apply Forall_nil|]. split; [done|]. split; [done|].
      split; [done|]. destruct rem; [done|]. rewrite zlen_cons. zlia.
    + intros outs Ho. constructor. by eapply D_forward.
    + intros. unfold dec_measure. simpl. destruct s; (done || lia).
Qed.

Lemma reenter_ok limit buf rest items s :
  (match s with Forwarding _ _ => False | _ => True end) ->
  dec_inv limit AwaitingPrefix buf rest items [] ->
  exists ph, reenter limit buf = Ret ph /\ phase_ok limit rest items [] s ph.
Proof.
  intros Hs Hinv. unfold reenter. case_bool_decide as Hb; [|by apply awaiting_phase_ok].
  subst buf. eexists. split; [done|]. simpl. split; [done|]. split; [done|].
  destruct Hinv as (_ & Hits & Heq & _). simpl in Heq. split.
  - intros ->. split; [by eapply wires_nil|done].
  - intros. unfold dec_measure. destruct s; (done || lia).
Qed.

Lemma buffer_phase_ok limit s buf rest items rem :
  dec_inv limit s buf rest items rem ->
  exists ph, buffer_phase limit s buf = Ret ph /\ phase_ok limit rest items rem s ph.
Proof.
  intros Hinv. pose proof Hinv as (Hok & Hits & Heq & Hs). unfold buffer_phase.
  destruct s as [|l r|l r|l r|]; try done.
  - simpl in Hs. subst rem. by apply (reenter_ok limit buf rest items AwaitingPrefix).
  - destruct Hs as (-> & Hne & Hr & p & items' & -> & Hl). rewrite bool_decide_eq_false_2 by done.
    rewrite (proj2 (Z.ltb_ge _ _)) by lia. destruct (Z.eqb_spec (l - r) 0) as [E|E].
    + by apply reenter_ok.
    + eexists. split; [done|]. simpl. split; [|split; [lia|split; [|done]]].
      * do 5 (split; [done|]). split; [lia|]. exists p, items'. split; [done|]. lia.
      * intros ->. rewrite app_nil_r in Heq. exfalso. simpl in Heq.
        unfold wires in Heq. simpl in Heq. rewrite Heq, zlen_app in Hl. zlia.
  - destruct Hs as (-> & Hl & ->). case_bool_decide as Hb.
    + subst buf. eexists. split; [done|]. simpl. split; [done|].
      split; [split; [zlia|done]|]. split; [|done].
      intros ->. simpl in Heq. symmetry in Heq. apply app_eq_nil in Heq as [-> _]. zlia.
    + assert (0 < zlen buf) as Hbp by (destruct buf; [done|rewrite zlen_cons; zlia]).
      rewrite (proj2 (Z.ltb_ge _ _)) by lia. rewrite (proj2 (Z.ltb_lt _ _)) by lia.
      rewrite split_to_le by lia. simpl. eexists. split; [done|].
      set (n := Z.min (zlen rem) (zlen buf)).
      exists (KForwardCtd (ztake n buf)), items, (zdrop n rem).
      assert (ztake n buf = ztake n rem /\ zdrop n buf ++ rest = zdrop n rem ++ wires items)
        as [Htk Hdr].
      { split.
        - rewrite <- (ztake_app_le n buf rest), <- (ztake_app_le n rem (wires items)) by lia.
          by rewrite Heq.
        - rewrite <- (zdrop_app_le n buf rest), <- (zdrop_app_le n rem (wires items)) by lia.
          by rewrite Heq. }
      assert (zlen (zdrop n rem) = zlen rem - n) as Hzl by (rewrite zlen_zdrop; lia).
      split; [done|]. split; [|split].
      * split; [by apply Forall_drop|]. split; [done|]. split; [done|].
        destruct (Z.eqb_spec (zlen rem - n) 0) as [E|E]; [apply zlen_0; lia|].
        rewrite Hzl. split; [done|]. split; [lia|]. rewrite zlen_zdrop by lia. lia.
      * intros outs Ho. rewrite <- (ztake_zdrop n rem), Htk. apply D_rest_chunk; [|done].
        intros Hz. apply (f_equal zlen) in Hz. rewrite zlen_ztake in Hz by lia. zlia.
      * intros es. unfold dec_measure. rewrite decide_True by lia.
        destruct (_ =? 0); [lia|]. rewrite decide_False by lia. lia.
Qed.

(** *** Polling *)

Lemma read_inv limit s buf rest items rem b :
  b <> [] -> bytes_ok b -> hungry s buf ->
  dec_inv limit s buf (b ++ rest) items rem ->
  dec_inv limit (State_read s (zlen b)) (buf ++ b) rest items rem /\
  forall es, (dec_measure (State_read s (zlen b)) items es <= dec_measure s items es + 1)%nat.
Proof.
  intros Hne Hb Hh (Hok & Hits & Heq & Hs).
  assert (bytes_ok (buf ++ b)) by (by apply Forall_app).
  assert ((buf ++ b) ++ rest = rem ++ wires items) by (by rewrite <- app_assoc).
  split; [split; [done|split; [done|split; [done|]]]|].
  - destruct s as [|l r|l r|l r|]; simpl in *; try done.
    + destruct Hh as [-> Hl]. destruct Hs as (-> & Hbn & _ & p & items' & -> & Hz).
      split; [done|]. split; [destruct buf; done|]. split; [zlia|].
      exists p, items'. split; [done|]. rewrite zlen_app. zlia.
    + destruct Hh as [-> ->]. destruct Hs as (-> & Hl & _).
      split; [done|]. split; [done|]. done.
  - intros es. unfold dec_measure. destruct s; simpl; try lia. case_decide; lia.
Qed.

Lemma poll_step limit s buf es items rem :
  Forall dchunk_ok es -> dec_inv limit s buf (dstream_bytes es) items rem ->
  exists r s' buf' st',
    DecoderStream_poll_next limit s buf (es ++ [CEnd]) = Ret (r, s', buf', st') /\
    match r with
    | DItem x =>
        exists es' k items' rem', st' = es' ++ [CEnd] /\ x = Ok k /\ Forall dchunk_ok es' /\
          dec_inv limit s' buf' (dstream_bytes es') items' rem' /\
          (forall outs, DeliversRest rem' items' outs -> DeliversRest rem items (k :: outs)) /\
          (dec_measure s' items' es' < dec_measure s items es)%nat
    | DPending =>
        exists es', st' = es' ++ [CEnd] /\ Forall dchunk_ok es' /\
          dec_inv limit s' buf' (dstream_bytes es') items rem /\
          (dec_measure s' items es' < dec_measure s items es)%nat
    | DEnd => items = [] /\ rem = []
    end.
Proof.
  revert s buf. induction es as [|e es IH]; intros s buf Hes Hinv;
    destruct (buffer_phase_ok _ _ _ _ _ _ Hinv) as (ph & Hph & Hok); simpl;
    rewrite Hph; simpl; destruct ph as [s' buf' r|s' buf'].
  - destruct Hok as (k & items' & rem' & -> & ? & ? & ?).
    do 4 eexists. split; [done|]. simpl. exists [], k, items', rem'. split_and!; eauto.
  - destruct Hok as (_ & _ & Hend & _). do 4 eexists. split; [done|]. simpl. by apply Hend.
  - destruct Hok as (k & items' & rem' & -> & ? & ? & ?).
    do 4 eexists. split; [done|]. simpl. exists (e :: es), k, items', rem'. split_and!; eauto.
  - apply Forall_cons_1 in Hes as [He Hes].
    destruct Hok as (Hi & Hh & _ & Hm). destruct e as [b| | |]; simpl in He; try done.
    + destruct He as [Hbne Hbok]. rewrite bool_decide_eq_false_2 by done.
      destruct (read_inv _ _ _ _ _ _ b Hbne Hbok Hh Hi) as [Hi' Hm'].
      destruct (IH _ _ Hes Hi') as (r & s2 & b2 & st2 & Hp & Hr).
      do 4 eexists. split; [exact Hp|]. specialize (Hm es). specialize (Hm' es).
      unfold dec_measure in *. simpl in *.
      destruct r; [| |]; [|done|].
      * destruct Hr as (es' & k & items' & rem' & ? & ? & ? & ? & ? & ?).
        exists es', k, items', rem'. do 5 (split; [done|]). lia.
      * destruct Hr as (es' & ? & ? & ? & ?). exists es'. do 3 (split; [done|]). lia.
    + do 4 eexists. split; [done|]. simpl. exists es. do 3 (split; [done|]).
      specialize (Hm es). unfold dec_measure in *. simpl. lia.
Qed.

Lemma drain_delivers limit fuel s buf es items rem :
  Forall dchunk_ok es -> dec_inv limit s buf (dstream_bytes es) items rem ->
  (dec_measure s items es < fuel)%nat ->
  exists outs, decoder_drain fuel limit s buf (es ++ [CEnd]) = Ret (Some (map Ok outs)) /\
    DeliversRest rem items outs.
Proof.
  revert s buf es items rem. induction fuel as [|fuel IH]; intros s buf es items rem Hes Hinv Hf;
    [lia|].
  destruct (poll_step _ _ _ _ _ _ Hes Hinv) as (r & s' & buf' & st' & Hp & Hr).
  simpl. rewrite Hp. simpl. destruct r as [x| |].
  - destruct Hr as (es' & k & items' & rem' & -> & -> & Hes' & Hinv' & Hd & Hm).
    destruct (IH s' buf' es' items' rem') as (outs & Ho & Hdel); [done|done|lia|].
    exists (k :: outs). rewrite Ho. simpl. split; [done|]. by apply Hd.
  - destruct Hr as [-> ->]. exists []. split; [done|]. repeat constructor.
  - destruct Hr as (es' & -> & Hes' & Hinv' & Hm). apply IH; [done|done|lia].
Qed.

(** *** Messages that are skipped *)

(** With nothing left to discard the decoder never leaves [Discarding]. *)
Lemma discarding_stalls limit fuel buf es :
  Forall dchunk_ok es -> (length es < fuel)%nat ->
  decoder_drain fuel limit (Discarding 0 0) buf (es ++ [CEnd]) = Ret (Some []).
Proof.
  assert (forall es buf, Forall dchunk_ok es ->
    exists r buf' es', DecoderStream_poll_next limit (Discarding 0 0) buf (es ++ [CEnd])
        = Ret (r, Discarding 0 0, buf', es') /\
      ((r = @DEnd P) \/ (r = DPending /\ exists es2, es' = es2 ++ [CEnd] /\
         Forall dchunk_ok es2 /\ (length es2 < length es)%nat))) as Hpoll.
  { clear es buf. intros es.
    induction es as [|e es IH]; intros buf Hes; simpl.
    all: assert (buffer_phase (P := P) limit (Discarding 0 0) buf = Ret (Fall (Discarding 0 0) buf))
        as -> by (unfold buffer_phase; by case_bool_decide).
    - do 3 eexists. split; [done|]. by left.
    - apply Forall_cons_1 in Hes as [He Hes]. simpl.
      destruct e as [b| | |]; simpl in He; try done.
      + rewrite bool_decide_eq_false_2 by apply He.
        replace (Z.min 0 (0 + zlen b)) with 0 by zlia.
        destruct (IH (buf ++ b) Hes) as (r & b' & es' & Hp & Hr).
        exists r, b', es'. split; [done|]. destruct Hr as [->|[-> (es2 & -> & ? & ?)]]; [by left|].
        right. split; [done|]. exists es2. split_and!; [done|done|lia].
      + do 3 eexists. split; [done|]. right. split; [done|]. exists es. split_and!; [done|done|lia]. }
  revert buf es. induction fuel as [|fuel IH]; intros buf es Hes Hf; [lia|]. simpl.
  destruct (Hpoll es buf Hes) as (r & b' & es' & Hp & Hr). rewrite Hp. simpl.
  destruct Hr as [->|[-> (es2 & -> & ? & ?)]]; [done|]. apply IH; [done|lia].
Qed.

(** Polling depends on state and buffer only through the look at the buffer. *)
Lemma poll_phase_eq limit s1 b1 s2 b2 st :
  buffer_phase (P := P) limit s1 b1 = buffer_phase limit s2 b2 ->
  DecoderStream_poll_next (P := P) limit s1 b1 st = DecoderStream_poll_next limit s2 b2 st.
Proof. intros Hbp. destruct st; simpl; by rewrite Hbp. Qed.

Lemma drain_poll_eq limit fuel s1 b1 st1 s2 b2 st2 :
  DecoderStream_poll_next (P := P) limit s1 b1 st1 = DecoderStream_poll_next limit s2 b2 st2 ->
  decoder_drain (S fuel) limit s1 b1 st1 = decoder_drain (S fuel) limit s2 b2 st2.
Proof. intros Hp. simpl. by rewrite Hp. Qed.

(** A message with an invalid first key, or a protobuf message over the limit. *)
Definition skipped (limit : Z) (b : list Z) : Prop :=
  match b with
  | [] => False
  | k :: _ => k / 8 = 0 \/ (2 <= k / 8 < 16 /\ limit < zlen b)
  end.

Lemma skipped_phase limit b more :
  skipped limit b -> bytes_ok b -> bytes_ok more -> zlen b <= MAX_PACKET_SIZE ->
  awaiting_phase limit (encode_varint (zlen b) ++ b ++ more) =
    Ret (Fall (P := P) (Discarding 0 0) more).
Proof.
  intros Hs Hb Hmo Hm. unfold awaiting_phase, read_bytes.
  rewrite peek_size_encode_varint by zlia. rewrite read_bytes_inner_app; [|by apply Forall_app|zlia].
  destruct b as [|k b]; [done|]. unfold inner_spec. cbn [app].
  assert (zlen (k :: b ++ more) = zlen (k :: b) + zlen more) as Hz.
  { by rewrite app_comm_cons, zlen_app. }
  rewrite Hz, Z.min_l, Z.sub_diag by zlia.
  change (zdrop (zlen (k :: b)) (k :: b ++ more))
    with (zdrop (zlen (k :: b)) ((k :: b) ++ more)).
  rewrite zdrop_app_exact by done.
  apply Forall_cons_1 in Hb as [Hk _]. unfold is_byte in Hk. simpl in Hs.
  destruct Hs as [Hk0|[Hk2 Hl]].
  - rewrite (proj2 (Z.leb_gt _ _)) by dlia. by rewrite (proj2 (Z.eqb_eq _ _)) by done.
  - rewrite (proj2 (Z.leb_gt _ _)), (proj2 (Z.eqb_neq _ _)), (proj2 (Z.eqb_neq _ _)) by dlia.
    by rewrite (proj2 (Z.ltb_lt _ _)) by done.
Qed.

(** ** Properties *)

(** C21: the stream codec delivers what was sent.  Packets within the limits,
    written through the encoder sink and cut into any non-empty chunks with
    pending polls in between, are delivered completely and in order: protobuf
    packets as they were, each forward packet as a packet with its header and
    the first part of the payload, followed by the chunks of the rest.  The
    decoder never panics and the stream ends after at most one poll per packet
    and per inner event. *)
Theorem stream_codec_delivers (limit : Z) (items : list (PacketKind P)) (es : list chunk_poll) :
  Forall (item_ok limit) items -> Forall dchunk_ok es ->
  send_all items = Ok (dstream_bytes es) ->
  exists outs,
    decoder_drain (S (length items + length es)) limit AwaitingPrefix [] (es ++ [CEnd])
      = Ret (Some (map Ok outs)) /\
    Delivers items outs.
Proof.
  intros Hits Hes Hb.
  assert (send_all items = Ok (wires items)) as Hw.
  { clear Hb. induction Hits as [|it items Hit _ IH]; [done|]. simpl.
    rewrite (start_send_wire limit it Hit). simpl. by rewrite IH. }
  rewrite Hw in Hb. injection Hb as Hb.
  destruct (drain_delivers limit (S (length items + length es)) AwaitingPrefix [] es items [])
    as (outs & Ho & Hd); [done|by split_and!; [apply Forall_nil|..]|unfold dec_measure; lia|].
  exists outs. split; [done|]. inversion Hd; subst; [done|]. by destruct c.
Qed.

(** A message the decoder means to skip (an invalid first key, or a
    protobuf message longer than the limit) that is completely buffered when it
    is looked at stops the stream: the decoder enters [Discarding] with nothing
    left to discard, and none of the bytes that follow, in the same chunk or
    in later ones, is ever decoded. *)
Theorem skipped_message_stalls (limit : Z) (b more : list Z) (es : list chunk_poll) :
  skipped limit b -> bytes_ok b -> zlen b <= MAX_PACKET_SIZE ->
  bytes_ok more -> Forall dchunk_ok es ->
  decoder_drain (S (S (length es))) limit AwaitingPrefix []
    (CBytes (encode_varint (zlen b) ++ b ++ more) :: es ++ [CEnd]) = Ret (Some []).
Proof.
  intros Hs Hb Hm Hmo Hes.
  assert (encode_varint (zlen b) ++ b ++ more <> []) as Hne.
  { destruct b; [done|]. intros [_ [Hx _]%app_eq_nil]%app_eq_nil. done. }
  rewrite <- (discarding_stalls limit (S (S (length es))) more es) by (done || lia).
  apply drain_poll_eq.
  transitivity (DecoderStream_poll_next (P := P) limit AwaitingPrefix
    (encode_varint (zlen b) ++ b ++ more) (es ++ [CEnd])).
  { simpl. by rewrite bool_decide_eq_false_2 by done. }
  apply poll_phase_eq. unfold buffer_phase.
  rewrite (bool_decide_eq_false_2 (_ ++ _ = [])) by done.
  rewrite skipped_phase by done. by case_bool_decide.
Qed.

(** a forward packet whose announced length is smaller than its header,
    with at least a header's worth of bytes buffered after it, makes the
    decoder panic (the result of decoding the cut packet is unwrapped). *)
Theorem short_forward_panics (limit n k : Z) (b : list Z) (es : list chunk_poll) :
  0 < n < Forward_header_size -> 8 <= k < 16 -> bytes_ok b ->
  Forward_header_size <= zlen (k :: b) ->
  DecoderStream_poll_first limit (CBytes (encode_varint n ++ k :: b) :: es) = @Panic _.
Proof.
  unfold DecoderStream_poll_first, Forward_header_size, KEY_SIZE, SESSION_ID_SIZE.
  intros Hn Hk Hb Hl.
  assert (encode_varint n ++ k :: b <> []) as Hne.
  { intros [_ Hx]%app_eq_nil. done. }
  assert (buffer_phase (P := P) limit AwaitingPrefix (encode_varint n ++ k :: b) = Panic) as Hp.
  { unfold buffer_phase. rewrite bool_decide_eq_false_2 by done.
    unfold awaiting_phase, read_bytes.
    rewrite peek_size_encode_varint by (unfold MAX_PACKET_SIZE; lia).
    rewrite read_bytes_inner_app; [|apply Forall_cons; split; [unfold is_byte; lia|done]|lia].
    unfold inner_spec.
    rewrite (proj2 (Z.leb_gt _ _)), (proj2 (Z.eqb_neq _ _)), (proj2 (Z.eqb_eq (k / 8) 1)) by dlia.
    rewrite (proj2 (Z.leb_le _ _)) by done. cbn [outcome_bind].
    rewrite Z.min_l by lia. unfold Forward_decode.
    rewrite (proj2 (Z.ltb_lt _ _)); [done|].
    rewrite zlen_ztake by lia. unfold Forward_header_size, KEY_SIZE, SESSION_ID_SIZE. lia. }
  simpl. rewrite bool_decide_eq_false_2 by done.
  destruct es; simpl; by rewrite Hp.
Qed.
End Decoding.

(** *** Witnesses *)

Import RawProst.

Definition sample_packet : PacketKind (list Z) := KPacket [8; 7].
Definition sample_stream_forward : PacketKind (list Z) := KForward sample_forward.

Lemma stream_codec_delivers_witness :
  exists outs,
    decoder_drain (P := list Z) 6 600 AwaitingPrefix []
      ([CBytes (take 10 (wires [sample_packet; sample_stream_forward])); CPending;
        CBytes (drop 10 (wires [sample_packet; sample_stream_forward]))] ++ [CEnd])
      = Ret (Some (map Ok outs)) /\
    Delivers [sample_packet; sample_stream_forward] outs.
Proof.
  apply (stream_codec_delivers 600 [sample_packet; sample_stream_forward]
    [CBytes (take 10 (wires [sample_packet; sample_stream_forward])); CPending;
     CBytes (drop 10 (wires [sample_packet; sample_stream_forward]))]).
  - unfold item_ok, Forward_wf, in_width, MAX_PACKET_SIZE.
    repeat (constructor; [|]); try apply Forall_nil; simpl;
      repeat split; try (vm_compute; congruence); try done;
      apply (bool_decide_unpack _); vm_compute; exact I.
  - repeat (apply Forall_cons; split); try apply Forall_nil; simpl; try exact I;
      (split; [vm_compute; congruence|apply (bool_decide_unpack _); vm_compute; exact I]).
  - vm_compute. reflexivity.
Defined.

Lemma skipped_message_stalls_witness :
  decoder_drain (P := list Z) 3 600 AwaitingPrefix []
    (CBytes (encode_varint (zlen [1; 2]) ++ [1; 2] ++ wire sample_packet) ::
     [CBytes (wire sample_packet)] ++ [CEnd]) = Ret (Some []).
Proof.
  apply (skipped_message_stalls 600 [1; 2] (wire sample_packet) [CBytes (wire sample_packet)]).
  - simpl. left. reflexivity.
  - apply (bool_decide_unpack _). vm_compute. exact I.
  - vm_compute. congruence.
  - apply (bool_decide_unpack _). vm_compute. exact I.
  - apply Forall_cons. split; [|by apply Forall_nil].
    split; [vm_compute; congruence|apply (bool_decide_unpack _); vm_compute; exact I].
Defined.

Lemma short_forward_panics_witness :
  DecoderStream_poll_first (P := list Z) 600 [CBytes (encode_varint 5 ++ 10 :: replicate 22 0)]
    = Panic.
Proof.
  apply (short_forward_panics 600 5 10 (replicate 22 0) []);
    [vm_compute; auto|lia|apply (bool_decide_unpack _); vm_compute; exact I|vm_compute; congruence].
Defined.
