(* ===== verification/Challenge.v ===== *)
(** [crates/core/src/challenge.rs] and [identity.rs]: the proof-of-work
    challenge of a handshake, the signatures over its solution that prove the
    node's identities, and the signatures that bind a session key to them.

    Hash functions and the signature scheme are third-party code: the classes
    [Hashes] and [EthSign] name what the sources call. *)

From S2P Require Import Prelude Proto.

(** A node id is a 20-byte address. *)
Abbreviation NodeId := (list Z).

Definition NodeId_default : NodeId := replicate 20 0.

(** [NodeId::try_from] on a byte slice. *)
Definition NodeId_try_from (bytes : list Z) : option NodeId :=
  if zlen bytes =? 20 then Some bytes else None.

Definition SIGNATURE_SIZE : Z := 65.
Definition CHALLENGE_PREFIX_SIZE : Z := 8.
Definition CHALLENGE_SIZE : Z := 16.
Definition CHALLENGE_DIFFICULTY : Z := 16.

(** ** Third-party cryptography *)

(** [hash] is the digest [D] the challenge is solved with. *)
Class Hashes : Type := {
  hash : list Z -> list Z;
  sha256 : list Z -> list Z }.

(** A digest is not empty. *)
Class HashesLaws `{Hashes} : Prop := {
  hash_nonempty m : 0 < zlen (hash m) }.

Class EthSign : Type := {
  PublicKey : Type;
  SecretKey : Type;
  pk_bytes : PublicKey -> list Z;
  pk_from_slice : list Z -> option PublicKey;
  pk_address : PublicKey -> NodeId;
  public_of : SecretKey -> PublicKey;
  eth_sign : SecretKey -> list Z -> Z * list Z * list Z;
  eth_recover : Z -> list Z -> list Z -> list Z -> option PublicKey }.

(** Recoverable ECDSA signatures: [r] and [s] are 32 bytes, and recovering
    from a signature gives the public key of the signer; keys round-trip
    through their byte form. *)
Class EthSignLaws `{EthSign} : Prop := {
  eth_recover_sign k m :
    eth_recover (eth_sign k m).1.1 (eth_sign k m).1.2 (eth_sign k m).2 m = Some (public_of k);
  eth_sign_r k m : zlen (eth_sign k m).1.2 = 32;
  eth_sign_s k m : zlen (eth_sign k m).2 = 32;
  pk_from_bytes pk : pk_from_slice (pk_bytes pk) = Some pk }.

Inductive ChallengeError : Type :=
| NoHashForDifficulty
| InvalidSolutionSize
| MissingChallengeResponse
| ChallengeVerificationFailed
| MissingSignature
| InvalidSignatureSize
| RecoverFailed
| InvalidDefaultNodeId
| InvalidProofCount
| SessionKeyDecode
| InvalidSessionKeySignature
| EmptyIdentities
| InvalidNodeId.

Section Challenge.
Context `{Hashes}.

Definition digest (nonce input : list Z) : list Z := hash (nonce ++ input).

(** [u8::leading_zeros]. *)
Definition u8_leading_zeros (b : Z) : Z := if b =? 0 then 8 else 7 - Z.log2 b.

Fixpoint leading_zeros (bytes : list Z) : Z :=
  match bytes with
  | [] => 0
  | b :: bytes => if b =? 0 then 8 + leading_zeros bytes else u8_leading_zeros b
  end.

(** The search loop; [None] when the fuel runs out. *)
Fixpoint solve_loop (fuel : nat) (counter : Z) (challenge : list Z) (difficulty : Z)
  : option (result (list Z) ChallengeError) :=
  match fuel with
  | O => None
  | S fuel =>
      let prefix := be_bytes 8 counter in
      let result := digest prefix challenge in
      if difficulty <=? leading_zeros result then Some (Ok (prefix ++ result))
      else
        match checked_add 64 counter 1 with
        | Some counter => solve_loop fuel counter challenge difficulty
        | None => Some (Err NoHashForDifficulty)
        end
  end.

Definition solve_challenge (fuel : nat) (challenge : list Z) (difficulty : Z) :=
  solve_loop fuel 0 challenge difficulty.

Definition verify (challenge : list Z) (difficulty : Z) (solution : list Z)
  : result bool ChallengeError :=
  if zlen solution <=? CHALLENGE_PREFIX_SIZE then Err InvalidSolutionSize
  else
    let prefix := ztake CHALLENGE_PREFIX_SIZE solution in
    let to_verify := zdrop CHALLENGE_PREFIX_SIZE solution in
    let expected := digest prefix challenge in
    let zeros := leading_zeros expected in
    Ok (bool_decide (expected = to_verify) && (difficulty <=? zeros)).

(** The ASCII bytes of [golem session key]. *)
Definition session_key_prefix : list Z :=
  [103; 111; 108; 101; 109; 32; 115; 101; 115; 115; 105; 111; 110; 32; 107; 101; 121].

Definition hash_session_key (session_pub_key : list Z) : list Z :=
  sha256 (session_key_prefix ++ session_pub_key).

(** ** Identities and signatures *)

Context `{EthSign}.

Record NodeIdentity : Type := { ni_node_id : NodeId; ni_public_key : PublicKey }.

(** [impl From<PublicKey> for Identity]. *)
Definition Identity_from (key : PublicKey) : NodeIdentity :=
  {| ni_node_id := pk_address key; ni_public_key := key |}.

(** [impl From<&Identity> for proto::Identity]. *)
Definition Identity_to_proto (i : NodeIdentity) : Identity :=
  {| id_public_key := pk_bytes (ni_public_key i); id_node_id := ni_node_id i |}.

(** [impl TryFrom<&proto::Identity> for Identity]. *)
Definition Identity_try_from (ident : Identity) : option NodeIdentity :=
  match pk_from_slice (id_public_key ident) with
  | None => None
  | Some public_key =>
      let node_id := pk_address public_key in
      if bool_decide (node_id = id_node_id ident)
      then Some {| ni_node_id := node_id; ni_public_key := public_key |}
      else None
  end.

(** [sign]: [v], then [r] and [s]. *)
Definition sign (message : list Z) (k : SecretKey) : list Z :=
  let '(v, r, s) := eth_sign k message in v :: r ++ s.

Definition recover (sig message : list Z) : result PublicKey ChallengeError :=
  if negb (zlen sig =? SIGNATURE_SIZE) then Err InvalidSignatureSize
  else
    match sig with
    | v :: rs =>
        match eth_recover v (ztake 32 rs) (zdrop 32 rs) message with
        | Some key => Ok key
        | None => Err RecoverFailed
        end
    | [] => Err InvalidSignatureSize
    end.

(** [solve], given the solution the search returned. *)
Definition solve (solution : list Z) (crypto : list SecretKey) (session_public_key : PublicKey)
  : ChallengeResponse :=
  let message := sha256 solution in
  let session_pub_key := pk_bytes session_public_key in
  {| cs_solution := solution;
     cs_signatures := map (sign message) crypto;
     cs_session_sign := map (sign (hash_session_key session_pub_key)) crypto;
     cs_session_pub_key := session_pub_key |}.

Definition verify_session_key (session_pub_key proof : list Z) (identity : NodeIdentity)
  : result unit ChallengeError :=
  let? id_key := recover proof (hash_session_key session_pub_key) in
  if bool_decide (pk_bytes id_key = pk_bytes (ni_public_key identity)) then Ok tt
  else Err InvalidSessionKeySignature.

(** [collect::<Result<Vec<_>, _>>] of the recovered identities. *)
Fixpoint recover_all (signatures : list (list Z)) (message : list Z)
  : result (list NodeIdentity) ChallengeError :=
  match signatures with
  | [] => Ok []
  | sig :: signatures =>
      let? key := recover sig message in
      let? ids := recover_all signatures message in
      Ok (Identity_from key :: ids)
  end.

(** The loop over the session key signatures. *)
Fixpoint check_proofs (session_pub_key : list Z) (pairs : list (list Z * NodeIdentity))
  (proofs : gmap NodeId (list Z)) : result (gmap NodeId (list Z)) ChallengeError :=
  match pairs with
  | [] => Ok proofs
  | (signature, identity) :: pairs =>
      let? _ := verify_session_key session_pub_key signature identity in
      check_proofs session_pub_key pairs (<[ni_node_id identity := signature]> proofs)
  end.

Definition recover_identities_from_challenge_with_proof
  (raw_challenge : list Z) (difficulty : Z) (response : option ChallengeResponse)
  (remote_id : option NodeId)
  : result (NodeId * list NodeIdentity * option (PublicKey * gmap NodeId (list Z)))
      ChallengeError :=
  let? response := ok_or response MissingChallengeResponse in
  let? verified := verify raw_challenge difficulty (cs_solution response) in
  if negb verified then Err ChallengeVerificationFailed else
  let message := sha256 (cs_solution response) in
  let? sig := ok_or (head (cs_signatures response)) MissingSignature in
  let? key := recover sig message in
  let default_ident := Identity_from key in
  let default_id := ni_node_id default_ident in
  if match remote_id with Some remote_id => bool_decide (default_id <> remote_id) | None => false end
  then Err InvalidDefaultNodeId else
  let? rest := recover_all (tail (cs_signatures response)) message in
  let identities := default_ident :: rest in
  if bool_decide (cs_session_sign response = []) then Ok (default_id, identities, None)
  else if negb (zlen (cs_session_sign response) =? zlen identities) then Err InvalidProofCount
  else
    let? session_pub_key := ok_or (pk_from_slice (cs_session_pub_key response)) SessionKeyDecode in
    let? proofs := check_proofs (cs_session_pub_key response)
                     (zip (cs_session_sign response) identities) ∅ in
    Ok (default_id, identities, Some (session_pub_key, proofs)).

Definition recover_identities_from_challenge
  (raw_challenge : list Z) (difficulty : Z) (response : option ChallengeResponse)
  (remote_id : option NodeId)
  : result (NodeId * list NodeIdentity * option PublicKey) ChallengeError :=
  let? (node_id, keys, pk) :=
    recover_identities_from_challenge_with_proof raw_challenge difficulty response remote_id in
  Ok (match pk with
      | Some (pk, _) => (node_id, keys, Some pk)
      | None => (node_id, keys, None)
      end).

Definition recover_default_node_id (request : request_Session) : result NodeId ChallengeError :=
  match head (rqs_identities request) with
  | Some identity => ok_or (NodeId_try_from (id_node_id identity)) InvalidNodeId
  | None => Err EmptyIdentities
  end.

(** [prepare_challenge] and its two wrappers, given the random challenge. *)
Definition prepare_challenge (difficulty : Z) (raw_challenge : list Z)
  : ChallengeRequest * list Z :=
  ({| cq_version := "0.0.1"; cq_caps := 0; cq_kind := 10; cq_difficulty := difficulty;
      cq_challenge := raw_challenge |}, raw_challenge).

Definition prepare_challenge_request (difficulty : Z) (raw_challenge : list Z)
  : request_Session * list Z :=
  let (challenge, raw) := prepare_challenge difficulty raw_challenge in
  ({| rqs_challenge_req := Some challenge; rqs_challenge_resp := None;
      rqs_supported_encryptions := []; rqs_identities := []; rqs_client_version := EmptyString |}, raw).

Definition prepare_challenge_response (difficulty : Z) (raw_challenge : list Z)
  : response_Session * list Z :=
  let (challenge, raw) := prepare_challenge difficulty raw_challenge in
  ({| rss_challenge_req := Some challenge; rss_challenge_resp := None;
      rss_supported_encryptions := []; rss_identities := [] |}, raw).

End Challenge.

(** ** Lemmas *)

Lemma leading_zeros_nonneg bs : bytes_ok bs -> 0 <= leading_zeros bs.
Proof.
  induction 1 as [|b bs Hb _ IH]; simpl; [lia|]. unfold u8_leading_zeros, is_byte in *.
  destruct (Z.eqb_spec b 0); [lia|].
  assert (Z.log2 b < 8) by (apply Z.log2_lt_pow2; lia). lia.
Qed.

(** [d] leading zero bits: the digest read as a number is below [2^(8 len - d)]. *)
Lemma leading_zeros_be_value bs d :
  bytes_ok bs -> 0 <= d <= 8 * zlen bs ->
  d <= leading_zeros bs <-> be_value bs < 2 ^ (8 * zlen bs - d).
Proof.
  intros Hok. revert d. induction Hok as [|b bs Hb Hbs IH]; intros d Hd.
  { assert (d = 0) as -> by zlia. split; [done|]. simpl. lia. }
  pose proof (be_value_bound bs Hbs) as Hv. pose proof (zlen_nonneg bs).
  rewrite be_value_cons, zlen_cons in *. unfold is_byte in Hb. simpl.
  replace (8 * (1 + zlen bs) - d) with (8 * zlen bs + (8 - d)) by lia.
  destruct (Z.eqb_spec b 0) as [->|Hb0].
  - rewrite Z.mul_0_l, Z.add_0_l. destruct (decide (d <= 8)).
    + pose proof (leading_zeros_nonneg bs Hbs). split; [intros _|lia].
      apply (Z.lt_le_trans _ (2 ^ (8 * zlen bs))); [lia|]. apply Z.pow_le_mono_r; lia.
    + replace (8 * zlen bs + (8 - d)) with (8 * zlen bs - (d - 8)) by lia.
      rewrite <- (IH (d - 8)) by lia. lia.
  - unfold u8_leading_zeros. rewrite (proj2 (Z.eqb_neq _ _)) by done.
    destruct (decide (d <= 8)).
    + rewrite Z.pow_add_r by lia.
      assert (d <= 7 - Z.log2 b <-> b < 2 ^ (8 - d)) as ->.
      { rewrite (Z.log2_lt_pow2 b (8 - d)) by lia. lia. }
      split; intros; nia.
    + assert (Z.log2 b >= 0) by (pose proof (Z.log2_nonneg b); lia).
      split; [lia|]. intros Hlt. exfalso.
      assert (2 ^ (8 * zlen bs + (8 - d)) <= 2 ^ (8 * zlen bs)) by (apply Z.pow_le_mono_r; lia).
      assert (1 * 2 ^ (8 * zlen bs) <= b * 2 ^ (8 * zlen bs)) by (apply Z.mul_le_mono_nonneg_r; lia).
      lia.
Qed.

Section SolveLemmas.
Context `{HashesLaws}.

Definition zeros_at (challenge : list Z) (counter : Z) : Z :=
  leading_zeros (digest (be_bytes 8 counter) challenge).

(** From [c] on, with one unit of fuel per counter left, the loop finds the
    least counter that works or runs through all 64-bit counters. *)
Lemma solve_loop_spec challenge difficulty fuel c :
  0 <= c < 2 ^ 64 -> 2 ^ 64 - c <= Z.of_nat fuel ->
  (exists k, c <= k < 2 ^ 64 /\ difficulty <= zeros_at challenge k /\
     (forall j, c <= j < k -> zeros_at challenge j < difficulty) /\
     solve_loop fuel c challenge difficulty
       = Some (Ok (be_bytes 8 k ++ digest (be_bytes 8 k) challenge))) \/
  ((forall j, c <= j < 2 ^ 64 -> zeros_at challenge j < difficulty) /\
     solve_loop fuel c challenge difficulty = Some (Err NoHashForDifficulty)).
Proof.
  revert c. induction fuel as [|fuel IH]; intros c Hc Hf; [lia|]. simpl.
  fold (zeros_at challenge c).
  destruct (Z.leb_spec difficulty (zeros_at challenge c)).
  { left. exists c. split; [lia|]. split; [done|]. split; [lia|done]. }
  unfold checked_add. destruct (Z.ltb_spec (c + 1) (2 ^ 64)).
  - destruct (IH (c + 1)) as [(k & Hk & Hd & Hj & Hs)|[Hj Hs]]; [lia|lia|left|right].
    + exists k. split; [lia|]. split; [done|]. split; [|done]. intros j Hj'.
      destruct (decide (j = c)) as [->|]; [done|]. apply Hj. lia.
    + split; [|done]. intros j Hj'. destruct (decide (j = c)) as [->|]; [done|]. apply Hj. lia.
  - right. split; [|done]. intros j Hj. by replace j with c by lia.
Qed.

Lemma verify_solution challenge difficulty k :
  difficulty <= zeros_at challenge k ->
  verify challenge difficulty (be_bytes 8 k ++ digest (be_bytes 8 k) challenge) = Ok true.
Proof.
  intros Hd. unfold verify, CHALLENGE_PREFIX_SIZE.
  pose proof (hash_nonempty (be_bytes 8 k ++ challenge)) as Hh.
  rewrite (proj2 (Z.leb_gt _ _)).
  2: { rewrite zlen_app, zlen_be_bytes. unfold digest. lia. }
  rewrite ztake_app_exact, zdrop_app_exact by by rewrite zlen_be_bytes.
  rewrite bool_decide_eq_true_2 by done. unfold zeros_at in Hd.
  by rewrite (proj2 (Z.leb_le _ _)).
Qed.
End SolveLemmas.

Section SignatureLemmas.
Context `{Hashes} `{EthSignLaws}.

Lemma recover_sign k m : recover (sign m k) m = Ok (public_of k).
Proof.
  unfold sign. pose proof (eth_recover_sign k m) as Hr. pose proof (eth_sign_r k m) as Hl.
  pose proof (eth_sign_s k m) as Hs.
  destruct (eth_sign k m) as [[v r] s]. simpl in *. unfold recover, SIGNATURE_SIZE.
  rewrite zlen_cons, zlen_app, Hl, Hs. simpl.
  rewrite ztake_app_exact, zdrop_app_exact by done. by rewrite Hr.
Qed.

Lemma recover_all_sign ks m :
  recover_all (map (sign m) ks) m = Ok (map (fun k => Identity_from (public_of k)) ks).
Proof.
  induction ks as [|k ks IH]; [done|]. simpl. rewrite recover_sign. simpl. by rewrite IH.
Qed.

(** The proof table of signers: the session key signature under each id. *)
Definition proof_table (spk : list Z) (ks : list SecretKey) (m0 : gmap NodeId (list Z))
  : gmap NodeId (list Z) :=
  foldl (fun m k => <[pk_address (public_of k) := sign (hash_session_key spk) k]> m) m0 ks.

Lemma check_proofs_sign spk ks m0 :
  check_proofs spk
    (zip (map (sign (hash_session_key spk)) ks) (map (fun k => Identity_from (public_of k)) ks)) m0
  = Ok (proof_table spk ks m0).
Proof.
  revert m0. induction ks as [|k ks IH]; intros m0; [done|]. simpl.
  unfold verify_session_key. rewrite recover_sign. simpl.
  rewrite bool_decide_eq_true_2 by done. simpl. apply IH.
Qed.
End SignatureLemmas.

Section RecoverLemmas.
Context `{Hashes} `{EthSign}.

Lemma recover_all_Forall2 sigs m ids :
  recover_all sigs m = Ok ids ->
  Forall2 (fun sig i => exists key, recover sig m = Ok key /\ i = Identity_from key) sigs ids.
Proof.
  revert ids. induction sigs as [|sig sigs IH]; intros ids Hr; simpl in Hr; [by simplify_eq|].
  destruct (recover sig m) as [key|] eqn:Ek; simpl in Hr; [|done].
  destruct (recover_all sigs m) as [ids'|]; simpl in Hr; [|done]. simplify_eq.
  constructor; [by exists key|]. by apply IH.
Qed.

(** Every accepted proof verifies, and the table holds a verified proof for
    each identity and for nothing else than what it held before. *)
Lemma check_proofs_spec spk pairs m0 m :
  check_proofs spk pairs m0 = Ok m ->
  Forall (fun p => verify_session_key spk p.1 p.2 = Ok tt) pairs /\
  dom m = dom m0 ∪ list_to_set (map (fun p => ni_node_id p.2) pairs) /\
  (forall n s, m !! n = Some s -> m0 !! n = Some s \/ exists i, (s, i) ∈ pairs /\ ni_node_id i = n).
Proof.
  revert m0. induction pairs as [|[sig i] pairs IH]; intros m0 Hc; simpl in Hc.
  { simplify_eq. split; [constructor|]. split; [by simpl; rewrite union_empty_r_L|]. auto. }
  destruct (verify_session_key spk sig i) as [[]|] eqn:Ev; simpl in Hc; [|done].
  destruct (IH _ Hc) as (Hf & Hd & Hl). split; [by constructor|]. split.
  - rewrite Hd, dom_insert_L. simpl. by rewrite union_assoc_L, (union_comm_L {[_]}).
  - intros n s Hn. destruct (Hl n s Hn) as [Hm|(j & Hj & Hjn)].
    + destruct (decide (ni_node_id i = n)) as [<-|].
      * rewrite lookup_insert_eq in Hm. simplify_eq. right. exists i. split; [left|done].
      * rewrite lookup_insert_ne in Hm by done. by left.
    + right. exists j. split; [by right|done].
Qed.
End RecoverLemmas.

(** *** What the operations guarantee *)

Lemma solve_challenge_total `{HashesLaws} (challenge : list Z) (difficulty : Z) :
  let candidate k := be_bytes 8 k ++ digest (be_bytes 8 k) challenge in
  exists r,
    (exists fuel0, forall fuel, (fuel0 <= fuel)%nat ->
       solve_challenge fuel challenge difficulty = Some r) /\
    match r with
    | Ok solution =>
        verify challenge difficulty solution = Ok true /\
        exists k, 0 <= k < 2 ^ 64 /\ solution = candidate k /\
          forall j, 0 <= j < k -> verify challenge difficulty (candidate j) = Ok false
    | Err e =>
        e = NoHashForDifficulty /\
        forall j, 0 <= j < 2 ^ 64 -> verify challenge difficulty (candidate j) = Ok false
    end.
Proof.
  intros candidate.
  assert (forall j, zeros_at challenge j < difficulty ->
    verify challenge difficulty (candidate j) = Ok false) as Hrej.
  { intros j Hj. unfold verify, candidate, CHALLENGE_PREFIX_SIZE.
    pose proof (hash_nonempty (be_bytes 8 j ++ challenge)).
    rewrite (proj2 (Z.leb_gt _ _)) by (rewrite zlen_app, zlen_be_bytes; unfold digest; lia).
    rewrite ztake_app_exact by by rewrite zlen_be_bytes. fold (zeros_at challenge j).
    rewrite (proj2 (Z.leb_gt _ _)) by done. by rewrite andb_false_r. }
  destruct (Z_of_nat_complete (2 ^ 64)) as [n0 Hn0]; [lia|].
  assert (forall fuel, (n0 <= fuel)%nat -> 2 ^ 64 - 0 <= Z.of_nat fuel) as Hfuel by lia.
  destruct (solve_loop_spec challenge difficulty n0 0)
    as [(k & Hk & Hd & Hj & _)|[Hj _]]; [lia|apply Hfuel; lia|..].
  - exists (Ok (candidate k)). split.
    + exists n0. intros fuel Hf%Hfuel.
      destruct (solve_loop_spec challenge difficulty fuel 0)
        as [(k' & Hk' & Hd' & Hj' & Hs)|[Hj' _]]; [lia|exact Hf| |].
      * unfold solve_challenge. rewrite Hs.
        assert (k' = k) as ->; [|done].
        destruct (Z.lt_trichotomy k k') as [Hlt|[->|Hlt]]; [|done|].
        -- specialize (Hj' k). lia.
        -- specialize (Hj k'). lia.
      * specialize (Hj' k). lia.
    + split; [exact (verify_solution challenge difficulty k Hd)|]. exists k. split; [lia|]. split; [done|].
      intros j Hj0. apply Hrej, Hj, Hj0.
  - exists (Err NoHashForDifficulty). split.
    + exists n0. intros fuel Hf%Hfuel.
      destruct (solve_loop_spec challenge difficulty fuel 0)
        as [(k' & Hk' & Hd' & _ & _)|[_ Hs]]; [lia|exact Hf| |exact Hs].
      specialize (Hj k'). lia.
    + split; [done|]. intros j Hj0. apply Hrej, Hj, Hj0.
Qed.

Lemma recover_proof_sound `{Hashes} `{EthSign}
  (raw : list Z) (difficulty : Z) (response : option ChallengeResponse)
  (remote_id : option NodeId) (id : NodeId) (ids : list NodeIdentity)
  (key : option (PublicKey * gmap NodeId (list Z))) :
  recover_identities_from_challenge_with_proof raw difficulty response remote_id
    = Ok (id, ids, key) ->
  exists resp, response = Some resp /\
    verify raw difficulty (cs_solution resp) = Ok true /\
    Forall2 (fun sig i => exists k, recover sig (sha256 (cs_solution resp)) = Ok k /\
               i = Identity_from k) (cs_signatures resp) ids /\
    (ni_node_id <$> head ids) = Some id /\
    (forall r, remote_id = Some r -> r = id) /\
    match key with
    | None => cs_session_sign resp = []
    | Some (pk, proofs) =>
        pk_from_slice (cs_session_pub_key resp) = Some pk /\
        length (cs_session_sign resp) = length ids /\
        Forall (fun p => verify_session_key (cs_session_pub_key resp) p.1 p.2 = Ok tt)
          (zip (cs_session_sign resp) ids) /\
        (forall n, n ∈ dom proofs <-> exists i, i ∈ ids /\ ni_node_id i = n) /\
        (forall n s, proofs !! n = Some s ->
           exists i, (s, i) ∈ zip (cs_session_sign resp) ids /\ ni_node_id i = n)
    end.
Proof.
  unfold recover_identities_from_challenge_with_proof. intros Hr.
  destruct response as [resp|]; simpl in Hr; [|done]. exists resp. split; [done|].
  destruct (verify _ _ _) as [[]|] eqn:Ev; simpl in Hr; try done. split; [done|].
  destruct (cs_signatures resp) as [|sig sigs]; simpl in Hr; [done|].
  destruct (recover sig _) as [k0|] eqn:Ek; simpl in Hr; [|done].
  destruct (match remote_id with Some _ => _ | None => _ end) eqn:Erid; [done|].
  destruct (recover_all sigs _) as [rest|] eqn:Ea; simpl in Hr; [|done].
  assert (forall r, remote_id = Some r -> r = pk_address k0) as Hrid.
  { intros r ->. apply bool_decide_eq_false in Erid. by apply dec_stable in Erid. }
  apply recover_all_Forall2 in Ea.
  case_bool_decide as Hse.
  { simplify_eq. split; [constructor; [by exists k0|done]|]. auto. }
  destruct (Z.eqb_spec (zlen (cs_session_sign resp)) (zlen (Identity_from k0 :: rest)))
    as [Hl|]; simpl in Hr; [|done].
  destruct (pk_from_slice _) as [pk|] eqn:Epk; simpl in Hr; [|done].
  destruct (check_proofs _ _ _) as [proofs|] eqn:Ec; simpl in Hr; [|done]. simplify_eq.
  split; [constructor; [by exists k0|done]|]. split; [done|]. split; [done|].
  split; [done|]. apply Nat2Z.inj in Hl. split; [done|].
  apply check_proofs_spec in Ec as (Hf & Hd & Hm). split; [done|]. split.
  - intros n. rewrite Hd. clear Hf Hm.
    assert (map (fun p => ni_node_id p.2) (zip (cs_session_sign resp) (Identity_from k0 :: rest))
      = map ni_node_id (Identity_from k0 :: rest)) as ->.
    { rewrite <- (map_map snd ni_node_id). f_equal. apply (snd_zip (cs_session_sign resp)). lia. }
    rewrite elem_of_union, dom_empty_L, elem_of_list_to_set, list_elem_of_In, in_map_iff.
    split; [intros [[]%not_elem_of_empty|(i & Hi & Hin)]|intros (i & Hin & Hi)].
    + exists i. by rewrite list_elem_of_In.
    + right. exists i. by rewrite <- list_elem_of_In.
  - intros n s Hn. destruct (Hm n s Hn) as [Hn'|Hn']; [by rewrite lookup_empty in Hn'|done].
Qed.

(** An honest handshake is accepted.  The response built by [solve] from a
    solution that verifies, by a node with a default key and any number of
    further keys, is accepted for the node's own default id, with its
    identities in order and the session key with the proofs of all of them. *)
Lemma solve_response_accepted `{Hashes} `{EthSignLaws}
  (raw : list Z) (difficulty : Z) (solution : list Z) (k : SecretKey) (ks : list SecretKey)
  (spk : PublicKey) :
  verify raw difficulty solution = Ok true ->
  recover_identities_from_challenge_with_proof raw difficulty
    (Some (solve solution (k :: ks) spk)) (Some (pk_address (public_of k)))
  = Ok (pk_address (public_of k), map (fun k => Identity_from (public_of k)) (k :: ks),
        Some (spk, proof_table (pk_bytes spk) (k :: ks) ∅)).
Proof.
  intros Hv. unfold recover_identities_from_challenge_with_proof, solve.
  cbn [ok_or result_bind cs_solution cs_signatures cs_session_sign cs_session_pub_key].
  rewrite Hv. cbn [result_bind negb map head tail ok_or].
  rewrite recover_sign. cbn [result_bind ni_node_id Identity_from].
  rewrite bool_decide_eq_false_2 by (intros Hc; by apply Hc).
  rewrite recover_all_sign. cbn [result_bind].
  rewrite bool_decide_eq_false_2 by done.
  rewrite !zlen_cons. unfold zlen at 1 2. rewrite !length_map, Z.eqb_refl.
  cbn [negb]. rewrite pk_from_bytes. cbn [ok_or result_bind].
  pose proof (check_proofs_sign (pk_bytes spk) (k :: ks) ∅) as Hc.
  cbn [map] in Hc. rewrite Hc. done.
Qed.

(** ** Properties *)

Section Properties.

(** C37: the proof-of-work search terminates within the 64-bit counters.  It
    returns the candidate of the least counter that [verify] accepts, or the
    error when no 64-bit counter gives an accepted candidate; more fuel never
    changes the result. *)
Theorem solve_challenge_correct `{HashesLaws} (challenge : list Z) (difficulty : Z) :
  let candidate k := be_bytes 8 k ++ digest (be_bytes 8 k) challenge in
  exists r,
    (exists fuel0, forall fuel, (fuel0 <= fuel)%nat ->
       solve_challenge fuel challenge difficulty = Some r) /\
    match r with
    | Ok solution =>
        verify challenge difficulty solution = Ok true /\
        exists k, 0 <= k < 2 ^ 64 /\ solution = candidate k /\
          forall j, 0 <= j < k -> verify challenge difficulty (candidate j) = Ok false
    | Err e =>
        e = NoHashForDifficulty /\
        forall j, 0 <= j < 2 ^ 64 -> verify challenge difficulty (candidate j) = Ok false
    end.
Proof. apply solve_challenge_total. Qed.

(** [difficulty] counts leading zero bits: an accepted solution carries the
    digest of its own prefix and the challenge, and that digest, read as a
    big-endian number, is below [2^(bits - difficulty)]. *)
Theorem verify_means_leading_zeros `{Hashes} (challenge : list Z) (difficulty : Z) (solution : list Z) :
  bytes_ok (zdrop 8 solution) -> 0 <= difficulty <= 8 * zlen (zdrop 8 solution) ->
  verify challenge difficulty solution = Ok true <->
    8 < zlen solution /\ zdrop 8 solution = hash (ztake 8 solution ++ challenge) /\
    be_value (zdrop 8 solution) < 2 ^ (8 * zlen (zdrop 8 solution) - difficulty).
Proof.
  intros Hok Hd. unfold verify, CHALLENGE_PREFIX_SIZE, digest.
  destruct (Z.leb_spec (zlen solution) 8); [split; [done|lia]|].
  rewrite <- leading_zeros_be_value by done. split.
  - intros [= [Hb%bool_decide_eq_true Hz%Z.leb_le]%andb_true_iff].
    rewrite <- Hb in *. auto with lia.
  - intros (_ & Heq & Hz). rewrite <- Heq, bool_decide_eq_true_2 by done.
    by rewrite (proj2 (Z.leb_le _ _)).
Qed.

(** C19: nothing is accepted from a challenge response without proof.  When
    identities are recovered, the response solves the challenge, every identity
    is the signer of one signature over the solution (in order, the first one
    being the returned default id, which is the expected remote id when there
    is one), and a returned session key comes with one valid signature of each
    identity over that key, collected under the identity's node id. *)
Theorem recover_identities_sound `{Hashes} `{EthSign}
  (raw : list Z) (difficulty : Z) (response : option ChallengeResponse)
  (remote_id : option NodeId) (id : NodeId) (ids : list NodeIdentity)
  (key : option (PublicKey * gmap NodeId (list Z))) :
  recover_identities_from_challenge_with_proof raw difficulty response remote_id
    = Ok (id, ids, key) ->
  exists resp, response = Some resp /\
    verify raw difficulty (cs_solution resp) = Ok true /\
    Forall2 (fun sig i => exists k, recover sig (sha256 (cs_solution resp)) = Ok k /\
               i = Identity_from k) (cs_signatures resp) ids /\
    (ni_node_id <$> head ids) = Some id /\
    (forall r, remote_id = Some r -> r = id) /\
    match key with
    | None => cs_session_sign resp = []
    | Some (pk, proofs) =>
        pk_from_slice (cs_session_pub_key resp) = Some pk /\
        length (cs_session_sign resp) = length ids /\
        Forall (fun p => verify_session_key (cs_session_pub_key resp) p.1 p.2 = Ok tt)
          (zip (cs_session_sign resp) ids) /\
        (forall n, n ∈ dom proofs <-> exists i, i ∈ ids /\ ni_node_id i = n) /\
        (forall n s, proofs !! n = Some s ->
           exists i, (s, i) ∈ zip (cs_session_sign resp) ids /\ ni_node_id i = n)
    end.
Proof. apply recover_proof_sound. Qed.

End Properties.

(** *** Witnesses *)

(** A toy instance of the cryptography: one-byte checksums as digests, keys
    that are numbers, signatures that carry the key. *)
Module ToyCrypto.

#[export] Instance toy_hashes : Hashes := {
  hash m := [fold_left Z.add m 0 mod 256];
  sha256 m := be_bytes 32 (fold_left Z.add m 0) }.

#[export] Instance toy_hashes_laws : HashesLaws.
Proof. split. intros m. done. Qed.

#[export] Instance toy_sign : EthSign := {
  PublicKey := Z;
  SecretKey := Z;
  pk_bytes k := [k];
  pk_from_slice b := head b;
  pk_address k := replicate 20 k;
  public_of k := k;
  eth_sign k m := (k, replicate 32 0, replicate 32 0);
  eth_recover v r s m := Some v }.

#[export] Instance toy_sign_laws : EthSignLaws.
Proof. by split. Qed.

Definition toy_key (k : Z) : SecretKey := k.
Definition toy_session_key : PublicKey := 99.

(** Counter 0 of this challenge already gives a digest with 5 zero bits. *)
Definition toy_raw : list Z := [3; 4].
Definition toy_solution : list Z := be_bytes 8 0 ++ [7].
Definition toy_response : ChallengeResponse := solve toy_solution [toy_key 11; toy_key 12] toy_session_key.
End ToyCrypto.

Import ToyCrypto.

Lemma solve_challenge_correct_witness :
  let candidate k := be_bytes 8 k ++ digest (be_bytes 8 k) toy_raw in
  exists r,
    (exists fuel0, forall fuel, (fuel0 <= fuel)%nat -> solve_challenge fuel toy_raw 5 = Some r) /\
    match r with
    | Ok solution =>
        verify toy_raw 5 solution = Ok true /\
        exists k, 0 <= k < 2 ^ 64 /\ solution = candidate k /\
          forall j, 0 <= j < k -> verify toy_raw 5 (candidate j) = Ok false
    | Err e =>
        e = NoHashForDifficulty /\
        forall j, 0 <= j < 2 ^ 64 -> verify toy_raw 5 (candidate j) = Ok false
    end.
Proof. exact (solve_challenge_correct toy_raw 5). Defined.

Lemma verify_means_leading_zeros_witness :
  verify toy_raw 5 toy_solution = Ok true <->
    8 < zlen toy_solution /\ zdrop 8 toy_solution = hash (ztake 8 toy_solution ++ toy_raw) /\
    be_value (zdrop 8 toy_solution) < 2 ^ (8 * zlen (zdrop 8 toy_solution) - 5).
Proof.
  apply (verify_means_leading_zeros toy_raw 5 toy_solution).
  - apply (bool_decide_unpack _). vm_compute. exact I.
  - vm_compute. split; discriminate.
Defined.

Lemma recover_identities_sound_witness :
  verify toy_raw 5 (cs_solution toy_response) = Ok true.
Proof.
  assert (is_ok (recover_identities_from_challenge_with_proof toy_raw 5 (Some toy_response) None)
    = true) as Hok by (vm_compute; reflexivity).
  destruct (recover_identities_from_challenge_with_proof toy_raw 5 (Some toy_response) None)
    as [[[id ids] key]|e] eqn:E; [|discriminate Hok].
  destruct (recover_identities_sound toy_raw 5 (Some toy_response) None id ids key E)
    as (resp & Hr & Hv & _).
  injection Hr as <-. exact Hv.
Defined.

