(* ===== verification/NodeInfo.v ===== *)
(** [crates/core/src/server_session.rs]: session ids, the history of seen
    request ids, and the information about a node that a client accepts from a
    relay server, with the authentication of the node's identities. *)

From stdpp Require Import pretty.
From S2P Require Import Prelude Proto Challenge.

(** ** Session ids *)

(** A session id is 16 bytes. *)
Abbreviation SessionId := (list Z).

(** [TryFrom<&[u8]>]. *)
Definition SessionId_try_from (session : list Z) : option SessionId :=
  if zlen session =? SESSION_ID_SIZE then Some session else None.

(** [from_wire]: no id, an id, or an error. *)
Definition SessionId_from_wire (bytes : list Z) : option (option SessionId) :=
  if bool_decide (bytes = []) then Some None
  else Some <$> SessionId_try_from bytes.

(** ** Request history *)

Record RequestHistory : Type := { rh_capacity : Z; rh_ids : list Z }.

Definition RequestHistory_new (capacity : Z) : RequestHistory :=
  {| rh_capacity := capacity; rh_ids := [] |}.

Definition RequestHistory_push (h : RequestHistory) (request_id : Z) : RequestHistory :=
  let ids := if zlen (rh_ids h) =? rh_capacity h then tail (rh_ids h) else rh_ids h in
  {| rh_capacity := rh_capacity h; rh_ids := ids ++ [request_id] |}.

Definition RequestHistory_contains (h : RequestHistory) (request_id : Z) : bool :=
  bool_decide (request_id ∈ rh_ids h).

(** ** Node information *)

(** [server_session::Endpoint]. *)
Record NodeEndpoint : Type := { ne_protocol : Z; ne_address : SocketAddr }.

(** The values of the [Protocol] enumeration. *)
Definition Protocol_try_from (p : Z) : option Z :=
  if (p =? 0) || (p =? 6) || (p =? 17) then Some p else None.

Inductive NodeInfoError : Type :=
| NIIdentity
| NINoIdentities
| NIProofCount
| NIProof (e : ChallengeError)
| NIMissingDefaultProof
| NISessionKey
| NIEndpoint.

Section NodeInfo.
Context `{Hashes} `{EthSign} `{IpText}.

(** [TryFrom<proto::Endpoint> for Endpoint]: [address:port] is parsed as a
    socket address. *)
Definition Endpoint_try_from (endpoint : Endpoint) : option NodeEndpoint :=
  match sock_from_str (ep_address endpoint +:+ ":" +:+ pretty (ep_port endpoint)) with
  | None => None
  | Some address =>
      match Protocol_try_from (ep_protocol endpoint) with
      | None => None
      | Some protocol => Some {| ne_protocol := protocol; ne_address := address |}
      end
  end.

(** [From<Endpoint> for proto::Endpoint]. *)
Definition Endpoint_to_proto (e : NodeEndpoint) : Endpoint :=
  {| ep_protocol := ne_protocol e; ep_address := ip_to_string (sa_ip (ne_address e));
     ep_port := sa_port (ne_address e) |}.

Record NodeInfo : Type := {
  nf_identities : list NodeIdentity;
  nf_authenticated : list NodeId;
  nf_slot : Z;
  nf_endpoints : list NodeEndpoint;
  nf_supported_encryption : list string;
  nf_session_key : option PublicKey }.

(** [default_node_id]: unwraps the first identity. *)
Definition NodeInfo_default_node_id (i : NodeInfo) : outcome NodeId :=
  match nf_identities i with
  | ident :: _ => Ret (ni_node_id ident)
  | [] => Panic
  end.

(** The loop over the proofs of the identities. *)
Fixpoint authenticate (session_pub_key : list Z) (pairs : list (NodeIdentity * list Z))
  (acc : list NodeId) : result (list NodeId) NodeInfoError :=
  match pairs with
  | [] => Ok acc
  | (identity, proof) :: pairs =>
      if bool_decide (proof = []) then authenticate session_pub_key pairs acc
      else
        let? _ := map_err NIProof (verify_session_key session_pub_key proof identity) in
        authenticate session_pub_key pairs
          (if bool_decide (ni_node_id identity ∈ acc) then acc else acc ++ [ni_node_id identity])
  end.

(** The part of [try_from] that establishes the session key. *)
Definition node_session_key (value : response_Node) (identities : list NodeIdentity)
  (default_identity : NodeIdentity) : result (list NodeId * option PublicKey) NodeInfoError :=
  if bool_decide (rn_session_pub_key value = []) then Ok ([], None)
  else if negb (bool_decide (rn_session_key_proofs value = [])) &&
          negb (zlen (rn_session_key_proofs value) =? zlen identities)
  then Err NIProofCount
  else
    let? acc :=
      (if bool_decide (rn_session_key_proof value = []) then Ok []
       else
         let? _ := map_err NIProof
           (verify_session_key (rn_session_pub_key value) (rn_session_key_proof value)
              default_identity) in
         Ok [ni_node_id default_identity]) in
    let? acc := authenticate (rn_session_pub_key value)
                  (zip identities (rn_session_key_proofs value)) acc in
    if negb (bool_decide (ni_node_id default_identity ∈ acc)) then Err NIMissingDefaultProof
    else
      let? key := ok_or (pk_from_slice (rn_session_pub_key value)) NISessionKey in
      Ok (acc, Some key).

Definition NodeInfo_try_from (value : response_Node) : result NodeInfo NodeInfoError :=
  let? identities := ok_or (mapM Identity_try_from (rn_identities value)) NIIdentity in
  let? default_identity := ok_or (head identities) NINoIdentities in
  let? (authenticated, session_key) := node_session_key value identities default_identity in
  let? endpoints := ok_or (mapM Endpoint_try_from (rn_endpoints value)) NIEndpoint in
  Ok {| nf_identities := identities; nf_authenticated := authenticated;
        nf_slot := rn_slot value; nf_endpoints := endpoints;
        nf_supported_encryption := rn_supported_encryptions value;
        nf_session_key := session_key |}.

(** ** Lemmas *)

(** An id may be authenticated when an identity with that id proved the key. *)
Definition proved (spk : list Z) (identities : list NodeIdentity) (n : NodeId) : Prop :=
  exists i proof, i ∈ identities /\ ni_node_id i = n /\ verify_session_key spk proof i = Ok tt.

Lemma authenticate_spec spk pairs acc acc' :
  authenticate spk pairs acc = Ok acc' ->
  NoDup acc ->
  NoDup acc' /\ acc ⊆ acc' /\
  (forall n, n ∈ acc' -> n ∈ acc \/ proved spk (map fst pairs) n) /\
  (forall i p, (i, p) ∈ pairs -> p <> [] ->
     verify_session_key spk p i = Ok tt /\ ni_node_id i ∈ acc').
Proof.
  revert acc. induction pairs as [|[i p] pairs IH]; intros acc Ha Hnd; simpl in Ha.
  { simplify_eq. split; [done|]. split; [done|]. split; [auto|]. by intros ? ? ?%not_elem_of_nil. }
  assert (forall n, proved spk (map fst pairs) n -> proved spk (map fst ((i, p) :: pairs)) n)
    as Hmono.
  { intros n (j & q & Hj & Hn & Hq). exists j, q. split; [by right|done]. }
  case_bool_decide as Hp.
  - destruct (IH acc Ha Hnd) as (Hn & Hs & Hpr & Hall). split; [done|]. split; [done|].
    split; [intros n Hin; destruct (Hpr n Hin); eauto|].
    intros j q [Heq|Hin]%elem_of_cons Hq; [by simplify_eq|]. by apply Hall.
  - destruct (verify_session_key spk p i) as [[]|] eqn:Ev; simpl in Ha; [|done].
    apply IH in Ha as (Hn & Hs & Hpr & Hall).
    2: { case_bool_decide; [done|]. apply NoDup_app. split; [done|].
         split; [|apply NoDup_singleton]. intros x Hx ->%list_elem_of_singleton. done. }
    assert (ni_node_id i ∈ acc') as Hi.
    { apply Hs. case_bool_decide; [done|]. apply elem_of_app. right. by apply list_elem_of_singleton. }
    split; [done|]. split; [|split].
    + intros x Hx. apply Hs. case_bool_decide; [done|]. apply elem_of_app. by left.
    + intros n Hin. destruct (Hpr n Hin) as [Hin'|]; [|eauto].
      case_bool_decide; [by left|]. apply elem_of_app in Hin' as [?|Hin'%list_elem_of_singleton]; [by left|].
      subst n.
      right. exists i, p. split; [by left|done].
    + intros j q [Heq|Hin]%elem_of_cons Hq; [by simplify_eq|]. by apply Hall.
Qed.

End NodeInfo.

Lemma RequestHistory_push_all h ids :
  0 < rh_capacity h -> zlen (rh_ids h) <= rh_capacity h ->
  rh_ids (foldl RequestHistory_push h ids)
    = zdrop (zlen (rh_ids h ++ ids) - rh_capacity h) (rh_ids h ++ ids) /\
  rh_capacity (foldl RequestHistory_push h ids) = rh_capacity h.
Proof.
  revert h. induction ids as [|x ids IH]; intros h Hc Hl; simpl.
  - rewrite app_nil_r. split; [|done]. unfold zdrop.
    replace (Z.to_nat (zlen (rh_ids h) - rh_capacity h)) with 0%nat by lia. done.
  - destruct (IH (RequestHistory_push h x)) as [IH1 IH2].
    { done. }
    { unfold RequestHistory_push. simpl. rewrite zlen_app.
      destruct (Z.eqb_spec (zlen (rh_ids h)) (rh_capacity h)); [|zlen_simpl; zlia].
      destruct (rh_ids h); simpl; zlen_simpl; zlia. }
    rewrite IH1, IH2. split; [|done]. clear IH IH1 IH2. unfold RequestHistory_push. simpl.
    destruct (Z.eqb_spec (zlen (rh_ids h)) (rh_capacity h)) as [E|E].
    + destruct (rh_ids h) as [|y l]; [simpl in *; zlia|]. simpl tail.
      rewrite <- app_assoc. simpl. rewrite !zlen_cons, !zlen_app, !zlen_cons in *.
      unfold zdrop.
      replace (Z.to_nat (1 + (zlen l + (1 + zlen ids)) - rh_capacity h))
        with (S (Z.to_nat (zlen l + (1 + zlen ids) - rh_capacity h))) by zlia.
      done.
    + rewrite <- app_assoc. done.
Qed.

Lemma RequestHistory_push_all_0 h ids :
  rh_capacity h = 0 -> rh_ids (foldl RequestHistory_push h ids) = rh_ids h ++ ids.
Proof.
  revert h. induction ids as [|x ids IH]; intros h Hc; simpl; [by rewrite app_nil_r|].
  rewrite IH by done. unfold RequestHistory_push. simpl. rewrite Hc.
  destruct (Z.eqb_spec (zlen (rh_ids h)) 0) as [E%zlen_0|]; [|by rewrite <- app_assoc].
  by rewrite E.
Qed.

(** ** Properties *)

(** The request history of capacity [c] holds exactly the last [c] pushed
    ids, so a repeated request is recognised as long as fewer than [c] others
    came in between; a history of capacity 0 is the exception, it never forgets
    and grows with every push. *)
Theorem request_history_window (capacity : Z) (ids : list Z) (id : Z) :
  0 <= capacity ->
  RequestHistory_contains (foldl RequestHistory_push (RequestHistory_new capacity) ids) id
  = bool_decide (id ∈ (if capacity =? 0 then ids else zdrop (zlen ids - capacity) ids)).
Proof.
  intros Hc. unfold RequestHistory_contains. destruct (Z.eqb_spec capacity 0) as [->|].
  - by rewrite RequestHistory_push_all_0.
  - destruct (RequestHistory_push_all (RequestHistory_new capacity) ids) as [-> _];
      [simpl; lia|done|]. done.
Qed.

(** C38: a client trusts a node's identities only on proof.  When the
    description of a node is accepted, every identity is the address of its
    public key; the authenticated ids are without duplicates and each belongs to
    an identity whose signature over the session key was verified, and every
    proof that was sent has been checked; a session key is taken over only if
    the default identity is among the authenticated ones, and without a session
    key no id is authenticated. *)
Theorem node_info_authenticated `{Hashes} `{EthSign} `{IpText}
  (value : response_Node) (info : NodeInfo) :
  NodeInfo_try_from value = Ok info ->
  Forall (fun i => ni_node_id i = pk_address (ni_public_key i)) (nf_identities info) /\
  NoDup (nf_authenticated info) /\
  (forall n, n ∈ nf_authenticated info ->
     proved (rn_session_pub_key value) (nf_identities info) n) /\
  match nf_session_key info with
  | None => nf_authenticated info = []
  | Some key =>
      pk_from_slice (rn_session_pub_key value) = Some key /\
      (forall i p, (i, p) ∈ zip (nf_identities info) (rn_session_key_proofs value) -> p <> [] ->
         verify_session_key (rn_session_pub_key value) p i = Ok tt) /\
      exists d, head (nf_identities info) = Some d /\
        NodeInfo_default_node_id info = Ret (ni_node_id d) /\
        ni_node_id d ∈ nf_authenticated info
  end.
Proof.
  unfold NodeInfo_try_from, node_session_key. intros Ht.
  destruct (mapM Identity_try_from (rn_identities value)) as [ids|] eqn:Em; simpl in Ht; [|done].
  destruct ids as [|d ids]; simpl in Ht; [done|].
  assert (Forall (fun i => ni_node_id i = pk_address (ni_public_key i)) (d :: ids)) as Hids.
  { apply mapM_Some in Em. clear Ht. revert Em. generalize (rn_identities value) as l.
    induction (d :: ids) as [|i is_ IHi]; intros l Hl; [constructor|].
    inversion Hl as [|x ? l' ? Hx Hl']; subst. constructor; [|by eapply IHi].
    unfold Identity_try_from in Hx. case_match; [|done]. case_bool_decide; [|done]. by simplify_eq. }
  case_bool_decide as Hpk.
  { simpl in Ht. destruct (mapM Endpoint_try_from _); simpl in Ht; [|done]. simplify_eq. simpl.
    split; [done|]. split; [constructor|]. split; [by intros ? ?%not_elem_of_nil|done]. }
  case_match_hyp Ht; [done|].
  destruct (if bool_decide _ then Ok [] else _) as [acc0|] eqn:Eacc; simpl in Ht; [|done].
  assert (NoDup acc0 /\ forall n, n ∈ acc0 -> proved (rn_session_pub_key value) (d :: ids) n)
    as [Hnd0 Hp0].
  { case_bool_decide; [simplify_eq; split; [constructor|by intros ? ?%not_elem_of_nil]|].
    destruct (verify_session_key _ _ _) as [[]|] eqn:Ev; simpl in Eacc; [|done]. simplify_eq.
    split; [apply NoDup_singleton|]. intros n ->%list_elem_of_singleton.
    exists d, (rn_session_key_proof value). split; [by left|done]. }
  destruct (authenticate _ _ _) as [acc|] eqn:Ea; simpl in Ht; [|done].
  apply authenticate_spec in Ea as (Hnd & _ & Hp & Hall); [|done].
  case_bool_decide as Hd; simpl in Ht; [|done].
  destruct (pk_from_slice _) as [key|] eqn:Ek; simpl in Ht; [|done].
  destruct (mapM Endpoint_try_from _); simpl in Ht; [|done]. simplify_eq. simpl.
  split; [done|]. split; [done|]. split.
  - intros n Hn. destruct (Hp n Hn) as [?|(i & p & Hi & Hin & Hv)]; [by apply Hp0|].
    exists i, p. split; [|done]. apply list_elem_of_In, in_map_iff in Hi as ([j q] & <- & Hjq).
    apply list_elem_of_In in Hjq.
    exact (elem_of_zip_l j q (d :: ids) (rn_session_key_proofs value) Hjq).
  - split; [done|]. split; [intros i p Hin Hne; by apply (Hall i p)|].
    exists d. split; [done|]. split; done.
Qed.

(** *** Witnesses *)

Import ToyCrypto.

Module ToyIp.
(** Addresses that are all printed and read as the same text. *)
#[export] Instance toy_ip : IpText := {
  ip_to_string _ := "0.0.0.0";
  ip_from_str _ := Some (IpV4 0);
  sock_from_str _ := Some {| sa_ip := IpV4 0; sa_port := 0 |} }.
End ToyIp.

Import ToyIp.

Definition toy_node : response_Node :=
  {| rn_identities := [{| id_public_key := [11]; id_node_id := replicate 20 11 |};
                       {| id_public_key := [12]; id_node_id := replicate 20 12 |}];
     rn_endpoints := []; rn_seen_ts := 0; rn_slot := 3; rn_supported_encryptions := [];
     rn_session_pub_key := [99];
     rn_session_key_proof := sign (hash_session_key [99]) (toy_key 11);
     rn_session_key_proofs := [sign (hash_session_key [99]) (toy_key 11); []] |}.

Lemma request_history_window_witness :
  RequestHistory_contains (foldl RequestHistory_push (RequestHistory_new 2) [5; 6; 7]) 5
  = bool_decide (5 ∈ (if 2 =? 0 then [5; 6; 7] else zdrop (zlen [5; 6; 7] - 2) [5; 6; 7])).
Proof. apply (request_history_window 2 [5; 6; 7] 5). lia. Defined.

Lemma node_info_authenticated_witness :
  exists info, NodeInfo_try_from toy_node = Ok info /\ nf_authenticated info = [replicate 20 11] /\
    forall n, n ∈ nf_authenticated info ->
      proved (rn_session_pub_key toy_node) (nf_identities info) n.
Proof.
  eexists. split; [vm_compute; reflexivity|]. split; [reflexivity|].
  exact (proj1 (proj2 (proj2 (node_info_authenticated toy_node _ eq_refl)))).
Defined.
