(* ===== verification/SlotManager.v ===== *)
(** [server/src/state/slot_manager.rs]: the numbering of nodes by slots, with
    its save file.  [load] reads the file through a [BufReader] of the standard
    library, whose buffer of 8192 bytes is part of the model. *)

From S2P Require Import Prelude Challenge.

(** The lock-protected [Inner]. *)
Record SlotManager : Type := { sm_nodes : gmap NodeId Z; sm_slots : list NodeId }.

Definition SlotManager_new : SlotManager :=
  {| sm_nodes := {[NodeId_default := 0]}; sm_slots := [NodeId_default] |}.

(** [slot]: the slot of a node, assigned on first use. *)
Definition SlotManager_slot (m : SlotManager) (node_id : NodeId) : Z * SlotManager :=
  match sm_nodes m !! node_id with
  | Some slot_id => (slot_id, m)
  | None =>
      let slot_id := wrap 32 (zlen (sm_slots m)) in
      (slot_id, {| sm_nodes := <[node_id := slot_id]> (sm_nodes m);
                   sm_slots := sm_slots m ++ [node_id] |})
  end.

Definition SlotManager_node (m : SlotManager) (slot : Z) : option NodeId :=
  if 0 <=? slot then sm_slots m !! Z.to_nat slot else None.

Definition SlotManager_len (m : SlotManager) : Z := zlen (sm_slots m).

(** [save]: the bytes of the slots, in order. *)
Definition SlotManager_save (m : SlotManager) : list Z := concat (sm_slots m).

(** ** Loading *)

(** The default capacity of [BufReader]. *)
Definition BUF_SIZE : Z := 8192.

(** [BufReader::read] into a buffer of [n] bytes ([n] below the capacity): an
    empty internal buffer is refilled from the file, and what the internal
    buffer holds, up to [n] bytes, is returned. *)
Definition bufread (n : Z) (buf file : list Z) : list Z * list Z * list Z :=
  let '(buf, file) :=
    if bool_decide (buf = []) then (ztake BUF_SIZE file, zdrop BUF_SIZE file) else (buf, file) in
  (ztake n buf, zdrop n buf, file).
Arguments bufread : simpl never.

Inductive LoadError : Type := WrongFileSize.

(** The read loop; [None] when the fuel runs out. *)
Fixpoint load_loop (fuel : nat) (buf file : list Z) (slots : list NodeId)
  : option (result (list NodeId) LoadError) :=
  match fuel with
  | O => None
  | S fuel =>
      let '(data, buf, file) := bufread 20 buf file in
      if zlen data =? 0 then Some (Ok slots)
      else if negb (zlen data =? 20) then Some (Err WrongFileSize)
      else load_loop fuel buf file (slots ++ [data])
  end.

(** Collecting [(node_id, idx)] pairs into a map: a later pair replaces an
    earlier one. *)
Definition number_nodes (slots : list NodeId) : gmap NodeId Z :=
  foldl (fun m p => <[p.2 := wrap 32 (Z.of_nat p.1)]> m) ∅ (imap (fun i n => (i, n)) slots).

Definition SlotManager_load (fuel : nat) (file : list Z) : option (result SlotManager LoadError) :=
  match load_loop fuel [] file [] with
  | Some (Ok slots) => Some (Ok {| sm_nodes := number_nodes slots; sm_slots := slots |})
  | Some (Err e) => Some (Err e)
  | None => None
  end.

(** ** Invariant *)

(** The two tables are inverse to each other, slots fit 32 bits and node ids
    are 20 bytes. *)
Record sm_inv (m : SlotManager) : Prop := {
  inv_inverse n i :
    sm_nodes m !! n = Some i <-> 0 <= i /\ sm_slots m !! Z.to_nat i = Some n;
  inv_fits : zlen (sm_slots m) <= 2 ^ 32;
  inv_len : Forall (fun n => zlen n = 20) (sm_slots m) }.

(** Steps of the manager: assigning slots. *)
Inductive sm_step : SlotManager -> SlotManager -> Prop :=
| sm_step_slot m n :
    zlen n = 20 -> zlen (sm_slots m) < 2 ^ 32 -> sm_step m (SlotManager_slot m n).2.

(** ** Lemmas *)

Lemma SlotManager_new_inv : sm_inv SlotManager_new.
Proof.
  split; simpl; [|done|by repeat constructor].
  intros n i. rewrite lookup_singleton_Some. split.
  - intros [<- <-]. done.
  - intros [Hi Hl]. destruct (Z.to_nat i) as [|k] eqn:E; simpl in Hl; [|done].
    simplify_eq. split; [done|lia].
Qed.

(** Assigning a slot to a new node. *)
Lemma slot_fresh_inv m n :
  sm_inv m -> sm_nodes m !! n = None -> zlen n = 20 -> zlen (sm_slots m) < 2 ^ 32 ->
  sm_inv {| sm_nodes := <[n := zlen (sm_slots m)]> (sm_nodes m); sm_slots := sm_slots m ++ [n] |}.
Proof.
  intros [Hinv Hf Hl] Hn Hn20 Hlt. split; simpl.
  - intros x i. rewrite lookup_insert_Some, lookup_snoc_Some, Hinv. split.
    + intros [[<- <-]|(Hne & Hi & Hlk)].
      * split; [zlia|]. right. unfold zlen. rewrite Nat2Z.id. done.
      * split; [done|]. by left.
    + intros [Hi [Hlk|[Hlk ->]]].
      * right. split; [|done]. intros ->. rewrite (proj2 (Hinv x i)) in Hn; done.
      * left. split; [done|]. unfold zlen. lia.
  - rewrite zlen_app, zlen_cons. zlia.
  - apply Forall_app. split; [done|]. by repeat constructor.
Qed.

Lemma wrap_len m : sm_inv m -> zlen (sm_slots m) < 2 ^ 32 ->
  wrap 32 (zlen (sm_slots m)) = zlen (sm_slots m).
Proof. intros _ Hlt. apply wrap_small. split; [zlia|done]. Qed.

Lemma slot_inv m n :
  sm_inv m -> zlen n = 20 -> zlen (sm_slots m) < 2 ^ 32 -> sm_inv (SlotManager_slot m n).2.
Proof.
  intros Hinv Hn Hlt. unfold SlotManager_slot.
  destruct (sm_nodes m !! n) eqn:E; [done|]. simpl. rewrite wrap_len by done.
  by apply slot_fresh_inv.
Qed.

Lemma node_slot m n i : sm_inv m -> sm_nodes m !! n = Some i <-> SlotManager_node m i = Some n.
Proof.
  intros Hinv. rewrite (inv_inverse m Hinv). unfold SlotManager_node.
  destruct (Z.leb_spec 0 i); split; (done || lia || intuition lia).
Qed.

(** *** Save and load *)

Lemma number_nodes_app l x :
  number_nodes (l ++ [x]) = <[x := wrap 32 (zlen l)]> (number_nodes l).
Proof.
  unfold number_nodes. rewrite imap_app, foldl_app. simpl.
  by rewrite Nat.add_0_r.
Qed.

Lemma number_nodes_inv m : sm_inv m -> number_nodes (sm_slots m) = sm_nodes m.
Proof.
  intros [Hinv Hf _]. apply map_eq. intros n. apply option_eq. intros i. rewrite Hinv.
  assert (forall j k, sm_slots m !! j = Some n -> sm_slots m !! k = Some n -> j = k) as Huniq.
  { intros j k Hj Hk.
    assert (forall l, sm_slots m !! l = Some n -> sm_nodes m !! n = Some (Z.of_nat l)) as Hl.
    { intros l Hl. apply Hinv. rewrite Nat2Z.id. split; [lia|done]. }
    apply Hl in Hj. apply Hl in Hk. rewrite Hj in Hk. simplify_eq. lia. }
  assert (Z.of_nat (length (sm_slots m)) <= 2 ^ 32) as Hf' by done. clear Hinv Hf. revert Huniq Hf'.
  induction (sm_slots m) as [|x l IH] using rev_ind; intros Hu Hf.
  { unfold number_nodes. simpl. rewrite lookup_empty. split; [done|]. intros [_ H]. done. }
  rewrite length_app in Hf. simpl in Hf.
  rewrite number_nodes_app, wrap_small by (unfold in_width, zlen; lia).
  rewrite lookup_insert_Some, lookup_snoc_Some, IH.
  - split.
    + intros [[<- <-]|(Hne & Hi & Hl)]; [|by split; [|left]].
      split; [zlia|]. right. unfold zlen. by rewrite Nat2Z.id.
    + intros [Hi [Hl|[Hl ->]]].
      * right. split; [|done]. intros ->.
        pose proof (Hu (length l) (Z.to_nat i)) as Heq. rewrite !lookup_snoc_Some in Heq.
        apply lookup_lt_Some in Hl as Hlt. rewrite <- Heq in Hlt; [lia|by right|by left].
      * left. split; [done|]. unfold zlen. lia.
  - intros j k Hj Hk. apply Hu; apply lookup_snoc_Some; by left.
  - lia.
Qed.

Lemma bufread_whole (x r file : list Z) :
  zlen x = 20 -> bufread 20 (x ++ r) file = (x, r, file).
Proof.
  intros Hx. unfold bufread. rewrite bool_decide_eq_false_2.
  - by rewrite ztake_app_exact, zdrop_app_exact.
  - intros [-> _]%app_eq_nil. done.
Qed.

(** Whole slots in the internal buffer are read one by one. *)
Lemma load_loop_slots (l : list NodeId) t file acc fuel :
  Forall (fun n => zlen n = 20) l ->
  load_loop (length l + fuel) (concat l ++ t) file acc = load_loop fuel t file (acc ++ l).
Proof.
  intros Hl. revert acc. induction Hl as [|x l Hx _ IH]; intros acc; simpl; [by rewrite app_nil_r|].
  rewrite <- app_assoc, bufread_whole by done. rewrite Hx. simpl. rewrite IH.
  by rewrite <- app_assoc.
Qed.

(** The first read fills the internal buffer. *)
Lemma load_loop_refill fuel file acc :
  file <> [] ->
  load_loop fuel [] file acc = load_loop fuel (ztake BUF_SIZE file) (zdrop BUF_SIZE file) acc.
Proof.
  intros Hne. destruct fuel as [|fuel]; [done|]. simpl.
  unfold bufread. rewrite bool_decide_eq_false_2; [done|].
  unfold ztake, BUF_SIZE. destruct file; [done|].
  by destruct (Z.to_nat 8192) eqn:E; [lia|].
Qed.

Lemma zlen_concat_slots (l : list NodeId) : Forall (fun n => zlen n = 20) l -> zlen (concat l) = 20 * zlen l.
Proof.
  induction 1 as [|x l Hx _ IH]; [done|]. simpl. rewrite zlen_app, zlen_cons, IH, Hx. lia.
Qed.

Lemma concat_slots_nonempty (l : list NodeId) :
  Forall (fun n => zlen n = 20) l -> l <> [] -> concat l <> [].
Proof.
  intros Hl Hne Hc. apply (f_equal zlen) in Hc. rewrite zlen_concat_slots in Hc by done.
  destruct l; [done|]. rewrite zlen_cons in Hc. zlia.
Qed.

(** A file that fits the internal buffer loads completely. *)
Lemma load_small (l : list NodeId) fuel :
  Forall (fun n => zlen n = 20) l -> zlen l <= 409 -> (length l < fuel)%nat ->
  load_loop fuel [] (concat l) [] = Some (Ok l).
Proof.
  intros Hl Hn Hf. destruct (decide (l = [])) as [->|Hne].
  { destruct fuel; [simpl in Hf; lia|done]. }
  rewrite load_loop_refill by by apply concat_slots_nonempty.
  rewrite ztake_all, zdrop_all by (rewrite zlen_concat_slots by done; unfold BUF_SIZE; lia).
  replace fuel with (length l + S (fuel - length l - 1))%nat by lia.
  rewrite <- (app_nil_r (concat l)), load_loop_slots by done. done.
Qed.

(** A longer file is cut at byte 8192, in the middle of slot 409. *)
Lemma load_large (l : list NodeId) fuel :
  Forall (fun n => zlen n = 20) l -> 410 <= zlen l -> (410 <= fuel)%nat ->
  load_loop fuel [] (concat l) [] = Some (Err WrongFileSize).
Proof.
  intros Hl Hn Hf.
  rewrite <- (take_drop 409 l) in Hl |- *.
  assert (exists x l2, drop 409 l = x :: l2) as (x & l2 & Hx).
  { destruct (drop 409 l) as [|x l2] eqn:E; [|eauto].
    apply (f_equal length) in E. rewrite length_drop in E. unfold zlen in Hn. simpl in E. lia. }
  assert (length (take 409 l) = 409%nat) as Hl1.
  { rewrite length_take. unfold zlen in Hn. lia. }
  set (l1 := take 409 l) in *. rewrite Hx in *. clearbody l1.
  apply Forall_app in Hl as [Hl1' [Hx20 Hl2]%Forall_cons_1].
  rewrite load_loop_refill.
  2: { apply concat_slots_nonempty; [by apply Forall_app; split; [|constructor]|].
       by destruct l1. }
  rewrite concat_app. simpl.
  assert (zlen (concat l1) = 8180) as Hc.
  { rewrite zlen_concat_slots by done. unfold zlen. rewrite Hl1. done. }
  unfold BUF_SIZE. rewrite ztake_app_ge by lia. rewrite Hc.
  change (8192 - 8180) with 12. rewrite ztake_app_le by lia.
  replace fuel with (length l1 + S (fuel - 410))%nat by lia.
  rewrite load_loop_slots by done. simpl. unfold bufread.
  assert (zlen (ztake 12 x) = 12) as H12 by (rewrite zlen_ztake; lia).
  rewrite bool_decide_eq_false_2 by (intros E; by rewrite E in H12).
  by rewrite (ztake_all 20), H12 by lia.
Qed.

(** ** Properties *)

(** Slot assignment.  From a consistent manager with a free 32-bit slot,
    [slot] returns the slot under which [node] then finds the node, repeating it
    changes nothing, slots given out before keep their nodes, and the tables
    stay inverse to each other; slot 0, reserved for the all-zero id, is
    returned for no other node. *)
Theorem slot_assignment (m : SlotManager) (n : NodeId) :
  sm_inv m -> zlen n = 20 -> zlen (sm_slots m) < 2 ^ 32 ->
  let '(s, m') := SlotManager_slot m n in
  sm_inv m' /\ 0 <= s < SlotManager_len m' /\
  SlotManager_node m' s = Some n /\
  SlotManager_slot m' n = (s, m') /\
  (forall s' x, SlotManager_node m s' = Some x -> SlotManager_node m' s' = Some x) /\
  (SlotManager_node m 0 = Some NodeId_default -> n <> NodeId_default -> s <> 0).
Proof.
  intros Hinv Hn Hlt. pose proof (slot_inv m n Hinv Hn Hlt) as Hinv'.
  destruct (SlotManager_slot m n) as [s m'] eqn:E. simpl in Hinv'.
  assert (sm_nodes m' !! n = Some s /\ forall x i, sm_nodes m !! x = Some i -> sm_nodes m' !! x = Some i)
    as [Hs Hkeep].
  { unfold SlotManager_slot in E. destruct (sm_nodes m !! n) as [i|] eqn:En; simplify_eq; [done|].
    simpl. rewrite lookup_insert_eq. split; [done|]. intros x i Hx.
    rewrite lookup_insert_ne; [done|]. intros ->. by rewrite Hx in En. }
  split; [done|]. split.
  { apply (inv_inverse m' Hinv') in Hs as [? Hl%lookup_lt_Some]. unfold SlotManager_len, zlen. lia. }
  split; [by apply node_slot|]. split; [unfold SlotManager_slot; by rewrite Hs|]. split.
  - intros s' x Hx. apply node_slot; [done|]. apply Hkeep. by apply node_slot.
  - intros H0 Hne ->. apply node_slot in H0; [|done]. apply Hkeep in H0.
    apply (inv_inverse m' Hinv') in H0 as [_ H0]. apply (inv_inverse m' Hinv') in Hs as [_ Hs].
    congruence.
Qed.

(** every manager reachable from a new one by assigning slots is
    consistent and still maps slot 0 to the all-zero id. *)
Theorem slot_manager_reachable (m : SlotManager) :
  rtc sm_step SlotManager_new m ->
  sm_inv m /\ SlotManager_node m 0 = Some NodeId_default.
Proof.
  apply (rtc_invariant sm_step
    (fun m => sm_inv m /\ SlotManager_node m 0 = Some NodeId_default)).
  - intros a b [Hinv H0] Hs. destruct Hs as [m1 n Hn Hlt].
    split; [by apply slot_inv|]. unfold SlotManager_slot.
    destruct (sm_nodes m1 !! n); [done|]. unfold SlotManager_node in *. simpl in *.
    by apply lookup_app_l_Some.
  - split; [apply SlotManager_new_inv|done].
Qed.

(** what was saved is loaded back as long as there are at most 409 slots;
    with more, the reader's internal buffer of 8192 bytes ends in the middle of
    a 20-byte id, the read returns 12 bytes, and loading fails with the error
    for a wrong file size although the file is complete. *)
Theorem slot_save_load (m : SlotManager) (fuel : nat) :
  sm_inv m -> (length (sm_slots m) < fuel)%nat ->
  SlotManager_load fuel (SlotManager_save m)
  = Some (if SlotManager_len m <=? 409 then Ok m else Err WrongFileSize).
Proof.
  intros Hinv Hf. unfold SlotManager_load, SlotManager_save, SlotManager_len.
  pose proof (inv_len m Hinv) as Hl.
  destruct (Z.leb_spec (zlen (sm_slots m)) 409).
  - rewrite load_small by (done || lia). rewrite number_nodes_inv by done. by destruct m.
  - rewrite load_large by (done || unfold zlen in *; lia). done.
Qed.

(** *** Witnesses *)

Definition sample_node : NodeId := replicate 20 5.

Lemma slot_assignment_witness :
  let '(s, m') := SlotManager_slot SlotManager_new sample_node in
  sm_inv m' /\ 0 <= s < SlotManager_len m' /\
  SlotManager_node m' s = Some sample_node /\
  SlotManager_slot m' sample_node = (s, m') /\
  (forall s' x, SlotManager_node SlotManager_new s' = Some x -> SlotManager_node m' s' = Some x) /\
  (SlotManager_node SlotManager_new 0 = Some NodeId_default -> sample_node <> NodeId_default -> s <> 0).
Proof.
  apply (slot_assignment SlotManager_new sample_node SlotManager_new_inv);
    vm_compute; reflexivity.
Defined.

Lemma slot_manager_reachable_witness :
  sm_inv (SlotManager_slot SlotManager_new sample_node).2 /\
  SlotManager_node (SlotManager_slot SlotManager_new sample_node).2 0 = Some NodeId_default.
Proof.
  apply (slot_manager_reachable (SlotManager_slot SlotManager_new sample_node).2).
  apply rtc_once. apply sm_step_slot; vm_compute; reflexivity.
Defined.

Lemma slot_save_load_witness :
  SlotManager_load 3 (SlotManager_save SlotManager_new)
  = Some (if SlotManager_len SlotManager_new <=? 409 then Ok SlotManager_new
          else Err WrongFileSize).
Proof. apply (slot_save_load SlotManager_new 3 SlotManager_new_inv). simpl. lia. Defined.
