(* ===== verification/ServerState.v ===== *)
(** [server/src/state.rs] and [state/last_seen.rs]: the distance between node
    ids and the clock of the server.  Instants and durations are counted in
    nanoseconds. *)

From S2P Require Import Prelude Challenge.

Definition SECOND : Z := 1000000000.

(** ** Hamming distance *)

(** [u8::count_ones]. *)
Definition count_ones (b : Z) : Z :=
  fold_left Z.add (map (fun i => Z.b2z (Z.testbit b (Z.of_nat i))) (seq 0 8)) 0.

(** The loop over the bytes of two ids of the same length. *)
Fixpoint hamming_distance (id1 id2 : NodeId) : Z :=
  match id1, id2 with
  | a :: id1, b :: id2 => count_ones (Z.lxor a b) + hamming_distance id1 id2
  | _, _ => 0
  end.

(** ** Clock *)

(** [ts] is the number of seconds since the start of the server, in 32 bits. *)
Record Clock : Type := { ck_now : Z; ck_ts : Z }.

Definition Clock_at (server_start now : Z) : Clock :=
  {| ck_now := now; ck_ts := wrap 32 (Z.max 0 (now - server_start) / SECOND) |}.

(** [last_seen] and [touch]: the timestamp to store in a [LastSeen]. *)
Definition Clock_last_seen (c : Clock) : Z := ck_ts c.

(** [age]: a duration in whole seconds, never negative. *)
Definition Clock_age (c : Clock) (last_seen : Z) : Z :=
  saturating_sub (ck_ts c) last_seen * SECOND.

(** [LastSeen::age]: the time since the start of the second of a timestamp. *)
Definition LastSeen_age (server_start now last_seen : Z) : Z :=
  saturating_sub now (server_start + last_seen * SECOND).

(** [TsDecoder]: the unix time of the start of the server in whole seconds,
    added to the relative timestamps. *)
Definition TsDecoder_new (server_start now unix_now : Z) : Z :=
  (unix_now - Z.max 0 (now - server_start)) / SECOND.

Definition TsDecoder_decode (rel_ts last_seen : Z) : Z := last_seen + rel_ts.

(** [Instant::elapsed]. *)
Definition elapsed (now since : Z) : Z := saturating_sub now since.

(** ** Lemmas *)

Lemma count_ones_byte b :
  count_ones b = 0 + Z.b2z (Z.testbit b 0) + Z.b2z (Z.testbit b 1) + Z.b2z (Z.testbit b 2) +
    Z.b2z (Z.testbit b 3) + Z.b2z (Z.testbit b 4) + Z.b2z (Z.testbit b 5) +
    Z.b2z (Z.testbit b 6) + Z.b2z (Z.testbit b 7).
Proof. reflexivity. Qed.

Lemma count_ones_bounds b : 0 <= count_ones b <= 8.
Proof. rewrite count_ones_byte. repeat destruct (Z.testbit b _); simpl; lia. Qed.

Lemma count_ones_0 b : 0 <= b < 256 -> count_ones b = 0 -> b = 0.
Proof.
  rewrite count_ones_byte. intros Hb Hc.
  assert (forall i, 0 <= i < 8 -> Z.testbit b i = false) as Hlow.
  { intros i Hi. assert (i = 0 \/ i = 1 \/ i = 2 \/ i = 3 \/ i = 4 \/ i = 5 \/ i = 6 \/ i = 7) as Hc8 by lia.
    repeat (destruct Hc8 as [->|Hc8]); try subst i;
      repeat match goal with |- context [Z.testbit b ?j] => destruct (Z.testbit b j); [|done] end;
      repeat destruct (Z.testbit b _); simpl in Hc; lia. }
  apply Z.bits_inj_0. intros i. destruct (decide (i < 0)) as [|Hi].
  { by apply Z.testbit_neg_r. }
  destruct (decide (i < 8)); [apply Hlow; lia|].
  destruct (decide (b = 0)) as [->|Hb0]; [by rewrite Z.testbit_0_l|].
  apply Z.bits_above_log2; [lia|]. assert (Z.log2 b < 8) by (apply Z.log2_lt_pow2; lia). lia.
Qed.

Lemma lxor_byte a b : is_byte a -> is_byte b -> is_byte (Z.lxor a b).
Proof.
  unfold is_byte. intros Ha Hb.
  assert (0 <= Z.lxor a b) as Hp by (apply Z.lxor_nonneg; lia).
  split; [done|]. change 256 with (2 ^ 8).
  destruct (decide (Z.lxor a b = 0)) as [->|]; [done|].
  apply Z.log2_lt_pow2; [lia|].
  pose proof (Z.log2_lxor a b ltac:(lia) ltac:(lia)).
  assert (forall x, 0 <= x < 256 -> Z.log2 x < 8) as Hl.
  { intros x Hx. destruct (decide (x = 0)) as [->|]; [done|]. apply Z.log2_lt_pow2; lia. }
  pose proof (Hl a Ha). pose proof (Hl b Hb). lia.
Qed.

Lemma hamming_nonneg id1 id2 : 0 <= hamming_distance id1 id2.
Proof.
  revert id2. induction id1 as [|a id1 IH]; intros [|b id2]; simpl; try lia.
  pose proof (count_ones_bounds (Z.lxor a b)). specialize (IH id2). lia.
Qed.

Lemma hamming_refl id : hamming_distance id id = 0.
Proof. induction id as [|a id IH]; [done|]. simpl. by rewrite Z.lxor_nilpotent, IH. Qed.

(** Ids at distance 0 are equal. *)
Lemma hamming_0 id1 id2 :
  bytes_ok id1 -> bytes_ok id2 -> length id1 = length id2 ->
  hamming_distance id1 id2 = 0 -> id1 = id2.
Proof.
  intros H1. revert id2. induction H1 as [|a id1 Ha _ IH]; intros [|b id2] H2 Hl Hd; try done.
  apply Forall_cons_1 in H2 as [Hb H2]. simpl in *.
  pose proof (count_ones_bounds (Z.lxor a b)). pose proof (hamming_nonneg id1 id2).
  f_equal; [|apply IH; (done || lia)].
  apply Z.lxor_eq, count_ones_0; [by apply lxor_byte|lia].
Qed.

(** A session touched at one time has, later within the same 2^32 seconds, the
    age of the time that passed in whole seconds. *)
Lemma Clock_age_touch start t0 t1 :
  start <= t0 <= t1 -> (t1 - start) / SECOND < 2 ^ 32 ->
  Clock_age (Clock_at start t1) (Clock_last_seen (Clock_at start t0))
  = ((t1 - start) / SECOND - (t0 - start) / SECOND) * SECOND.
Proof.
  intros Ht Hb. unfold Clock_age, Clock_last_seen, Clock_at, saturating_sub, SECOND in *. simpl.
  rewrite (Z.max_r 0 (t1 - start)), (Z.max_r 0 (t0 - start)) by lia.
  assert ((t0 - start) / 1000000000 <= (t1 - start) / 1000000000) by (apply Z.div_le_mono; lia).
  assert (0 <= (t0 - start) / 1000000000) by (apply Z.div_pos; lia).
  rewrite !wrap_small by (unfold in_width; lia). lia.
Qed.
