(* ===== verification/SessionManager.v ===== *)
(** [server/src/state/session_manager.rs]: the sessions of the relay server.

    Sessions are shared through [Arc] and [Weak]; the model keeps a heap of
    sessions at locations.  The sessions are in sixteen maps selected by a hash
    of the id, the node table holds weak references.  A weak reference can be
    upgraded as long as the location is in one of the maps or a strong
    reference is held elsewhere ([sm_held]: handlers, tasks). *)

From Stdlib Require Import Ascii.
From stdpp Require Import sorting.
From S2P Require Import Prelude Proto Challenge NodeInfo ServerState.

Abbreviation loc := Z.

(** ** Selectors *)

Inductive Selector : Type :=
| SelAll
| SelPrefix (value mask : Z)
| SelExact (bytes : list Z).

(** The first four bytes as a number. *)
Definition extract_prefix (id : list Z) : Z := be_value (ztake 4 id).

Definition match_prefix (s : Selector) (id : list Z) : bool :=
  match s with
  | SelAll => true
  | SelPrefix value mask => Z.land (extract_prefix id) mask =? value
  | SelExact bytes => bool_decide (bytes = id)
  end.

(** [char::to_digit(16)]. *)
Definition to_digit16 (c : ascii) : option Z :=
  let n := Z.of_nat (nat_of_ascii c) in
  if (48 <=? n) && (n <=? 57) then Some (n - 48)
  else if (65 <=? n) && (n <=? 70) then Some (n - 55)
  else if (97 <=? n) && (n <=? 102) then Some (n - 87)
  else None.

(** The pairs of digits of an exact id. *)
Fixpoint hex_pairs (cs : list ascii) : option (list Z) :=
  match cs with
  | [] => Some []
  | c1 :: c2 :: cs =>
      match to_digit16 c1, to_digit16 c2, hex_pairs cs with
      | Some d1, Some d2, Some bytes => Some (Z.lor (Z.shiftl d1 4) d2 :: bytes)
      | _, _, _ => None
      end
  | [_] => None
  end.

(** The digits of [u32::from_str_radix(_, 16)], with its overflow check. *)
Fixpoint radix16 (acc : Z) (cs : list ascii) : option Z :=
  match cs with
  | [] => Some acc
  | c :: cs =>
      match to_digit16 c with
      | Some d => if 2 ^ 32 <=? acc * 16 + d then None else radix16 (acc * 16 + d) cs
      | None => None
      end
  end.

(** [u32::from_str_radix(_, 16)]: one leading plus sign is accepted. *)
Definition from_str_radix16 (cs : list ascii) : option Z :=
  match cs with
  | [] => None
  | c :: rest =>
      if Ascii.eqb c "+" then match rest with [] => None | _ => radix16 0 rest end
      else radix16 0 cs
  end.

(** [Selector::from_str] for ids of [n] bytes; the subtraction [32 - bits] of
    unsigned numbers panics when it underflows. *)
Definition Selector_from_str (n : Z) (s : string) : outcome (option Selector) :=
  if String.eqb s "all" then Ret (Some SelAll)
  else
    let cs := String.list_ascii_of_string s in
    if zlen cs =? n * 2 then Ret (SelExact <$> hex_pairs cs)
    else
      match from_str_radix16 cs with
      | None => Ret None
      | Some v =>
          let bits := zlen cs * 4 in
          if 32 <? bits then Panic
          else Ret (Some (SelPrefix (wrap 32 (Z.shiftl v (32 - bits)))
                            (wrap 32 (Z.shiftl (2 ^ 32 - 1) (32 - bits)))))
      end.

(** ** Address status *)

Inductive AddrStatus : Type :=
| Unknown
| Pending (since : Z)
| Valid (since : Z)
| Invalid (since : Z).

#[export] Instance AddrStatus_eq_dec : EqDecision AddrStatus.
Proof. solve_decision. Defined.

Definition is_pending (s : AddrStatus) : bool :=
  match s with Unknown | Pending _ => true | _ => false end.

Definition is_valid (s : AddrStatus) : bool :=
  match s with Valid _ => true | _ => false end.

Definition set_valid (now : Z) (valid : bool) : AddrStatus :=
  if valid then Valid now else Invalid now.

Definition AddrStatus_age (now : Z) (s : AddrStatus) : Z :=
  match s with
  | Valid v => elapsed now v
  | Invalid v => elapsed now v
  | _ => 0
  end.

Inductive NodeEvent : Type :=
| NodeNew (n : NodeId)
| NodeLost (n : NodeId)
| NodeLag (k : Z).

Inductive Flag : Type := FlagDefault | FlagTrust | FlagUnTrust.

Inductive ListMode : Type := Humming | Split.

(** [mode as i8]. *)
Definition ListMode_repr (m : ListMode) : Z :=
  match m with Humming => 0 | Split => 1 end.

(** [FromStr for ListMode]. *)
Definition ListMode_from_str (s : string) : option ListMode :=
  if String.eqb s "humming" then Some Humming
  else if String.eqb s "split" then Some Split
  else None.

Section SessionManager.
Context `{EthSign} `{IpText}.

(** [DefaultHasher] applied to a session id. *)
Context (session_hash : SessionId -> Z).

Record Session : Type := {
  s_session_id : SessionId;
  s_peer : SocketAddr;
  s_ts : Z;
  s_node_id : NodeId;
  s_keys : list NodeIdentity;
  s_supported_encryptions : list string;
  s_addr_status : AddrStatus;
  s_session_key : option (PublicKey * gmap NodeId (list Z)) }.

(** [Session::endpoint]: the UDP endpoint of a session with a valid address. *)
Definition Session_endpoint (s : Session) : option Endpoint :=
  match s_addr_status s with
  | Valid _ =>
      Some {| ep_protocol := 17; ep_address := ip_to_string (sa_ip (s_peer s));
              ep_port := sa_port (s_peer s) |}
  | _ => None
  end.

(** The two mutable fields. *)
Definition set_ts (ts : Z) (s : Session) : Session :=
  {| s_session_id := s_session_id s; s_peer := s_peer s; s_ts := ts; s_node_id := s_node_id s;
     s_keys := s_keys s; s_supported_encryptions := s_supported_encryptions s;
     s_addr_status := s_addr_status s; s_session_key := s_session_key s |}.

Definition set_addr_status (st : AddrStatus) (s : Session) : Session :=
  {| s_session_id := s_session_id s; s_peer := s_peer s; s_ts := s_ts s; s_node_id := s_node_id s;
     s_keys := s_keys s; s_supported_encryptions := s_supported_encryptions s;
     s_addr_status := st; s_session_key := s_session_key s |}.

Record SessionManager : Type := {
  sm_sessions : list (gmap SessionId loc);
  sm_node_sessions : gmap NodeId (list loc);
  sm_flagged_nodes : gmap NodeId Flag;
  sm_mode : Z;
  sm_events : list NodeEvent;
  sm_heap : gmap loc Session;
  sm_held : gset loc;
  sm_next : loc }.

Definition SessionManager_new : SessionManager :=
  {| sm_sessions := replicate 16 ∅; sm_node_sessions := ∅; sm_flagged_nodes := ∅;
     sm_mode := 0; sm_events := []; sm_heap := ∅; sm_held := ∅; sm_next := 0 |}.

(** Updates of single fields. *)
Definition with_sessions (m : SessionManager) (x : list (gmap SessionId loc)) : SessionManager :=
  {| sm_sessions := x; sm_node_sessions := sm_node_sessions m;
     sm_flagged_nodes := sm_flagged_nodes m; sm_mode := sm_mode m; sm_events := sm_events m;
     sm_heap := sm_heap m; sm_held := sm_held m; sm_next := sm_next m |}.

Definition with_nodes (m : SessionManager) (x : gmap NodeId (list loc)) (ev : list NodeEvent)
  : SessionManager :=
  {| sm_sessions := sm_sessions m; sm_node_sessions := x;
     sm_flagged_nodes := sm_flagged_nodes m; sm_mode := sm_mode m;
     sm_events := sm_events m ++ ev;
     sm_heap := sm_heap m; sm_held := sm_held m; sm_next := sm_next m |}.

Definition with_heap (m : SessionManager) (x : gmap loc Session) : SessionManager :=
  {| sm_sessions := sm_sessions m; sm_node_sessions := sm_node_sessions m;
     sm_flagged_nodes := sm_flagged_nodes m; sm_mode := sm_mode m; sm_events := sm_events m;
     sm_heap := x; sm_held := sm_held m; sm_next := sm_next m |}.

(** ** Sessions *)

(** [session_slot]: the index of the shard of an id. *)
Definition session_slot (id : SessionId) : nat := Z.to_nat (Z.land (session_hash id) 15).

Definition shard (m : SessionManager) (id : SessionId) : gmap SessionId loc :=
  default ∅ (sm_sessions m !! session_slot id).

Definition set_shard (m : SessionManager) (id : SessionId) (x : gmap SessionId loc)
  : SessionManager :=
  with_sessions m (<[session_slot id := x]> (sm_sessions m)).

(** [session]: a strong reference to a session. *)
Definition session (m : SessionManager) (id : SessionId) : option loc := shard m id !! id.

Definition get (m : SessionManager) (l : loc) : option Session := sm_heap m !! l.

Definition update (m : SessionManager) (l : loc) (f : Session -> Session) : SessionManager :=
  with_heap m (alter f l (sm_heap m)).

(** [clock.touch(&session.ts)]. *)
Definition touch (clock : Clock) (l : loc) (m : SessionManager) : SessionManager :=
  update m l (set_ts (Clock_last_seen clock)).

Definition num_sessions (m : SessionManager) : Z :=
  fold_left Z.add (map (fun sh => Z.of_nat (size sh)) (sm_sessions m)) 0.

Definition num_nodes (m : SessionManager) : Z := Z.of_nat (size (sm_node_sessions m)).

(** [new_session]: [Err] with the present session when the id is taken. *)
Definition new_session (m : SessionManager) (clock : Clock) (session_id : SessionId)
  (peer : SocketAddr) (node_id : NodeId) (keys : list NodeIdentity)
  (supported_encryptions : list string)
  (session_key : option (PublicKey * gmap NodeId (list Z)))
  : result loc loc * SessionManager :=
  match shard m session_id !! session_id with
  | Some l => (Err l, m)
  | None =>
      let l := sm_next m in
      let s := {| s_session_id := session_id; s_peer := peer; s_ts := Clock_last_seen clock;
                  s_node_id := node_id; s_keys := keys;
                  s_supported_encryptions := supported_encryptions;
                  s_addr_status := Unknown; s_session_key := session_key |} in
      let m1 := {| sm_sessions := sm_sessions m; sm_node_sessions := sm_node_sessions m;
                   sm_flagged_nodes := sm_flagged_nodes m; sm_mode := sm_mode m;
                   sm_events := sm_events m; sm_heap := <[l := s]> (sm_heap m);
                   sm_held := sm_held m; sm_next := l + 1 |} in
      (Ok l, set_shard m1 session_id (<[session_id := l]> (shard m session_id)))
  end.

Definition remove_session (m : SessionManager) (id : SessionId) : option loc * SessionManager :=
  (shard m id !! id, set_shard m id (delete id (shard m id))).

(** [remove_session_from]: only from the registered endpoint. *)
Definition remove_session_from (m : SessionManager) (id : SessionId) (peer : SocketAddr)
  : option loc * SessionManager :=
  match shard m id !! id with
  | None => (None, m)
  | Some l =>
      match get m l with
      | Some s =>
          if bool_decide (s_peer s <> peer) then (None, m)
          else (Some l, set_shard m id (delete id (shard m id)))
      | None => (None, m)
      end
  end.

(** ** Weak references *)

Definition shard_locs (sh : gmap SessionId loc) : gset loc :=
  list_to_set (map snd (map_to_list sh)).

(** The locations with a strong reference. *)
Definition strong (m : SessionManager) : gset loc :=
  sm_held m ∪ ⋃ (map shard_locs (sm_sessions m)).

(** [Weak::upgrade(..).is_some()]. *)
Definition alive (m : SessionManager) (l : loc) : bool := bool_decide (l ∈ strong m).

Definition node_refs (m : SessionManager) (n : NodeId) : list loc :=
  default [] (sm_node_sessions m !! n).

Definition live_refs (m : SessionManager) (refs : list loc) : list loc :=
  base.filter (fun l => alive m l = true) refs.

(** One step of the loop of [link_sessions]; the caller holds a strong
    reference to [l]. *)
Definition link_key (l : loc) (m : SessionManager) (n : NodeId) : SessionManager :=
  let g := base.filter (fun x => alive m x || (x =? l) = true) (node_refs m n) in
  if bool_decide (l ∈ g) then with_nodes m (<[n := g]> (sm_node_sessions m)) []
  else with_nodes m (<[n := g ++ [l]]> (sm_node_sessions m))
         (if bool_decide (g = []) then [NodeNew n] else []).

Definition link_sessions (m : SessionManager) (l : loc) : SessionManager :=
  match get m l with
  | Some s => foldl (link_key l) m (map ni_node_id (s_keys s))
  | None => m
  end.

(** The loop of [node_session]: dead references are popped from the back until
    a live one is found.  The reversed list is walked. *)
Fixpoint pop_dead (m : SessionManager) (rev_refs : list loc) : option loc * list loc :=
  match rev_refs with
  | [] => (None, [])
  | l :: rest => if alive m l then (Some l, l :: rest) else pop_dead m rest
  end.

Definition node_session (m : SessionManager) (n : NodeId) : option loc * SessionManager :=
  match sm_node_sessions m !! n with
  | None => (None, m)
  | Some refs =>
      let '(r, rest) := pop_dead m (rev refs) in
      (r, with_nodes m (<[n := rev rest]> (sm_node_sessions m)) [])
  end.

(** [clean_node_sessions]: the entries in the order of the iteration. *)
Definition clean_node_sessions (m : SessionManager) : SessionManager :=
  let kept := live_refs m <$> sm_node_sessions m in
  with_nodes m (base.filter (fun p => p.2 <> []) kept)
    (map (fun p => NodeLost p.1) (base.filter (fun p => p.2 = []) (map_to_list kept))).

(** The test of [retain] in the cleanup task. *)
Definition keep_session (clock : Clock) (session_purge_timeout : Z) (m : SessionManager)
  (l : loc) : bool :=
  match get m l with
  | Some s => Clock_age clock (s_ts s) <=? session_purge_timeout
  | None => false
  end.

(** One pass of the cleanup task. *)
Definition cleanup (clock : Clock) (session_purge_timeout : Z) (m : SessionManager)
  : SessionManager :=
  clean_node_sessions
    (with_sessions m
       (map (base.filter (fun p => keep_session clock session_purge_timeout m p.2 = true))
          (sm_sessions m))).

(** ** Neighbours *)

Fixpoint bytes_leb (a b : list Z) : bool :=
  match a, b with
  | [], _ => true
  | _ :: _, [] => false
  | x :: a, y :: b => if x =? y then bytes_leb a b else x <? y
  end.

(** The order in which [BinaryHeap::pop] returns the entries: the nearest id
    first, among ids at the same distance the greatest. *)
Definition nearer (base a b : NodeId) : Prop :=
  hamming_distance base a < hamming_distance base b \/
  hamming_distance base a = hamming_distance base b /\ bytes_leb b a = true.

#[export] Instance nearer_dec base a b : Decision (nearer base a b).
Proof. unfold nearer. apply _. Defined.

Definition has_valid (m : SessionManager) (refs : list loc) : bool :=
  existsb (fun l => match get m l with
                    | Some s => is_valid (s_addr_status s)
                    | None => false
                    end) (live_refs m refs).

Definition select_public (m : SessionManager) (base_node_id : NodeId) : bool * SessionManager :=
  if sm_mode m =? 1 then
    let '(r, m) := node_session m base_node_id in
    (negb (match r ≫= get m with
           | Some s => is_valid (s_addr_status s)
           | None => false
           end), m)
  else (false, m).

(** The ids in the heap, in the order they are popped. *)
Definition heap_order (m : SessionManager) (public : bool) (base_node_id : NodeId)
  : list NodeId :=
  merge_sort (nearer base_node_id)
    (map fst (base.filter (fun p => negb public || has_valid m p.2 = true)
                (map_to_list (sm_node_sessions m)))).

Definition neighbours (m : SessionManager) (base_node_id : NodeId) (count : Z)
  : list loc * SessionManager :=
  let '(public, m) := select_public m base_node_id in
  let found := omap (fun id => last (live_refs m (node_refs m id)))
                 (heap_order m public base_node_id) in
  (ztake count (zdrop 1 found), m).

(** ** Listing, flags and mode *)

(** [nodes_for]; the entries are in the order of the iteration. *)
Definition nodes_for (m : SessionManager) (selector : Selector) (limit : Z)
  : list (NodeId * list loc) :=
  match selector with
  | SelExact bytes =>
      match sm_node_sessions m !! bytes with
      | Some refs => [(bytes, refs)]
      | None => []
      end
  | _ => ztake limit (base.filter (fun p => match_prefix selector p.1 = true)
                        (map_to_list (sm_node_sessions m)))
  end.

Definition with_flags (m : SessionManager) (x : gmap NodeId Flag) : SessionManager :=
  {| sm_sessions := sm_sessions m; sm_node_sessions := sm_node_sessions m;
     sm_flagged_nodes := x; sm_mode := sm_mode m; sm_events := sm_events m;
     sm_heap := sm_heap m; sm_held := sm_held m; sm_next := sm_next m |}.

(** [flag_node] returns whether the node was flagged before. *)
Definition flag_node (m : SessionManager) (n : NodeId) (flag : Flag) : bool * SessionManager :=
  (bool_decide (is_Some (sm_flagged_nodes m !! n)),
   match flag with
   | FlagDefault => with_flags m (delete n (sm_flagged_nodes m))
   | _ => with_flags m (<[n := flag]> (sm_flagged_nodes m))
   end).

Definition set_mode (m : SessionManager) (mode : ListMode) : SessionManager :=
  {| sm_sessions := sm_sessions m; sm_node_sessions := sm_node_sessions m;
     sm_flagged_nodes := sm_flagged_nodes m; sm_mode := ListMode_repr mode;
     sm_events := sm_events m;
     sm_heap := sm_heap m; sm_held := sm_held m; sm_next := sm_next m |}.

Definition mode (m : SessionManager) : ListMode :=
  if sm_mode m =? 1 then Split else Humming.

(** ** Operations as steps *)

(** A strong reference taken or dropped by a handler or a task. *)
Definition with_held (m : SessionManager) (x : gset loc) : SessionManager :=
  {| sm_sessions := sm_sessions m; sm_node_sessions := sm_node_sessions m;
     sm_flagged_nodes := sm_flagged_nodes m; sm_mode := sm_mode m; sm_events := sm_events m;
     sm_heap := sm_heap m; sm_held := x; sm_next := sm_next m |}.

Inductive Op : Type :=
| OpNew (clock : Clock) (id : SessionId) (peer : SocketAddr) (node_id : NodeId)
    (keys : list NodeIdentity) (encryptions : list string)
    (session_key : option (PublicKey * gmap NodeId (list Z)))
| OpRemove (id : SessionId)
| OpRemoveFrom (id : SessionId) (peer : SocketAddr)
| OpLink (l : loc)
| OpNodeSession (n : NodeId)
| OpCleanup (clock : Clock) (timeout : Z)
| OpTouch (clock : Clock) (l : loc)
| OpStatus (l : loc) (st : AddrStatus)
| OpNeighbours (n : NodeId) (count : Z)
| OpFlag (n : NodeId) (flag : Flag)
| OpMode (mode : ListMode)
| OpHold (l : loc)
| OpRelease (l : loc).

Definition run_op (op : Op) (m : SessionManager) : SessionManager :=
  match op with
  | OpNew clock id peer node_id keys encryptions session_key =>
      (new_session m clock id peer node_id keys encryptions session_key).2
  | OpRemove id => (remove_session m id).2
  | OpRemoveFrom id peer => (remove_session_from m id peer).2
  | OpLink l => link_sessions m l
  | OpNodeSession n => (node_session m n).2
  | OpCleanup clock timeout => cleanup clock timeout m
  | OpTouch clock l => touch clock l m
  | OpStatus l st => update m l (set_addr_status st)
  | OpNeighbours n count => (neighbours m n count).2
  | OpFlag n flag => (flag_node m n flag).2
  | OpMode mode => set_mode m mode
  | OpHold l => if alive m l then with_held m ({[l]} ∪ sm_held m) else m
  | OpRelease l => with_held m (sm_held m ∖ {[l]})
  end.

(** The sessions in the table with their locations. *)
Definition table (m : SessionManager) (id : SessionId) : option (loc * Session) :=
  session m id ≫= fun l => (fun s => (l, s)) <$> get m l.

(** ** Invariant *)

Record sm_inv (m : SessionManager) : Prop := {
  inv_shards : length (sm_sessions m) = 16%nat;
  inv_placed i sh id l :
    sm_sessions m !! i = Some sh -> sh !! id = Some l ->
    i = session_slot id /\ exists s, get m l = Some s /\ s_session_id s = id;
  inv_heap l s : get m l = Some s -> 0 <= l < sm_next m;
  inv_refs n l :
    l ∈ node_refs m n -> exists s, get m l = Some s /\ n ∈ map ni_node_id (s_keys s);
  inv_nodup n : NoDup (node_refs m n);
  inv_held l : l ∈ sm_held m -> is_Some (get m l);
  inv_next : 0 <= sm_next m }.

Lemma session_slot_lt id : (session_slot id < 16)%nat.
Proof.
  unfold session_slot. change 15 with (Z.ones 4). rewrite Z.land_ones by lia.
  pose proof (Z.mod_pos_bound (session_hash id) (2 ^ 4) ltac:(lia)). lia.
Qed.

Lemma shard_lookup m id :
  length (sm_sessions m) = 16%nat -> sm_sessions m !! session_slot id = Some (shard m id).
Proof.
  intros Hl. unfold shard.
  destruct (lookup_lt_is_Some_2 (sm_sessions m) (session_slot id)) as [sh ->]; [|done].
  rewrite Hl. apply session_slot_lt.
Qed.

Lemma session_placed m id l :
  sm_inv m -> session m id = Some l -> exists s, get m l = Some s /\ s_session_id s = id.
Proof.
  intros Hm Hs. eapply (inv_placed m Hm); [|exact Hs]. apply shard_lookup, (inv_shards m Hm).
Qed.

Lemma session_set_shard m id x id' :
  length (sm_sessions m) = 16%nat ->
  session (set_shard m id x) id' =
  (if decide (session_slot id = session_slot id') then x !! id' else session m id').
Proof.
  intros Hl. unfold session, shard at 1, set_shard. simpl. destruct (decide _) as [Heq|Hne].
  - rewrite Heq, list_lookup_insert_eq by (rewrite Hl; apply session_slot_lt). done.
  - by rewrite list_lookup_insert_ne.
Qed.

(** Changing one id of its shard changes the table at that id only. *)
Lemma session_partial_alter m id f id' :
  length (sm_sessions m) = 16%nat ->
  session (set_shard m id (partial_alter f id (shard m id))) id' =
  (if decide (id = id') then f (session m id) else session m id').
Proof.
  intros Hl. rewrite session_set_shard by done.
  destruct (decide (id = id')) as [<-|Hne].
  - rewrite decide_True by done. apply lookup_partial_alter_eq.
  - destruct (decide _) as [Heq|]; [|done].
    rewrite lookup_partial_alter_ne by done. unfold session, shard. by rewrite Heq.
Qed.

Lemma session_insert m id l id' :
  length (sm_sessions m) = 16%nat ->
  session (set_shard m id (<[id := l]> (shard m id))) id' =
  (if decide (id = id') then Some l else session m id').
Proof. apply session_partial_alter. Qed.

Lemma session_delete m id id' :
  length (sm_sessions m) = 16%nat ->
  session (set_shard m id (delete id (shard m id))) id' =
  (if decide (id = id') then None else session m id').
Proof. apply session_partial_alter. Qed.

(** ** Preservation *)

Lemma inv_set_shard m id x :
  sm_inv m ->
  (forall id' l, x !! id' = Some l ->
     session_slot id' = session_slot id /\
     exists s, get m l = Some s /\ s_session_id s = id') ->
  sm_inv (set_shard m id x).
Proof.
  intros Hm Hx. destruct Hm as [Hlen Hpl Hh Hr Hn Hd Hz].
  constructor; [simpl; by rewrite length_insert| |done..].
  simpl. intros i sh id' l Hi Hl. apply list_lookup_insert_Some in Hi.
  destruct Hi as [(<- & <- & _)|[_ Hi]]; [|by apply (Hpl i sh)].
  destruct (Hx _ _ Hl) as [Hs ?]. auto.
Qed.

Lemma inv_delete m id : sm_inv m -> sm_inv (set_shard m id (delete id (shard m id))).
Proof.
  intros Hm. apply inv_set_shard; [done|]. intros id' l [_ Hl]%lookup_delete_Some.
  destruct (inv_placed m Hm _ _ id' l (shard_lookup m id (inv_shards m Hm)) Hl). auto.
Qed.

Lemma inv_filter m (P : SessionId * loc -> Prop) `{!forall p, Decision (P p)} :
  sm_inv m -> sm_inv (with_sessions m (map (base.filter P) (sm_sessions m))).
Proof.
  intros [Hlen Hpl Hh Hr Hn Hd Hz]. constructor; [simpl; by rewrite length_map| |done..].
  simpl. intros i sh id l Hi Hl. rewrite list_lookup_fmap in Hi.
  destruct (sm_sessions m !! i) as [sh0|] eqn:E; [|done]. simplify_eq/=.
  apply map_lookup_filter_Some in Hl as [Hl _]. by apply (Hpl i sh0).
Qed.

Lemma inv_with_nodes m x ev :
  sm_inv m ->
  (forall n l, l ∈ default [] (x !! n) ->
     exists s, get m l = Some s /\ n ∈ map ni_node_id (s_keys s)) ->
  (forall n, NoDup (default [] (x !! n))) ->
  sm_inv (with_nodes m x ev).
Proof. intros [Hlen Hpl Hh Hr Hn Hd Hz] H1 H2. by constructor. Qed.

(** Changing the list of one node. *)
Lemma inv_with_node m n refs ev :
  sm_inv m ->
  (forall l, l ∈ refs -> exists s, get m l = Some s /\ n ∈ map ni_node_id (s_keys s)) ->
  NoDup refs ->
  sm_inv (with_nodes m (<[n := refs]> (sm_node_sessions m)) ev).
Proof.
  intros Hm H1 H2. apply inv_with_nodes; [done| |].
  - intros n' l. destruct (decide (n = n')) as [<-|].
    + rewrite lookup_insert_eq. apply H1.
    + rewrite lookup_insert_ne by done. apply (inv_refs m Hm).
  - intros n'. destruct (decide (n = n')) as [<-|].
    + by rewrite lookup_insert_eq.
    + rewrite lookup_insert_ne by done. apply (inv_nodup m Hm).
Qed.

Lemma inv_update m l f :
  (forall s, s_session_id (f s) = s_session_id s) ->
  (forall s, s_keys (f s) = s_keys s) ->
  sm_inv m -> sm_inv (update m l f).
Proof.
  intros Hf1 Hf2 [Hlen Hpl Hh Hr Hn Hd Hz].
  assert (forall l' s, get m l' = Some s -> exists s', get (update m l f) l' = Some s' /\
    s_session_id s' = s_session_id s /\ s_keys s' = s_keys s) as Hget.
  { intros l' s Hs. unfold get, update. simpl. destruct (decide (l = l')) as [<-|].
    - rewrite lookup_alter_eq. unfold get in Hs. rewrite Hs. simpl. eauto.
    - rewrite lookup_alter_ne by done. eauto. }
  constructor; [done| | | |done| |simpl; lia].
  - intros i sh id l' Hi Hl. destruct (Hpl i sh id l' Hi Hl) as [? (s & Hs & <-)].
    split; [done|]. destruct (Hget _ _ Hs) as (s' & ? & ? & ?). eauto.
  - intros l' s Hs. unfold get, update in Hs. simpl in Hs. apply lookup_alter_Some in Hs.
    destruct Hs as [(-> & s0 & Hs & _)|[_ Hs]]; by apply (Hh _ _ Hs).
  - intros n l' Hin. destruct (Hr n l' Hin) as (s & Hs & ?).
    destruct (Hget _ _ Hs) as (s' & ? & ? & Hk). exists s'. by rewrite Hk.
  - intros l' Hin. destruct (Hd l' Hin) as [s Hs]. destruct (Hget _ _ Hs) as (s' & ? & _). eauto.
Qed.

Lemma inv_held_change m x :
  sm_inv m -> (forall l, l ∈ x -> is_Some (get m l)) -> sm_inv (with_held m x).
Proof. intros [Hlen Hpl Hh Hr Hn Hd Hz] Hx. by constructor. Qed.

Lemma strong_held m l : l ∈ sm_held m -> l ∈ strong m.
Proof. unfold strong. set_solver. Qed.

Lemma strong_iff m l :
  l ∈ strong m <->
  l ∈ sm_held m \/ exists i sh id, sm_sessions m !! i = Some sh /\ sh !! id = Some l.
Proof.
  unfold strong. rewrite elem_of_union, elem_of_union_list. apply or_iff_compat_l. split.
  - intros (X & HX & Hl). apply list_elem_of_fmap in HX as (sh & -> & Hsh).
    apply list_elem_of_lookup in Hsh as [i Hi].
    unfold shard_locs in Hl. rewrite elem_of_list_to_set in Hl.
    apply list_elem_of_fmap in Hl as ([id l'] & -> & Hp).
    apply elem_of_map_to_list in Hp. eauto.
  - intros (i & sh & id & Hi & Hl). exists (shard_locs sh). split.
    + apply list_elem_of_fmap. exists sh. split; [done|]. by eapply list_elem_of_lookup_2.
    + unfold shard_locs. rewrite elem_of_list_to_set. apply list_elem_of_fmap.
      exists (id, l). split; [done|]. by apply elem_of_map_to_list.
Qed.

Lemma alive_get m l : sm_inv m -> alive m l = true -> is_Some (get m l).
Proof.
  intros Hm Ha. apply bool_decide_eq_true in Ha. apply strong_iff in Ha as [Ha|(i & sh & id & Hi & Hl)].
  - by apply (inv_held m Hm).
  - destruct (inv_placed m Hm _ _ _ _ Hi Hl) as [_ (s & -> & _)]. done.
Qed.

(** In the table means alive. *)
Lemma session_alive m id l :
  sm_inv m -> session m id = Some l -> alive m l = true.
Proof.
  intros Hm Hs. apply bool_decide_eq_true, strong_iff. right.
  exists (session_slot id), (shard m id), id. split; [|done]. apply shard_lookup, (inv_shards m Hm).
Qed.

Lemma alive_session m l :
  sm_inv m -> alive m l = true ->
  l ∈ sm_held m \/ exists id, session m id = Some l.
Proof.
  intros Hm Ha. apply bool_decide_eq_true, strong_iff in Ha as [|(i & sh & id & Hi & Hl)]; [by left|].
  right. exists id. destruct (inv_placed m Hm _ _ _ _ Hi Hl) as [-> _].
  unfold session, shard. by rewrite Hi.
Qed.

(** A fresh session on the heap. *)
Definition alloc (m : SessionManager) (s : Session) : SessionManager :=
  {| sm_sessions := sm_sessions m; sm_node_sessions := sm_node_sessions m;
     sm_flagged_nodes := sm_flagged_nodes m; sm_mode := sm_mode m; sm_events := sm_events m;
     sm_heap := <[sm_next m := s]> (sm_heap m); sm_held := sm_held m; sm_next := sm_next m + 1 |}.

Lemma fresh_loc m : sm_inv m -> get m (sm_next m) = None.
Proof.
  intros Hm. destruct (get m (sm_next m)) eqn:E; [|done].
  pose proof (inv_heap m Hm _ _ E). lia.
Qed.

Lemma get_alloc m s l :
  get (alloc m s) l = if decide (l = sm_next m) then Some s else get m l.
Proof.
  unfold get, alloc. simpl. destruct (decide _) as [->|]; [apply lookup_insert_eq|].
  by rewrite lookup_insert_ne.
Qed.

Lemma get_alloc_old m s l s' : sm_inv m -> get m l = Some s' -> get (alloc m s) l = Some s'.
Proof.
  intros Hm Hl. rewrite get_alloc, decide_False; [done|]. intros ->.
  by rewrite (fresh_loc m Hm) in Hl.
Qed.

Lemma inv_alloc m s : sm_inv m -> sm_inv (alloc m s).
Proof.
  intros Hm. pose proof (get_alloc_old m s) as Hold. destruct Hm as [Hlen Hpl Hh Hr Hn Hd Hz] eqn:Em.
  clear Em. constructor; [done| | | |done| |simpl; lia].
  - intros i sh id l Hi Hl. destruct (Hpl i sh id l Hi Hl) as [? (s' & Hs & ?)]. eauto 6.
  - intros l s'. rewrite get_alloc. simpl. destruct (decide _) as [->|]; [lia|].
    intros Hs. pose proof (Hh _ _ Hs). lia.
  - intros n l Hin. destruct (Hr n l Hin) as (s' & Hs & ?). eauto.
  - intros l Hin. destruct (Hd l Hin) as [s' Hs]. eauto.
Qed.

Lemma new_session_alloc m clock id peer node_id keys encs sk :
  session m id = None ->
  exists s, new_session m clock id peer node_id keys encs sk =
    (Ok (sm_next m),
     set_shard (alloc m s) id (<[id := sm_next m]> (shard (alloc m s) id))) /\
    s = {| s_session_id := id; s_peer := peer; s_ts := Clock_last_seen clock;
           s_node_id := node_id; s_keys := keys; s_supported_encryptions := encs;
           s_addr_status := Unknown; s_session_key := sk |}.
Proof. intros Hs. unfold new_session. unfold session in Hs. rewrite Hs. eauto. Qed.

Lemma inv_new_session m clock id peer node_id keys encs sk :
  sm_inv m -> sm_inv (new_session m clock id peer node_id keys encs sk).2.
Proof.
  intros Hm. destruct (session m id) as [l|] eqn:E.
  { unfold session in E. unfold new_session. by rewrite E. }
  destruct (new_session_alloc m clock id peer node_id keys encs sk E) as (s & -> & Hs).
  simpl. pose proof (inv_alloc m s Hm) as Ha. apply inv_set_shard; [done|].
  intros id' l Hl. apply lookup_insert_Some in Hl as [[<- <-]|[_ Hl]].
  - split; [done|]. exists s. rewrite get_alloc, decide_True by done. by subst s.
  - destruct (inv_placed _ Ha _ _ id' l (shard_lookup _ id (inv_shards _ Ha)) Hl). auto.
Qed.

Lemma inv_link_key l s m n :
  get m l = Some s -> n ∈ map ni_node_id (s_keys s) -> sm_inv m -> sm_inv (link_key l m n).
Proof.
  intros Hs Hn Hm. unfold link_key.
  set (g := base.filter _ _).
  assert (forall x, x ∈ g -> exists s, get m x = Some s /\ n ∈ map ni_node_id (s_keys s)) as Hg.
  { intros x [_ Hx]%list_elem_of_filter. by apply (inv_refs m Hm). }
  assert (NoDup g) as Hnd by apply NoDup_filter, (inv_nodup m Hm).
  case_bool_decide as Hin; apply inv_with_node; try done.
  - intros x [Hx|Hx%list_elem_of_singleton]%elem_of_app; [by apply Hg|]. subst x. eauto.
  - apply NoDup_app. split_and!; [done| |apply NoDup_singleton].
    intros x Hx ->%list_elem_of_singleton. done.
Qed.

Lemma get_link_key l m n x : get (link_key l m n) x = get m x.
Proof. unfold link_key. by case_bool_decide. Qed.

Lemma inv_foldl_link l s ns m :
  get m l = Some s -> ns ⊆ map ni_node_id (s_keys s) -> sm_inv m ->
  sm_inv (foldl (link_key l) m ns).
Proof.
  revert m. induction ns as [|n ns IH]; intros m Hs Hsub Hm; [done|]. simpl.
  apply IH; [by rewrite get_link_key|set_solver|].
  eapply inv_link_key; [exact Hs|set_solver|done].
Qed.

Lemma inv_link_sessions m l : sm_inv m -> sm_inv (link_sessions m l).
Proof.
  intros Hm. unfold link_sessions. destruct (get m l) as [s|] eqn:E; [|done].
  by eapply inv_foldl_link.
Qed.

(** [pop_dead] keeps a suffix of the reversed list that starts with a live one. *)
Lemma pop_dead_spec m refs :
  exists dead rest, refs = dead ++ rest /\ Forall (fun x => alive m x = false) dead /\
    pop_dead m refs = (head rest, rest) /\
    match rest with [] => True | l :: _ => alive m l = true end.
Proof.
  induction refs as [|l refs (dead & rest & -> & Hd & Hp & Hr)]; [by exists [], []|].
  simpl. destruct (alive m l) eqn:E.
  - by exists [], (l :: dead ++ rest).
  - exists (l :: dead), rest. split_and!; [done|by constructor|done|done].
Qed.

Lemma inv_node_session m n : sm_inv m -> sm_inv (node_session m n).2.
Proof.
  intros Hm. unfold node_session. destruct (sm_node_sessions m !! n) as [refs|] eqn:E; [|done].
  destruct (pop_dead_spec m (rev refs)) as (dead & rest & Hrev & _ & -> & _). simpl.
  assert (node_refs m n = rev rest ++ rev dead) as Hrefs.
  { unfold node_refs. rewrite E. simpl. rewrite <- rev_app_distr, <- Hrev. by rewrite rev_involutive. }
  apply inv_with_node; [done| |].
  - intros l Hl. apply (inv_refs m Hm). rewrite Hrefs. set_solver.
  - pose proof (inv_nodup m Hm n) as Hnd. rewrite Hrefs in Hnd. by apply NoDup_app in Hnd as [? _].
Qed.

Lemma clean_refs m n :
  default [] (base.filter (fun p => p.2 <> []) (live_refs m <$> sm_node_sessions m) !! n) =
  live_refs m (node_refs m n).
Proof.
  rewrite map_lookup_filter, lookup_fmap. unfold node_refs.
  destruct (sm_node_sessions m !! n) as [refs|]; simpl; [|done].
  destruct (decide (live_refs m refs = [])) as [->|Hne]; [by simpl|].
  by case_guard.
Qed.

Lemma inv_clean m : sm_inv m -> sm_inv (clean_node_sessions m).
Proof.
  intros Hm. apply inv_with_nodes; [done| |].
  - intros n l. rewrite clean_refs. intros [_ Hl]%list_elem_of_filter. by apply (inv_refs m Hm).
  - intros n. rewrite clean_refs. apply NoDup_filter, (inv_nodup m Hm).
Qed.

Lemma neighbours_state m n count :
  (neighbours m n count).2 = (if sm_mode m =? 1 then (node_session m n).2 else m).
Proof.
  unfold neighbours, select_public. destruct (sm_mode m =? 1); [|done].
  by destruct (node_session m n).
Qed.

Lemma inv_run_op op m : sm_inv m -> sm_inv (run_op op m).
Proof.
  intros Hm. destruct op; simpl.
  - by apply inv_new_session.
  - by apply inv_delete.
  - unfold remove_session_from. repeat case_match; try done. by apply inv_delete.
  - by apply inv_link_sessions.
  - by apply inv_node_session.
  - by apply inv_clean, inv_filter.
  - by apply inv_update.
  - by apply inv_update.
  - rewrite neighbours_state. case_match; [by apply inv_node_session|done].
  - destruct Hm. by destruct flag.
  - by destruct Hm.
  - destruct (alive m l) eqn:E; [|done]. apply inv_held_change; [done|].
    intros x [->%elem_of_singleton|Hx]%elem_of_union; [by apply alive_get|by apply (inv_held m Hm)].
  - apply inv_held_change; [done|]. intros x [Hx _]%elem_of_difference. by apply (inv_held m Hm).
Qed.

Lemma inv_new : sm_inv SessionManager_new.
Proof.
  constructor.
  - done.
  - intros i sh id l Hi Hl. apply (lookup_replicate 16 (∅ : gmap SessionId loc)) in Hi as [-> _].
    done.
  - done.
  - intros n l Hl. by apply not_elem_of_nil in Hl.
  - intros n. apply NoDup_nil_2.
  - intros l Hl. set_solver.
  - done.
Qed.

Lemma session_new id : session SessionManager_new id = None.
Proof.
  pose proof (shard_lookup SessionManager_new id eq_refl) as Hs.
  apply (lookup_replicate 16 (∅ : gmap SessionId loc)) in Hs as [Hs _].
  unfold session. by rewrite Hs.
Qed.

Definition run_ops (ops : list Op) (m : SessionManager) : SessionManager :=
  foldl (fun m op => run_op op m) m ops.

Lemma inv_run_ops ops m : sm_inv m -> sm_inv (run_ops ops m).
Proof.
  unfold run_ops. revert m. induction ops as [|op ops IH]; intros m Hm; [done|]. simpl.
  by apply IH, inv_run_op.
Qed.

(** ** One map *)

Definition at_loc (l : loc) (f : Session -> Session) (p : loc * Session) : loc * Session :=
  if p.1 =? l then (l, f p.2) else p.

(** What the operations do to a single map from ids to sessions. *)
Definition spec_op (fresh : loc) (op : Op) (a : gmap SessionId (loc * Session))
  : gmap SessionId (loc * Session) :=
  match op with
  | OpNew clock id peer node_id keys encryptions session_key =>
      match a !! id with
      | Some _ => a
      | None =>
          <[id := (fresh,
             {| s_session_id := id; s_peer := peer; s_ts := ck_ts clock;
                s_node_id := node_id; s_keys := keys; s_supported_encryptions := encryptions;
                s_addr_status := Unknown; s_session_key := session_key |})]> a
      end
  | OpRemove id => delete id a
  | OpRemoveFrom id peer =>
      match a !! id with
      | Some (_, s) => if decide (s_peer s = peer) then delete id a else a
      | None => a
      end
  | OpCleanup clock timeout =>
      base.filter (fun p => Clock_age clock (s_ts p.2.2) <= timeout) a
  | OpTouch clock l => at_loc l (set_ts (ck_ts clock)) <$> a
  | OpStatus l st => at_loc l (set_addr_status st) <$> a
  | _ => a
  end.

Definition represents (a : gmap SessionId (loc * Session)) (m : SessionManager) : Prop :=
  forall id, a !! id = table m id.

Lemma table_ext m m' id :
  sm_sessions m' = sm_sessions m -> sm_heap m' = sm_heap m -> table m' id = table m id.
Proof. intros H1 H2. unfold table, session, shard, get. by rewrite H1, H2. Qed.

Lemma table_session m id l s :
  table m id = Some (l, s) <-> session m id = Some l /\ get m l = Some s.
Proof.
  unfold table. destruct (session m id) as [l'|]; simpl; [|naive_solver].
  destruct (get m l') eqn:E; simpl; naive_solver.
Qed.

Lemma table_None m id : sm_inv m -> table m id = None <-> session m id = None.
Proof.
  intros Hm. unfold table. destruct (session m id) as [l|] eqn:E; [|done]. simpl.
  destruct (session_placed m id l Hm E) as (s & -> & _). done.
Qed.

Lemma table_delete m id id' :
  sm_inv m ->
  table (set_shard m id (delete id (shard m id))) id' =
  (if decide (id = id') then None else table m id').
Proof.
  intros Hm. unfold table. rewrite session_delete by apply (inv_shards m Hm).
  by destruct (decide _).
Qed.

Lemma table_update m l f id : table (update m l f) id = at_loc l f <$> table m id.
Proof.
  unfold table, at_loc. change (session (update m l f) id) with (session m id).
  destruct (session m id) as [l'|]; simpl; [|done].
  unfold get, update. simpl. destruct (decide (l = l')) as [<-|].
  - rewrite lookup_alter_eq. destruct (sm_heap m !! l); simpl; [|done]. by rewrite Z.eqb_refl.
  - rewrite lookup_alter_ne by done. destruct (sm_heap m !! l'); simpl; [|done].
    by rewrite (proj2 (Z.eqb_neq l' l)).
Qed.

Lemma session_filter m (P : SessionId * loc -> Prop) `{!forall p, Decision (P p)} id l :
  session (with_sessions m (map (base.filter P) (sm_sessions m))) id = Some l <->
  session m id = Some l /\ P (id, l).
Proof.
  unfold session, shard. simpl. rewrite list_lookup_fmap.
  destruct (sm_sessions m !! session_slot id) as [sh|]; simpl.
  - apply map_lookup_filter_Some.
  - rewrite lookup_empty. naive_solver.
Qed.

Lemma table_new m clock id peer node_id keys encs sk id' :
  sm_inv m -> session m id = None ->
  table (new_session m clock id peer node_id keys encs sk).2 id' =
  (if decide (id = id') then
     Some (sm_next m, {| s_session_id := id; s_peer := peer; s_ts := ck_ts clock;
             s_node_id := node_id; s_keys := keys; s_supported_encryptions := encs;
             s_addr_status := Unknown; s_session_key := sk |})
   else table m id').
Proof.
  intros Hm E. destruct (new_session_alloc m clock id peer node_id keys encs sk E) as (s & -> & Hs).
  simpl. unfold table. rewrite session_insert by apply (inv_shards m Hm).
  change (get (set_shard ?a _ _)) with (get a).
  destruct (decide (id = id')) as [<-|]; simpl.
  - rewrite get_alloc, decide_True by done. by subst s.
  - change (session (alloc m s) id') with (session m id').
    destruct (session m id') as [l|] eqn:El; [|done]. simpl.
    destruct (session_placed m id' l Hm El) as (s' & Hs' & _).
    by rewrite (get_alloc_old m s l s' Hm Hs'), Hs'.
Qed.

(** Linking changes the node table and the events only. *)
Lemma link_with_nodes m l : exists x ev, link_sessions m l = with_nodes m x ev.
Proof.
  assert (forall m, exists x ev, m = with_nodes m x ev) as Hid.
  { intros [ss ns fs md ev hp hd nx]. exists ns, []. unfold with_nodes. simpl. by rewrite app_nil_r. }
  unfold link_sessions. destruct (get m l) as [s|]; [|apply Hid].
  generalize (map ni_node_id (s_keys s)). intros ns. revert m.
  induction ns as [|n ns IH]; intros m; [apply Hid|]. simpl.
  destruct (IH (link_key l m n)) as (x & ev & ->). unfold link_key.
  case_bool_decide; unfold with_nodes; simpl; rewrite <- app_assoc; eauto.
Qed.

Lemma get_run_link m l x : get (link_sessions m l) x = get m x.
Proof. by destruct (link_with_nodes m l) as (y & ev & ->). Qed.

Lemma link_same m l :
  sm_sessions (link_sessions m l) = sm_sessions m /\ sm_heap (link_sessions m l) = sm_heap m.
Proof. by destruct (link_with_nodes m l) as (y & ev & ->). Qed.

Lemma node_session_same m n :
  sm_sessions (node_session m n).2 = sm_sessions m /\ sm_heap (node_session m n).2 = sm_heap m.
Proof.
  unfold node_session. destruct (sm_node_sessions m !! n); [|done]. by destruct (pop_dead _ _).
Qed.

Lemma table_cleanup m clock timeout id :
  sm_inv m ->
  table (cleanup clock timeout m) id =
  (table m id ≫= fun p => if decide (Clock_age clock (s_ts p.2) <= timeout) then Some p else None).
Proof.
  intros Hm. unfold cleanup.
  rewrite (table_ext (with_sessions m (map (base.filter
    (fun p => keep_session clock timeout m p.2 = true)) (sm_sessions m)))) by done.
  apply option_eq. intros [l s]. rewrite table_session, session_filter. unfold keep_session. simpl.
  change (get (with_sessions _ _) l) with (get m l).
  destruct (table m id) as [[l' s']|] eqn:E; simpl.
  - apply table_session in E as [Hs Hg]. rewrite Hs.
    destruct (decide _) as [Ha|Ha]; split.
    + intros [[[= <-] _] Hl]. congruence.
    + intros [= <- <-]. rewrite Hg. split_and!; try done. by apply Z.leb_le.
    + intros [[[= <-] Hk] Hl]. rewrite Hg in Hk. by apply Z.leb_le in Hk.
    + done.
  - apply table_None in E; [|done]. rewrite E. naive_solver.
Qed.

Lemma represents_delete a m id :
  sm_inv m -> represents a m ->
  represents (delete id a) (set_shard m id (delete id (shard m id))).
Proof.
  intros Hm Ha id'. rewrite table_delete by done.
  destruct (decide (id = id')) as [<-|].
  - apply lookup_delete_eq.
  - by rewrite lookup_delete_ne.
Qed.

Lemma run_op_refines a m op :
  sm_inv m -> represents a m -> represents (spec_op (sm_next m) op a) (run_op op m).
Proof.
  intros Hm Ha. destruct op; simpl;
    try (intros id'; rewrite Ha; symmetry; apply table_ext; done).
  - rewrite Ha. destruct (session m id) as [l|] eqn:E.
    + destruct (session_placed m id l Hm E) as (s & Hs & _).
      rewrite (proj2 (table_session m id l s) (conj E Hs)).
      unfold session in E. unfold new_session. by rewrite E.
    + rewrite (proj2 (table_None m id Hm) E). intros id'. rewrite table_new by done.
      destruct (decide (id = id')) as [<-|]; [apply lookup_insert_eq|].
      by rewrite lookup_insert_ne.
  - by apply represents_delete.
  - rewrite Ha. unfold table. unfold remove_session_from.
    change (shard m id !! id) with (session m id).
    destruct (session m id) as [l|] eqn:E; simpl; [|done].
    destruct (get m l) as [s|]; simpl; [|done].
    case_bool_decide; destruct (decide _); try done. by apply represents_delete.
  - intros id'. rewrite Ha. symmetry. apply table_ext; apply link_same.
  - intros id'. rewrite Ha. symmetry. apply table_ext; apply node_session_same.
  - intros id'. rewrite table_cleanup by done. rewrite map_lookup_filter, Ha.
    destruct (table m id') as [p|]; simpl; [|done].
    case_guard; by simplify_option_eq.
  - intros id'. unfold touch. by rewrite table_update, lookup_fmap, Ha.
  - intros id'. by rewrite table_update, lookup_fmap, Ha.
  - intros id'. rewrite Ha. symmetry. rewrite neighbours_state.
    case_match; [|done]. apply table_ext; apply node_session_same.
  - intros id'. rewrite Ha. symmetry. destruct flag; by apply table_ext.
  - intros id'. rewrite Ha. symmetry. case_match; by apply table_ext.
Qed.

(** The location of the next session. *)
Definition spec_next (fresh : loc) (op : Op) (a : gmap SessionId (loc * Session)) : loc :=
  match op with
  | OpNew _ id _ _ _ _ _ => match a !! id with Some _ => fresh | None => fresh + 1 end
  | _ => fresh
  end.

Definition spec_run (ops : list Op) : gmap SessionId (loc * Session) * loc :=
  foldl (fun '(a, fresh) op => (spec_op fresh op a, spec_next fresh op a)) (∅, 0) ops.

Lemma link_next m l : sm_next (link_sessions m l) = sm_next m.
Proof. by destruct (link_with_nodes m l) as (y & ev & ->). Qed.

Lemma link_held m l : sm_held (link_sessions m l) = sm_held m.
Proof. by destruct (link_with_nodes m l) as (y & ev & ->). Qed.

Lemma node_session_next m n : sm_next (node_session m n).2 = sm_next m.
Proof.
  unfold node_session. destruct (sm_node_sessions m !! n); [|done]. by destruct (pop_dead _ _).
Qed.

Lemma run_op_next a m op :
  sm_inv m -> represents a m -> sm_next (run_op op m) = spec_next (sm_next m) op a.
Proof.
  intros Hm Ha. destruct op; simpl; try done.
  - rewrite Ha. unfold new_session. change (shard m id !! id) with (session m id).
    destruct (session m id) as [l|] eqn:E.
    + destruct (session_placed m id l Hm E) as (s & Hs & _).
      by rewrite (proj2 (table_session m id l s) (conj E Hs)).
    + by rewrite (proj2 (table_None m id Hm) E).
  - unfold remove_session_from. by repeat case_match.
  - apply link_next.
  - apply node_session_next.
  - rewrite neighbours_state. case_match; [apply node_session_next|done].
  - by destruct flag.
  - by case_match.
Qed.

(** C10: the sixteen hashed maps of sessions with their shared session objects
    behave as one map from ids to sessions: every operation of the manager acts
    on the table as its specification acts on a single map, in particular a
    session is never replaced by [new_session], only the registered endpoint can
    remove a session through [remove_session_from], and the cleanup keeps
    exactly the sessions seen within the timeout. *)
Theorem session_table_refines ops :
  represents (spec_run ops).1 (run_ops ops SessionManager_new).
Proof.
  cut (sm_inv (run_ops ops SessionManager_new) /\
       represents (spec_run ops).1 (run_ops ops SessionManager_new) /\
       sm_next (run_ops ops SessionManager_new) = (spec_run ops).2); [by intros (_ & ? & _)|].
  induction ops as [|op ops (Hm & Ha & Hn)] using rev_ind.
  - split_and!; [apply inv_new| |done]. intros id. symmetry.
    transitivity (@None (loc * Session)); [|symmetry; apply lookup_empty].
    apply table_None; [apply inv_new|apply session_new].
  - unfold run_ops, spec_run in *. rewrite !foldl_app. simpl.
    destruct (foldl _ (∅, 0) ops) as [a fresh]. simpl in *. subst fresh.
    split_and!; [by apply inv_run_op|by apply run_op_refines|by apply run_op_next].
Qed.
End SessionManager.

(** ** Examples *)

Module ToySessions.
Import ToyCrypto ToyIp.

Definition toy_slot (id : SessionId) : Z := default 0 (head id).
Definition toy_clock (t : Z) : Clock := {| ck_now := t * SECOND; ck_ts := t |}.
Definition toy_peer (k : Z) : SocketAddr := {| sa_ip := IpV4 k; sa_port := 1000 |}.
Definition toy_identity (k : Z) : NodeIdentity :=
  {| ni_node_id := replicate 20 k; ni_public_key := k |}.
Definition toy_new (t k : Z) : Op :=
  OpNew (toy_clock t) (replicate 16 k) (toy_peer k) (replicate 20 k) [toy_identity k] [] None.

(** Three nodes; the third one refreshed later. *)
Definition toy_ops : list Op :=
  [toy_new 0 1; toy_new 5 2; toy_new 6 3; OpLink 0; OpLink 1; OpLink 2;
   OpTouch (toy_clock 700) 2].
Definition toy_manager : SessionManager := run_ops toy_slot toy_ops SessionManager_new.
End ToySessions.
