(* ===== verification/SessionNodes.v ===== *)
(** The node table of [server/src/state/session_manager.rs]: which sessions a
    node is linked to, the events about nodes, and the neighbours of a node. *)

From stdpp Require Import sorting.
From S2P Require Import Prelude Proto Challenge NodeInfo ServerState SessionManager.

Section Nodes.
Context `{EthSign} `{IpText}.

(** The references of a node after a session is linked to it. *)
Definition linked (m : SessionManager) (l : loc) (n : NodeId) : list loc :=
  let g := live_refs m (node_refs m n) in if decide (l ∈ g) then g else g ++ [l].

Lemma live_refs_with m l refs :
  alive m l = true ->
  base.filter (fun x => alive m x || (x =? l) = true) refs = live_refs m refs.
Proof.
  intros Ha. unfold live_refs. apply list_filter_iff. intros x.
  rewrite orb_true_iff, Z.eqb_eq. split; [intros [?| ->]; done|by left].
Qed.

Lemma node_refs_insert m n refs ev n' :
  node_refs (with_nodes m (<[n := refs]> (sm_node_sessions m)) ev) n' =
  (if decide (n = n') then refs else node_refs m n').
Proof.
  unfold node_refs. simpl. destruct (decide (n = n')) as [<-|].
  - by rewrite lookup_insert_eq.
  - by rewrite lookup_insert_ne.
Qed.

Lemma link_key_spec m l n :
  alive m l = true ->
  exists ev, link_key l m n =
    with_nodes m (<[n := linked m l n]> (sm_node_sessions m)) ev /\
    ev = (if decide (live_refs m (node_refs m n) = []) then [NodeNew n] else []).
Proof.
  intros Ha. unfold link_key, linked. rewrite live_refs_with by done.
  case_bool_decide as Hin.
  - rewrite decide_True by done. eexists. split; [done|].
    rewrite decide_False; [done|]. intros Hg. rewrite Hg in Hin. by apply not_elem_of_nil in Hin.
  - rewrite decide_False by done. eexists. split; [done|]. case_bool_decide; by case_decide.
Qed.

Lemma live_refs_alive m refs : Forall (fun x => alive m x = true) refs -> live_refs m refs = refs.
Proof.
  unfold live_refs. induction 1 as [|x refs Hx _ IH]; [done|]. by rewrite filter_cons_True, IH.
Qed.

Lemma live_linked m l n : alive m l = true -> live_refs m (linked m l n) = linked m l n.
Proof.
  intros Ha. apply live_refs_alive. unfold linked.
  assert (Forall (fun x => alive m x = true) (live_refs m (node_refs m n))) as Hg.
  { apply Forall_forall. by intros x [? _]%list_elem_of_filter. }
  case_decide; [done|]. apply Forall_app. by repeat constructor.
Qed.

Lemma linked_in m l n : l ∈ linked m l n.
Proof. unfold linked. case_decide; [done|set_solver]. Qed.

Lemma linked_not_nil m l n : alive m l = true -> live_refs m (linked m l n) <> [].
Proof.
  intros Ha Hn. rewrite live_linked in Hn by done. pose proof (linked_in m l n) as Hx.
  rewrite Hn in Hx. by apply not_elem_of_nil in Hx.
Qed.

Lemma live_refs_same m x ev refs : live_refs (with_nodes m x ev) refs = live_refs m refs.
Proof. done. Qed.

Lemma link_fold ns : forall m l,
  alive m l = true ->
  exists evs,
    (forall n, node_refs (foldl (link_key l) m ns) n =
       if decide (n ∈ ns) then linked m l n else node_refs m n) /\
    sm_events (foldl (link_key l) m ns) = sm_events m ++ evs /\
    NoDup evs /\
    forall e, e ∈ evs <-> exists n, e = NodeNew n /\ n ∈ ns /\ live_refs m (node_refs m n) = [].
Proof.
  induction ns as [|n0 ns IH]; intros m l Ha.
  { exists []. split_and!; [done|by rewrite app_nil_r|apply NoDup_nil_2|set_solver]. }
  destruct (link_key_spec m l n0 Ha) as (ev & Hm1 & Hev). simpl. rewrite Hm1.
  set (m1 := with_nodes m _ ev).
  assert (alive m1 l = true) as Ha1 by done.
  assert (forall n, node_refs m1 n = if decide (n0 = n) then linked m l n0 else node_refs m n) as Hr
    by (intros n; apply node_refs_insert).
  assert (forall n, linked m1 l n = linked m l n) as Hl.
  { intros n. unfold linked at 1. rewrite Hr. destruct (decide (n0 = n)) as [<-|]; [|done].
    unfold m1. rewrite live_refs_same, live_linked by done. by rewrite decide_True by apply linked_in. }
  destruct (IH m1 l Ha1) as (evs & Hrefs & Hevs & Hnd & Hin). exists (ev ++ evs). split_and!.
  - intros n. rewrite Hrefs, Hl, Hr.
    destruct (decide (n0 = n)) as [<-|]; repeat case_decide; set_solver.
  - rewrite Hevs. unfold m1. simpl. by rewrite app_assoc.
  - apply NoDup_app. split_and!; [subst ev; case_decide; [apply NoDup_singleton|apply NoDup_nil_2]| |done].
    intros e He He'. apply Hin in He' as (n & -> & _ & Hn). rewrite Hr in Hn.
    subst ev. case_decide; [|by apply not_elem_of_nil in He].
    apply list_elem_of_singleton in He. simplify_eq. rewrite decide_True in Hn by done.
    exact (linked_not_nil m l n0 Ha Hn).
  - intros e. rewrite elem_of_app, Hin. split.
    + intros [He|(n & -> & Hn & Hg)].
      * subst ev. case_decide; [|by apply not_elem_of_nil in He].
        apply list_elem_of_singleton in He. exists n0. set_solver.
      * exists n. rewrite Hr in Hg. unfold m1 in Hg. rewrite live_refs_same in Hg.
        destruct (decide (n0 = n)) as [<-|]; [|set_solver].
        exfalso. exact (linked_not_nil m l n0 Ha Hg).
    + intros (n & -> & Hn & Hg). destruct (decide (n = n0)) as [->|].
      * left. subst ev. rewrite decide_True by done. set_solver.
      * right. exists n. rewrite Hr, decide_False by done. set_solver.
Qed.

(** linking a session ties it to every node id among its keys and to no
    other: the node's references are the live ones with the session added at
    the end unless it is there already, and exactly the nodes that had no live
    session are announced, once each. *)
Theorem link_sessions_links m l s :
  get m l = Some s -> alive m l = true ->
  exists evs,
    (forall n, node_refs (link_sessions m l) n =
       if decide (n ∈ map ni_node_id (s_keys s)) then linked m l n else node_refs m n) /\
    sm_events (link_sessions m l) = sm_events m ++ evs /\
    NoDup evs /\
    forall e, e ∈ evs <->
      exists n, e = NodeNew n /\ n ∈ map ni_node_id (s_keys s) /\
        live_refs m (node_refs m n) = [].
Proof. intros Hs Ha. unfold link_sessions. rewrite Hs. by apply link_fold. Qed.

Lemma live_refs_rev m refs : live_refs m (rev refs) = rev (live_refs m refs).
Proof.
  unfold live_refs. induction refs as [|x refs IH]; [done|]. simpl.
  rewrite filter_app, IH. destruct (decide (alive m x = true)).
  - by rewrite !filter_cons_True.
  - rewrite !filter_cons_False by done. by rewrite app_nil_r.
Qed.

Lemma live_refs_dead m dead rest :
  Forall (fun x => alive m x = false) dead -> live_refs m (dead ++ rest) = live_refs m rest.
Proof.
  unfold live_refs. induction 1 as [|x dead Hx _ IH]; [done|]. simpl.
  rewrite filter_cons_False; [done|]. by rewrite Hx.
Qed.

Lemma node_session_spec m n :
  (node_session m n).1 = last (live_refs m (node_refs m n)) /\
  (forall n', live_refs m (node_refs (node_session m n).2 n') = live_refs m (node_refs m n')) /\
  sm_events (node_session m n).2 = sm_events m.
Proof.
  unfold node_session, node_refs at 1 3. destruct (sm_node_sessions m !! n) as [refs|] eqn:E; [|done].
  destruct (pop_dead_spec m (rev refs)) as (dead & rest & Hrev & Hd & -> & Hlive).
  assert (refs = rev (dead ++ rest)) as -> by (rewrite <- Hrev; by rewrite rev_involutive).
  assert (live_refs m (rev (dead ++ rest)) = live_refs m (rev rest)) as Heq
    by (rewrite !live_refs_rev; by rewrite live_refs_dead).
  split_and!; [|intros n'|apply app_nil_r].
  - simpl. rewrite Heq, live_refs_rev. destruct rest as [|l rest]; [done|].
    simpl. unfold live_refs. rewrite filter_cons_True by done. simpl. by rewrite last_snoc.
  - change ((head rest, with_nodes m (<[n := rev rest]> (sm_node_sessions m)) []).2)
      with (with_nodes m (<[n := rev rest]> (sm_node_sessions m)) []).
    rewrite node_refs_insert. destruct (decide (n = n')) as [<-|]; [|done].
    unfold node_refs. by rewrite E.
Qed.

(** [node_session] finds the session that was linked last among the live
    ones of a node, and only drops dead references. *)
Theorem node_session_latest m n :
  (node_session m n).1 = last (live_refs m (node_refs m n)) /\
  (forall n', live_refs m (node_refs (node_session m n).2 n') = live_refs m (node_refs m n')) /\
  sm_events (node_session m n).2 = sm_events m.
Proof. apply node_session_spec. Qed.

Lemma lost_iff (kept : gmap NodeId (list loc)) e :
  e ∈ map (fun p => NodeLost p.1) (base.filter (fun p => p.2 = []) (map_to_list kept)) <->
  exists n, e = NodeLost n /\ kept !! n = Some [].
Proof.
  rewrite list_elem_of_fmap. split.
  - intros ([n refs] & -> & [Hn Hp]%list_elem_of_filter). simpl in *. subst refs.
    apply elem_of_map_to_list in Hp. eauto.
  - intros (n & -> & Hn). exists (n, []). split; [done|]. apply list_elem_of_filter.
    split; [done|]. by apply elem_of_map_to_list.
Qed.

Lemma NoDup_lost (kept : gmap NodeId (list loc)) :
  NoDup (map (fun p => NodeLost p.1) (base.filter (fun p => p.2 = []) (map_to_list kept))).
Proof.
  change (map (fun p => NodeLost p.1)) with (fmap (M := list) (NodeLost ∘ (fst (B := list loc)))).
  rewrite list_fmap_compose. apply NoDup_fmap; [congruence|].
  apply (sublist_NoDup _ (map_to_list kept).*1); [apply (NoDup_fst_map_to_list kept)|].
  apply fmap_sublist, sublist_filter.
Qed.

(** ** Order of the nodes *)

#[export] Instance bytes_leb_total : Total (fun a b => bytes_leb a b = true).
Proof.
  intros a. induction a as [|x a IH]; intros [|y b]; simpl; auto.
  rewrite (Z.eqb_sym y x). destruct (Z.eqb_spec x y); [apply IH|].
  rewrite !Z.ltb_lt. lia.
Qed.

#[export] Instance bytes_leb_trans : Transitive (fun a b => bytes_leb a b = true).
Proof.
  intros a. induction a as [|x a IH]; intros [|y b] [|z c]; simpl; try done.
  destruct (Z.eqb_spec x y), (Z.eqb_spec y z), (Z.eqb_spec x z); rewrite ?Z.ltb_lt; try lia; eauto.
Qed.

#[export] Instance nearer_total base : Total (nearer base).
Proof.
  intros a b. unfold nearer.
  destruct (Z.lt_trichotomy (hamming_distance base a) (hamming_distance base b)) as [|[|]];
    destruct (bytes_leb_total a b); auto.
Qed.

#[export] Instance nearer_trans base : Transitive (nearer base).
Proof.
  intros a b c [?|[? Hab]] [?|[? Hbc]]; unfold nearer; try lia.
  right. split; [lia|]. exact (bytes_leb_trans c b a Hbc Hab).
Qed.

(** ** Neighbours *)

Definition latest (m : SessionManager) (n : NodeId) : option loc :=
  last (live_refs m (node_refs m n)).

(** The nodes that may be listed: a live session, a checked address when only
    public nodes are selected. *)
Definition eligible (m : SessionManager) (public : bool) (n : NodeId) : Prop :=
  live_refs m (node_refs m n) <> [] /\
  (public = true -> exists l s, l ∈ live_refs m (node_refs m n) /\ get m l = Some s /\
     is_valid (s_addr_status s) = true).

(** [all] lists the nodes with [P] from the nearest to the farthest. *)
Definition by_distance (base : NodeId) (P : NodeId -> Prop) (all : list NodeId) : Prop :=
  StronglySorted (nearer base) all /\ NoDup all /\ forall n, n ∈ all <-> P n.

Lemma select_public_same m base :
  sm_sessions (select_public m base).2 = sm_sessions m /\
  sm_heap (select_public m base).2 = sm_heap m /\
  sm_held (select_public m base).2 = sm_held m /\
  forall n, live_refs m (node_refs (select_public m base).2 n) = live_refs m (node_refs m n).
Proof.
  unfold select_public. destruct (sm_mode m =? 1); [|done].
  destruct (node_session_spec m base) as (_ & Hl & _).
  destruct (node_session_same m base) as [H1 H2].
  assert (sm_held (node_session m base).2 = sm_held m) as H3.
  { unfold node_session. destruct (sm_node_sessions m !! base); [|done]. by destruct (pop_dead _ _). }
  destruct (node_session m base) as [r m1]. simpl in *. done.
Qed.

Lemma live_refs_ext m m' refs :
  sm_sessions m' = sm_sessions m -> sm_held m' = sm_held m -> live_refs m' refs = live_refs m refs.
Proof. intros H1 H2. unfold live_refs, alive, strong. by rewrite H1, H2. Qed.

Lemma eligible_iff m public n :
  eligible m public n <->
  live_refs m (node_refs m n) <> [] /\ (negb public || has_valid m (node_refs m n)) = true.
Proof.
  unfold eligible, has_valid. apply and_iff_compat_l. destruct public; simpl; [|naive_solver].
  rewrite existsb_exists. split.
  - intros Hx. destruct (Hx eq_refl) as (l & s & Hl & Hs & Hv). exists l.
    rewrite <- list_elem_of_In. by rewrite Hs.
  - intros (l & Hl & Hv) _. apply list_elem_of_In in Hl.
    destruct (get m l) as [s|] eqn:E; [|done]. eauto.
Qed.

Lemma heap_order_spec m public base :
  StronglySorted (nearer base) (heap_order m public base) /\
  NoDup (heap_order m public base) /\
  forall n, n ∈ heap_order m public base <->
    is_Some (sm_node_sessions m !! n) /\ (negb public || has_valid m (node_refs m n)) = true.
Proof.
  unfold heap_order. split_and!.
  - apply (StronglySorted_merge_sort (nearer base)).
  - rewrite merge_sort_Permutation.
    apply (sublist_NoDup _ (map_to_list (sm_node_sessions m)).*1);
      [apply (NoDup_fst_map_to_list (sm_node_sessions m))|].
    apply fmap_sublist, sublist_filter.
  - intros n. rewrite merge_sort_Permutation. rewrite list_elem_of_fmap. split.
    + intros ([n' refs] & -> & [Hv Hp]%list_elem_of_filter). apply elem_of_map_to_list in Hp.
      simpl in *. unfold node_refs. rewrite Hp. eauto.
    + intros [[refs Hr] Hv]. exists (n, refs). split; [done|]. apply list_elem_of_filter. simpl.
      unfold node_refs in Hv. rewrite Hr in Hv. split; [done|]. by apply elem_of_map_to_list.
Qed.

(** The nodes of the heap without a live session are dropped on the way. *)
Lemma omap_filter m (l : list NodeId) :
  omap (latest m) l =
  omap (latest m) (base.filter (fun n => live_refs m (node_refs m n) <> []) l).
Proof.
  induction l as [|n l IH]; [done|]. cbn [omap list_omap]. unfold latest at 1.
  destruct (decide (live_refs m (node_refs m n) = [])) as [Hn|Hn].
  - rewrite filter_cons_False by naive_solver. by rewrite Hn.
  - rewrite filter_cons_True by done. cbn [omap list_omap]. by rewrite IH.
Qed.

Lemma omap_take_drop {A B} (f : A -> option B) l j k :
  Forall (fun x => is_Some (f x)) l ->
  take k (drop j (omap f l)) = omap f (take k (drop j l)).
Proof.
  intros Hf. revert j k. induction Hf as [|x l [y Hy] Hf IH]; intros j k.
  { by destruct j, k. }
  cbn [omap list_omap]. rewrite Hy. destruct j as [|j]; [|apply IH].
  destruct k as [|k]; [done|]. simpl. rewrite Hy. f_equal. apply (IH 0%nat k).
Qed.

Lemma StronglySorted_filter {A} (R : relation A) (P : A -> Prop) `{!forall x, Decision (P x)} l :
  StronglySorted R l -> StronglySorted R (base.filter P l).
Proof.
  induction 1 as [|x l Hl IH Hx]; [constructor|].
  destruct (decide (P x)).
  - rewrite filter_cons_True by done. constructor; [done|].
    apply Forall_forall. intros y [_ Hy]%list_elem_of_filter.
    by apply (proj1 (Forall_forall _ _) Hx).
  - by rewrite filter_cons_False.
Qed.

(** What [neighbours] computes, before the own node is considered. *)
Lemma neighbours_all m base count :
  exists all, by_distance base (eligible m (select_public m base).1) all /\
    (neighbours m base count).1 = omap (latest m) (ztake count (zdrop 1 all)).
Proof.
  destruct (select_public_same m base) as (H1 & H2 & H3 & Hlive).
  unfold neighbours. destruct (select_public m base) as [public m1]. simpl in *.
  assert (forall refs, live_refs m1 refs = live_refs m refs) as Hl
    by (intros refs; by apply live_refs_ext).
  assert (forall n, latest m1 n = latest m n) as Hlat
    by (intros n; unfold latest; by rewrite Hl, Hlive).
  assert (forall n, has_valid m1 (node_refs m1 n) = has_valid m (node_refs m n)) as Hv
    by (intros n; unfold has_valid, get; by rewrite Hl, H2, Hlive).
  exists (base.filter (fun n => live_refs m1 (node_refs m1 n) <> []) (heap_order m1 public base)).
  destruct (heap_order_spec m1 public base) as (Hs & Hnd & Hin). split.
  - split_and!.
    + by apply StronglySorted_filter.
    + by apply NoDup_filter.
    + intros n. rewrite list_elem_of_filter, Hin, eligible_iff, Hv, Hl, Hlive.
      split; [naive_solver|]. intros [Hne ?]. split_and!; [done| |done].
      rewrite <- Hlive in Hne. unfold node_refs in Hne.
      destruct (sm_node_sessions m1 !! n); [by eexists|done].
  - fold (latest m1). rewrite (omap_filter m1). unfold ztake, zdrop.
    rewrite omap_take_drop.
    + apply list_omap_ext, Forall_Forall2_diag, Forall_true. intros n. apply Hlat.
    + apply Forall_forall. intros n [Hn _]%list_elem_of_filter. unfold latest.
      by apply last_is_Some.
Qed.

Lemma nearer_0 base n :
  bytes_ok base -> bytes_ok n -> length n = length base -> nearer base n base -> n = base.
Proof.
  intros Hb Hn Hlen Hnear. pose proof (hamming_nonneg base n). symmetry.
  apply hamming_0; [done..|]. unfold nearer in Hnear. rewrite hamming_refl in Hnear. lia.
Qed.

(** C39: [neighbours] returns, for a node that could be listed itself, the
    latest live sessions of the [count] nearest other nodes, nearest first; in
    the mode that splits the nodes, a requester without a checked address gets
    only nodes with one.  A requester that is not eligible itself is not in the
    heap, and the first entry that is skipped is then its nearest neighbour. *)
Theorem neighbours_nearest m base count :
  let public := (select_public m base).1 in
  bytes_ok base ->
  (forall n, eligible m public n -> bytes_ok n /\ length n = length base) ->
  (eligible m public base ->
     exists others, by_distance base (fun n => n <> base /\ eligible m public n) others /\
       (neighbours m base count).1 = omap (latest m) (ztake count others)) /\
  (~ eligible m public base ->
     exists all, by_distance base (fun n => eligible m public n) all /\
       (neighbours m base count).1 = omap (latest m) (ztake count (tail all))).
Proof.
  intros public Hb Hids. destruct (neighbours_all m base count) as (all & Hall & ->).
  fold public in Hall. split; [|by intros _; exists all; split; [done|by destruct all]].
  intros Hbase. destruct Hall as (Hs & Hnd & Hin).
  destruct all as [|x all]; [by apply Hin in Hbase; apply not_elem_of_nil in Hbase|].
  assert (x = base) as ->.
  { apply Hin in Hbase. apply elem_of_cons in Hbase as [|Hbase]; [done|].
    destruct (Hids x) as [Hx Hlen]; [apply Hin; by left|].
    apply nearer_0; try done. apply StronglySorted_inv in Hs as [_ Hs].
    by apply (proj1 (Forall_forall _ _) Hs). }
  exists all. split; [|done]. apply NoDup_cons in Hnd as [Hnot Hnd].
  apply StronglySorted_inv in Hs as [Hs _]. split_and!; [done..|].
  intros n. specialize (Hin n). rewrite elem_of_cons in Hin. naive_solver.
Qed.
End Nodes.

Section Reachable.
Context `{EthSign} `{IpText} (session_hash : SessionId -> Z).

(** after a pass of the cleanup the table holds exactly the sessions seen
    within the timeout; the node table holds the references that are still
    alive and no empty entry; and exactly the nodes that lost their last live
    session are announced, once each. *)
Theorem cleanup_exact clock timeout m :
  let m' := cleanup clock timeout m in
  (forall id l, session session_hash m' id = Some l <->
     session session_hash m id = Some l /\
     exists s, get m l = Some s /\ Clock_age clock (s_ts s) <= timeout) /\
  (forall n, node_refs m' n = live_refs m' (node_refs m n)) /\
  (forall n, is_Some (sm_node_sessions m' !! n) <-> live_refs m' (node_refs m n) <> []) /\
  exists evs, sm_events m' = sm_events m ++ evs /\ NoDup evs /\
    forall e, e ∈ evs <->
      exists n, e = NodeLost n /\ is_Some (sm_node_sessions m !! n) /\
        live_refs m' (node_refs m n) = [].
Proof.
  intros m'. unfold m', cleanup.
  set (m1 := with_sessions m _).
  assert (forall refs, live_refs (clean_node_sessions m1) refs = live_refs m1 refs) as Hl by done.
  assert (forall n, node_refs m1 n = node_refs m n) as Hr by done.
  split_and!.
  - intros id l. change (session session_hash (clean_node_sessions m1) id)
      with (session session_hash m1 id).
    unfold m1. rewrite session_filter. apply and_iff_compat_l. unfold keep_session. simpl.
    destruct (get m l) as [s|]; [|naive_solver]. rewrite Z.leb_le. naive_solver.
  - intros n. rewrite Hl, <- Hr. apply clean_refs.
  - intros n. rewrite Hl, <- Hr. unfold node_refs, clean_node_sessions. simpl.
    rewrite map_lookup_filter, lookup_fmap. destruct (sm_node_sessions m !! n) as [refs|]; simpl.
    + case_guard; simpl; [split; [done|by eexists]|]. split; [intros [? ?]; done|done].
    + split; [intros [? ?]; done|done].
  - eexists. split; [done|]. split; [apply NoDup_lost|].
    intros e. rewrite lost_iff. apply exist_proper. intros n. apply and_iff_compat_l.
    rewrite lookup_fmap, Hl. unfold node_refs. change (sm_node_sessions m1) with (sm_node_sessions m).
    destruct (sm_node_sessions m !! n) as [refs|]; simpl; [|naive_solver].
    split; [intros [= ->]; eauto|by intros [_ ->]].
Qed.

(** Whatever sequence of operations is run, every session is in the shard of
    its id and under its own id, no two ids share a session object, every
    reference of a node is to a session that has the node among its keys, a
    session is linked to a node at most once, and what is looked up is alive. *)
Theorem session_manager_invariant ops :
  let m := run_ops session_hash ops SessionManager_new in
  length (sm_sessions m) = 16%nat /\
  (forall i sh id l, sm_sessions m !! i = Some sh -> sh !! id = Some l ->
     i = session_slot session_hash id /\ session session_hash m id = Some l /\
     alive m l = true /\ s_session_id <$> get m l = Some id) /\
  (forall id id' l, session session_hash m id = Some l ->
     session session_hash m id' = Some l -> id = id') /\
  (forall n, NoDup (node_refs m n)) /\
  (forall n l, l ∈ node_refs m n ->
     exists s, get m l = Some s /\ n ∈ map ni_node_id (s_keys s)).
Proof.
  intros m. assert (sm_inv session_hash m) as Hm by apply inv_run_ops, inv_new.
  split_and!.
  - apply Hm.
  - intros i sh id l Hi Hl. destruct (inv_placed _ _ Hm _ _ _ _ Hi Hl) as [-> (s & Hs & Hid)].
    assert (session session_hash m id = Some l) as Hsess
      by (unfold session, shard; by rewrite Hi).
    split_and!; try done; [by eapply session_alive|]. rewrite Hs. simpl. by f_equal.
  - intros id id' l H1 H2. destruct (session_placed _ _ _ _ Hm H1) as (s & Hs & <-).
    destruct (session_placed _ _ _ _ Hm H2) as (s' & Hs' & <-). congruence.
  - apply Hm.
  - apply Hm.
Qed.
End Reachable.

Section Witness.
Import ToyCrypto ToyIp ToySessions.

Lemma link_sessions_links_witness :
  let m := run_ops toy_slot [toy_new 0 1] SessionManager_new in
  node_refs (link_sessions m 0) (replicate 20 1) = [0] /\
  exists evs, sm_events (link_sessions m 0) = sm_events m ++ evs /\ NodeNew (replicate 20 1) ∈ evs.
Proof.
  intros m. split; [vm_compute; reflexivity|].
  destruct (get m 0) as [s|] eqn:E; [|vm_compute in E; discriminate E].
  assert (alive m 0 = true) as Ha by (vm_compute; reflexivity).
  destruct (link_sessions_links m 0 s E Ha) as (evs & _ & Hev & _ & Hin).
  exists evs. split; [exact Hev|]. apply Hin. exists (replicate 20 1). split; [done|].
  vm_compute in E. injection E as <-. split; [|vm_compute; reflexivity].
  simpl. left.
Defined.

(** The nodes of the example are 20 equal bytes. *)
Lemma toy_nodes_ok n :
  eligible toy_manager false n -> bytes_ok n /\ length n = 20%nat.
Proof.
  intros [Hne _]. unfold node_refs in Hne.
  destruct (sm_node_sessions toy_manager !! n) as [refs|] eqn:E; [|done].
  apply elem_of_map_to_list in E.
  assert (forallb (fun p => forallb (fun b => (0 <=? b) && (b <? 256)) p.1 &&
            (length p.1 =? 20)%nat) (map_to_list (sm_node_sessions toy_manager)) = true) as Hall
    by (vm_compute; reflexivity).
  rewrite forallb_forall in Hall. apply list_elem_of_In in E. specialize (Hall _ E).
  apply andb_true_iff in Hall as [Hb Hl]. apply Nat.eqb_eq in Hl. split; [|done].
  rewrite forallb_forall in Hb. apply Forall_forall. intros b Hin.
  apply list_elem_of_In in Hin. specialize (Hb b Hin). unfold is_byte. lia.
Qed.

Lemma neighbours_nearest_witness :
  (neighbours toy_manager (replicate 20 1) 2).1 = [2; 1] /\
  exists others,
    by_distance (replicate 20 1)
      (fun n => n <> replicate 20 1 /\ eligible toy_manager false n) others /\
    (neighbours toy_manager (replicate 20 1) 2).1 =
      omap (latest toy_manager) (ztake 2 others).
Proof.
  split; [vm_compute; reflexivity|].
  apply (neighbours_nearest toy_manager (replicate 20 1) 2).
  - by repeat constructor.
  - apply toy_nodes_ok.
  - split; [|done]. vm_compute. discriminate.
Defined.
End Witness.
