(* ===== verification/SessionStore.v ===== *)
(** Saving and loading the sessions of the server:
    [server/src/state/session_manager.rs], [save], [load] and [load_old].

    The records are written one after the other with [rmp_serde]; its encoder
    and decoder are parameters, with the law that a record is read back and that
    the bytes after it are left.  Opening the file is not modelled: [load] gets
    the bytes of the file. *)

From S2P Require Import Prelude Proto Challenge NodeInfo ServerState SessionManager SessionNodes.

Class Rmp (A : Type) : Type := {
  rmp_write : A -> list Z;
  rmp_read : list Z -> option (A * list Z) }.

Class RmpLaws (A : Type) `{Rmp A} : Prop := {
  rmp_read_write (d : A) rest : rmp_read (rmp_write d ++ rest) = Some (d, rest);
  rmp_read_shorter b (d : A) rest : rmp_read b = Some (d, rest) -> (length rest < length b)%nat }.

(** [PubKey]: the bytes of a public key. *)
Abbreviation PubKey := (list Z).

Record SessionDataOld : Type := {
  so_session_id : SessionId;
  so_peer : SocketAddr;
  so_session_key : option PubKey;
  so_keys : list PubKey;
  so_supported_encryptions : list string;
  so_addr_valid : bool;
  so_flags : Z }.

Record SessionData : Type := {
  sd_session_id : SessionId;
  sd_peer : SocketAddr;
  sd_session_key : option (PubKey * gmap NodeId (list Z));
  sd_keys : list PubKey;
  sd_supported_encryptions : list string;
  sd_addr_valid : bool;
  sd_flags : Z }.

Inductive StateError : Type := DecodingState | InvalidData.

Section Store.
Context `{EthSign} `{IpText} (session_hash : SessionId -> Z).

(** The instant at which the k-th record is read, and the start of the server. *)
Context (server_start : Z) (now : nat -> Z).

Definition PubKey_from (i : NodeIdentity) : PubKey := pk_bytes (ni_public_key i).

(** [PubKey::decode]: panics on bytes that are not a key. *)
Definition PubKey_decode (k : PubKey) : outcome NodeIdentity :=
  match pk_from_slice k with
  | Some pk => Ret {| ni_node_id := pk_address pk; ni_public_key := pk |}
  | None => Panic
  end.

Fixpoint decode_keys (ks : list PubKey) : outcome (list NodeIdentity) :=
  match ks with
  | [] => Ret []
  | k :: ks => let! i := PubKey_decode k in let! is_ := decode_keys ks in Ret (i :: is_)
  end.

Definition session_data (s : Session) : SessionData :=
  {| sd_session_id := s_session_id s; sd_peer := s_peer s;
     sd_session_key := (fun p => (pk_bytes p.1, p.2)) <$> s_session_key s;
     sd_keys := map PubKey_from (s_keys s);
     sd_supported_encryptions := s_supported_encryptions s;
     sd_addr_valid := is_valid (s_addr_status s); sd_flags := 0 |}.

(** The sessions in the order of the shards; within a shard in the order of
    the map. *)
Definition all_sessions (m : SessionManager) : list Session :=
  flat_map (fun sh => omap (fun p => get m p.2) (map_to_list sh)) (sm_sessions m).

Definition SessionManager_save `{Rmp SessionData} (m : SessionManager) : list Z :=
  flat_map (fun s => rmp_write (session_data s)) (all_sessions m).

Definition loaded_status (t : Z) (addr_valid : bool) : AddrStatus :=
  if addr_valid then Valid t else Invalid t.

(** Insert a session into the shard of its id and link it. *)
Definition add_session (m : SessionManager) (s : Session) : SessionManager :=
  let l := sm_next m in
  let m := alloc m s in
  let m := set_shard session_hash m (s_session_id s)
             (<[s_session_id s := l]> (shard session_hash m (s_session_id s))) in
  link_sessions m l.

(** The body of the loop of [load]. *)
Definition load_record (k : nat) (m : SessionManager) (d : SessionData)
  : outcome (result SessionManager StateError) :=
  let! keys := decode_keys (sd_keys d) in
  match head keys with
  | None => Ret (Err InvalidData)
  | Some first =>
      let! session_key :=
        match sd_session_key d with
        | None => Ret None
        | Some (pk, proofs) => let! i := PubKey_decode pk in Ret (Some (ni_public_key i, proofs))
        end in
      Ret (Ok (add_session m
        {| s_session_id := sd_session_id d; s_peer := sd_peer d;
           s_ts := Clock_last_seen (Clock_at server_start (now k));
           s_node_id := ni_node_id first; s_keys := keys;
           s_supported_encryptions := sd_supported_encryptions d;
           s_addr_status := loaded_status (now k) (sd_addr_valid d);
           s_session_key := session_key |}))
  end.

(** The body of the loop of [load_old]. *)
Definition load_old_record (k : nat) (m : SessionManager) (d : SessionDataOld)
  : outcome (result SessionManager StateError) :=
  let! keys := decode_keys (so_keys d) in
  match head keys with
  | None => Ret (Err InvalidData)
  | Some first =>
      Ret (Ok (add_session m
        {| s_session_id := so_session_id d; s_peer := so_peer d;
           s_ts := Clock_last_seen (Clock_at server_start (now k));
           s_node_id := ni_node_id first; s_keys := keys;
           s_supported_encryptions := so_supported_encryptions d;
           s_addr_status := loaded_status (now k) (so_addr_valid d);
           s_session_key := None |}))
  end.

Section Loop.
Context {A : Type} `{Rmp A}.
Context (record : nat -> SessionManager -> A -> outcome (result SessionManager StateError)).

(** [while has_data(&mut f)?]; [None] when the fuel runs out. *)
Fixpoint state_loop (fuel k : nat) (bytes : list Z) (m : SessionManager)
  : option (outcome (result SessionManager StateError)) :=
  match fuel with
  | O => None
  | S fuel =>
      match bytes with
      | [] => Some (Ret (Ok m))
      | _ =>
          match rmp_read bytes with
          | None => Some (Ret (Err DecodingState))
          | Some (d, rest) =>
              match record k m d with
              | Ret (Ok m) => state_loop fuel (S k) rest m
              | other => Some other
              end
          end
      end
  end.
End Loop.

Definition SessionManager_load `{Rmp SessionData} (bytes : list Z)
  : option (outcome (result SessionManager StateError)) :=
  state_loop load_record (S (length bytes)) 0 bytes SessionManager_new.

Definition SessionManager_load_old `{Rmp SessionDataOld} (bytes : list Z)
  : option (outcome (result SessionManager StateError)) :=
  state_loop load_old_record (S (length bytes)) 0 bytes SessionManager_new.

(** A file of at most so many records is read completely. *)
Lemma state_loop_total {A} `{RmpLaws A} record fuel : forall k bytes m,
  (length bytes < fuel)%nat -> is_Some (state_loop (A := A) record fuel k bytes m).
Proof.
  induction fuel as [|fuel IH]; intros k bytes m Hf; [lia|]. simpl.
  destruct bytes as [|b bytes]; [by eexists|].
  destruct (rmp_read (b :: bytes)) as [[d rest]|] eqn:E; [|by eexists].
  apply rmp_read_shorter in E. destruct (record k m d) as [[m'|]|]; [|by eexists..].
  apply IH. lia.
Qed.

(** ** Round trip *)

(** The sessions made by the server: the node id is the one of the first key,
    and the ids are the addresses of the keys. *)
Definition persistable (s : Session) : Prop :=
  (exists first rest, s_keys s = first :: rest /\ s_node_id s = ni_node_id first) /\
  Forall (fun i => ni_node_id i = pk_address (ni_public_key i)) (s_keys s).

(** A session after a restart. *)
Definition reload (t : Z) (s : Session) : Session :=
  {| s_session_id := s_session_id s; s_peer := s_peer s;
     s_ts := Clock_last_seen (Clock_at server_start t);
     s_node_id := s_node_id s; s_keys := s_keys s;
     s_supported_encryptions := s_supported_encryptions s;
     s_addr_status := set_valid t (is_valid (s_addr_status s));
     s_session_key := s_session_key s |}.

Fixpoint add_all (k : nat) (ss : list Session) (m : SessionManager) : SessionManager :=
  match ss with
  | [] => m
  | s :: ss => add_all (S k) ss (add_session m (reload (now k) s))
  end.

Section Laws.
Context `{!EthSignLaws}.

Lemma PubKey_decode_from i :
  ni_node_id i = pk_address (ni_public_key i) -> PubKey_decode (PubKey_from i) = Ret i.
Proof. intros Hi. unfold PubKey_decode, PubKey_from. rewrite pk_from_bytes, <- Hi. by destruct i. Qed.

Lemma decode_keys_from is_ :
  Forall (fun i => ni_node_id i = pk_address (ni_public_key i)) is_ ->
  decode_keys (map PubKey_from is_) = Ret is_.
Proof.
  induction 1 as [|i is_ Hi _ IH]; [done|]. simpl. rewrite PubKey_decode_from by done.
  simpl. by rewrite IH.
Qed.

Lemma load_record_data k m s :
  persistable s -> load_record k m (session_data s) = Ret (Ok (add_session m (reload (now k) s))).
Proof.
  intros [(first & rest & Hk & Hn) Ha]. unfold load_record, session_data. simpl.
  rewrite decode_keys_from by done. simpl. rewrite Hk. simpl. unfold reload. rewrite Hn, Hk.
  destruct (s_session_key s) as [[pk proofs]|]; simpl; [|done].
  unfold PubKey_decode. by rewrite pk_from_bytes.
Qed.

Lemma state_loop_records `{RmpLaws SessionData} ss : Forall persistable ss -> forall fuel k m,
  (length (flat_map (fun s => rmp_write (session_data s)) ss) < fuel)%nat ->
  state_loop load_record fuel k (flat_map (fun s => rmp_write (session_data s)) ss) m =
  Some (Ret (Ok (add_all k ss m))).
Proof.
  induction 1 as [|s ss Hs _ IH]; intros [|fuel] k m Hf; try (simpl in Hf; lia); [done|].
  simpl in *. pose proof (rmp_read_write (session_data s)
    (flat_map (fun s => rmp_write (session_data s)) ss)) as Hr.
  pose proof (rmp_read_shorter _ _ _ Hr) as Hlt.
  destruct (rmp_write (session_data s) ++ _) as [|b bytes] eqn:E; [simpl in Hlt; lia|].
  rewrite Hr, load_record_data by done. apply IH. simpl in *. lia.
Qed.
End Laws.

(** The node table refers to the sessions of the table, all of them. *)
Definition fully_linked (m : SessionManager) : Prop :=
  forall n l, l ∈ node_refs m n <->
    exists id s, table session_hash m id = Some (l, s) /\ n ∈ map ni_node_id (s_keys s).

Abbreviation sm_inv := (sm_inv session_hash).
Abbreviation table := (table session_hash).
Abbreviation session := (session session_hash).

(** The state between the insertion and the links. *)
Definition inserted (m : SessionManager) (s : Session) : SessionManager :=
  set_shard session_hash (alloc m s) (s_session_id s)
    (<[s_session_id s := sm_next m]> (shard session_hash (alloc m s) (s_session_id s))).

Lemma inv_inserted m s : sm_inv m -> sm_inv (inserted m s).
Proof.
  intros Hm. pose proof (inv_alloc session_hash m s Hm) as Ha.
  apply inv_set_shard; [done|]. intros id l [[<- <-]|[_ Hl]]%lookup_insert_Some.
  - split; [done|]. exists s. by rewrite get_alloc, decide_True.
  - destruct (inv_placed _ _ Ha _ _ id l
      (shard_lookup session_hash _ (s_session_id s) (inv_shards _ _ Ha)) Hl). auto.
Qed.

Lemma table_inserted m s id :
  sm_inv m ->
  table (inserted m s) id =
  (if decide (s_session_id s = id) then Some (sm_next m, s) else table m id).
Proof.
  intros Hm. unfold SessionManager.table, inserted. rewrite session_insert by apply (inv_shards _ m Hm).
  change (get (set_shard _ ?a _ _)) with (get a).
  destruct (decide _) as [<-|]; simpl; [by rewrite get_alloc, decide_True|].
  change (session (alloc m s) id) with (session m id).
  destruct (session m id) as [l|] eqn:El; [|done]. simpl.
  destruct (session_placed _ m id l Hm El) as (s' & Hs' & _).
  by rewrite (get_alloc_old session_hash m s l s' Hm Hs'), Hs'.
Qed.

Lemma table_add_session m s id :
  sm_inv m ->
  table (add_session m s) id =
  (if decide (s_session_id s = id) then Some (sm_next m, s) else table m id).
Proof.
  intros Hm. rewrite <- table_inserted by done. apply table_ext; apply link_same.
Qed.

Lemma inv_add_session m s : sm_inv m -> sm_inv (add_session m s).
Proof. intros Hm. apply inv_link_sessions. by apply inv_inserted. Qed.

Lemma elem_of_linked m l n x :
  x ∈ linked m l n <-> x ∈ live_refs m (node_refs m n) \/ x = l.
Proof. unfold linked. case_decide; set_solver. Qed.

Lemma fully_linked_add m s :
  sm_inv m -> fully_linked m -> session m (s_session_id s) = None ->
  fully_linked (add_session m s).
Proof.
  intros Hm Hf Hnew. pose proof (inv_inserted m s Hm) as Hm1.
  assert (table (inserted m s) (s_session_id s) = Some (sm_next m, s)) as Ht
    by (rewrite table_inserted by done; by rewrite decide_True).
  apply table_session in Ht as [Hs Hg].
  assert (alive (inserted m s) (sm_next m) = true) as Ha by (by eapply session_alive).
  destruct (link_fold (map ni_node_id (s_keys s)) _ _ Ha) as (evs & Hrefs & _).
  assert (forall n, live_refs (inserted m s) (node_refs m n) = node_refs m n) as Hlive.
  { intros n. apply live_refs_alive, Forall_forall. intros x Hx.
    apply Hf in Hx as (id & s' & Hx & _). apply (session_alive session_hash _ id); [done|].
    assert (table (inserted m s) id = Some (x, s')) as Hx1.
    { rewrite table_inserted by done. rewrite decide_False; [done|]. intros <-.
      apply table_session in Hx as [Hx _]. congruence. }
    by apply table_session in Hx1 as [? _]. }
  assert (add_session m s = foldl (link_key (sm_next m)) (inserted m s)
    (map ni_node_id (s_keys s))) as Hadd
    by (unfold add_session; fold (inserted m s); unfold link_sessions; by rewrite Hg).
  intros n l. rewrite Hadd at 1. rewrite Hrefs.
  transitivity (l ∈ node_refs m n \/ (l = sm_next m /\ n ∈ map ni_node_id (s_keys s))).
  { change (node_refs (inserted m s) n) with (node_refs m n).
    case_decide; [|naive_solver]. rewrite elem_of_linked.
    change (node_refs (inserted m s) n) with (node_refs m n). rewrite Hlive. naive_solver. }
  rewrite (Hf n l). setoid_rewrite (table_add_session m s); [|done].
  split.
  - intros [(id & s' & Ht & Hn)|[-> Hn]].
    + exists id, s'. split; [|done]. rewrite decide_False; [done|]. intros <-.
      apply table_session in Ht as [Ht _]. congruence.
    + exists (s_session_id s), s. by rewrite decide_True.
  - intros (id & s' & Ht & Hn). destruct (decide _); naive_solver.
Qed.

Lemma add_all_spec ss : forall k m,
  sm_inv m -> fully_linked m -> NoDup (map s_session_id ss) ->
  (forall s, s ∈ ss -> session m (s_session_id s) = None) ->
  sm_inv (add_all k ss m) /\ fully_linked (add_all k ss m) /\
  (forall s, s ∈ ss -> exists j l,
     table (add_all k ss m) (s_session_id s) = Some (l, reload (now j) s)) /\
  (forall id, id ∉ map s_session_id ss -> table (add_all k ss m) id = table m id).
Proof.
  induction ss as [|s ss IH]; intros k m Hm Hf Hnd Hnew; [set_solver|]. simpl.
  simpl in Hnd. apply NoDup_cons in Hnd as [Hnot Hnd].
  assert (session m (s_session_id s) = None) as Hs by (apply Hnew; by left).
  set (s' := reload (now k) s).
  assert (forall id, table (add_session m s') id =
    if decide (s_session_id s = id) then Some (sm_next m, s') else table m id) as Ht
    by (intros id; by rewrite table_add_session).
  destruct (IH (S k) (add_session m s')) as (H1 & H2 & H3 & H4); [| |done| |].
  - by apply inv_add_session.
  - by apply fully_linked_add.
  - intros x Hx. apply (table_None session_hash); [by apply inv_add_session|].
    rewrite Ht, decide_False by (intros Heq; apply Hnot; rewrite Heq; by apply list_elem_of_fmap_2).
    apply table_None; [done|]. apply Hnew. by right.
  - split_and!; [done|done| |].
    + intros x [->|Hx]%elem_of_cons; [|by apply H3]. exists k, (sm_next m).
      rewrite H4 by done. by rewrite Ht, decide_True.
    + intros id [Hne Hid]%not_elem_of_cons. by rewrite H4, Ht, decide_False by done.
Qed.

Lemma NoDup_omap_ids m (ps : list (SessionId * loc)) :
  NoDup ps.*1 -> Forall (fun p => s_session_id <$> get m p.2 = Some p.1) ps ->
  NoDup (map s_session_id (omap (fun p => get m p.2) ps)).
Proof.
  intros Hnd Hf.
  assert (map s_session_id (omap (fun p => get m p.2) ps) = ps.*1) as ->; [|done].
  clear Hnd. induction Hf as [|[id l] ps Hp _ IH]; [done|].
  cbn [omap list_omap]. simpl in Hp. simpl. destruct (get m l) as [s|]; [|done].
  simpl in *. simplify_eq. by f_equal.
Qed.

(** The sessions of consecutive shards have different ids. *)
Lemma NoDup_shards (m : SessionManager) (shs : list (gmap SessionId loc)) : forall off : nat,
  (forall i (sh : gmap SessionId loc) id l, shs !! i = Some sh -> sh !! id = Some l ->
     session_slot session_hash id = (off + i)%nat /\ s_session_id <$> get m l = Some id) ->
  NoDup (map s_session_id
    (flat_map (fun sh : gmap SessionId loc => omap (fun p => get m p.2) (map_to_list sh)) shs)).
Proof.
  induction shs as [|sh shs IH]; intros off Hsh; simpl; [apply NoDup_nil_2|].
  rewrite map_app. apply NoDup_app. split_and!.
  - apply (NoDup_omap_ids m).
    + apply NoDup_fst_map_to_list.
    + apply Forall_forall. intros [id l] Hp%elem_of_map_to_list. by apply (Hsh 0%nat sh id l).
  - intros id Hid1 Hid2.
    apply list_elem_of_fmap in Hid1 as (s & -> & ([id1 l1] & Hp1 & Hg1)%list_elem_of_omap).
    apply list_elem_of_fmap in Hid2 as (s2 & Heq & Hs2).
    apply list_elem_of_In, in_flat_map in Hs2 as (sh2 & Hsh2 & Hs2).
    apply list_elem_of_In, list_elem_of_omap in Hs2 as ([id2 l2] & Hp2 & Hg2).
    apply list_elem_of_In, list_elem_of_lookup in Hsh2 as [i Hi].
    apply elem_of_map_to_list in Hp1, Hp2. simpl in *.
    destruct (Hsh 0%nat sh id1 l1 eq_refl Hp1) as [Hs1 He1].
    destruct (Hsh (S i) sh2 id2 l2 Hi Hp2) as [Hs2' He2].
    rewrite Hg1 in He1. rewrite Hg2 in He2. simpl in *. simplify_eq.
    rewrite Heq in Hs1. lia.
  - apply (IH (S off)). intros i sh' id l Hi Hl. destruct (Hsh (S i) sh' id l Hi Hl). split; [lia|done].
Qed.

Lemma all_sessions_spec m :
  sm_inv m ->
  NoDup (map s_session_id (all_sessions m)) /\
  forall s, s ∈ all_sessions m <-> exists l, table m (s_session_id s) = Some (l, s).
Proof.
  intros Hm. split.
  - apply (NoDup_shards m _ 0). intros i sh id l Hi Hl.
    destruct (inv_placed _ _ Hm _ _ _ _ Hi Hl) as [-> (s & Hs & Hid)]. split; [done|].
    rewrite Hs. simpl. by f_equal.
  - intros s. unfold all_sessions. rewrite list_elem_of_In, in_flat_map. split.
    + intros (sh & Hsh & Hs). apply list_elem_of_In, list_elem_of_omap in Hs as ([id l] & Hp & Hg).
      apply list_elem_of_In, list_elem_of_lookup in Hsh as [i Hi].
      apply elem_of_map_to_list in Hp. simpl in Hg.
      destruct (inv_placed _ _ Hm _ _ _ _ Hi Hp) as [-> (s' & Hs' & Hid)].
      exists l. apply table_session. simplify_eq. split; [|done].
      unfold SessionManager.session, shard. by rewrite Hi.
    + intros (l & [Hs Hg]%table_session). exists (shard session_hash m (s_session_id s)). split.
      * apply list_elem_of_In, list_elem_of_lookup. eexists. apply shard_lookup, (inv_shards _ _ Hm).
      * apply list_elem_of_In, list_elem_of_omap. exists (s_session_id s, l). split; [|done].
        by apply elem_of_map_to_list.
Qed.

(** Loading a saved table returns, and gives back every session under its
    id with the same endpoint, node, keys, encryptions and session key; only a
    checked address stays valid, every other one counts as invalid.  Afterwards
    every session is linked to all its nodes. *)
Theorem sessions_save_load `{!EthSignLaws} `{RmpLaws SessionData} m :
  sm_inv m ->
  (forall id l s, table m id = Some (l, s) -> persistable s) ->
  exists m', SessionManager_load (SessionManager_save m) = Some (Ret (Ok m')) /\ sm_inv m' /\
    (forall id l s, table m id = Some (l, s) ->
       exists k l', table m' id = Some (l', reload (now k) s)) /\
    (forall id, session m id = None -> session m' id = None) /\
    fully_linked m'.
Proof.
  intros Hm Hp. destruct (all_sessions_spec m Hm) as [Hnd Hin].
  exists (add_all 0 (all_sessions m) SessionManager_new). split.
  { unfold SessionManager_load, SessionManager_save. apply state_loop_records; [|lia].
    apply Forall_forall. intros s [l Hl]%Hin. by eapply Hp. }
  destruct (add_all_spec (all_sessions m) 0 SessionManager_new) as (G1 & G2 & G3 & G4); try done.
  - apply inv_new.
  - intros n l. split; [by intros ?%not_elem_of_nil|]. intros (id & s & Ht & _).
    apply table_session in Ht as [Ht _]. by rewrite session_new in Ht.
  - intros s _. apply session_new.
  - split_and!; [done| | |done].
    + intros id l s Ht. pose proof Ht as [Hs Hg]%table_session.
      destruct (session_placed _ m id l Hm Hs) as (s0 & Hs0 & <-). simplify_eq.
      destruct (G3 s) as (j & l' & Hl'); [apply Hin; eauto|]. eauto.
    + intros id Hs. apply (table_None session_hash _ id G1). rewrite G4.
      * apply table_None; [apply inv_new|apply session_new].
      * intros (s & -> & Hx)%list_elem_of_fmap. apply Hin in Hx as [l [Hl _]%table_session].
        congruence.
Qed.
End Store.

(** ** Example *)

Module ToyStore.
Definition data_tuple (d : SessionData) :=
  (sd_session_id d, sd_peer d, sd_session_key d, sd_keys d, sd_supported_encryptions d,
   sd_addr_valid d, sd_flags d).

#[export] Instance data_eq_dec : EqDecision SessionData.
Proof. solve_decision. Defined.

#[export] Program Instance data_countable : Countable SessionData :=
  inj_countable' data_tuple
    (fun '(i, p, k, ks, e, v, f) =>
       {| sd_session_id := i; sd_peer := p; sd_session_key := k; sd_keys := ks;
          sd_supported_encryptions := e; sd_addr_valid := v; sd_flags := f |}) _.
Next Obligation. by intros []. Qed.

(** A record as one number. *)
#[export] Instance number_rmp : Rmp SessionData := {
  rmp_write d := [Zpos (encode d)];
  rmp_read b :=
    match b with
    | Zpos p :: rest => (fun d => (d, rest)) <$> decode p
    | _ => None
    end }.

#[export] Instance number_rmp_laws : RmpLaws SessionData.
Proof.
  split.
  - intros d rest. simpl. by rewrite decode_encode.
  - intros [|[|p|p] b] d rest; try done. simpl. intros Hd.
    destruct (decode p); simplify_eq/=. lia.
Qed.
End ToyStore.

Section Witness.
Import ToyCrypto ToyIp ToySessions ToyStore.

Lemma toy_persistable id l s : table toy_slot toy_manager id = Some (l, s) -> persistable s.
Proof.
  intros [_ Hg]%table_session.
  assert (forallb (fun p => bool_decide (map ni_node_id (s_keys p.2) =
            [replicate 20 (p.1 + 1)] /\ map ni_public_key (s_keys p.2) = [p.1 + 1] /\
            s_node_id p.2 = replicate 20 (p.1 + 1)))
            (map_to_list (sm_heap toy_manager)) = true) as Hall by (vm_compute; reflexivity).
  unfold get in Hg. apply elem_of_map_to_list, list_elem_of_In in Hg. rewrite forallb_forall in Hall.
  specialize (Hall _ Hg). apply bool_decide_eq_true in Hall as (Hk & Hp & Hn). cbn [fst snd] in *.
  clear Hg.
  destruct (s_keys s) as [|first [|? ?]] eqn:Ek; try discriminate.
  cbn [map] in *. injection Hk as Hk. injection Hp as Hp. split.
  - exists first, []. by rewrite Hn, Hk.
  - rewrite Ek. repeat constructor. simpl. by rewrite Hk, Hp.
Qed.
End Witness.
