(* ===== verification/ServerCore.v ===== *)
(** The state of the relay server that its handlers share
    ([server/src/server.rs] and [server/src/server/*.rs]), and the code from
    outside the repository they use: the keccak hash, version numbers and the
    bounded caches.

    One worker is modelled.  Its handlers run one at a time; what they send is
    collected in [sv_sent] as pairs of an address and a datagram. *)

From S2P Require Import Prelude Payload Proto Challenge NodeInfo ServerState SessionManager.
From S2P Require Import SlotManager.

(** [tiny_keccak::Keccak::v256]. *)
Class Keccak : Type := { keccak256 : list Z -> list Z }.

(** A digest has 32 bytes. *)
Class KeccakLaws `{Keccak} : Prop := { keccak256_len m : zlen (keccak256 m) = 32 }.

(** [semver::Version]: parsing and the order of versions. *)
Class Semver : Type := {
  Version : Type;
  Version_parse : string -> option Version;
  Version_lt : Version -> Version -> bool }.

(** [quick_cache]: entries may be evicted at any insertion. *)
Class CacheOps (K V : Type) : Type := {
  Cache : Type;
  cache_new : Cache;
  cache_get : Cache -> K -> option V;
  cache_insert : Cache -> K -> V -> Cache }.

Arguments Cache K V {_}.

(** What is found was inserted before. *)
Class CacheLaws (K V : Type) `{CacheOps K V} : Prop := {
  cache_get_new (k : K) : cache_get cache_new k = None;
  cache_get_insert c (k : K) v k' v' :
    cache_get (cache_insert c k v) k' = Some v' ->
    (k' = k /\ v' = v) \/ cache_get c k' = Some v' }.

(** What is sent to an address. *)
Inductive Datagram : Type :=
| DgPacket (p : Packet)
| DgForward (f : Forward).

(** The continuation of an address check: answering a [Register] request, or a
    command of the control interface. *)
Inductive Resolve : Type :=
| ResolveRegister (request_id : Z)
| ResolveControl (reply : Z).

Record CheckIpRequest : Type := {
  cr_session : loc;
  cr_addr : SocketAddr;
  cr_ts : Z;
  cr_retry_cnt : Z;
  cr_resolve : Resolve }.

(** What a handler reads from its environment: the monotonic clock, the unix
    time (both in nanoseconds) and random bytes. *)
Record Env : Type := { e_now : Z; e_unix : Z; e_random : list Z }.

Section Core.
Context `{EthSign} `{IpText} `{Semver}.
Context `{!CacheOps SocketAddr (Z * bool)} `{!CacheOps SessionId Z}.

(** The command line options the handlers use, and the start of the process. *)
Record ServerConfig : Type := {
  cf_difficulty : Z;
  cf_salt : list Z;
  cf_min_client_version : Version;
  cf_ip_check_timeout : Z;
  cf_ip_check_retry_cnt : Z;
  cf_server_start : Z }.

Record Server : Type := {
  sv_sessions : SessionManager;
  sv_slots : SlotManager;
  sv_ip_cache : Cache SocketAddr (Z * bool);
  sv_disconnect_cache : Cache SessionId Z;
  sv_check_queue : list CheckIpRequest;
  sv_requests : gmap SocketAddr (list CheckIpRequest);
  sv_request_id : Z;
  sv_replies : list (Z * bool);
  sv_sent : list (SocketAddr * Datagram) }.

Definition Server_new (request_id : Z) : Server :=
  {| sv_sessions := SessionManager_new; sv_slots := SlotManager_new;
     sv_ip_cache := cache_new; sv_disconnect_cache := cache_new; sv_check_queue := [];
     sv_requests := ∅; sv_request_id := request_id; sv_replies := []; sv_sent := [] |}.

Definition on_sessions (f : SessionManager -> SessionManager) (sv : Server) : Server :=
  {| sv_sessions := f (sv_sessions sv); sv_slots := sv_slots sv; sv_ip_cache := sv_ip_cache sv;
     sv_disconnect_cache := sv_disconnect_cache sv; sv_check_queue := sv_check_queue sv;
     sv_requests := sv_requests sv; sv_request_id := sv_request_id sv;
     sv_replies := sv_replies sv; sv_sent := sv_sent sv |}.

Definition with_slots (x : SlotManager) (sv : Server) : Server :=
  {| sv_sessions := sv_sessions sv; sv_slots := x; sv_ip_cache := sv_ip_cache sv;
     sv_disconnect_cache := sv_disconnect_cache sv; sv_check_queue := sv_check_queue sv;
     sv_requests := sv_requests sv; sv_request_id := sv_request_id sv;
     sv_replies := sv_replies sv; sv_sent := sv_sent sv |}.

Definition with_ip_cache (x : Cache SocketAddr (Z * bool)) (sv : Server) : Server :=
  {| sv_sessions := sv_sessions sv; sv_slots := sv_slots sv; sv_ip_cache := x;
     sv_disconnect_cache := sv_disconnect_cache sv; sv_check_queue := sv_check_queue sv;
     sv_requests := sv_requests sv; sv_request_id := sv_request_id sv;
     sv_replies := sv_replies sv; sv_sent := sv_sent sv |}.

Definition with_disconnect_cache (x : Cache SessionId Z) (sv : Server) : Server :=
  {| sv_sessions := sv_sessions sv; sv_slots := sv_slots sv; sv_ip_cache := sv_ip_cache sv;
     sv_disconnect_cache := x; sv_check_queue := sv_check_queue sv;
     sv_requests := sv_requests sv; sv_request_id := sv_request_id sv;
     sv_replies := sv_replies sv; sv_sent := sv_sent sv |}.

Definition with_queue (x : list CheckIpRequest) (sv : Server) : Server :=
  {| sv_sessions := sv_sessions sv; sv_slots := sv_slots sv; sv_ip_cache := sv_ip_cache sv;
     sv_disconnect_cache := sv_disconnect_cache sv; sv_check_queue := x;
     sv_requests := sv_requests sv; sv_request_id := sv_request_id sv;
     sv_replies := sv_replies sv; sv_sent := sv_sent sv |}.

Definition with_requests (x : gmap SocketAddr (list CheckIpRequest)) (sv : Server) : Server :=
  {| sv_sessions := sv_sessions sv; sv_slots := sv_slots sv; sv_ip_cache := sv_ip_cache sv;
     sv_disconnect_cache := sv_disconnect_cache sv; sv_check_queue := sv_check_queue sv;
     sv_requests := x; sv_request_id := sv_request_id sv;
     sv_replies := sv_replies sv; sv_sent := sv_sent sv |}.

Definition reply_control (reply : Z) (result : bool) (sv : Server) : Server :=
  {| sv_sessions := sv_sessions sv; sv_slots := sv_slots sv; sv_ip_cache := sv_ip_cache sv;
     sv_disconnect_cache := sv_disconnect_cache sv; sv_check_queue := sv_check_queue sv;
     sv_requests := sv_requests sv; sv_request_id := sv_request_id sv;
     sv_replies := sv_replies sv ++ [(reply, result)]; sv_sent := sv_sent sv |}.

(** [socket.send_to]. *)
Definition send_to (addr : SocketAddr) (d : Datagram) (sv : Server) : Server :=
  {| sv_sessions := sv_sessions sv; sv_slots := sv_slots sv; sv_ip_cache := sv_ip_cache sv;
     sv_disconnect_cache := sv_disconnect_cache sv; sv_check_queue := sv_check_queue sv;
     sv_requests := sv_requests sv; sv_request_id := sv_request_id sv;
     sv_replies := sv_replies sv; sv_sent := sv_sent sv ++ [(addr, d)] |}.

(** A request of the server itself, with the next request id. *)
Definition send_request (addr : SocketAddr) (session_id : list Z) (kind : request_Kind)
  (sv : Server) : Server :=
  let '(p, next) := Packet_request (sv_request_id sv) session_id kind in
  {| sv_sessions := sv_sessions sv; sv_slots := sv_slots sv; sv_ip_cache := sv_ip_cache sv;
     sv_disconnect_cache := sv_disconnect_cache sv; sv_check_queue := sv_check_queue sv;
     sv_requests := sv_requests sv; sv_request_id := next;
     sv_replies := sv_replies sv; sv_sent := sv_sent sv ++ [(addr, DgPacket p)] |}.

Definition clock_of (cf : ServerConfig) (env : Env) : Clock :=
  Clock_at (cf_server_start cf) (e_now env).
End Core.
