(* ===== verification/IpChecker.v ===== *)
(** [server/src/server/ip_checker.rs]: the check whether a client can be reached
    at its address from a second socket.

    A check is queued by [check_ip_status], pinged and entered into the table of
    requests by the ping task, repeated and timed out by the retry task, and
    resolved by the receiving task.  Each task's step is one operation. *)

From S2P Require Import Prelude Payload Proto Challenge NodeInfo ServerState SessionManager.
From S2P Require Import SlotManager ServerCore.

(** [PacketType] of [udp_server/socket.rs]. *)
Inductive UnreachableReason : Type :=
| NetworkUnreachable
| HostUnreachable
| ProtocolUnreachable
| PortUnreachable
| OtherUnreachable (code : Z).

Inductive PacketType : Type := PtData | PtUnreachable (reason : UnreachableReason) | PtOther.

Section IpChecker.
Context `{EthSign} `{IpText} `{Semver}.
Context `{!CacheOps SocketAddr (Z * bool)} `{!CacheOps SessionId Z}.

(** [check_ip_status]: the address is the one of the session at this moment. *)
Definition check_ip_status (cf : ServerConfig) (ts : Z) (l : loc) (s : Session)
  (resolve : Resolve) (sv : Server) : Server :=
  with_queue (sv_check_queue sv ++
    [{| cr_session := l; cr_addr := s_peer s; cr_ts := ts;
        cr_retry_cnt := cf_ip_check_retry_cnt cf; cr_resolve := resolve |}]) sv.

(** [session_w.upgrade()]. *)
Definition upgrade (sv : Server) (l : loc) : option Session :=
  if alive (sv_sessions sv) l then get (sv_sessions sv) l else None.

(** The continuation given to [check_ip_status]: by [RegisterHandler::handle]
    (whose socket lives as long as the worker), and by the control task. *)
Definition resolve (now : Z) (req : CheckIpRequest) (status : bool) (sv : Server) : Server :=
  let l := cr_session req in
  let sv := on_sessions (fun m => update m l (set_addr_status (set_valid now status))) sv in
  match cr_resolve req with
  | ResolveControl reply => reply_control reply status sv
  | ResolveRegister request_id =>
      match get (sv_sessions sv) l with
      | None => sv
      | Some s =>
          let sv := with_ip_cache (cache_insert (sv_ip_cache sv) (s_peer s) (now, status)) sv in
          let endpoints := match Session_endpoint s with Some e => [e] | None => [] end in
          let sv := on_sessions (fun m => link_sessions m l) sv in
          send_to (s_peer s)
            (DgPacket (Packet_response request_id (s_session_id s) StatusOk (RsRegister endpoints))) sv
      end
  end.

Definition do_ping (req : CheckIpRequest) (sv : Server) : Server :=
  match upgrade sv (cr_session req) with
  | Some s => send_request (cr_addr req) (s_session_id s) RqPing sv
  | None => sv
  end.

(** The ping task: the next queued request. *)
Definition ping_job (sv : Server) : Server :=
  match sv_check_queue sv with
  | [] => sv
  | req :: rest =>
      let sv := do_ping req (with_queue rest sv) in
      let reqs := default [] (sv_requests sv !! cr_addr req) in
      let reqs := if forallb (fun p => negb (cr_session req =? cr_session p)) reqs
                  then reqs ++ [req] else reqs in
      with_requests (<[cr_addr req := reqs]> (sv_requests sv)) sv
  end.

(** [size]. *)
Definition checker_size (sv : Server) : Z :=
  fold_left Z.add (map (fun p => zlen p.2) (map_to_list (sv_requests sv))) 0.

Definition dec_retry (req : CheckIpRequest) : CheckIpRequest :=
  {| cr_session := cr_session req; cr_addr := cr_addr req; cr_ts := cr_ts req;
     cr_retry_cnt := cr_retry_cnt req - 1; cr_resolve := cr_resolve req |}.

(** The [filter_map] over the requests of one address: those kept, the sessions
    to ping, and the server after the continuations. *)
Fixpoint scan_requests (now timeout : Z) (reqs : list CheckIpRequest) (sv : Server)
  : list CheckIpRequest * list Session * Server :=
  match reqs with
  | [] => ([], [], sv)
  | req :: reqs =>
      match upgrade sv (cr_session req) with
      | None => scan_requests now timeout reqs sv
      | Some s =>
          if timeout <? elapsed now (cr_ts req) then
            scan_requests now timeout reqs (resolve now req false sv)
          else
            let '(kept, pings, sv) := scan_requests now timeout reqs sv in
            if 0 <? cr_retry_cnt req then (dec_retry req :: kept, s :: pings, sv)
            else (req :: kept, pings, sv)
      end
  end.

(** All addresses in the order of the map; addresses without requests are
    dropped. *)
Fixpoint scan_addrs (now timeout : Z) (entries : list (SocketAddr * list CheckIpRequest))
  (sv : Server) : gmap SocketAddr (list CheckIpRequest) * list Session * Server :=
  match entries with
  | [] => (∅, [], sv)
  | (addr, reqs) :: entries =>
      let '(kept, pings, sv) := scan_requests now timeout reqs sv in
      let '(table, pings', sv) := scan_addrs now timeout entries sv in
      ((match kept with [] => table | _ => <[addr := kept]> table end), pings ++ pings', sv)
  end.

(** [send_pings]: one round of the retry task. *)
Definition send_pings (now timeout : Z) (sv : Server) : Server :=
  let '(table, pings, sv) := scan_addrs now timeout (map_to_list (sv_requests sv)) sv in
  foldl (fun sv s => send_request (s_peer s) (s_session_id s) RqPing sv)
    (with_requests table sv) pings.

(** The loop of [resolve_success]. *)
Fixpoint success_loop (now : Z) (session_id : SessionId) (reqs : list CheckIpRequest)
  (sv : Server) : list CheckIpRequest * Server :=
  match reqs with
  | [] => ([], sv)
  | req :: reqs =>
      match upgrade sv (cr_session req) with
      | None => success_loop now session_id reqs sv
      | Some s =>
          if bool_decide (session_id = s_session_id s) then
            success_loop now session_id reqs (resolve now req true sv)
          else
            let '(kept, sv) := success_loop now session_id reqs sv in (req :: kept, sv)
      end
  end.

Definition resolve_success (now : Z) (peer : SocketAddr) (session_id : list Z) (sv : Server)
  : Server :=
  match SessionId_try_from session_id with
  | None => sv
  | Some session_id =>
      match sv_requests sv !! peer with
      | None => sv
      | Some reqs =>
          let '(kept, sv) := success_loop now session_id reqs sv in
          with_requests (match kept with
                         | [] => delete peer (sv_requests sv)
                         | _ => <[peer := kept]> (sv_requests sv)
                         end) sv
      end
  end.

Definition resolve_unreachable (now : Z) (peer : SocketAddr) (sv : Server) : Server :=
  match sv_requests sv !! peer with
  | None => sv
  | Some reqs =>
      foldl (fun sv req => match upgrade sv (cr_session req) with
                           | Some _ => resolve now req false sv
                           | None => sv
                           end)
        (with_requests (delete peer (sv_requests sv)) sv) reqs
  end.

(** The receiving task: a packet on the second socket. *)
Definition recv_job (now : Z) (pt : PacketType) (peer : SocketAddr) (packet : Packet)
  (sv : Server) : Server :=
  match pt with
  | PtData =>
      match pkt_kind packet with
      | Some (PkResponse {| rs_kind := Some RsPong |}) =>
          resolve_success now peer (pkt_session_id packet) sv
      | _ => sv
      end
  | PtUnreachable _ => resolve_unreachable now peer sv
  | PtOther => sv
  end.
End IpChecker.
