(* ===== verification/Handlers.v ===== *)
(** The request handlers of the relay server: [server/src/server/session.rs],
    [register.rs], [node.rs], [slot.rs], [neighbours.rs],
    [reverse_connection.rs], [forward.rs], [state_decoder.rs], and the ping
    handler and the disconnect cache of [server/src/server.rs].

    A handler returns the packet to send back to the source, if any, and the
    new state.  The counters of the metrics are not modelled. *)

From S2P Require Import Prelude Payload Proto Challenge NodeInfo ServerState SessionManager.
From S2P Require Import SlotManager ServerCore IpChecker.

Section Handlers.
Context `{Hashes} `{EthSign} `{IpText} `{Semver} `{Keccak}.
Context `{!CacheOps SocketAddr (Z * bool)} `{!CacheOps SessionId Z}.
Context (session_hash : SessionId -> Z) (cf : ServerConfig).

(** [session_manager.session(..)] with the session it refers to. *)
Definition find_session (id : SessionId) (sv : Server) : option (loc * Session) :=
  table session_hash (sv_sessions sv) id.

(** [Some(session_ref) if session_ref.peer == src]. *)
Definition find_session_of (id : SessionId) (src : SocketAddr) (sv : Server)
  : option (loc * Session) :=
  match find_session id sv with
  | Some (l, s) => if bool_decide (s_peer s = src) then Some (l, s) else None
  | None => None
  end.

Definition touch_session (env : Env) (l : loc) : Server -> Server :=
  on_sessions (touch (clock_of cf env) l).

(** [session_manager.node_session(..)]. *)
Definition find_node (n : NodeId) (sv : Server) : option Session * Server :=
  let '(r, m) := node_session (sv_sessions sv) n in
  (r ≫= get m, on_sessions (fun _ => m) sv).

(** ** state_decoder.rs *)

Definition to_node_info (env : Env) (s : Session) (context : NodeId) (pk : bool) (sv : Server)
  : response_Node * Server :=
  let '(session_pub_key, session_key_proof, session_key_proofs) :=
    if pk then
      match s_session_key s with
      | Some (session_key, proofs) =>
          (pk_bytes session_key,
           match head (s_keys s) with
           | Some i => default [] (proofs !! ni_node_id i)
           | None => []
           end,
           map (fun i => default [] (proofs !! ni_node_id i)) (s_keys s))
      | None => ([], [], [])
      end
    else ([], [], []) in
  let '(slot, slots) := SlotManager_slot (sv_slots sv) context in
  ({| rn_identities := map Identity_to_proto (s_keys s);
      rn_endpoints := match Session_endpoint s with Some e => [e] | None => [] end;
      rn_seen_ts := TsDecoder_decode (TsDecoder_new (cf_server_start cf) (e_now env) (e_unix env))
                      (s_ts s);
      rn_slot := slot;
      rn_supported_encryptions := s_supported_encryptions s;
      rn_session_pub_key := session_pub_key;
      rn_session_key_proof := session_key_proof;
      rn_session_key_proofs := session_key_proofs |},
   with_slots slots sv).

(** ** session.rs *)

Inductive ClientVersionError : Type :=
| InvalidVersion
| TooOld (v : Version).

Definition validate_client_version (client_version : string) (min_client_version : Version)
  : result Version ClientVersionError :=
  match Version_parse client_version with
  | None => Err InvalidVersion
  | Some version =>
      if Version_lt version min_client_version then Err (TooOld version) else Ok version
  end.

Definition epoch (env : Env) : Z := e_unix env / SECOND / 600.

(** [to_ne_bytes] on a little-endian machine. *)
Definition ne_bytes (n : nat) (v : Z) : list Z := rev (be_bytes n v).

Definition session_challenge (session_id : SessionId) : list Z :=
  ztake 16 (keccak256 (session_id ++ cf_salt cf)).

Definition addr_octets (a : IpAddr) : list Z :=
  match a with
  | IpV4 v => be_bytes 4 v
  | IpV6 v => be_bytes 16 v
  end.

Definition gen_new_challenge (addr : SocketAddr) (epoch : Z) : SessionId :=
  ztake 16 (keccak256 (addr_octets (sa_ip addr) ++ be_bytes 2 (sa_port addr) ++ cf_salt cf ++
                       ne_bytes 8 (cf_difficulty cf) ++ ne_bytes 8 epoch)).

(** The loop of [check_session_id]; the subtraction panics below zero. *)
Fixpoint check_epochs (session_id : SessionId) (addr : SocketAddr) (epoch : Z) (ns : list Z)
  : outcome bool :=
  match ns with
  | [] => Ret false
  | n :: ns =>
      if epoch - n <? 0 then Panic
      else if bool_decide (session_id = gen_new_challenge addr (epoch - n)) then Ret true
      else check_epochs session_id addr epoch ns
  end.

Definition check_session_id (env : Env) (session_id : SessionId) (addr : SocketAddr)
  : outcome bool :=
  check_epochs session_id addr (epoch env) [0; 1; 2].

Definition session_reply (request_id : Z) (session_id : list Z) (code : StatusCode)
  : option Packet :=
  Some (Packet_response request_id session_id code (RsSession response_Session_default)).

Definition session_handle (env : Env) (src : SocketAddr) (request_id : Z)
  (session_id : option SessionId) (req : request_Session) (sv : Server)
  : outcome (option Packet * Server) :=
  match session_id with
  | Some session_id =>
      match rqs_challenge_resp req with
      | None => Ret (None, sv)
      | Some challenge_resp =>
          let challenge := session_challenge session_id in
          match recover_identities_from_challenge_with_proof challenge (cf_difficulty cf)
                  (Some challenge_resp) None with
          | Err _ =>
              Ret (Some {| pkt_session_id := session_id;
                           pkt_kind := Some (PkResponse
                             {| rs_request_id := request_id;
                                rs_code := StatusCode_to_i32 BadRequest; rs_kind := None |}) |}, sv)
          | Ok (node_id, keys, session_key_with_proofs) =>
              let! valid := check_session_id env session_id src in
              if negb valid then Ret (session_reply request_id session_id BadRequest, sv)
              else
                match new_session session_hash (sv_sessions sv) (clock_of cf env) session_id src
                        node_id keys (rqs_supported_encryptions req) session_key_with_proofs with
                | (Ok _, m) =>
                    Ret (session_reply request_id session_id StatusOk, on_sessions (fun _ => m) sv)
                | (Err prev, _) =>
                    match get (sv_sessions sv) prev with
                    | Some s =>
                        if bool_decide (s_node_id s <> node_id)
                        then Ret (session_reply request_id session_id Conflict, sv)
                        else Ret (session_reply request_id session_id StatusOk, sv)
                    | None => Ret (session_reply request_id session_id StatusOk, sv)
                    end
                end
          end
      end
  | None =>
      match validate_client_version (rqs_client_version req) (cf_min_client_version cf) with
      | Err _ => Ret (session_reply request_id [] BadRequest, sv)
      | Ok _ =>
          let '(session, _) := prepare_challenge_response (cf_difficulty cf) (e_random env) in
          let session_id := gen_new_challenge src (epoch env) in
          let session :=
            match rss_challenge_req session with
            | Some c =>
                {| rss_challenge_req := Some
                     {| cq_version := cq_version c; cq_caps := cq_caps c; cq_kind := cq_kind c;
                        cq_difficulty := cq_difficulty c;
                        cq_challenge := session_challenge session_id |};
                   rss_challenge_resp := rss_challenge_resp session;
                   rss_supported_encryptions := rss_supported_encryptions session;
                   rss_identities := rss_identities session |}
            | None => session
            end in
          Ret (Some (Packet_response request_id session_id StatusOk (RsSession session)), sv)
      end
  end.

(** ** Ping *)

(** [DisconnectCache::mark_session]: whether a [Disconnected] may be sent. *)
Definition mark_session (env : Env) (session_id : SessionId) (sv : Server) : bool * Server :=
  let ts := Clock_last_seen (clock_of cf env) in
  let mark := with_disconnect_cache (cache_insert (sv_disconnect_cache sv) session_id ts) sv in
  match cache_get (sv_disconnect_cache sv) session_id with
  | Some it =>
      if 60 * SECOND <? LastSeen_age (cf_server_start cf) (e_now env) it then (true, mark)
      else (false, sv)
  | None => (true, mark)
  end.

Definition handle_ping (env : Env) (src : SocketAddr) (request_id : Z) (session_id : SessionId)
  (sv : Server) : option Packet * Server :=
  match find_session_of session_id src sv with
  | Some (l, _) =>
      (Some (Packet_response request_id session_id StatusOk RsPong), touch_session env l sv)
  | None =>
      let '(marked, sv) := mark_session env session_id sv in
      (if marked
       then Some (Packet_control session_id (CtDisconnected (Some (BySessionId session_id))))
       else None, sv)
  end.

(** ** register.rs *)

Definition register_handle (env : Env) (src : SocketAddr) (request_id : Z)
  (session_id : SessionId) (sv : Server) : option Packet * Server :=
  match find_session session_id sv with
  | None =>
      (Some (Packet_response request_id session_id Unauthorized (RsRegister [])), sv)
  | Some (l, s) =>
      let sv := touch_session env l sv in
      let check :=
        (None, check_ip_status cf (ck_now (clock_of cf env)) l s (ResolveRegister request_id) sv) in
      match cache_get (sv_ip_cache sv) src with
      | Some (ts, v) =>
          if elapsed (e_now env) ts <? 60 * SECOND then
            let new_addr_status := if v then Valid (e_now env) else Invalid (e_now env) in
            let sv := on_sessions (fun m => update m l (set_addr_status new_addr_status)) sv in
            let endpoints :=
              match get (sv_sessions sv) l ≫= Session_endpoint with
              | Some e => [e]
              | None => []
              end in
            (Some (Packet_response request_id session_id StatusOk (RsRegister endpoints)),
             on_sessions (fun m => link_sessions m l) sv)
          else check
      | None => check
      end
  end.

(** ** node.rs and slot.rs *)

Definition node_reply (request_id : Z) (session_id : SessionId) (code : StatusCode)
  : option Packet :=
  Some (Packet_response request_id session_id code (RsNode response_Node_default)).

Definition node_handle (env : Env) (src : SocketAddr) (request_id : Z) (session_id : SessionId)
  (node_id : list Z) (sv : Server) : option Packet * Server :=
  match find_session_of session_id src sv with
  | None => (node_reply request_id session_id Unauthorized, sv)
  | Some (l, _) =>
      let sv := touch_session env l sv in
      match NodeId_try_from node_id with
      | None => (node_reply request_id session_id BadRequest, sv)
      | Some request_node_id =>
          match find_node request_node_id sv with
          | (Some it, sv) =>
              let '(node, sv) := to_node_info env it request_node_id true sv in
              (Some (Packet_response request_id session_id StatusOk (RsNode node)), sv)
          | (None, sv) => (node_reply request_id session_id NotFound, sv)
          end
      end
  end.

Definition slot_handle (env : Env) (src : SocketAddr) (request_id : Z) (session_id : SessionId)
  (slot : Z) (sv : Server) : option Packet * Server :=
  match find_session_of session_id src sv with
  | None => (node_reply request_id session_id Unauthorized, sv)
  | Some (l, _) =>
      let sv := touch_session env l sv in
      match SlotManager_node (sv_slots sv) slot with
      | None => (None, sv)
      | Some request_node_id =>
          match find_node request_node_id sv with
          | (Some it, sv) =>
              let '(node, sv) := to_node_info env it request_node_id true sv in
              (Some (Packet_response request_id session_id StatusOk (RsNode node)), sv)
          | (None, sv) => (node_reply request_id session_id NotFound, sv)
          end
      end
  end.

(** ** neighbours.rs *)

Fixpoint node_infos (env : Env) (ls : list loc) (sv : Server) : list response_Node * Server :=
  match ls with
  | [] => ([], sv)
  | l :: ls =>
      match get (sv_sessions sv) l with
      | None => node_infos env ls sv
      | Some s =>
          let '(node, sv) := to_node_info env s (s_node_id s) false sv in
          let '(nodes, sv) := node_infos env ls sv in
          (node :: nodes, sv)
      end
  end.

Definition neighbours_handle (env : Env) (src : SocketAddr) (request_id : Z)
  (session_id : SessionId) (count : Z) (sv : Server) : option Packet * Server :=
  match find_session_of session_id src sv with
  | None =>
      (Some (Packet_response request_id session_id Unauthorized (RsNeighbours [])), sv)
  | Some (_, s) =>
      let '(ls, m) := neighbours (sv_sessions sv) (s_node_id s) count in
      let '(nodes, sv) := node_infos env ls (on_sessions (fun _ => m) sv) in
      (Some (Packet_response request_id session_id StatusOk (RsNeighbours nodes)), sv)
  end.

(** ** reverse_connection.rs *)

Definition rc_reply (request_id : Z) (session_id : SessionId) (code : StatusCode)
  : option Packet :=
  Some (Packet_response request_id session_id code RsReverseConnection).

Definition rc_handle (env : Env) (src : SocketAddr) (request_id : Z) (session_id : SessionId)
  (node_id : list Z) (sv : Server) : option Packet * Server :=
  match find_session_of session_id src sv with
  | None => (rc_reply request_id session_id Unauthorized, sv)
  | Some (l, s) =>
      match NodeId_try_from node_id with
      | None => (rc_reply request_id session_id BadRequest, sv)
      | Some request_node_id =>
          let sv := touch_session env l sv in
          match Session_endpoint s with
          | None => (rc_reply request_id session_id BadRequest, sv)
          | Some e =>
              match find_node request_node_id sv with
              | (None, sv) => (rc_reply request_id session_id NotFound, sv)
              | (Some it, sv) =>
                  (rc_reply request_id session_id StatusOk,
                   send_to (s_peer it)
                     (DgPacket (Packet_control (s_session_id it)
                        (CtReverseConnection (s_node_id s) [e]))) sv)
              end
          end
      end
  end.

(** ** forward.rs *)

Definition forward_handle (env : Env) (src : SocketAddr) (session_id : SessionId)
  (slot flags : Z) (payload : Payload) (sv : Server) : option Packet * Server :=
  let '(src_info, sv) :=
    match find_session_of session_id src sv with
    | None => (None, sv)
    | Some (l, s) =>
        let '(src_slot, slots) := SlotManager_slot (sv_slots sv) (s_node_id s) in
        (Some src_slot, touch_session env l (with_slots slots sv))
    end in
  let '(dst_info, sv) :=
    match SlotManager_node (sv_slots sv) slot with
    | None => (None, sv)
    | Some node_id =>
        let '(r, sv) := find_node node_id sv in
        ((fun it => (s_peer it, s_session_id it)) <$> r, sv)
    end in
  match src_info, dst_info with
  | Some src_slot, Some (dst_addr, dst_session_id) =>
      (None,
       send_to dst_addr
         (DgForward {| fw_session_id := dst_session_id; fw_slot := src_slot; fw_flags := flags;
                       fw_payload := payload |}) sv)
  | None, _ =>
      (Some (Packet_control session_id (CtDisconnected (Some (BySessionId session_id)))), sv)
  | _, None =>
      (Some (Packet_control session_id (CtDisconnected (Some (BySlot slot)))), sv)
  end.
End Handlers.
