(* ===== verification/Server.v ===== *)
(** [server/src/server.rs] and [server/src/state/control.rs]: the dispatch of
    the datagrams that arrive at the server, the control commands, the start of
    the server, and the server as a transition system over all its tasks. *)

From S2P Require Import Prelude Payload Proto Codec Challenge NodeInfo ServerState.
From S2P Require Import SessionManager SessionNodes SessionStore SlotManager.
From S2P Require Import ServerCore IpChecker Handlers.

(** [ControlCommand]. *)
Inductive ControlCommand : Type :=
| DropSession (session_id : SessionId) (silent : bool)
| CheckIp (session_id : SessionId) (reply : Z)
| SetMode (mode : ListMode).

Section Server.
Context `{Hashes} `{EthSign} `{IpText} `{Semver} `{Keccak}.
Context `{!CacheOps SocketAddr (Z * bool)} `{!CacheOps SessionId Z}.
Context (session_hash : SessionId -> Z) (cf : ServerConfig).

(** A datagram could not be delivered: the session of its destination is
    removed when its address was checked more than five minutes ago. *)
Definition unreachable (env : Env) (src : SocketAddr) (session_id : SessionId) (sv : Server)
  : Server :=
  match find_session session_hash session_id sv with
  | Some (_, s) =>
      if bool_decide (s_peer s = src) &&
         (300 * SECOND <? AddrStatus_age (e_now env) (s_addr_status s))
      then on_sessions (fun m => (remove_session session_hash m session_id).2) sv
      else sv
  | None => sv
  end.

(** A request of a client; [None] is no session id. *)
Definition dispatch_request (env : Env) (src : SocketAddr) (request_id : Z)
  (session_id : option SessionId) (request : request_Kind) (sv : Server)
  : outcome (option Packet * Server) :=
  match request, session_id with
  | RqSession s, _ => session_handle session_hash cf env src request_id session_id s sv
  | _, None => Ret (None, sv)
  | RqPing, Some id => Ret (handle_ping session_hash cf env src request_id id sv)
  | RqNeighbours count _, Some id =>
      Ret (neighbours_handle session_hash cf env src request_id id count sv)
  | RqNode n _, Some id => Ret (node_handle session_hash cf env src request_id id n sv)
  | RqSlot slot _, Some id => Ret (slot_handle session_hash cf env src request_id id slot sv)
  | RqRegister _, Some id => Ret (register_handle session_hash cf env src request_id id sv)
  | RqReverseConnection n, Some id => Ret (rc_handle session_hash cf env src request_id id n sv)
  end.

(** A session is closed by a control packet that names it twice. *)
Definition disconnect (src : SocketAddr) (session_id to_close : list Z) (sv : Server) : Server :=
  match SessionId_try_from session_id with
  | Some id =>
      if bool_decide (id = to_close)
      then on_sessions (fun m => (remove_session_from session_hash m id src).2) sv
      else sv
  | None => sv
  end.

(** The body of the worker, after decoding. *)
Definition dispatch (env : Env) (pt : PacketType) (src : SocketAddr) (p : PacketKind Packet)
  (sv : Server) : outcome (option Packet * Server) :=
  match pt with
  | PtOther => Ret (None, sv)
  | PtUnreachable _ =>
      match p with
      | KForward f => Ret (None, unreachable env src (fw_session_id f) sv)
      | KPacket {| pkt_session_id := session_id;
                   pkt_kind := Some (PkControl (Some (CtReverseConnection _ _))) |} =>
          match SessionId_try_from session_id with
          | Some id => Ret (None, unreachable env src id sv)
          | None => Ret (None, sv)
          end
      | _ => Ret (None, sv)
      end
  | PtData =>
      match p with
      | KPacket {| pkt_session_id := session_id;
                   pkt_kind := Some (PkRequest {| rq_request_id := request_id;
                                                  rq_kind := Some request |}) |} =>
          match SessionId_from_wire session_id with
          | None => Ret (None, sv)
          | Some session_id => dispatch_request env src request_id session_id request sv
          end
      | KPacket {| pkt_session_id := session_id;
                   pkt_kind := Some (PkControl (Some (CtDisconnected
                                 (Some (BySessionId to_close))))) |} =>
          Ret (None, disconnect src session_id to_close sv)
      | KForward f =>
          Ret (forward_handle session_hash cf env src (fw_session_id f) (fw_slot f) (fw_flags f)
                 (fw_payload f) sv)
      | _ => Ret (None, sv)
      end
  end.

(** The reply goes to the source. *)
Definition serve (env : Env) (pt : PacketType) (src : SocketAddr) (p : PacketKind Packet)
  (sv : Server) : outcome Server :=
  let! (reply, sv) := dispatch env pt src p sv in
  Ret (match reply with
       | Some packet => send_to src (DgPacket packet) sv
       | None => sv
       end).

(** A datagram: decoded, dispatched, and answered. *)
Definition worker `{Prost Packet} (env : Env) (pt : PacketType) (src : SocketAddr)
  (datagram : list Z) (sv : Server) : outcome Server :=
  let! (r, _) := datagram_decode datagram in
  match r with
  | Ok (Some p) => serve env pt src p sv
  | _ => Ret sv
  end.

(** ** Control *)

Definition control_command (env : Env) (c : ControlCommand) (sv : Server) : Server :=
  match c with
  | DropSession session_id silent =>
      let '(r, m) := remove_session session_hash (sv_sessions sv) session_id in
      let peer := s_peer <$> (r ≫= get m) in
      let sv := on_sessions (fun _ => m) sv in
      match peer with
      | Some peer =>
          if silent then sv
          else send_to peer (DgPacket (Packet_control session_id
                 (CtDisconnected (Some (BySessionId session_id))))) sv
      | None => sv
      end
  | SetMode mode => on_sessions (fun m => set_mode m mode) sv
  | CheckIp session_id reply =>
      match find_session session_hash session_id sv with
      | Some (l, s) => check_ip_status cf (e_now env) l s (ResolveControl reply) sv
      | None => reply_control reply false sv
      end
  end.

(** ** Steps *)

(** The tasks of the server: the worker, the three tasks of the address check,
    the control task and the cleanup task. *)
Inductive Event : Type :=
| EvDatagram (env : Env) (pt : PacketType) (src : SocketAddr) (p : PacketKind Packet)
| EvPingJob
| EvSendPings (env : Env)
| EvRecv (env : Env) (pt : PacketType) (peer : SocketAddr) (packet : Packet)
| EvControl (env : Env) (c : ControlCommand)
| EvCleanup (env : Env) (session_purge_timeout : Z).

Definition server_step (ev : Event) (sv : Server) : outcome Server :=
  match ev with
  | EvDatagram env pt src p => serve env pt src p sv
  | EvPingJob => Ret (ping_job sv)
  | EvSendPings env => Ret (send_pings (e_now env) (cf_ip_check_timeout cf) sv)
  | EvRecv env pt peer packet => Ret (recv_job (e_now env) pt peer packet sv)
  | EvControl env c => Ret (control_command env c sv)
  | EvCleanup env session_purge_timeout =>
      Ret (on_sessions (cleanup (clock_of cf env) session_purge_timeout) sv)
  end.

(** ** Start *)

(** The files of the state directory, as far as they exist. *)
Record StateDir : Type := {
  sd_slots : option (list Z);
  sd_sessions : option (list Z);
  sd_sessions_old : option (list Z) }.

(** The managers [run] starts with: what cannot be read is started anew. *)
Definition load_state `{Rmp SessionData} `{Rmp SessionDataOld} (now : nat -> Z)
  (state_dir : option StateDir) : outcome (SlotManager * SessionManager) :=
  match state_dir with
  | None => Ret (SlotManager_new, SessionManager_new)
  | Some dir =>
      let slots :=
        match sd_slots dir with
        | Some file =>
            match SlotManager_load (S (length file)) file with
            | Some (Ok m) => m
            | _ => SlotManager_new
            end
        | None => SlotManager_new
        end in
      let loaded :=
        match sd_sessions dir, sd_sessions_old dir with
        | Some file, _ => SessionManager_load session_hash (cf_server_start cf) now file
        | None, Some file => SessionManager_load_old session_hash (cf_server_start cf) now file
        | None, None => None
        end in
      match loaded with
      | Some Panic => Panic
      | Some (Ret (Ok m)) => Ret (slots, m)
      | _ => Ret (slots, SessionManager_new)
      end
  end.

Definition start `{Rmp SessionData} `{Rmp SessionDataOld} (now : nat -> Z)
  (state_dir : option StateDir) (mode : ListMode) (request_id : Z) : outcome Server :=
  let! (slots, sessions) := load_state now state_dir in
  Ret {| sv_sessions := set_mode sessions mode; sv_slots := slots;
         sv_ip_cache := cache_new; sv_disconnect_cache := cache_new; sv_check_queue := [];
         sv_requests := ∅; sv_request_id := request_id; sv_replies := []; sv_sent := [] |}.
End Server.
