(* ===== verification/ToyServer.v ===== *)
(** A small instance of everything the server model takes as parameter, for
    examples: an identity hash, numbers as versions, caches that never evict,
    and a server with three registered nodes. *)

From S2P Require Import Prelude Payload Proto Codec Challenge NodeInfo ServerState.
From S2P Require Import SessionManager SlotManager ServerCore IpChecker Handlers Server.

Import ToyCrypto ToyIp ToySessions.

#[export] Instance toy_keccak : Keccak := {
  keccak256 m := ztake 32 (m ++ replicate 32 0) }.

#[export] Instance toy_keccak_laws : KeccakLaws.
Proof.
  split. intros m. unfold keccak256, toy_keccak, zlen, ztake. rewrite length_take, length_app.
  rewrite length_replicate. lia.
Qed.

#[export] Instance toy_semver : Semver := {
  Version := nat;
  Version_parse s := Some (String.length s);
  Version_lt := Nat.ltb }.

#[export] Instance map_cache (K V : Type) `{Countable K} : CacheOps K V := {
  Cache := gmap K V;
  cache_new := ∅;
  cache_get c k := c !! k;
  cache_insert c k v := <[k := v]> c }.

#[export] Instance map_cache_laws (K V : Type) `{Countable K} : CacheLaws K V.
Proof.
  split.
  - intros k. apply lookup_empty.
  - intros c k v k' v' Hl. simpl in Hl. apply lookup_insert_Some in Hl as [[-> ->]|[_ Hl]]; auto.
Qed.

Definition toy_config : ServerConfig :=
  {| cf_difficulty := 5; cf_salt := replicate 16 0; cf_min_client_version := 1%nat;
     cf_ip_check_timeout := SECOND; cf_ip_check_retry_cnt := 3; cf_server_start := 0 |}.

Definition toy_env (t : Z) : Env :=
  {| e_now := t * SECOND; e_unix := (6000 + t) * SECOND; e_random := [] |}.

(** The nodes 1, 2 and 3, the address of node 1 checked at second 710. *)
Definition toy_server : Server :=
  {| sv_sessions := toy_manager;
     sv_slots := (SlotManager_slot SlotManager_new (replicate 20 2)).2;
     sv_ip_cache := cache_insert cache_new (toy_peer 1) (710 * SECOND, true);
     sv_disconnect_cache := cache_new; sv_check_queue := [];
     sv_requests := ∅; sv_request_id := 0; sv_replies := []; sv_sent := [] |}.
