(* ===== verification/ServerUi.v ===== *)
(** [server/src/bin/ya-relay-server.rs]: the web interface of the relay server.

    One definition per web handler.  A handler answers at once, or sends a
    command to the control task and answers when that is done.  The routing of
    requests to handlers and the encoding of answers are those of actix-web; the
    answers are modelled up to the fields and values of their JSON objects.  Also
    here is the text of session ids ([core/src/server_session.rs]), by which the
    interface names sessions. *)

From Stdlib Require Import Ascii.
From S2P Require Import Prelude Payload Proto Challenge NodeInfo ServerState SessionManager.
From S2P Require Import SessionNodes SlotManager ServerCore IpChecker Handlers Server ToyServer.

(** ** The text of session ids *)

(** A digit of [{:x}]. *)
Definition hex_digit (d : Z) : ascii :=
  ascii_of_nat (Z.to_nat (if d <? 10 then 48 + d else 87 + d)).

(** [Display]: [{byte:02x}] for every byte. *)
Fixpoint SessionId_to_string (id : SessionId) : string :=
  match id with
  | [] => EmptyString
  | b :: id => String (hex_digit (b / 16)) (String (hex_digit (b mod 16)) (SessionId_to_string id))
  end.

(** The crate [hex]. *)
Class Hex : Type := { hex_decode_to_slice : string -> Z -> option (list Z) }.

(** Pairs of digits of both cases, as many as the slice has bytes. *)
Class HexLaws `{Hex} : Prop := {
  hex_decode_spec s n :
    hex_decode_to_slice s n =
    match hex_pairs (String.list_ascii_of_string s) with
    | Some bytes => if zlen bytes =? n then Some bytes else None
    | None => None
    end }.

(** [TryFrom<&str> for SessionId]. *)
Definition SessionId_try_from_str `{Hex} (s : string) : option SessionId :=
  hex_decode_to_slice s SESSION_ID_SIZE.

(** What is printed: addresses, node ids, and the [Debug] form of durations. *)
Class WebText : Type := {
  sock_to_string : SocketAddr -> string;
  node_id_to_string : NodeId -> string;
  u64_to_string : Z -> string;
  duration_debug : Z -> string }.

(** ** Requests and answers *)

(** The routes, with the parameter of their path. *)
Inductive WebRoute : Type :=
| GetNodes (prefix : string)
| GetSession (id : string)
| DeleteSession (id : string)
| PostCheck (id : string)
| GetStatus
| GetEvents.

(** [peer_addr]: the address of the connection, whatever the headers say. *)
Record HttpRequest : Type := { hq_peer_addr : option SocketAddr; hq_route : WebRoute }.

Record Status : Type := { st_sessions : Z; st_nodes : Z; st_auth : option bool }.

Record SessionInfo : Type := {
  si_session_id : string;
  si_peer : SocketAddr;
  si_seen : string;
  si_supported_encryptions : list string;
  si_addr_status : string }.

Inductive WebBody : Type :=
| BodyNodes (nodes : gmap NodeId (list (option SessionInfo)))
| BodySession (info : option SessionInfo)
| BodyChecked (r : bool)
| BodyStatus (s : Status)
| BodyEvents (events : list string).

Inductive HttpResponse : Type :=
| HttpOk (body : WebBody)
| HttpNoContent
| HttpBadRequest
| HttpForbidden
| HttpInternalServerError.

(** What a handler does: answer, or send a command to the control task first. *)
Inductive WebAction : Type :=
| Respond (r : HttpResponse)
| Command (c : ControlCommand).

(** [IpAddr::is_loopback]: 127.0.0.0/8 and ::1. *)
Definition is_loopback (ip : IpAddr) : bool :=
  match ip with
  | IpV4 a => Z.shiftr a 24 =? 127
  | IpV6 a => a =? 1
  end.

(** [FromRequest for Authorization]. *)
Definition Authorization_from_request (req : HttpRequest) : bool :=
  default false ((fun addr => is_loopback (sa_ip addr)) <$> hq_peer_addr req).

Definition newline : string := String (ascii_of_nat 10) EmptyString.

Section Ui.
Context `{Hashes} `{EthSign} `{IpText} `{Semver} `{Keccak} `{Hex} `{WebText}.
Context `{!CacheOps SocketAddr (Z * bool)} `{!CacheOps SessionId Z}.
Context (session_hash : SessionId -> Z) (cf : ServerConfig).

(** [SessionInfo::from_ref]; [now] is the moment of the request. *)
Definition SessionInfo_from_ref (now : Z) (session_ref : option Session) : option SessionInfo :=
  (fun s =>
     {| si_session_id := SessionId_to_string (s_session_id s);
        si_peer := s_peer s;
        si_seen := duration_debug (LastSeen_age (cf_server_start cf) now (s_ts s));
        si_supported_encryptions := s_supported_encryptions s;
        si_addr_status :=
          match s_addr_status s with
          | Unknown => "Unknown"
          | Pending ts => "pending(" +:+ duration_debug (elapsed now ts) +:+ ")"
          | Invalid ts => "invalid(" +:+ duration_debug (elapsed now ts) +:+ ")"
          | Valid ts => "valid(" +:+ duration_debug (elapsed now ts) +:+ ")"
          end |}) <$> session_ref.

(** [SessionInfo::from_ref_secure] of an upgraded reference. *)
Definition SessionInfo_from_ref_secure (now : Z) (session_ref : option Session)
  : option SessionInfo :=
  match SessionInfo_from_ref now session_ref with
  | Some s =>
      Some {| si_session_id := EmptyString; si_peer := si_peer s; si_seen := si_seen s;
              si_supported_encryptions := []; si_addr_status := si_addr_status s |}
  | None => None
  end.

Definition nodes_list_prefix (now : Z) (prefix : string) (auth : bool) (m : SessionManager)
  : outcome HttpResponse :=
  let! selector := Selector_from_str 20 prefix in
  Ret (match selector with
       | None => HttpBadRequest
       | Some selector =>
           HttpOk (BodyNodes (list_to_map (map (fun p =>
             (p.1,
              map (fun l =>
                     let session := if alive m l then get m l else None in
                     if auth then SessionInfo_from_ref now session
                     else SessionInfo_from_ref_secure now session) p.2))
             (nodes_for m selector 50))))
       end).

Definition session_get (now : Z) (id : string) (m : SessionManager) : HttpResponse :=
  match SessionId_try_from_str id with
  | None => HttpBadRequest
  | Some session_id =>
      HttpOk (BodySession (SessionInfo_from_ref now (snd <$> table session_hash m session_id)))
  end.

Definition session_remove (id : string) : WebAction :=
  match SessionId_try_from_str id with
  | None => Respond HttpBadRequest
  | Some session_id => Command (DropSession session_id false)
  end.

(** [reply] stands for the channel on which the result comes back. *)
Definition session_check_ip (id : string) (reply : Z) : WebAction :=
  match SessionId_try_from_str id with
  | None => Respond HttpBadRequest
  | Some session_id => Command (CheckIp session_id reply)
  end.

Definition status (auth : bool) (m : SessionManager) : HttpResponse :=
  HttpOk (BodyStatus {| st_sessions := num_sessions m; st_nodes := num_nodes m;
                        st_auth := if auth then Some true else None |}).

(** One server-sent event. *)
Definition event_text (event : NodeEvent) : string :=
  match event with
  | NodeNew node_id =>
      "event: new-node" +:+ newline +:+ "data: " +:+ node_id_to_string node_id +:+ newline +:+ newline
  | NodeLost node_id =>
      "event: lost-node" +:+ newline +:+ "data: " +:+ node_id_to_string node_id +:+ newline +:+ newline
  | NodeLag n =>
      "event: drop" +:+ newline +:+ "data: " +:+ u64_to_string n +:+ newline +:+ newline
  end.

(** The stream of a subscriber, whose receiver yields [later]. *)
Definition events (later : list NodeEvent) : HttpResponse := HttpOk (BodyEvents (map event_text later)).

(** A request at the moment [now]: the extractors run before the handler, so
    that a handler that takes an [Authorization] is not run without one. *)
Definition web_handle (now reply : Z) (later : list NodeEvent) (req : HttpRequest)
  (m : SessionManager) : outcome WebAction :=
  let auth := Authorization_from_request req in
  match hq_route req with
  | GetNodes prefix => let! r := nodes_list_prefix now prefix auth m in Ret (Respond r)
  | GetSession id => Ret (Respond (if auth then session_get now id m else HttpForbidden))
  | DeleteSession id => Ret (if auth then session_remove id else Respond HttpForbidden)
  | PostCheck id => Ret (if auth then session_check_ip id reply else Respond HttpForbidden)
  | GetStatus => Ret (Respond (status auth m))
  | GetEvents => Ret (Respond (events later))
  end.

(** The answer after a command: [sent] tells whether the control task took it,
    [result] what came back on the reply channel. *)
Definition web_finish (c : ControlCommand) (sent : bool) (result : option bool) : HttpResponse :=
  match c with
  | CheckIp _ _ =>
      match sent, result with
      | true, Some r => HttpOk (BodyChecked r)
      | _, _ => HttpInternalServerError
      end
  | _ => if sent then HttpNoContent else HttpInternalServerError
  end.

(** A request served to its end, while the control task runs. *)
Definition web_step (env : Env) (reply : Z) (later : list NodeEvent) (req : HttpRequest)
  (sv : Server) : outcome Server :=
  let! action := web_handle (e_now env) reply later req (sv_sessions sv) in
  Ret (match action with
       | Respond _ => sv
       | Command c => control_command session_hash cf env c sv
       end).

(** ** Session ids *)

Lemma to_digit16_hex d : 0 <= d < 16 -> to_digit16 (hex_digit d) = Some d.
Proof.
  intros Hd. assert (Z.of_nat (Z.to_nat d) = d) as <- by lia.
  assert (Z.to_nat d < 16)%nat as Hk by lia. revert Hk. generalize (Z.to_nat d).
  do 16 (intros [|k]; [reflexivity|revert k]). lia.
Qed.

Lemma hex_byte b : is_byte b -> Z.lor (Z.shiftl (b / 16) 4) (b mod 16) = b.
Proof.
  intros _. change 16 with (2 ^ 4). rewrite <- Z.land_ones, <- Z.shiftr_div_pow2 by lia.
  apply Z.bits_inj'. intros i Hi. rewrite Z.lor_spec, Z.land_spec, Z.testbit_ones_nonneg by lia.
  destruct (Z.ltb_spec i 4).
  - by rewrite Z.shiftl_spec_low, andb_true_r by done.
  - rewrite Z.shiftl_spec, Z.shiftr_spec, andb_false_r, orb_false_r by lia. f_equal. lia.
Qed.

Lemma hex_pairs_id id :
  bytes_ok id -> hex_pairs (String.list_ascii_of_string (SessionId_to_string id)) = Some id.
Proof.
  induction 1 as [|b id Hb _ IH]; [done|]. cbn -[Z.div Z.modulo Z.shiftl Z.lor hex_digit].
  unfold is_byte in Hb. rewrite !to_digit16_hex, IH by dlia. by rewrite hex_byte.
Qed.

(** Reading the text of an id gives the id. *)
Lemma session_id_text `{!HexLaws} id :
  bytes_ok id -> zlen id = SESSION_ID_SIZE ->
  SessionId_try_from_str (SessionId_to_string id) = Some id.
Proof.
  intros Hb Hl. unfold SessionId_try_from_str. by rewrite hex_decode_spec, hex_pairs_id, Hl.
Qed.

(** ** Who may see and do what *)

(** What anybody may know of a session. *)
Definition public_session (s : Session) : SocketAddr * Z * AddrStatus :=
  (s_peer s, s_ts s, s_addr_status s).

(** Managers that differ only in what is secret: the ids of sessions, the
    identities, keys and encryptions of their nodes. *)
Definition same_public (m1 m2 : SessionManager) : Prop :=
  sm_node_sessions m1 = sm_node_sessions m2 /\ num_sessions m1 = num_sessions m2 /\
  (forall l, alive m1 l = alive m2 l) /\
  (forall l, public_session <$> get m1 l = public_session <$> get m2 l).

Lemma same_public_update m l f :
  (forall s, public_session (f s) = public_session s) -> same_public m (update m l f).
Proof.
  intros Hf. split_and!; [reflexivity..|]. intros l'. unfold get, update. simpl.
  destruct (decide (l' = l)) as [->|Hl]; [rewrite lookup_alter_eq|by rewrite lookup_alter_ne].
  destruct (sm_heap m !! l); [|done]. simpl. by rewrite Hf.
Qed.

Lemma secure_info_public now (o1 o2 : option Session) :
  public_session <$> o1 = public_session <$> o2 ->
  SessionInfo_from_ref_secure now o1 = SessionInfo_from_ref_secure now o2.
Proof.
  destruct o1 as [s1|], o2 as [s2|]; simpl; intros Hp; try discriminate; [|done].
  unfold SessionInfo_from_ref_secure, SessionInfo_from_ref. simpl.
  injection Hp as -> -> ->. done.
Qed.

Lemma nodes_for_ext m1 m2 sel k :
  sm_node_sessions m1 = sm_node_sessions m2 -> nodes_for m1 sel k = nodes_for m2 sel k.
Proof. unfold nodes_for. by intros ->. Qed.

Lemma nodes_list_public now prefix m1 m2 :
  same_public m1 m2 ->
  nodes_list_prefix now prefix false m1 = nodes_list_prefix now prefix false m2.
Proof.
  intros (Hn & _ & Ha & Hg). unfold nodes_list_prefix.
  destruct (Selector_from_str 20 prefix) as [[sel|]|]; [|done..]. simpl.
  rewrite (nodes_for_ext m1 m2 sel 50 Hn). do 4 f_equal. apply map_ext. intros [n ls]. simpl.
  f_equal. apply map_ext. intros l. rewrite Ha. apply secure_info_public.
  destruct (alive m2 l); [apply Hg|done].
Qed.


(** The ids of the sessions have their sixteen bytes. *)
Definition ids_ok (m : SessionManager) : Prop :=
  forall id l s, table session_hash m id = Some (l, s) -> bytes_ok id /\ zlen id = SESSION_ID_SIZE.

Lemma ids_ok_check m :
  forallb (fun sh => forallb (fun p => bool_decide (bytes_ok p.1) &&
    bool_decide (zlen p.1 = SESSION_ID_SIZE)) (map_to_list sh)) (sm_sessions m) = true -> ids_ok m.
Proof.
  intros Hall id l s [Hs _]%table_session. unfold session, shard in Hs.
  destruct (sm_sessions m !! session_slot session_hash id) as [sh|] eqn:E;
    cbn [default] in Hs; [|by rewrite lookup_empty in Hs].
  apply list_elem_of_lookup_2, list_elem_of_In in E. rewrite forallb_forall in Hall.
  specialize (Hall _ E). rewrite forallb_forall in Hall.
  apply elem_of_map_to_list, list_elem_of_In in Hs. specialize (Hall _ Hs). by b2p.
Qed.

(** What is listed for an operator is a session of the table. *)
Lemma listed_session now pre m nodes n infos info :
  SessionManager.sm_inv session_hash m -> sm_held m = ∅ ->
  nodes_list_prefix now pre true m = Ret (HttpOk (BodyNodes nodes)) ->
  nodes !! n = Some infos -> Some info ∈ infos ->
  exists id l s, table session_hash m id = Some (l, s) /\ s_session_id s = id /\
    SessionInfo_from_ref now (Some s) = Some info.
Proof.
  intros Hm Hh Hr Hn Hi. unfold nodes_list_prefix in Hr.
  destruct (Selector_from_str 20 pre) as [[sel|]|]; simplify_eq/=.
  apply elem_of_list_to_map_2, list_elem_of_fmap in Hn as ([n' ls] & [= -> ->] & _).
  apply list_elem_of_fmap in Hi as (l & Hl & _).
  destruct (alive m l) eqn:Ea; [|done].
  destruct (alive_session session_hash m l Hm Ea) as [Hx|[id Hid]]; [by rewrite Hh in Hx|].
  destruct (session_placed session_hash m id l Hm Hid) as (s & Hs & <-).
  exists (s_session_id s), l, s. rewrite table_session, Hs in *. done.
Qed.

Lemma operator_listing env reply later peer pre nodes m :
  is_loopback (sa_ip peer) = true ->
  web_handle (e_now env) reply later {| hq_peer_addr := Some peer; hq_route := GetNodes pre |} m =
    Ret (Respond (HttpOk (BodyNodes nodes))) ->
  nodes_list_prefix (e_now env) pre true m = Ret (HttpOk (BodyNodes nodes)).
Proof.
  intros Hp. unfold web_handle, Authorization_from_request. simpl. rewrite Hp.
  destruct (nodes_list_prefix _ _ _ _); simpl; congruence.
Qed.

Lemma drop_session env id l s sv :
  SessionManager.sm_inv session_hash (sv_sessions sv) -> table session_hash (sv_sessions sv) id = Some (l, s) ->
  let sv' := control_command session_hash cf env (DropSession id false) sv in
  (forall id', find_session session_hash id' sv' =
     if decide (id = id') then None else find_session session_hash id' sv) /\
  sv_sent sv' = sv_sent sv ++
    [(s_peer s, DgPacket (Packet_control id (CtDisconnected (Some (BySessionId id)))))].
Proof.
  intros Hm Ht. pose proof Ht as [Hs Hg]%table_session. unfold session in Hs. simpl. rewrite Hs. simpl.
  change (get (set_shard _ _ _ _) l) with (get (sv_sessions sv) l). rewrite Hg. simpl.
  split; [|done]. intros id'. by apply table_delete.
Qed.

(** C31: the ids an operator is shown name the sessions they belong to.  For
    every session that a request from a loopback address lists, asking for the
    session by the id shown gives the same information, and deleting it by this
    id ends this session and no other, and tells its peer. *)
Theorem web_operator `{!HexLaws} env reply later peer pre nodes n infos info sv :
  is_loopback (sa_ip peer) = true ->
  SessionManager.sm_inv session_hash (sv_sessions sv) -> ids_ok (sv_sessions sv) ->
  sm_held (sv_sessions sv) = ∅ ->
  web_handle (e_now env) reply later
    {| hq_peer_addr := Some peer; hq_route := GetNodes pre |} (sv_sessions sv) =
    Ret (Respond (HttpOk (BodyNodes nodes))) ->
  nodes !! n = Some infos -> Some info ∈ infos ->
  web_handle (e_now env) reply later
    {| hq_peer_addr := Some peer; hq_route := GetSession (si_session_id info) |} (sv_sessions sv) =
    Ret (Respond (HttpOk (BodySession (Some info)))) /\
  exists id sv',
    SessionId_to_string id = si_session_id info /\
    web_step env reply later
      {| hq_peer_addr := Some peer; hq_route := DeleteSession (si_session_id info) |} sv = Ret sv' /\
    is_Some (find_session session_hash id sv) /\
    (forall id', find_session session_hash id' sv' =
       if decide (id = id') then None else find_session session_hash id' sv) /\
    sv_sent sv' = sv_sent sv ++
      [(si_peer info, DgPacket (Packet_control id (CtDisconnected (Some (BySessionId id)))))].
Proof.
  intros Hp Hm Hids Hh Hr Hn Hi. apply operator_listing in Hr; [|done].
  destruct (listed_session _ _ _ _ _ _ _ Hm Hh Hr Hn Hi) as (id & l & s & Ht & <- & Hinfo).
  destruct (Hids _ _ _ Ht) as [Hb Hl].
  assert (si_session_id info = SessionId_to_string (s_session_id s) /\ si_peer info = s_peer s)
    as [-> ->] by by injection Hinfo as <-.
  unfold web_step, web_handle, Authorization_from_request, session_get, session_remove.
  cbn [hq_route hq_peer_addr fmap option_fmap option_map default]. rewrite Hp.
  rewrite session_id_text by done. split; [by rewrite Ht; simpl fmap; rewrite Hinfo|].
  destruct (drop_session env _ _ _ _ Hm Ht) as [Hf Hs].
  eexists _, _. split_and!; [done|done| |exact Hf|exact Hs]. unfold find_session. by rewrite Ht.
Qed.
End Ui.

(** ** Examples *)

Module ToyUi.
Import ToyCrypto ToyIp ToySessions.

#[export] Instance toy_hex : Hex := {
  hex_decode_to_slice s n :=
    match hex_pairs (String.list_ascii_of_string s) with
    | Some bytes => if zlen bytes =? n then Some bytes else None
    | None => None
    end }.

#[export] Instance toy_hex_laws : HexLaws.
Proof. done. Qed.

#[export] Instance toy_text : WebText := {
  sock_to_string _ := "address"; node_id_to_string := SessionId_to_string;
  u64_to_string _ := "number"; duration_debug d := if d <? SECOND then "now" else "a while" }.

Definition local_peer : SocketAddr := {| sa_ip := IpV4 (127 * 2 ^ 24 + 1); sa_port := 5000 |}.
Definition far_peer : SocketAddr := {| sa_ip := IpV4 (8 * 2 ^ 24); sa_port := 5000 |}.

Definition toy_web (peer : SocketAddr) (route : WebRoute) (m : SessionManager) : outcome WebAction :=
  web_handle toy_slot toy_config (720 * SECOND) 0 []
    {| hq_peer_addr := Some peer; hq_route := route |} m.

(** The first session with another id and encryption. *)
Definition other_manager : SessionManager :=
  update toy_manager 0 (fun s =>
    {| s_session_id := replicate 16 9; s_peer := s_peer s; s_ts := s_ts s; s_node_id := s_node_id s;
       s_keys := s_keys s; s_supported_encryptions := ["secret"];
       s_addr_status := s_addr_status s; s_session_key := s_session_key s |}).


Definition listed : gmap NodeId (list (option SessionInfo)) :=
  match toy_web local_peer (GetNodes "all") toy_manager with
  | Ret (Respond (HttpOk (BodyNodes nodes))) => nodes
  | _ => ∅
  end.

Definition toy_info : SessionInfo :=
  {| si_session_id := SessionId_to_string (replicate 16 2); si_peer := toy_peer 2;
     si_seen := "a while"; si_supported_encryptions := []; si_addr_status := "Unknown" |}.

Lemma web_operator_witness :
  toy_web local_peer (GetSession (SessionId_to_string (replicate 16 2))) toy_manager =
    Ret (Respond (HttpOk (BodySession (Some toy_info)))) /\
  exists id sv', web_step toy_slot toy_config (toy_env 720) 0 []
      {| hq_peer_addr := Some local_peer;
         hq_route := DeleteSession (SessionId_to_string (replicate 16 2)) |} toy_server = Ret sv' /\
    find_session toy_slot id sv' = None.
Proof.
  destruct (web_operator toy_slot toy_config (toy_env 720) 0 [] local_peer "all" listed
    (replicate 20 2) [Some toy_info] toy_info toy_server) as [Hg (id & sv' & _ & Hd & _ & Hf & _)].
  - reflexivity.
  - apply inv_run_ops, inv_new.
  - apply ids_ok_check. vm_compute. reflexivity.
  - reflexivity.
  - vm_compute. reflexivity.
  - vm_compute. reflexivity.
  - apply list_elem_of_here.
  - split; [exact Hg|]. exists id, sv'. split; [exact Hd|]. rewrite Hf. by destruct (decide _).
Defined.
End ToyUi.
