(* ===== verification/UdpServer.v ===== *)
(** [server/src/udp_server.rs] and [udp_server/socket.rs]: the sockets of the relay
    server and the workers that read from them.

    System calls are arguments: what [recvmsg] gives, and which calls fail.  A worker
    runs its loop and the tasks it has spawned on one thread; it is a state with one
    operation for each stretch between two waits. *)

From S2P Require Import Prelude Payload Proto Codec Challenge NodeInfo ServerState.
From S2P Require Import SessionManager SlotManager ServerCore IpChecker Handlers Server ToyServer.

(** ** Sockets *)

Record UdpSocketConfig : Type := {
  us_min_recv_buffer : option Z;
  us_min_send_buffer : option Z;
  us_bind_multi : bool;
  us_recv_err : bool }.

Definition UdpSocketConfig_new : UdpSocketConfig :=
  {| us_min_recv_buffer := None; us_min_send_buffer := None; us_bind_multi := false;
     us_recv_err := false |}.

Inductive SockOpt : Type :=
| SoReusePort
| SoReuseAddr
| IpRecvErr
| SoRcvBuf (size : Z)
| SoSndBuf (size : Z).

(** [bind] on Linux: the options it sets, in order; [None] for an address that is not
    of IPv4. *)
Definition bind (c : UdpSocketConfig) (bind_addr : SocketAddr) : option (list SockOpt) :=
  match sa_ip bind_addr with
  | IpV6 _ => None
  | IpV4 _ =>
      Some ((if us_bind_multi c then [SoReusePort]
             else if negb (sa_port bind_addr =? 0) then [SoReuseAddr] else []) ++
            (if us_recv_err c then [IpRecvErr] else []) ++
            match us_min_recv_buffer c with Some size => [SoRcvBuf size] | None => [] end ++
            match us_min_send_buffer c with Some size => [SoSndBuf size] | None => [] end)
  end.

(** The socket of a worker. *)
Definition worker_socket : UdpSocketConfig :=
  {| us_min_recv_buffer := Some (4 * 1024 * 1024); us_min_send_buffer := None;
     us_bind_multi := true; us_recv_err := true |}.

(** *** Received messages *)

(** [sock_extended_err], and a control message that may carry one. *)
Record SockExtendedErr : Type := { ee_origin : Z; ee_type : Z; ee_code : Z }.

Record ControlMsg : Type := {
  cmsg_level : Z;
  cmsg_type : Z;
  cmsg_data : option SockExtendedErr }.

Definition SOL_IP : Z := 0.
Definition IP_RECVERR : Z := 11.
Definition SO_EE_ORIGIN_ICMP : Z := 2.
Definition DEST_UNREACH : Z := 3.
Definition MSG_ERRQUEUE : Z := 0x2000.

Definition decode_reason (code : Z) : UnreachableReason :=
  if code =? 0 then NetworkUnreachable
  else if code =? 1 then HostUnreachable
  else if code =? 2 then ProtocolUnreachable
  else if code =? 3 then PortUnreachable
  else OtherUnreachable code.

(** The loop over the control messages. *)
Fixpoint decode_error (msgs : list ControlMsg) : option PacketType :=
  match msgs with
  | [] => None
  | hdr :: msgs =>
      match (if (cmsg_level hdr =? SOL_IP) && (cmsg_type hdr =? IP_RECVERR) then cmsg_data hdr else None) with
      | Some err =>
          if (ee_origin err =? SO_EE_ORIGIN_ICMP) && (ee_type err =? DEST_UNREACH)
          then Some (PtUnreachable (decode_reason (ee_code err)))
          else decode_error msgs
      | None => decode_error msgs
      end
  end.

(** What [recvmsg] gives when it succeeds. *)
Record RecvMsg : Type := {
  rm_data : list Z;
  rm_addr : SocketAddr;
  rm_flags : Z;
  rm_control : list ControlMsg }.

Definition msg_type (m : RecvMsg) : PacketType :=
  if Z.land (rm_flags m) MSG_ERRQUEUE =? MSG_ERRQUEUE
  then default PtOther (decode_error (rm_control m))
  else PtData.

(** [recv_any], from the results of the call and of that on the error queue: the
    buffer, with at most its spare room filled, the address and the type; [None] is
    an error. *)
Definition recv_any (buffer : list Z) (spare : Z) (received errors : option RecvMsg)
  : option (list Z * SocketAddr * PacketType) :=
  match (match received with Some m => Some m | None => errors end) with
  | None => None
  | Some m => Some (buffer ++ ztake spare (rm_data m), rm_addr m, msg_type m)
  end.

(** ** Workers *)

Record UdpServerBuilder : Type := {
  ub_workers : nat;
  ub_max_tasks_per_worker : nat;
  ub_max_packet_size : Z }.

Definition UdpServerBuilder_new : UdpServerBuilder :=
  {| ub_workers := 8; ub_max_tasks_per_worker := 32; ub_max_packet_size := 0x8000 |}.

(** [start]: whether each socket can be bound, and what the workers report, in the
    order in which the reports come.  The number of workers, or the first error. *)
Fixpoint first_error {E} (l : list (option E)) : option E :=
  match l with
  | [] => None
  | Some e :: _ => Some e
  | None :: l => first_error l
  end.

Definition start_workers {E} (b : UdpServerBuilder) (binds reports : list (option E)) : result nat E :=
  match first_error (take (ub_workers b) binds) with
  | Some e => Err e
  | None =>
      match first_error (take (ub_workers b) reports) with
      | Some e => Err e
      | None => Ok (ub_workers b)
      end
  end.

Section Worker.
Context `{Hashes} `{EthSign} `{IpText} `{Semver} `{Keccak} `{Prost Packet}.
Context `{!CacheOps SocketAddr (Z * bool)} `{!CacheOps SessionId Z}.
Context (session_hash : SessionId -> Z) (cf : ServerConfig).

(** The server the handlers work on, the buffer, the free permits of the semaphore,
    whether the loop holds one, the tasks that each hold one, and whether the loop
    has panicked. *)
Record Worker : Type := {
  wk_server : ServerCore.Server;
  wk_buf : list Z;
  wk_permits : nat;
  wk_held : bool;
  wk_tasks : nat;
  wk_crashed : bool }.

Definition Worker_new (b : UdpServerBuilder) (sv : ServerCore.Server) : Worker :=
  {| wk_server := sv; wk_buf := []; wk_permits := ub_max_tasks_per_worker b; wk_held := false;
     wk_tasks := 0; wk_crashed := false |}.

(** [acquire_owned]; [None] while there is no permit. *)
Definition acquire (w : Worker) : option Worker :=
  match wk_permits w with
  | O => None
  | S permits =>
      if wk_held w || wk_crashed w then None
      else Some {| wk_server := wk_server w; wk_buf := wk_buf w; wk_permits := permits;
                   wk_held := true; wk_tasks := wk_tasks w; wk_crashed := false |}
  end.

(** The rest of the loop, once [recv_any] has returned: after an error the permit is
    dropped, otherwise the datagram is handled and the permit goes to the task that
    sends the answer. *)
Definition on_received (env : Env) (r : option (list Z * SocketAddr * PacketType)) (w : Worker) : Worker :=
  match r with
  | None =>
      {| wk_server := wk_server w; wk_buf := wk_buf w; wk_permits := S (wk_permits w);
         wk_held := false; wk_tasks := wk_tasks w; wk_crashed := wk_crashed w |}
  | Some (packet, src, pt) =>
      match worker session_hash cf env pt src packet (wk_server w) with
      | Panic =>
          {| wk_server := wk_server w; wk_buf := []; wk_permits := S (wk_permits w);
             wk_held := false; wk_tasks := wk_tasks w; wk_crashed := true |}
      | Ret sv =>
          {| wk_server := sv; wk_buf := []; wk_permits := wk_permits w;
             wk_held := false; wk_tasks := S (wk_tasks w); wk_crashed := wk_crashed w |}
      end
  end.

(** A task ends. *)
Definition task_done (w : Worker) : Worker :=
  match wk_tasks w with
  | O => w
  | S tasks =>
      {| wk_server := wk_server w; wk_buf := wk_buf w; wk_permits := S (wk_permits w);
         wk_held := wk_held w; wk_tasks := tasks; wk_crashed := wk_crashed w |}
  end.
End Worker.

(** ** Service *)

Section Service.
Context `{Hashes} `{EthSign} `{IpText} `{Semver} `{Keccak} `{ProstKeyLaws Packet}.
Context `{!CacheOps SocketAddr (Z * bool)} `{!CacheOps SessionId Z}.
Context (session_hash : SessionId -> Z) (cf : ServerConfig) (b : UdpServerBuilder).

(** What happens to the server: a datagram comes to this worker, or the other tasks
    and workers do something. *)
Inductive Happening : Type :=
| Arrived (env : Env) (m : RecvMsg)
| Meanwhile (ev : Event).

Definition handle_happening (h : Happening) (sv : ServerCore.Server) : outcome ServerCore.Server :=
  match h with
  | Arrived env m => worker session_hash cf env (msg_type m) (rm_addr m) (rm_data m) sv
  | Meanwhile ev => server_step session_hash cf ev sv
  end.

Fixpoint handle_all (hs : list Happening) (sv : ServerCore.Server) : outcome ServerCore.Server :=
  match hs with
  | [] => Ret sv
  | h :: hs => let! sv := handle_happening h sv in handle_all hs sv
  end.

Definition with_server (w : Worker) (sv : ServerCore.Server) : Worker :=
  {| wk_server := sv; wk_buf := wk_buf w; wk_permits := wk_permits w; wk_held := wk_held w;
     wk_tasks := wk_tasks w; wk_crashed := wk_crashed w |}.

(** The datagrams that come are bytes, and not longer than the room that is reserved
    for them; the clock of the system shows a time after the first twenty minutes of
    1970. *)
Definition fits (env : Env) (m : RecvMsg) : Prop :=
  bytes_ok (rm_data m) /\ zlen (rm_data m) <= ub_max_packet_size b /\ 2 <= epoch env.

(** The loop waits for a permit, waits for a datagram, gets one or an error; tasks
    end; the server goes on.  The room in the buffer is what was reserved, or more. *)
Inductive worker_run (w0 : Worker) : list Happening -> Worker -> Prop :=
| run_start : worker_run w0 [] w0
| run_acquire hs w w' : worker_run w0 hs w -> acquire w = Some w' -> worker_run w0 hs w'
| run_datagram hs w env m spare received errors :
    worker_run w0 hs w -> wk_held w = true -> ub_max_packet_size b <= spare ->
    received = Some m \/ received = None /\ errors = Some m -> fits env m ->
    worker_run w0 (hs ++ [Arrived env m])
      (on_received session_hash cf env (recv_any (wk_buf w) spare received errors) w)
| run_error hs w env spare : worker_run w0 hs w -> wk_held w = true ->
    worker_run w0 hs (on_received session_hash cf env (recv_any (wk_buf w) spare None None) w)
| run_done hs w : worker_run w0 hs w -> worker_run w0 hs (task_done w)
| run_meanwhile hs w ev sv : worker_run w0 hs w -> server_step session_hash cf ev (wk_server w) = Ret sv ->
    worker_run w0 (hs ++ [Meanwhile ev]) (with_server w sv).

Lemma handle_all_snoc hs h sv :
  handle_all (hs ++ [h]) sv = let! sv := handle_all hs sv in handle_happening h sv.
Proof.
  revert sv. induction hs as [|h' hs IH]; intros sv; simpl.
  - by destruct (handle_happening h sv).
  - destruct (handle_happening h' sv); [apply IH|done].
Qed.

(** ** No datagram stops a worker *)

Lemma check_epochs_returns id addr e ns : (forall n, n ∈ ns -> n <= e) ->
  exists r, check_epochs cf id addr e ns = Ret r.
Proof.
  induction ns as [|n ns IH]; intros Hns; simpl; [eauto|].
  assert (n <= e) by (apply Hns; by left).
  destruct (Z.ltb_spec (e - n) 0); [lia|]. case_match; [eauto|]. apply IH. intros m Hm. apply Hns. by right.
Qed.

Lemma session_handle_returns env src rid id req sv : 2 <= epoch env ->
  exists r, session_handle session_hash cf env src rid id req sv = Ret r.
Proof.
  intros He. unfold session_handle, check_session_id.
  destruct id as [id|]; [|repeat case_match; eauto].
  destruct (check_epochs_returns id src (epoch env) [0; 1; 2]) as [v ->].
  { intros n. rewrite !elem_of_cons, elem_of_nil. lia. }
  simpl. repeat case_match; eauto.
Qed.

Lemma worker_returns env pt src data sv : bytes_ok data -> 2 <= epoch env ->
  exists sv', worker session_hash cf env pt src data sv = Ret sv'.
Proof.
  intros Hb He. unfold worker. destruct (datagram_decode_returns data Hb) as (r & rest & ->). simpl.
  destruct r as [[p|]|]; eauto. unfold serve.
  assert (exists r, dispatch session_hash cf env pt src p sv = Ret r) as [[r sv'] ->]; [|simpl; eauto].
  unfold dispatch, dispatch_request. repeat case_match; eauto using session_handle_returns.
Qed.

Record worker_ok (sv0 : ServerCore.Server) (hs : list Happening) (w : Worker) : Prop := {
  wo_alive : wk_crashed w = false;
  wo_buf : wk_buf w = [];
  wo_permits : (wk_permits w + wk_tasks w + (if wk_held w then 1 else 0) = ub_max_tasks_per_worker b)%nat;
  wo_server : handle_all hs sv0 = Ret (wk_server w) }.

Lemma worker_run_ok sv0 hs w : worker_run (Worker_new b sv0) hs w -> worker_ok sv0 hs w.
Proof.
  induction 1 as [|hs w w' _ [Ha Hb Hp Hs] Hq|hs w env m spare received errors _ [Ha Hb Hp Hs] Hh Hsp Hr Hf
                  |hs w env spare _ [Ha Hb Hp Hs] Hh|hs w _ [Ha Hb Hp Hs]|hs w ev sv _ [Ha Hb Hp Hs] Hev].
  - split; simpl; [done..|lia|done].
  - unfold acquire in Hq. destruct (wk_permits w) eqn:E; [done|]. rewrite Ha in Hq.
    destruct (wk_held w); [done|]. injection Hq as <-. split; simpl; [done..|lia|done].
  - destruct Hf as (Hbytes & Hlen & He).
    assert (recv_any (wk_buf w) spare received errors = Some (rm_data m, rm_addr m, msg_type m)) as ->.
    { unfold recv_any. rewrite Hb. destruct Hr as [->|[-> ->]]; simpl; by rewrite ztake_all by lia. }
    simpl. destruct (worker_returns env (msg_type m) (rm_addr m) (rm_data m) (wk_server w) Hbytes He) as [sv Hw].
    rewrite Hw, Hh in *. split; simpl; [done..|lia|]. rewrite handle_all_snoc, Hs. simpl. by rewrite Hw.
  - rewrite Hh in Hp. split; simpl; [done..|lia|done].
  - unfold task_done. destruct (wk_tasks w) eqn:E; [by split; rewrite ?E|]. split; simpl; [done..|lia|done].
  - split; simpl; [done..|]. rewrite handle_all_snoc, Hs. simpl. by rewrite Hev.
Qed.

End Service.

(** ** A run *)

Import ToyCrypto ToyIp ToySessions RawProst.

(** Packets whose only encoding is that of a ping of node 1. *)
#[local] Instance toy_packets : Prost Packet := {
  encode_key := encode_key (P := list Z);
  decode_key := decode_key (P := list Z);
  encode_varint := encode_varint (P := list Z);
  msg_encode _ := [26];
  msg_decode bytes :=
    if bool_decide (bytes = [26]) then
      Some {| pkt_session_id := replicate 16 1;
              pkt_kind := Some (PkRequest {| rq_request_id := 9; rq_kind := Some RqPing |}) |}
    else None }.

#[local] Instance toy_packets_laws : ProstKeyLaws Packet.
Proof.
  split; [exact (encode_key_short (P := list Z))|exact (decode_key_short (P := list Z))|
    exact (encode_varint_last (P := list Z))|exact (encode_varint_more (P := list Z))].
Qed.

Definition toy_builder : UdpServerBuilder :=
  {| ub_workers := 1; ub_max_tasks_per_worker := 1; ub_max_packet_size := 0x8000 |}.

Definition toy_datagram (data : list Z) : RecvMsg :=
  {| rm_data := data; rm_addr := toy_peer 1; rm_flags := 0; rm_control := [] |}.

(** A datagram that cannot be decoded, and a ping. *)
Definition toy_happenings : list Happening :=
  [Arrived (toy_env 720) (toy_datagram [10; 0; 0]); Arrived (toy_env 721) (toy_datagram [26])].

Lemma toy_receives hs w w1 env data : worker_run toy_slot toy_config toy_builder (Worker_new toy_builder toy_server) hs w ->
  acquire w = Some w1 -> wk_held w1 = true -> fits toy_builder env (toy_datagram data) ->
  worker_run toy_slot toy_config toy_builder (Worker_new toy_builder toy_server) (hs ++ [Arrived env (toy_datagram data)])
    (on_received toy_slot toy_config env (recv_any (wk_buf w1) 0x8000 (Some (toy_datagram data)) None) w1).
Proof.
  intros Hr Ha Hh Hf. apply run_datagram; [by eapply run_acquire|done|done|by left|done].
Qed.

