(* ===== verification/ServerProps.v ===== *)
(** Properties of the relay server as a whole: how sessions come and go, who
    may use them, and where datagrams are relayed to. *)

From S2P Require Import Prelude Payload Proto Codec Challenge NodeInfo ServerState.
From S2P Require Import SessionManager SessionNodes SlotManager.
From S2P Require Import ServerCore IpChecker Handlers Server ToyServer.

Create HintDb server.

Section Evolve.
Context `{Hashes} `{EthSign} `{IpText} `{Semver} `{Keccak}.
Context `{!CacheOps SocketAddr (Z * bool)} `{!CacheOps SessionId Z}.
Context (session_hash : SessionId -> Z) (cf : ServerConfig).

(** The part of a session that never changes. *)
Definition erase (s : Session) : Session := set_ts 0 (set_addr_status Unknown s).

Definition same_session (p p' : loc * Session) : Prop := p.1 = p'.1 /\ erase p.2 = erase p'.2.

(** No session is added or removed, and only time stamps and address states
    change. *)
Definition keeps (m m' : SessionManager) : Prop :=
  SessionManager.sm_inv session_hash m ->
  SessionManager.sm_inv session_hash m' /\
  forall id, option_Forall2 same_session (table session_hash m id) (table session_hash m' id).

Lemma keeps_refl m : keeps m m.
Proof.
  intros Hm. split; [done|]. intros id. destruct (table session_hash m id); by constructor.
Qed.

Lemma keeps_trans m1 m2 m3 : keeps m1 m2 -> keeps m2 m3 -> keeps m1 m3.
Proof.
  intros K1 K2 Hm. destruct (K1 Hm) as [Hm2 Ht1]. destruct (K2 Hm2) as [Hm3 Ht2].
  split; [done|]. intros id. specialize (Ht1 id). specialize (Ht2 id).
  destruct Ht1 as [p q Hpq|]; inversion_clear Ht2 as [? r Hqr|]; constructor.
  destruct Hpq, Hqr. split; congruence.
Qed.

Lemma keeps_ext m m' :
  sm_sessions m' = sm_sessions m -> sm_heap m' = sm_heap m ->
  (SessionManager.sm_inv session_hash m -> SessionManager.sm_inv session_hash m') ->
  keeps m m'.
Proof.
  intros K1 K2 K3 Hm. split; [by apply K3|]. intros id.
  rewrite (table_ext session_hash m m') by done.
  destruct (table session_hash m id); by constructor.
Qed.

Lemma keeps_update m l f :
  (forall s, erase (f s) = erase s) ->
  (forall s, s_session_id (f s) = s_session_id s) -> (forall s, s_keys (f s) = s_keys s) ->
  keeps m (update m l f).
Proof.
  intros Hf1 Hf2 Hf3 Hm. split; [by apply inv_update|]. intros id. rewrite table_update.
  destruct (table session_hash m id) as [[l' s]|]; constructor. unfold same_session, at_loc. simpl.
  destruct (Z.eqb_spec l' l); simpl; [|done]. by rewrite Hf1.
Qed.

Lemma keeps_link m l : keeps m (link_sessions m l).
Proof. apply keeps_ext; [apply link_same..|]. apply inv_link_sessions. Qed.

Lemma keeps_node_session m n : keeps m (node_session m n).2.
Proof. apply keeps_ext; [apply node_session_same..|]. apply inv_node_session. Qed.

Lemma keeps_neighbours m n count : keeps m (neighbours m n count).2.
Proof.
  rewrite neighbours_state. destruct (_ =? _); [apply keeps_node_session|apply keeps_refl].
Qed.

(** Of the server: the sessions are kept and slots are only added. *)
Definition evolve (sv sv' : Server) : Prop :=
  keeps (sv_sessions sv) (sv_sessions sv') /\
  sm_slots (sv_slots sv) `prefix_of` sm_slots (sv_slots sv').

Lemma evolve_refl sv : evolve sv sv.
Proof. split; [apply keeps_refl|done]. Qed.

Lemma evolve_trans sv1 sv2 sv3 : evolve sv1 sv2 -> evolve sv2 sv3 -> evolve sv1 sv3.
Proof.
  intros [K1 K2] [K3 K4]. split; [by eapply keeps_trans|by etransitivity].
Qed.

(** Sessions changed by a function that keeps them. *)
Lemma evolve_sessions sv sv0 f :
  (forall m, keeps m (f m)) -> evolve sv sv0 -> evolve sv (on_sessions f sv0).
Proof. intros Hf Hev. eapply evolve_trans; [done|]. split; [apply Hf|done]. Qed.

Lemma evolve_touch sv sv0 env l : evolve sv sv0 -> evolve sv (touch_session cf env l sv0).
Proof. apply evolve_sessions. intros m. by apply keeps_update. Qed.

Lemma evolve_status sv sv0 l st :
  evolve sv sv0 -> evolve sv (on_sessions (fun m => update m l (set_addr_status st)) sv0).
Proof. apply evolve_sessions. intros m. by apply keeps_update. Qed.

Lemma evolve_link sv sv0 l :
  evolve sv sv0 -> evolve sv (on_sessions (fun m => link_sessions m l) sv0).
Proof. apply evolve_sessions. intros m. apply keeps_link. Qed.

(** Fields other than the sessions and the slots. *)
Lemma evolve_other sv sv0 sv1 :
  sv_sessions sv1 = sv_sessions sv0 -> sv_slots sv1 = sv_slots sv0 ->
  evolve sv sv0 -> evolve sv sv1.
Proof. unfold evolve. by intros -> ->. Qed.

Lemma evolve_find_node sv sv0 n r sv1 :
  find_node n sv0 = (r, sv1) -> evolve sv sv0 -> evolve sv sv1.
Proof.
  unfold find_node. pose proof (keeps_node_session (sv_sessions sv0) n) as Hk.
  destruct (node_session (sv_sessions sv0) n) as [r0 m]. intros [= <- <-] Hev.
  eapply evolve_trans; [done|]. by split.
Qed.

Lemma slot_prefix sl n : sm_slots sl `prefix_of` sm_slots (SlotManager_slot sl n).2.
Proof. unfold SlotManager_slot. destruct (sm_nodes sl !! n); [done|]. simpl. by apply prefix_app_r. Qed.

Lemma evolve_slots sv sv0 n slot slots :
  SlotManager_slot (sv_slots sv0) n = (slot, slots) ->
  evolve sv sv0 -> evolve sv (with_slots slots sv0).
Proof.
  intros Hs Hev. eapply evolve_trans; [done|]. split; [apply keeps_refl|]. simpl.
  pose proof (slot_prefix (sv_slots sv0) n) as Hp. by rewrite Hs in Hp.
Qed.

Lemma evolve_node_info sv sv0 env s context pk r sv1 :
  to_node_info cf env s context pk sv0 = (r, sv1) -> evolve sv sv0 -> evolve sv sv1.
Proof.
  unfold to_node_info. intros Heq Hev.
  destruct (SlotManager_slot (sv_slots sv0) context) as [slot slots] eqn:E.
  assert (sv1 = with_slots slots sv0) as ->.
  { destruct pk; [destruct (s_session_key s) as [[? ?]|]|]; by simplify_eq. }
  by eapply evolve_slots.
Qed.
End Evolve.

#[export] Hint Resolve evolve_refl evolve_touch evolve_status evolve_link : server.
#[export] Hint Resolve evolve_find_node evolve_slots evolve_node_info : server.

(** Splits the matches of a handler, then the state it returns is built from
    steps that keep the sessions. *)
Ltac handler_cases :=
  repeat match goal with
  | |- context [match ?x with _ => _ end] =>
      lazymatch x with
      | context [match _ with _ => _ end] => fail
      | _ => destruct x eqn:?; simplify_eq/=
      end
  end.

Section Handlers.
Context `{Hashes} `{EthSign} `{IpText} `{Semver} `{Keccak}.
Context `{!CacheOps SocketAddr (Z * bool)} `{!CacheOps SessionId Z}.
Context (session_hash : SessionId -> Z) (cf : ServerConfig).

Abbreviation evolve := (evolve session_hash).

Lemma evolve_send sv sv0 a d : evolve sv sv0 -> evolve sv (send_to a d sv0).
Proof. by apply evolve_other. Qed.
Lemma evolve_request sv sv0 a id k : evolve sv sv0 -> evolve sv (send_request a id k sv0).
Proof. by apply evolve_other. Qed.
Lemma evolve_reply sv sv0 a d : evolve sv sv0 -> evolve sv (reply_control a d sv0).
Proof. by apply evolve_other. Qed.
Lemma evolve_ip_cache sv sv0 x : evolve sv sv0 -> evolve sv (with_ip_cache x sv0).
Proof. by apply evolve_other. Qed.
Lemma evolve_disconnect_cache sv sv0 x : evolve sv sv0 -> evolve sv (with_disconnect_cache x sv0).
Proof. by apply evolve_other. Qed.
Lemma evolve_queue sv sv0 x : evolve sv sv0 -> evolve sv (with_queue x sv0).
Proof. by apply evolve_other. Qed.
Lemma evolve_requests sv sv0 x : evolve sv sv0 -> evolve sv (with_requests x sv0).
Proof. by apply evolve_other. Qed.
Hint Resolve evolve_send evolve_request evolve_reply evolve_ip_cache : server.
Hint Resolve evolve_disconnect_cache evolve_queue evolve_requests : server.

Lemma ping_evolve env src request_id id sv :
  evolve sv (handle_ping session_hash cf env src request_id id sv).2.
Proof. unfold handle_ping, mark_session. handler_cases; eauto with server. Qed.

Lemma register_evolve env src request_id id sv :
  evolve sv (register_handle session_hash cf env src request_id id sv).2.
Proof.
  unfold register_handle, check_ip_status.
  destruct (find_session session_hash id sv) as [[l s]|]; [|simpl; eauto with server].
  destruct (cache_get _ src) as [[ts v]|]; [destruct (_ <? _)|]; simpl; auto with server.
Qed.

Lemma node_evolve env src request_id id n sv :
  evolve sv (node_handle session_hash cf env src request_id id n sv).2.
Proof. unfold node_handle. handler_cases; eauto with server. Qed.

Lemma slot_evolve env src request_id id n sv :
  evolve sv (slot_handle session_hash cf env src request_id id n sv).2.
Proof. unfold slot_handle. handler_cases; eauto with server. Qed.

Lemma node_infos_evolve sv env ls : forall sv0,
  evolve sv sv0 -> evolve sv (node_infos cf env ls sv0).2.
Proof.
  induction ls as [|l ls IH]; intros sv0 Hev; [done|]. simpl.
  destruct (get (sv_sessions sv0) l) as [s|]; [|by apply IH].
  destruct (to_node_info cf env s (s_node_id s) false sv0) as [node sv1] eqn:E.
  apply (evolve_node_info session_hash cf sv) in E; [|done].
  specialize (IH sv1 E). by destruct (node_infos cf env ls sv1).
Qed.

Lemma neighbours_evolve env src request_id id count sv :
  evolve sv (neighbours_handle session_hash cf env src request_id id count sv).2.
Proof.
  unfold neighbours_handle. destruct (find_session_of _ _ _ _) as [[l s]|]; [|simpl; eauto with server].
  pose proof (keeps_neighbours session_hash (sv_sessions sv) (s_node_id s) count) as Hk.
  destruct (neighbours (sv_sessions sv) (s_node_id s) count) as [ls m].
  pose proof (node_infos_evolve sv env ls (on_sessions (fun _ => m) sv)) as Hn.
  destruct (node_infos cf env ls (on_sessions (fun _ => m) sv)). apply Hn. by split.
Qed.

Lemma rc_evolve env src request_id id n sv :
  evolve sv (rc_handle session_hash cf env src request_id id n sv).2.
Proof. unfold rc_handle. handler_cases; eauto with server. Qed.

Lemma forward_evolve env src id slot flags payload sv :
  evolve sv (forward_handle session_hash cf env src id slot flags payload sv).2.
Proof. unfold forward_handle. handler_cases; eauto 8 with server. Qed.

Lemma resolve_evolve now req status sv sv0 :
  evolve sv sv0 -> evolve sv (resolve now req status sv0).
Proof.
  intros Hev. unfold resolve. destruct (cr_resolve req); [|auto with server].
  destruct (get _ _); auto with server.
Qed.

Lemma ping_job_evolve sv : evolve sv (ping_job sv).
Proof.
  unfold ping_job. destruct (sv_check_queue sv) as [|req rest]; [auto with server|].
  apply evolve_requests. unfold do_ping. destruct (upgrade _ _); auto with server.
Qed.

Lemma scan_requests_evolve now timeout sv reqs : forall sv0,
  evolve sv sv0 -> evolve sv (scan_requests now timeout reqs sv0).2.
Proof.
  induction reqs as [|req reqs IH]; intros sv0 Hev; [done|]. simpl.
  destruct (upgrade sv0 (cr_session req)); [|by apply IH].
  destruct (_ <? _); [by apply IH, resolve_evolve|].
  specialize (IH sv0 Hev). destruct (scan_requests now timeout reqs sv0) as [[kept pings] sv1].
  by destruct (_ <? _).
Qed.

Lemma scan_addrs_evolve now timeout sv entries : forall sv0,
  evolve sv sv0 -> evolve sv (scan_addrs now timeout entries sv0).2.
Proof.
  induction entries as [|[addr reqs] entries IH]; intros sv0 Hev; [done|]. simpl.
  pose proof (scan_requests_evolve now timeout sv reqs sv0 Hev) as Hs.
  destruct (scan_requests now timeout reqs sv0) as [[kept pings] sv1]. specialize (IH sv1 Hs).
  by destruct (scan_addrs now timeout entries sv1) as [[table pings'] sv2].
Qed.

Lemma send_pings_evolve now timeout sv : evolve sv (send_pings now timeout sv).
Proof.
  unfold send_pings.
  pose proof (scan_addrs_evolve now timeout sv (map_to_list (sv_requests sv)) sv
    (evolve_refl _ sv)) as Hs.
  destruct (scan_addrs _ _ _ _) as [[table pings] sv1]. simpl in Hs.
  assert (evolve sv (with_requests table sv1)) as Hev by auto with server.
  clear Hs. revert Hev. generalize (with_requests table sv1).
  induction pings as [|s pings IH]; intros sv2 Hev; [done|]. simpl. apply IH. auto with server.
Qed.

Lemma success_loop_evolve now id sv reqs : forall sv0,
  evolve sv sv0 -> evolve sv (success_loop now id reqs sv0).2.
Proof.
  induction reqs as [|req reqs IH]; intros sv0 Hev; [done|]. simpl.
  destruct (upgrade sv0 (cr_session req)); [|by apply IH].
  case_bool_decide; [by apply IH, resolve_evolve|].
  specialize (IH sv0 Hev). by destruct (success_loop now id reqs sv0).
Qed.

Lemma recv_job_evolve now pt peer packet sv : evolve sv (recv_job now pt peer packet sv).
Proof.
  unfold recv_job. destruct pt; [|unfold resolve_unreachable|auto with server].
  - destruct (pkt_kind packet) as [[?|[? ? [[]|]]|?]|]; auto with server.
    unfold resolve_success. destruct (SessionId_try_from _) as [id|]; [|auto with server].
    destruct (sv_requests sv !! peer) as [reqs|]; [|auto with server].
    pose proof (success_loop_evolve now id sv reqs sv (evolve_refl _ sv)) as Hs.
    destruct (success_loop now id reqs sv). auto with server.
  - destruct (sv_requests sv !! peer) as [reqs|]; [|auto with server].
    assert (evolve sv (with_requests (delete peer (sv_requests sv)) sv)) as Hev
      by auto with server.
    revert Hev. generalize (with_requests (delete peer (sv_requests sv)) sv).
    induction reqs as [|req reqs IH]; intros sv1 Hev; [done|]. simpl. apply IH.
    destruct (upgrade sv1 (cr_session req)); [by apply resolve_evolve|done].
Qed.
End Handlers.

Section Lifecycle.
Context `{Hashes} `{EthSign} `{IpText} `{Semver} `{Keccak}.
Context `{!CacheOps SocketAddr (Z * bool)} `{!CacheOps SessionId Z}.
Context (session_hash : SessionId -> Z) (cf : ServerConfig).

Abbreviation evolve := (evolve session_hash).
Abbreviation sm_inv := (SessionManager.sm_inv session_hash).
Abbreviation table_of sv id := (table session_hash (sv_sessions sv) id).

(** An accepted id was generated for the address in one of the last three
    epochs. *)
Lemma check_session_id_sound env id src :
  check_session_id cf env id src = Ret true ->
  exists n, 0 <= n < 3 /\ id = gen_new_challenge cf src (epoch env - n).
Proof.
  unfold check_session_id. cbn [check_epochs]. intros Hc.
  repeat (case_match_hyp Hc; [done|]; case_match_hyp Hc; [by b2p; eexists; split; [|done]; lia|]).
  done.
Qed.

(** A session is created by the answer to a challenge. *)
Definition created_by (ev : Event) (id : SessionId) (s : Session) : Prop :=
  exists env src wire request_id req resp,
    ev = EvDatagram env PtData src
           (KPacket {| pkt_session_id := wire;
                       pkt_kind := Some (PkRequest {| rq_request_id := request_id;
                                                      rq_kind := Some (RqSession req) |}) |}) /\
    SessionId_from_wire wire = Some (Some id) /\
    rqs_challenge_resp req = Some resp /\
    recover_identities_from_challenge_with_proof (session_challenge cf id) (cf_difficulty cf)
      (Some resp) None = Ok (s_node_id s, s_keys s, s_session_key s) /\
    (exists n, 0 <= n < 3 /\ id = gen_new_challenge cf src (epoch env - n)) /\
    s_session_id s = id /\ s_peer s = src /\ s_addr_status s = Unknown /\
    s_supported_encryptions s = rqs_supported_encryptions req.

(** The ways a session ends. *)
Definition removed_by (ev : Event) (id : SessionId) (s : Session) : Prop :=
  (exists env wire,
     ev = EvDatagram env PtData (s_peer s)
            (KPacket {| pkt_session_id := wire;
                        pkt_kind := Some (PkControl (Some (CtDisconnected
                                            (Some (BySessionId id))))) |}) /\
     SessionId_try_from wire = Some id) \/
  (exists env reason p,
     ev = EvDatagram env (PtUnreachable reason) (s_peer s) p /\
     300 * SECOND < AddrStatus_age (e_now env) (s_addr_status s)) \/
  (exists env silent, ev = EvControl env (DropSession id silent)) \/
  (exists env timeout,
     ev = EvCleanup env timeout /\ timeout < Clock_age (clock_of cf env) (s_ts s)).

(** What an event may do to a table entry. *)
Definition lifecycle (ev : Event) (sv sv' : Server) : Prop :=
  sm_inv (sv_sessions sv) ->
  sm_inv (sv_sessions sv') /\
  forall id,
    match table_of sv id, table_of sv' id with
    | None, None => True
    | None, Some (_, s) => created_by ev id s
    | Some (_, s), None => removed_by ev id s
    | Some p, Some p' => same_session p p'
    end.

Lemma lifecycle_evolve ev sv sv' : evolve sv sv' -> lifecycle ev sv sv'.
Proof.
  intros [Hk _] Hm. destruct (Hk Hm) as [Hm' Ht]. split; [done|]. intros id.
  specialize (Ht id). by destruct Ht as [[] []|].
Qed.

Lemma lifecycle_send ev sv sv' a d : lifecycle ev sv sv' -> lifecycle ev sv (send_to a d sv').
Proof. done. Qed.

(** Removing one id. *)
Lemma lifecycle_remove ev sv id :
  (forall l s, table_of sv id = Some (l, s) -> removed_by ev id s) ->
  lifecycle ev sv (on_sessions (fun m => set_shard session_hash m id
                     (delete id (shard session_hash m id))) sv).
Proof.
  intros Hr Hm. split; [by apply inv_delete|]. intros id'. simpl. rewrite table_delete by done.
  destruct (decide (id = id')) as [<-|].
  - destruct (table session_hash (sv_sessions sv) id) as [[l s]|]; [by eapply Hr|done].
  - destruct (table session_hash (sv_sessions sv) id') as [[]|]; done.
Qed.

Lemma lifecycle_unreachable env reason src p id sv :
  lifecycle (EvDatagram env (PtUnreachable reason) src p) sv (unreachable session_hash env src id sv).
Proof.
  unfold unreachable, find_session. destruct (table_of sv id) as [[l s]|] eqn:E;
    [|apply lifecycle_evolve, evolve_refl].
  destruct (bool_decide (s_peer s = src) && _) eqn:Ec; [|apply lifecycle_evolve, evolve_refl].
  apply andb_true_iff in Ec as [Hsrc%bool_decide_eq_true Hage%Z.ltb_lt].
  apply lifecycle_remove. intros l' s' Hs'. simplify_eq. right. left. eauto.
Qed.

Lemma lifecycle_session env src wire request_id id req sv r sv' :
  SessionId_from_wire wire = Some id ->
  session_handle session_hash cf env src request_id id req sv = Ret (r, sv') ->
  lifecycle (EvDatagram env PtData src
    (KPacket {| pkt_session_id := wire;
                pkt_kind := Some (PkRequest {| rq_request_id := request_id;
                                               rq_kind := Some (RqSession req) |}) |})) sv sv'.
Proof.
  intros Hw Hh. unfold session_handle in Hh.
  assert (sv' = sv -> lifecycle (EvDatagram env PtData src
    (KPacket {| pkt_session_id := wire; pkt_kind := Some (PkRequest {| rq_request_id := request_id;
                                               rq_kind := Some (RqSession req) |}) |})) sv sv') as Hid
    by (intros ->; apply lifecycle_evolve, evolve_refl).
  destruct id as [id|].
  2: { apply Hid. destruct (validate_client_version _ _); by simplify_eq/=. }
  destruct (rqs_challenge_resp req) as [resp|] eqn:Eresp; [|apply Hid; congruence].
  destruct (recover_identities_from_challenge_with_proof _ _ _ _) as [[[node_id keys] sk]|] eqn:Er;
    [|apply Hid; congruence].
  destruct (check_session_id cf env id src) as [valid|] eqn:Ec; simpl in Hh; [|done].
  destruct valid; simpl in Hh; [|apply Hid; congruence].
  destruct (session session_hash (sv_sessions sv) id) as [l|] eqn:Es.
  { apply Hid. unfold new_session, session in *. rewrite Es in Hh.
    repeat case_match; congruence. }
  intros Hm. pose proof (inv_new_session session_hash (sv_sessions sv) (clock_of cf env) id src
    node_id keys (rqs_supported_encryptions req) sk Hm) as Hm'.
  pose proof (fun id' => table_new session_hash (sv_sessions sv) (clock_of cf env) id src
    node_id keys (rqs_supported_encryptions req) sk id' Hm Es) as Ht.
  assert (exists m, new_session session_hash (sv_sessions sv) (clock_of cf env) id src
    node_id keys (rqs_supported_encryptions req) sk = (Ok (sm_next (sv_sessions sv)), m)) as [m Hn].
  { destruct (new_session_alloc session_hash (sv_sessions sv) (clock_of cf env) id src node_id keys
      (rqs_supported_encryptions req) sk Es) as (s & -> & _). eauto. }
  rewrite Hn in *. injection Hh as <- <-. simpl in *. split; [done|]. intros id'.
  rewrite Ht. destruct (decide (id = id')) as [<-|].
  - rewrite (proj2 (table_None session_hash _ id Hm) Es).
    exists env, src, wire, request_id, req, resp. apply check_session_id_sound in Ec. done.
  - by destruct (table session_hash (sv_sessions sv) id') as [[]|].
Qed.

Lemma lifecycle_request env src wire request_id id request sv r sv' :
  SessionId_from_wire wire = Some id ->
  dispatch_request session_hash cf env src request_id id request sv = Ret (r, sv') ->
  lifecycle (EvDatagram env PtData src
    (KPacket {| pkt_session_id := wire;
                pkt_kind := Some (PkRequest {| rq_request_id := request_id;
                                               rq_kind := Some request |}) |})) sv sv'.
Proof.
  intros Hw Hd. unfold dispatch_request in Hd.
  destruct request; [by eapply lifecycle_session|..];
    (destruct id as [id|]; [|simplify_eq; apply lifecycle_evolve, evolve_refl]);
    injection Hd as Hd; apply (f_equal snd) in Hd; simpl in Hd; subst sv';
    apply lifecycle_evolve.
  - apply register_evolve.
  - apply node_evolve.
  - apply slot_evolve.
  - apply neighbours_evolve.
  - apply rc_evolve.
  - apply ping_evolve.
Qed.

Lemma lifecycle_disconnect env src wire to_close sv :
  lifecycle (EvDatagram env PtData src
    (KPacket {| pkt_session_id := wire;
                pkt_kind := Some (PkControl (Some (CtDisconnected
                                    (Some (BySessionId to_close))))) |}))
    sv (disconnect session_hash src wire to_close sv).
Proof.
  unfold disconnect. destruct (SessionId_try_from wire) as [id|] eqn:Ew;
    [|apply lifecycle_evolve, evolve_refl].
  case_bool_decide as Hid; [|apply lifecycle_evolve, evolve_refl]. subst to_close.
  destruct (table_of sv id) as [[l s]|] eqn:Et.
  - destruct (decide (s_peer s = src)) as [<-|Hp].
    + pose proof Et as [Es Eg]%table_session. unfold session in Es.
      assert (on_sessions (fun m => (remove_session_from session_hash m id (s_peer s)).2) sv =
        on_sessions (fun m => set_shard session_hash m id
                       (delete id (shard session_hash m id))) sv) as ->.
      { unfold on_sessions. f_equal. unfold remove_session_from. rewrite Es, Eg.
        by rewrite bool_decide_eq_false_2 by naive_solver. }
      apply lifecycle_remove. intros l' s' Hs'. simplify_eq. left. eauto.
    + apply lifecycle_evolve. split; [|done]. simpl. unfold remove_session_from.
      apply table_session in Et as [Es Eg]. unfold session in Es. rewrite Es, Eg.
      rewrite bool_decide_eq_true_2 by done. apply keeps_refl.
  - intros Hm. apply table_None in Et; [|done]. revert Hm. apply lifecycle_evolve. split; [|done].
    simpl. unfold remove_session_from, session in *. rewrite Et. apply keeps_refl.
Qed.

Lemma lifecycle_dispatch env pt src p sv r sv' :
  dispatch session_hash cf env pt src p sv = Ret (r, sv') ->
  lifecycle (EvDatagram env pt src p) sv sv'.
Proof.
  intros Hd. unfold dispatch in Hd.
  assert (sv' = sv -> lifecycle (EvDatagram env pt src p) sv sv') as Hid
    by (intros ->; apply lifecycle_evolve, evolve_refl).
  destruct pt; [|destruct p as [[wire [[]|]]|f|]; simpl in Hd|apply Hid; congruence].
  - destruct p as [[wire [[rq|rs|ct]|]]|f|]; try (apply Hid; congruence).
    + destruct rq as [request_id [request|]]; [|apply Hid; congruence].
      destruct (SessionId_from_wire wire) as [id|] eqn:Ew; [|apply Hid; congruence].
      by eapply lifecycle_request.
    + destruct ct as [[| | | |[[]|]]|]; try (apply Hid; congruence).
      injection Hd as <- <-. apply lifecycle_disconnect.
    + injection Hd as Hd. apply (f_equal snd) in Hd. simpl in Hd. subst sv'.
      apply lifecycle_evolve, forward_evolve.
  - apply Hid; congruence.
  - apply Hid; congruence.
  - destruct kind as [[]|]; try (apply Hid; congruence).
    destruct (SessionId_try_from wire); [|apply Hid; congruence].
    injection Hd as <- <-. apply lifecycle_unreachable.
  - apply Hid; congruence.
  - injection Hd as <- <-. apply lifecycle_unreachable.
  - apply Hid; congruence.
Qed.

Lemma lifecycle_control env c sv :
  lifecycle (EvControl env c) sv (control_command session_hash cf env c sv).
Proof.
  destruct c as [id silent|id reply|mode].
  - assert (lifecycle (EvControl env (DropSession id silent)) sv
      (on_sessions (fun m => set_shard session_hash m id
                     (delete id (shard session_hash m id))) sv)) as Hl.
    { apply lifecycle_remove. intros l s _. right. right. left. eauto. }
    simpl. destruct (s_peer <$> _); [destruct silent|]; exact Hl.
  - apply lifecycle_evolve. simpl. destruct (find_session _ _ _) as [[]|];
      apply (evolve_other session_hash sv sv); try done; apply evolve_refl.
  - apply lifecycle_evolve. split; [|done]. apply keeps_ext; [done..|]. by intros [].
Qed.

Lemma lifecycle_cleanup env timeout sv :
  lifecycle (EvCleanup env timeout) sv (on_sessions (cleanup (clock_of cf env) timeout) sv).
Proof.
  intros Hm. split; [by apply inv_clean, inv_filter|]. intros id. simpl. rewrite table_cleanup by done.
  destruct (table session_hash (sv_sessions sv) id) as [[l s]|]; simpl; [|done].
  case_decide; [done|]. right. right. right. exists env, timeout. split; [done|lia].
Qed.

Lemma step_lifecycle ev sv sv' : server_step session_hash cf ev sv = Ret sv' -> lifecycle ev sv sv'.
Proof.
  intros Hs. destruct ev; simpl in Hs.
  - unfold serve in Hs. destruct (dispatch _ _ _ _ _ _ _) as [[r sv1]|] eqn:Ed; simpl in Hs; [|done].
    apply lifecycle_dispatch in Ed. destruct r; by injection Hs as <-.
  - injection Hs as <-. apply lifecycle_evolve, ping_job_evolve.
  - injection Hs as <-. apply lifecycle_evolve, send_pings_evolve.
  - injection Hs as <-. apply lifecycle_evolve, recv_job_evolve.
  - injection Hs as <-. apply lifecycle_control.
  - injection Hs as <-. apply lifecycle_cleanup.
Qed.

(** C1: the life of a session.  In every step of the server a session appears
    only by the answer to the challenge of its own id: the answer solves the
    challenge, carries signatures of all its keys, comes from the very address
    the id was generated for within the last three epochs, and becomes the
    endpoint of the session.  A session disappears only by a disconnect from its
    own endpoint, by a delivery failure at it more than five minutes after its
    address check, by the control interface, or by the cleanup after the
    timeout.  In between only its time stamp and address state change. *)
Theorem session_lifecycle ev sv sv' id :
  sm_inv (sv_sessions sv) ->
  server_step session_hash cf ev sv = Ret sv' ->
  sm_inv (sv_sessions sv') /\
  match table_of sv id, table_of sv' id with
  | None, None => True
  | None, Some (_, s) => created_by ev id s
  | Some (_, s), None => removed_by ev id s
  | Some p, Some p' => same_session p p'
  end.
Proof.
  intros Hm Hs. destruct (step_lifecycle _ _ _ Hs Hm) as [Hm' Ht]. split; [exact Hm'|exact (Ht id)].
Qed.
End Lifecycle.

Section Witness.
Import ToyCrypto ToyIp ToySessions ToyServer.

(** Session 1, last seen at second 0, is cleaned up at second 720. *)
Lemma session_lifecycle_witness :
  let ev := EvCleanup (toy_env 720) (600 * SECOND) in
  exists sv', server_step toy_slot toy_config ev toy_server = Ret sv' /\
    SessionManager.sm_inv toy_slot (sv_sessions sv') /\
    exists s, removed_by toy_config ev (replicate 16 1) s.
Proof.
  intros ev.
  set (sv' := on_sessions (cleanup (clock_of toy_config (toy_env 720)) (600 * SECOND)) toy_server).
  exists sv'. split; [reflexivity|].
  assert (SessionManager.sm_inv toy_slot (sv_sessions toy_server)) as Hm
    by (apply inv_run_ops, inv_new).
  assert (is_some (table toy_slot (sv_sessions toy_server) (replicate 16 1)) = true) as Hs
    by (vm_compute; reflexivity).
  assert (is_some (table toy_slot (sv_sessions sv') (replicate 16 1)) = false) as Hs'
    by (vm_compute; reflexivity).
  destruct (session_lifecycle toy_slot toy_config ev toy_server sv' (replicate 16 1) Hm eq_refl)
    as [Hm' Hl].
  split; [exact Hm'|]. clearbody sv'. revert Hl Hs Hs'.
  destruct (table toy_slot (sv_sessions toy_server) (replicate 16 1)) as [[l s]|]; [|discriminate].
  destruct (table toy_slot (sv_sessions sv') (replicate 16 1)); [discriminate|].
  intros Hl _ _. exists s. exact Hl.
Defined.
End Witness.
