(* ===== verification/ServerTypes.v ===== *)
(** The types of what the relay server holds and sends.

    The model represents every integer by [Z] and every byte string by a list of
    [Z].  This file gives the ranges of the Rust types as predicates, from the
    fields of the messages ([protobuf/ya_relay.proto]) to the state of the server,
    and shows that every task of the server keeps them. *)

From S2P Require Import Prelude Payload Proto Codec Challenge NodeInfo ServerState.
From S2P Require Import SessionManager SessionNodes SlotManager ServerCore IpChecker Handlers Server.
From S2P Require Import ToyServer ServerProps.

(** ** Messages *)

(** The values of a signed integer of [w] bits. *)
Definition in_signed (w x : Z) : Prop := - 2 ^ (w - 1) <= x < 2 ^ (w - 1).

Definition node_id_ok (n : NodeId) : Prop := zlen n = 20 /\ bytes_ok n.
Definition session_id_ok (id : SessionId) : Prop := zlen id = SESSION_ID_SIZE /\ bytes_ok id.

Definition ip_ok (ip : IpAddr) : Prop :=
  match ip with IpV4 a => in_width 32 a | IpV6 a => in_width 128 a end.
Definition sock_ok (a : SocketAddr) : Prop := ip_ok (sa_ip a) /\ in_width 16 (sa_port a).

Definition Endpoint_ok (e : Endpoint) : Prop := in_signed 32 (ep_protocol e) /\ in_width 32 (ep_port e).
Definition Identity_ok (i : Identity) : Prop := bytes_ok (id_public_key i) /\ bytes_ok (id_node_id i).

Definition ChallengeRequest_ok (c : ChallengeRequest) : Prop :=
  in_width 64 (cq_caps c) /\ in_signed 32 (cq_kind c) /\ in_width 64 (cq_difficulty c) /\
  bytes_ok (cq_challenge c).

Definition ChallengeResponse_ok (c : ChallengeResponse) : Prop :=
  bytes_ok (cs_solution c) /\ Forall bytes_ok (cs_signatures c) /\
  Forall bytes_ok (cs_session_sign c) /\ bytes_ok (cs_session_pub_key c).

Definition opt_ok {A} (P : A -> Prop) (o : option A) : Prop :=
  match o with Some a => P a | None => True end.

Definition request_Kind_ok (k : request_Kind) : Prop :=
  match k with
  | RqSession s =>
      opt_ok ChallengeRequest_ok (rqs_challenge_req s) /\
      opt_ok ChallengeResponse_ok (rqs_challenge_resp s) /\ Forall Identity_ok (rqs_identities s)
  | RqRegister endpoints => Forall Endpoint_ok endpoints
  | RqNode node_id _ => bytes_ok node_id
  | RqSlot slot _ => in_width 32 slot
  | RqNeighbours count _ => in_width 32 count
  | RqReverseConnection node_id => bytes_ok node_id
  | RqPing => True
  end.

Definition response_Node_ok (n : response_Node) : Prop :=
  Forall Identity_ok (rn_identities n) /\ Forall Endpoint_ok (rn_endpoints n) /\
  in_width 64 (rn_seen_ts n) /\ in_width 32 (rn_slot n) /\ bytes_ok (rn_session_pub_key n) /\
  bytes_ok (rn_session_key_proof n) /\ Forall bytes_ok (rn_session_key_proofs n).

Definition response_Kind_ok (k : response_Kind) : Prop :=
  match k with
  | RsSession s =>
      opt_ok ChallengeRequest_ok (rss_challenge_req s) /\
      opt_ok ChallengeResponse_ok (rss_challenge_resp s) /\ Forall Identity_ok (rss_identities s)
  | RsRegister endpoints => Forall Endpoint_ok endpoints
  | RsNode n => response_Node_ok n
  | RsNeighbours nodes => Forall response_Node_ok nodes
  | RsReverseConnection | RsPong => True
  end.

Definition control_Kind_ok (k : control_Kind) : Prop :=
  match k with
  | CtReverseConnection node_id endpoints => bytes_ok node_id /\ Forall Endpoint_ok endpoints
  | CtPauseForwarding slot | CtResumeForwarding slot => in_width 32 slot
  | CtStopForwarding slot code => in_width 32 slot /\ in_signed 32 code
  | CtDisconnected by_ =>
      opt_ok (fun b => match b with
                       | BySlot slot => in_width 32 slot
                       | ByNodeId id | BySessionId id => bytes_ok id
                       end) by_
  end.

Definition packet_Kind_ok (k : packet_Kind) : Prop :=
  match k with
  | PkRequest r => in_width 64 (rq_request_id r) /\ opt_ok request_Kind_ok (rq_kind r)
  | PkResponse r =>
      in_width 64 (rs_request_id r) /\ in_signed 32 (rs_code r) /\ opt_ok response_Kind_ok (rs_kind r)
  | PkControl k => opt_ok control_Kind_ok k
  end.

Definition Packet_ok (p : Packet) : Prop :=
  bytes_ok (pkt_session_id p) /\ opt_ok packet_Kind_ok (pkt_kind p).

Definition Datagram_ok (d : Datagram) : Prop :=
  match d with DgPacket p => Packet_ok p | DgForward f => Forward_wf f end.

Lemma StatusCode_ok c : in_signed 32 (StatusCode_to_i32 c).
Proof. destruct c; unfold in_signed; simpl; lia. Qed.

Lemma Packet_response_ok request_id session_id code kind :
  in_width 64 request_id -> bytes_ok session_id -> response_Kind_ok kind ->
  Packet_ok (Packet_response request_id session_id code kind).
Proof. intros Hr Hs Hk. split; [done|]. simpl. auto using StatusCode_ok. Qed.

Lemma NodeId_try_from_ok bytes n : bytes_ok bytes -> NodeId_try_from bytes = Some n -> node_id_ok n.
Proof. unfold NodeId_try_from. intros Hb Hn. case_match; simplify_eq. b2p. done. Qed.

Lemma SessionId_try_from_ok bytes id :
  bytes_ok bytes -> SessionId_try_from bytes = Some id -> session_id_ok id.
Proof. unfold SessionId_try_from. intros Hb Hn. case_match; simplify_eq. b2p. done. Qed.

(** The ranges that third-party functions return. *)
Class EthSignTypes `{EthSign} : Prop := {
  pk_bytes_ok pk : bytes_ok (pk_bytes pk);
  pk_address_ok pk : node_id_ok (pk_address pk) }.

Class KeccakTypes `{Keccak} : Prop := {
  keccak256_bytes m : bytes_ok m -> bytes_ok (keccak256 m) }.

(** ** The state of the server *)

Section Types.
Context `{Hashes} `{EthSign} `{IpText} `{Semver} `{Keccak}.
Context `{!CacheOps SocketAddr (Z * bool)} `{!CacheOps SessionId Z}.
Context (session_hash : SessionId -> Z) (cf : ServerConfig).

Definition NodeIdentity_ok (i : NodeIdentity) : Prop := node_id_ok (ni_node_id i).

Definition Session_ok (s : Session) : Prop :=
  session_id_ok (s_session_id s) /\ sock_ok (s_peer s) /\ in_width 32 (s_ts s) /\
  node_id_ok (s_node_id s) /\ Forall NodeIdentity_ok (s_keys s) /\
  opt_ok (fun k => map_Forall (fun _ proof => bytes_ok proof) k.2) (s_session_key s).

Definition sessions_ok (m : SessionManager) : Prop := map_Forall (fun _ s => Session_ok s) (sm_heap m).

Definition slots_ok (m : SlotManager) : Prop :=
  map_Forall (fun _ slot => in_width 32 slot) (sm_nodes m) /\ Forall node_id_ok (sm_slots m).

Definition Resolve_ok (r : Resolve) : Prop :=
  match r with ResolveRegister request_id => in_width 64 request_id | ResolveControl _ => True end.

Definition CheckIpRequest_ok (r : CheckIpRequest) : Prop :=
  sock_ok (cr_addr r) /\ in_width 64 (cr_retry_cnt r) /\ Resolve_ok (cr_resolve r).

Record Server_ok (sv : Server) : Prop := {
  ok_sessions : sessions_ok (sv_sessions sv);
  ok_slots : slots_ok (sv_slots sv);
  ok_queue : Forall CheckIpRequest_ok (sv_check_queue sv);
  ok_requests : map_Forall (fun a reqs => sock_ok a /\ Forall CheckIpRequest_ok reqs) (sv_requests sv);
  ok_request_id : in_width 64 (sv_request_id sv);
  ok_sent : Forall (fun p => sock_ok p.1 /\ Datagram_ok p.2) (sv_sent sv) }.

(** What the environment gives: the time since the start is not beyond the unix
    time, which fits the seconds of the system clock. *)
Definition Env_ok (env : Env) : Prop :=
  Z.max 0 (e_now env - cf_server_start cf) <= e_unix env < 2 ^ 63 * SECOND /\ bytes_ok (e_random env).

Definition Config_ok : Prop :=
  in_width 64 (cf_difficulty cf) /\ bytes_ok (cf_salt cf) /\ in_width 64 (cf_ip_check_retry_cnt cf).

Definition PacketKind_ok (p : PacketKind Packet) : Prop :=
  match p with
  | KPacket p => Packet_ok p
  | KForward f => Forward_wf f
  | KForwardCtd b => bytes_ok b
  end.

Definition Event_ok (ev : Event) : Prop :=
  match ev with
  | EvDatagram env _ src p => Env_ok env /\ sock_ok src /\ PacketKind_ok p
  | EvPingJob => True
  | EvSendPings env => Env_ok env
  | EvRecv env _ peer packet => Env_ok env /\ sock_ok peer /\ Packet_ok packet
  | EvControl env c =>
      Env_ok env /\ match c with
                    | DropSession id _ | CheckIp id _ => session_id_ok id
                    | SetMode _ => True
                    end
  | EvCleanup env _ => Env_ok env
  end.

(** ** Operations on the state *)

Lemma sessions_ok_heap m m' : sm_heap m' = sm_heap m -> sessions_ok m -> sessions_ok m'.
Proof. unfold sessions_ok. by intros ->. Qed.

Lemma sessions_ok_get m l s : sessions_ok m -> get m l = Some s -> Session_ok s.
Proof. intros Hm. apply Hm. Qed.

Lemma sessions_ok_table m id l s :
  sessions_ok m -> table session_hash m id = Some (l, s) -> Session_ok s.
Proof. intros Hm [_ Hg]%table_session. by eapply sessions_ok_get. Qed.

Lemma sessions_ok_update m l f :
  (forall s, Session_ok s -> Session_ok (f s)) -> sessions_ok m -> sessions_ok (update m l f).
Proof.
  intros Hf Hm l' s'. unfold update. simpl. rewrite lookup_alter_Some.
  intros [(<- & s & Hs & ->)|[_ Hs]]; [apply Hf|]; by eapply Hm.
Qed.

Lemma Session_ok_status st s : Session_ok s -> Session_ok (set_addr_status st s).
Proof. by destruct s. Qed.

Lemma Session_ok_ts clock s : in_width 32 (ck_ts clock) ->
  Session_ok s -> Session_ok (set_ts (Clock_last_seen clock) s).
Proof. destruct s. intros Hc (? & ? & ? & ? & ? & ?). by split_and!. Qed.

Lemma clock_ok env : in_width 32 (ck_ts (clock_of cf env)).
Proof. apply wrap_in_width. lia. Qed.

Lemma Session_endpoint_ok s e : Session_ok s -> Session_endpoint s = Some e -> Endpoint_ok e.
Proof.
  intros (_ & [_ Hp] & _). unfold Session_endpoint. destruct (s_addr_status s); intros [= <-].
  unfold in_width in Hp. split; simpl; unfold in_signed, in_width; lia.
Qed.

Lemma endpoint_list_ok s : Session_ok s ->
  Forall Endpoint_ok (match Session_endpoint s with Some e => [e] | None => [] end).
Proof.
  intros Hs. destruct (Session_endpoint s) as [e|] eqn:E; [|constructor].
  repeat constructor; by eapply Session_endpoint_ok.
Qed.

Lemma slots_ok_slot m n slot m' :
  SlotManager_slot m n = (slot, m') -> slots_ok m -> node_id_ok n ->
  in_width 32 slot /\ slots_ok m'.
Proof.
  intros Hs [Hm Hl] Hn. unfold SlotManager_slot in Hs.
  destruct (sm_nodes m !! n) as [i|] eqn:E; simplify_eq; [split; [by eapply Hm|done]|].
  split; [apply wrap_in_width; lia|]. split; simpl.
  - apply map_Forall_insert_2; [apply wrap_in_width; lia|done].
  - apply Forall_app. auto.
Qed.

Lemma Server_ok_sessions f sv :
  (sessions_ok (sv_sessions sv) -> sessions_ok (f (sv_sessions sv))) ->
  Server_ok sv -> Server_ok (on_sessions f sv).
Proof. intros Hf []. constructor; auto. Qed.

Lemma Server_ok_send a d sv :
  sock_ok a -> Datagram_ok d -> Server_ok sv -> Server_ok (send_to a d sv).
Proof. intros Ha Hd []. constructor; try done. apply Forall_app. auto. Qed.

Lemma Server_ok_request a id k sv :
  sock_ok a -> bytes_ok id -> request_Kind_ok k -> Server_ok sv -> Server_ok (send_request a id k sv).
Proof.
  intros Ha Hi Hk []. constructor; try done; simpl; [apply wrap_in_width; lia|].
  apply Forall_app. split; [done|]. apply Forall_singleton. by split_and!.
Qed.

Lemma Server_ok_touch env l sv : Server_ok sv -> Server_ok (touch_session cf env l sv).
Proof.
  apply Server_ok_sessions, sessions_ok_update. intros s. apply Session_ok_ts, clock_ok.
Qed.

Lemma Server_ok_status l st sv :
  Server_ok sv -> Server_ok (on_sessions (fun m => update m l (set_addr_status st)) sv).
Proof. apply Server_ok_sessions, sessions_ok_update. intros s. apply Session_ok_status. Qed.

Lemma Server_ok_link l sv : Server_ok sv -> Server_ok (on_sessions (fun m => link_sessions m l) sv).
Proof. apply Server_ok_sessions, sessions_ok_heap, link_same. Qed.

Lemma Server_ok_remove id sv :
  Server_ok sv -> Server_ok (on_sessions (fun m => (remove_session session_hash m id).2) sv).
Proof. apply Server_ok_sessions. by apply sessions_ok_heap. Qed.

Lemma Server_ok_slots n slot slots sv :
  SlotManager_slot (sv_slots sv) n = (slot, slots) -> node_id_ok n -> Server_ok sv ->
  in_width 32 slot /\ Server_ok (with_slots slots sv).
Proof.
  intros Hs Hn Hsv. pose proof Hsv as []. edestruct slots_ok_slot; [done..|]. by split.
Qed.

Lemma find_node_ok n r sv sv' :
  find_node n sv = (r, sv') -> Server_ok sv -> Server_ok sv' /\ opt_ok Session_ok r.
Proof.
  unfold find_node. pose proof (node_session_same (sv_sessions sv) n) as [_ Hh].
  destruct (node_session (sv_sessions sv) n) as [r0 m] eqn:E. intros [= <- <-] Hsv. simpl in Hh.
  assert (sessions_ok m) as Hm by (eapply sessions_ok_heap; [done|apply Hsv]). split.
  - by apply Server_ok_sessions.
  - destruct r0 as [l|]; [|done]. simpl. destruct (get m l) eqn:Eg; [|done]. by eapply sessions_ok_get.
Qed.

Lemma find_session_of_ok id src sv l s :
  find_session_of session_hash id src sv = Some (l, s) -> Server_ok sv -> Session_ok s.
Proof.
  unfold find_session_of, find_session. intros Hf Hsv. case_match; [|done]. case_match.
  case_match; simplify_eq. eapply sessions_ok_table; [apply Hsv|done].
Qed.

(** ** Handlers *)

Context `{!EthSignTypes} `{!KeccakLaws} `{!KeccakTypes} (Hcf : Config_ok).

(** A handler returns a reply and the server. *)
Definition handled (r : option Packet * Server) : Prop := opt_ok Packet_ok r.1 /\ Server_ok r.2.

Lemma Identities_ok s : Session_ok s -> Forall Identity_ok (map Identity_to_proto (s_keys s)).
Proof.
  intros (_ & _ & _ & _ & Hk & _). apply Forall_map. eapply Forall_impl; [exact Hk|].
  intros i [_ Hi]. split; [apply pk_bytes_ok|done].
Qed.

Lemma seen_ts_ok env s : Env_ok env -> Session_ok s ->
  in_width 64 (TsDecoder_decode (TsDecoder_new (cf_server_start cf) (e_now env) (e_unix env)) (s_ts s)).
Proof.
  intros [[Hl Hu] _] (_ & _ & Ht & _). unfold TsDecoder_decode, TsDecoder_new, in_width, SECOND in *.
  assert (0 <= (e_unix env - Z.max 0 (e_now env - cf_server_start cf)) / 1000000000 < 2 ^ 63) by
    (split; [apply Z.div_pos; lia|apply Z.div_lt_upper_bound; lia]). lia.
Qed.

Lemma proof_bytes_ok (proofs : gmap NodeId (list Z)) n :
  map_Forall (fun _ proof => bytes_ok proof) proofs -> bytes_ok (default [] (proofs !! n)).
Proof.
  intros Hp. destruct (proofs !! n) as [b|] eqn:E; [by eapply Hp|]. apply List.Forall_nil.
Qed.

Lemma to_node_info_ok env s context pk sv r sv' :
  to_node_info cf env s context pk sv = (r, sv') ->
  Env_ok env -> Session_ok s -> node_id_ok context -> Server_ok sv ->
  response_Node_ok r /\ Server_ok sv'.
Proof.
  unfold to_node_info. intros Hr He Hs Hc Hsv.
  destruct (SlotManager_slot (sv_slots sv) context) as [slot slots] eqn:E.
  destruct (Server_ok_slots _ _ _ _ E Hc Hsv) as [Hslot Hsv'].
  pose proof Hs as (_ & _ & _ & _ & _ & Hk).
  destruct pk; [destruct (s_session_key s) as [[key proofs]|]|]; simplify_eq; (split; [|done]).
  all: split_and!; simpl; try apply List.Forall_nil; try done;
    auto using Identities_ok, endpoint_list_ok, seen_ts_ok, pk_bytes_ok.
  - destruct (head (s_keys s)); [by apply proof_bytes_ok|apply List.Forall_nil].
  - apply Forall_map, Forall_true. intros i. by apply proof_bytes_ok.
Qed.

Lemma node_infos_ok env ls : forall sv r sv',
  node_infos cf env ls sv = (r, sv') -> Env_ok env -> Server_ok sv ->
  Forall response_Node_ok r /\ Server_ok sv'.
Proof.
  induction ls as [|l ls IH]; intros sv r sv' Hr He Hsv; simpl in Hr; [by simplify_eq|].
  destruct (get (sv_sessions sv) l) as [s|] eqn:Eg; [|by eapply IH].
  destruct (to_node_info cf env s (s_node_id s) false sv) as [node sv1] eqn:En.
  destruct (node_infos cf env ls sv1) as [nodes sv2] eqn:Ei. simplify_eq.
  assert (Session_ok s) as Hs by (eapply sessions_ok_get; [apply Hsv|done]).
  destruct (to_node_info_ok _ _ _ _ _ _ _ En He Hs) as [Hn Hsv1]; [by apply Hs|done|].
  destruct (IH _ _ _ Ei He Hsv1) as [Hns Hsv2]. auto.
Qed.

Lemma challenge_bytes_ok m : bytes_ok m -> bytes_ok (ztake 16 (keccak256 m)).
Proof. intros Hm. apply Forall_take. by apply keccak256_bytes. Qed.

Lemma session_challenge_ok id : bytes_ok id -> bytes_ok (session_challenge cf id).
Proof. intros Hi. apply challenge_bytes_ok, Forall_app. split; [done|apply Hcf]. Qed.

Lemma gen_new_challenge_ok addr t : session_id_ok (gen_new_challenge cf addr t).
Proof.
  split.
  - unfold gen_new_challenge, SESSION_ID_SIZE. rewrite zlen_ztake, keccak256_len by lia. done.
  - assert (forall n v, bytes_ok (ne_bytes n v)) as Hn by (intros; apply Forall_rev, be_bytes_ok).
    apply challenge_bytes_ok. unfold bytes_ok in *. rewrite !Forall_app.
    split_and!; try apply be_bytes_ok; try apply Hn; [|apply Hcf].
    destruct (sa_ip addr); apply be_bytes_ok.
Qed.

Lemma recovered_ok raw difficulty resp id ids key :
  recover_identities_from_challenge_with_proof raw difficulty (Some resp) None = Ok (id, ids, key) ->
  ChallengeResponse_ok resp ->
  node_id_ok id /\ Forall NodeIdentity_ok ids /\
  opt_ok (fun k => map_Forall (fun _ proof => bytes_ok proof) k.2) key.
Proof.
  intros Hr (_ & _ & Hsign & _). apply recover_proof_sound in Hr as (r & [= <-] & _ & Hf & Hh & _ & Hk).
  assert (Forall NodeIdentity_ok ids) as Hids.
  { apply Forall_lookup. intros i x Hx.
    destruct (Forall2_lookup_r _ _ _ _ _ Hf Hx) as (sig & _ & k & _ & ->). apply pk_address_ok. }
  split_and!; [|done|].
  - destruct ids as [|i ids]; [done|]. injection Hh as <-. by inversion Hids.
  - destruct key as [[pk proofs]|]; [|done]. destruct Hk as (_ & _ & _ & _ & Hk). intros n b Hb.
    destruct (Hk _ _ Hb) as (i & Hi & _). apply elem_of_zip_l in Hi.
    rewrite Forall_forall in Hsign. by apply Hsign.
Qed.

Lemma session_reply_ok request_id id code :
  in_width 64 request_id -> bytes_ok id -> opt_ok Packet_ok (session_reply request_id id code).
Proof. intros Hr Hi. apply Packet_response_ok; [done..|]. by split_and!; try apply List.Forall_nil. Qed.

Lemma new_session_ok env id src n keys encs sk sv r m :
  new_session session_hash (sv_sessions sv) (clock_of cf env) id src n keys encs sk = (r, m) ->
  session_id_ok id -> sock_ok src -> node_id_ok n -> Forall NodeIdentity_ok keys ->
  opt_ok (fun k => map_Forall (fun _ proof => bytes_ok proof) k.2) sk ->
  Server_ok sv -> Server_ok (on_sessions (fun _ => m) sv).
Proof.
  unfold new_session. intros Hn Hi Hs Hid Hk Hsk Hsv. apply Server_ok_sessions; [|done]. intros Hm.
  destruct (shard _ _ _ !! id); simplify_eq; [done|]. unfold sessions_ok. simpl.
  apply map_Forall_insert_2; [|done]. split_and!; try done; try apply Hi; try apply Hs; try apply Hid.
  all: apply clock_ok.
Qed.

Lemma session_handle_ok env src request_id id req sv r :
  session_handle session_hash cf env src request_id id req sv = Ret r ->
  Env_ok env -> sock_ok src -> in_width 64 request_id -> opt_ok session_id_ok id ->
  request_Kind_ok (RqSession req) -> Server_ok sv -> handled r.
Proof.
  unfold session_handle. intros Hr He Hs Hq Hid (_ & Hresp & _) Hsv. destruct id as [id|].
  - destruct (rqs_challenge_resp req) as [resp|]; [|by simplify_eq].
    destruct Hid as [Hl Hb].
    destruct (recover_identities_from_challenge_with_proof _ _ _ _) as [[[n ids] key]|] eqn:Er.
    2: { simplify_eq. split; [|done]. by split_and!. }
    destruct (recovered_ok _ _ _ _ _ _ Er Hresp) as (Hn & Hids & Hk).
    destruct (check_session_id cf env id src) as [[|]|]; simplify_eq/=; [|by split; [apply session_reply_ok|]].
    destruct (new_session _ _ _ _ _ _ _ _ _) as [[l|prev] m] eqn:En.
    + simplify_eq. split; [by apply session_reply_ok|]. by eapply new_session_ok.
    + destruct (get (sv_sessions sv) prev); [case_bool_decide|]; simplify_eq;
        (split; [by apply session_reply_ok|done]).
  - destruct (validate_client_version _ _); simplify_eq/=; (split; [|done]).
    + destruct (gen_new_challenge_ok src (epoch env)) as [_ Hg]. apply Packet_response_ok; [done..|].
      split; [|split; [done|apply List.Forall_nil]].
      split; [done|]. split; [done|]. split; [apply Hcf|by apply session_challenge_ok].
    + apply session_reply_ok; [done|apply List.Forall_nil].
Qed.

Lemma disconnected_ok id : bytes_ok id ->
  Packet_ok (Packet_control id (CtDisconnected (Some (BySessionId id)))).
Proof. intros Hi. by split. Qed.

Lemma handle_ping_ok env src request_id id sv :
  in_width 64 request_id -> session_id_ok id -> Server_ok sv ->
  handled (handle_ping session_hash cf env src request_id id sv).
Proof.
  intros Hq [_ Hi] Hsv. unfold handle_ping. destruct (find_session_of _ _ _ _) as [[l s]|].
  - split; [by apply Packet_response_ok|by apply Server_ok_touch].
  - unfold mark_session. repeat case_match; simplify_eq;
      (split; [try apply disconnected_ok; done|]); try done; by destruct Hsv.
Qed.

Lemma check_ip_status_ok ts l s res sv :
  Session_ok s -> Resolve_ok res -> Server_ok sv -> Server_ok (check_ip_status cf ts l s res sv).
Proof.
  intros Hs Hr []. constructor; try done. apply Forall_app. split; [done|]. apply Forall_singleton.
  split_and!; try done; apply Hs || apply Hcf.
Qed.

Lemma register_handle_ok env src request_id id sv :
  in_width 64 request_id -> session_id_ok id -> Server_ok sv ->
  handled (register_handle session_hash cf env src request_id id sv).
Proof.
  intros Hq [_ Hi] Hsv. unfold register_handle.
  destruct (find_session session_hash id sv) as [[l s]|] eqn:Ef.
  2: { split; [|done]. by apply Packet_response_ok; try apply List.Forall_nil. }
  assert (Session_ok s) as Hs by (eapply sessions_ok_table; [apply Hsv|done]).
  apply (Server_ok_touch env l) in Hsv.
  destruct (cache_get _ src) as [[ts v]|]; [destruct (_ <? _)|]; simpl;
    try (split; [done|by apply check_ip_status_ok]).
  apply (Server_ok_status l (if v then Valid (e_now env) else Invalid (e_now env))) in Hsv.
  split; [|by apply Server_ok_link]. apply Packet_response_ok; [done..|]. simpl.
  destruct (get _ l) as [s'|] eqn:Eg; [|apply List.Forall_nil]. simpl.
  apply endpoint_list_ok. eapply sessions_ok_get; [apply Hsv|done].
Qed.

Lemma node_reply_ok request_id id code :
  in_width 64 request_id -> bytes_ok id -> opt_ok Packet_ok (node_reply request_id id code).
Proof. intros Hr Hi. apply Packet_response_ok; [done..|]. by split_and!; try apply List.Forall_nil. Qed.

(** The answer with the description of a node, of [node_handle] and [slot_handle]. *)
Lemma found_node_ok env request_id id n sv :
  Env_ok env -> in_width 64 request_id -> bytes_ok id -> node_id_ok n -> Server_ok sv ->
  handled (match find_node n sv with
           | (Some it, sv) =>
               let '(node, sv) := to_node_info cf env it n true sv in
               (Some (Packet_response request_id id StatusOk (RsNode node)), sv)
           | (None, sv) => (node_reply request_id id NotFound, sv)
           end).
Proof.
  intros He Hq Hi Hn Hsv. destruct (find_node n sv) as [r sv1] eqn:Ef.
  destruct (find_node_ok _ _ _ _ Ef Hsv) as [Hsv1 Hs].
  destruct r as [it|]; [|split; [by apply node_reply_ok|done]].
  destruct (to_node_info _ _ _ _ _ _) as [node sv2] eqn:Et.
  destruct (to_node_info_ok _ _ _ _ _ _ _ Et He Hs Hn Hsv1) as [Hnode Hsv2].
  split; [by apply Packet_response_ok|done].
Qed.

Lemma node_handle_ok env src request_id id node_id sv :
  Env_ok env -> in_width 64 request_id -> session_id_ok id -> bytes_ok node_id -> Server_ok sv ->
  handled (node_handle session_hash cf env src request_id id node_id sv).
Proof.
  intros He Hq [_ Hi] Hn Hsv. unfold node_handle.
  destruct (find_session_of _ _ _ _) as [[l s]|]; [|split; [by apply node_reply_ok|done]].
  apply (Server_ok_touch env l) in Hsv. destruct (NodeId_try_from node_id) as [n|] eqn:En.
  - by apply found_node_ok; [..|eapply NodeId_try_from_ok|].
  - split; [by apply node_reply_ok|done].
Qed.

Lemma slot_node_ok m slot n : slots_ok m -> SlotManager_node m slot = Some n -> node_id_ok n.
Proof.
  intros [_ Hm]. unfold SlotManager_node. case_match; [|done]. intros Hl.
  by eapply Forall_lookup_1.
Qed.

Lemma slot_handle_ok env src request_id id slot sv :
  Env_ok env -> in_width 64 request_id -> session_id_ok id -> Server_ok sv ->
  handled (slot_handle session_hash cf env src request_id id slot sv).
Proof.
  intros He Hq [_ Hi] Hsv. unfold slot_handle.
  destruct (find_session_of _ _ _ _) as [[l s]|]; [|split; [by apply node_reply_ok|done]].
  apply (Server_ok_touch env l) in Hsv.
  destruct (SlotManager_node _ slot) as [n|] eqn:En; [|done].
  apply found_node_ok; try done. eapply slot_node_ok; [apply Hsv|done].
Qed.

Lemma neighbours_handle_ok env src request_id id count sv :
  Env_ok env -> in_width 64 request_id -> session_id_ok id -> Server_ok sv ->
  handled (neighbours_handle session_hash cf env src request_id id count sv).
Proof.
  intros He Hq [_ Hi] Hsv. unfold neighbours_handle.
  destruct (find_session_of _ _ _ _) as [[l s]|].
  2: { split; [|done]. by apply Packet_response_ok; try apply List.Forall_nil. }
  pose proof (neighbours_state (sv_sessions sv) (s_node_id s) count) as Hm.
  destruct (neighbours _ _ _) as [ls m]. simpl in Hm.
  assert (Server_ok (on_sessions (fun _ => m) sv)) as Hsv'.
  { apply Server_ok_sessions; [|done]. apply sessions_ok_heap. rewrite Hm.
    case_match; [apply node_session_same|done]. }
  destruct (node_infos _ _ _ _) as [nodes sv'] eqn:En.
  destruct (node_infos_ok _ _ _ _ _ En He Hsv') as [Hn Hs].
  split; [by apply Packet_response_ok|done].
Qed.

Lemma rc_reply_ok request_id id code :
  in_width 64 request_id -> bytes_ok id -> opt_ok Packet_ok (rc_reply request_id id code).
Proof. intros Hr Hi. by apply Packet_response_ok. Qed.

Lemma rc_handle_ok env src request_id id node_id sv :
  in_width 64 request_id -> session_id_ok id -> Server_ok sv ->
  handled (rc_handle session_hash cf env src request_id id node_id sv).
Proof.
  intros Hq [_ Hi] Hsv. unfold rc_handle.
  destruct (find_session_of _ _ _ _) as [[l s]|] eqn:Ef; [|split; [by apply rc_reply_ok|done]].
  pose proof (find_session_of_ok _ _ _ _ _ Ef Hsv) as Hs. apply (Server_ok_touch env l) in Hsv as Ht.
  destruct (NodeId_try_from node_id) as [n|]; [|split; [by apply rc_reply_ok|done]].
  destruct (Session_endpoint s) as [e|] eqn:Ee; [|split; [by apply rc_reply_ok|done]].
  destruct (find_node n _) as [r sv1] eqn:En.
  destruct (find_node_ok _ _ _ _ En Ht) as [Hsv1 Hr].
  destruct r as [it|]; (split; [by apply rc_reply_ok|]); [|done].
  apply Server_ok_send; [apply Hr| |done]. split; [apply Hr|]. split; [apply Hs|].
  apply Forall_singleton. exact (Session_endpoint_ok s e Hs Ee).
Qed.

Lemma forward_handle_ok env src f sv :
  Forward_wf f -> Server_ok sv ->
  handled (forward_handle session_hash cf env src (fw_session_id f) (fw_slot f) (fw_flags f)
             (fw_payload f) sv).
Proof.
  intros (Hl & Hi & Hslot & Hflags & Hp) Hsv. unfold forward_handle.
  assert (exists src_info sv1, match find_session_of session_hash (fw_session_id f) src sv with
    | None => (None, sv)
    | Some (l, s) =>
        let '(src_slot, slots) := SlotManager_slot (sv_slots sv) (s_node_id s) in
        (Some src_slot, touch_session cf env l (with_slots slots sv))
    end = (src_info, sv1) /\ opt_ok (in_width 32) src_info /\ Server_ok sv1) as (x & sv1 & -> & Hx & Hsv1).
  { destruct (find_session_of _ _ _ _) as [[l s]|] eqn:Ef; [|by eexists _, _].
    destruct (find_session_of_ok _ _ _ _ _ Ef Hsv) as (_ & _ & _ & Hn & _).
    destruct (SlotManager_slot _ _) as [slot slots] eqn:Es.
    destruct (Server_ok_slots _ _ _ _ Es Hn Hsv) as [Hs Hsl].
    eexists _, _. split_and!; [done|done|by apply Server_ok_touch]. }
  destruct (SlotManager_node (sv_slots sv1) (fw_slot f)) as [n|].
  - destruct (find_node n sv1) as [r sv2] eqn:En.
    destruct (find_node_ok _ _ _ _ En Hsv1) as [Hsv2 Hr].
    destruct x as [slot|]; [|by split; [by apply disconnected_ok|]].
    destruct r as [it|]; [|by split; [split|]]. split; [done|].
    destruct Hr as ([Hrl Hrb] & Hpeer & _). apply Server_ok_send; [done| |done]. by split_and!.
  - destruct x as [slot|]; (split; [|done]); [by split|by apply disconnected_ok].
Qed.

(** ** Tasks *)

Lemma dispatch_request_ok env src request_id id request sv r :
  dispatch_request session_hash cf env src request_id id request sv = Ret r ->
  Env_ok env -> sock_ok src -> in_width 64 request_id -> opt_ok session_id_ok id ->
  request_Kind_ok request -> Server_ok sv -> handled r.
Proof.
  unfold dispatch_request. intros Hr He Hs Hq Hi Hk Hsv.
  destruct request; [by eapply session_handle_ok|..]; destruct id as [id|]; simplify_eq; try done.
  - by apply register_handle_ok.
  - by apply node_handle_ok.
  - by apply slot_handle_ok.
  - by apply neighbours_handle_ok.
  - by apply rc_handle_ok.
  - by apply handle_ping_ok.
Qed.

Lemma disconnect_ok src id to_close sv :
  Server_ok sv -> Server_ok (disconnect session_hash src id to_close sv).
Proof.
  intros Hsv. unfold disconnect. repeat case_match; try done.
  apply Server_ok_sessions; [|done]. apply sessions_ok_heap.
  unfold remove_session_from. by repeat case_match.
Qed.

Lemma unreachable_ok env src id sv :
  Server_ok sv -> Server_ok (unreachable session_hash env src id sv).
Proof.
  intros Hsv. unfold unreachable. repeat case_match; try done. by apply Server_ok_remove.
Qed.

Lemma from_wire_ok wire id :
  bytes_ok wire -> SessionId_from_wire wire = Some id -> opt_ok session_id_ok id.
Proof.
  unfold SessionId_from_wire. intros Hw Hf. case_bool_decide; simplify_eq; [done|].
  destruct (SessionId_try_from wire) eqn:E; simplify_eq/=. by eapply SessionId_try_from_ok.
Qed.

Lemma dispatch_ok env pt src p sv r :
  dispatch session_hash cf env pt src p sv = Ret r ->
  Env_ok env -> sock_ok src -> PacketKind_ok p -> Server_ok sv -> handled r.
Proof.
  unfold dispatch. intros Hr He Hs Hp Hsv. destruct pt; [| |by simplify_eq].
  - destruct p as [[wire [[[q [request|]]|resp|[[]|]]|]]|f|b]; simplify_eq; try done.
    + destruct (SessionId_from_wire wire) as [id|] eqn:Ew; [|by simplify_eq].
      destruct Hp as [Hw [Hq Hk]]. eapply dispatch_request_ok; try done. by eapply from_wire_ok.
    + destruct by_ as [[]|]; simplify_eq; try done. split; [done|]. by apply disconnect_ok.
    + by apply forward_handle_ok.
  - destruct p as [[wire [[[]|resp|[[]|]]|]]|f|b]; simplify_eq; try done.
    + destruct (SessionId_try_from wire); simplify_eq; [|done]. split; [done|]. by apply unreachable_ok.
    + split; [done|]. by apply unreachable_ok.
Qed.

Lemma upgrade_ok sv l s : upgrade sv l = Some s -> Server_ok sv -> Session_ok s.
Proof.
  unfold upgrade. intros Hu Hsv. case_match; [|done]. eapply sessions_ok_get; [apply Hsv|done].
Qed.

Lemma resolve_ok now req status sv :
  CheckIpRequest_ok req -> Server_ok sv -> Server_ok (IpChecker.resolve now req status sv).
Proof.
  intros (_ & _ & Hr) Hsv. unfold IpChecker.resolve.
  apply (Server_ok_status (cr_session req) (set_valid now status)) in Hsv.
  destruct (cr_resolve req) as [request_id|reply]; [|by destruct Hsv].
  destruct (get _ (cr_session req)) as [s|] eqn:Eg; [|done].
  assert (Session_ok s) as Hs by (eapply sessions_ok_get; [apply Hsv|done]).
  apply Server_ok_send; [apply Hs| |].
  - apply Packet_response_ok; [done|apply Hs|]. by apply endpoint_list_ok.
  - apply Server_ok_link. by destruct Hsv.
Qed.

Lemma do_ping_ok req sv : CheckIpRequest_ok req -> Server_ok sv -> Server_ok (do_ping req sv).
Proof.
  intros [Ha _] Hsv. unfold do_ping. destruct (upgrade sv _) as [s|] eqn:Eu; [|done].
  destruct (upgrade_ok _ _ _ Eu Hsv) as ([_ Hi] & _). by apply Server_ok_request.
Qed.

Lemma requests_at_ok a sv :
  Server_ok sv -> Forall CheckIpRequest_ok (default [] (sv_requests sv !! a)).
Proof.
  intros Hsv. destruct (sv_requests sv !! a) as [reqs|] eqn:E; [|apply List.Forall_nil].
  by destruct (ok_requests _ Hsv _ _ E).
Qed.

Lemma Server_ok_requests t sv :
  map_Forall (fun a reqs => sock_ok a /\ Forall CheckIpRequest_ok reqs) t ->
  Server_ok sv -> Server_ok (with_requests t sv).
Proof. intros Ht []. by constructor. Qed.

Lemma ping_job_ok sv : Server_ok sv -> Server_ok (ping_job sv).
Proof.
  intros Hsv. unfold ping_job. pose proof (ok_queue _ Hsv) as Hq.
  destruct (sv_check_queue sv) as [|req rest]; [done|]. inversion_clear Hq as [|? ? Hr Hrest].
  assert (Server_ok (do_ping req (with_queue rest sv))) as Hp
    by (apply do_ping_ok; [done|destruct Hsv; by constructor]).
  apply Server_ok_requests; [|done]. apply map_Forall_insert_2; [|apply Hp].
  split; [apply Hr|]. pose proof (requests_at_ok (cr_addr req) _ Hp).
  case_match; [|done]. apply Forall_app. auto.
Qed.

Lemma dec_retry_ok req :
  CheckIpRequest_ok req -> 0 < cr_retry_cnt req -> CheckIpRequest_ok (dec_retry req).
Proof. intros (Ha & Hc & Hr) Hp. split; [exact Ha|]. split; [|exact Hr]. simpl. unfold in_width in *. lia. Qed.

Lemma scan_requests_ok now timeout reqs : forall sv kept pings sv',
  scan_requests now timeout reqs sv = (kept, pings, sv') ->
  Forall CheckIpRequest_ok reqs -> Server_ok sv ->
  Forall CheckIpRequest_ok kept /\ Forall Session_ok pings /\ Server_ok sv'.
Proof.
  induction reqs as [|req reqs IH]; intros sv kept pings sv' Hs Hr Hsv; simpl in Hs; [by simplify_eq|].
  inversion_clear Hr as [|? ? Hq Hrs]. destruct (upgrade sv _) as [s|] eqn:Eu; [|by eapply IH].
  case_match; [by eapply IH; [done..|apply resolve_ok]|].
  destruct (scan_requests now timeout reqs sv) as [[k ps] sv1] eqn:E.
  destruct (IH _ _ _ _ E Hrs Hsv) as (Hk & Hp & Hsv1).
  case_match; simplify_eq; [|by auto]. b2p.
  split_and!; [|constructor; [by eapply upgrade_ok|]|]; auto using dec_retry_ok.
Qed.

Lemma scan_addrs_ok now timeout entries : forall sv t pings sv',
  scan_addrs now timeout entries sv = (t, pings, sv') ->
  Forall (fun p => sock_ok p.1 /\ Forall CheckIpRequest_ok p.2) entries -> Server_ok sv ->
  map_Forall (fun a reqs => sock_ok a /\ Forall CheckIpRequest_ok reqs) t /\
  Forall Session_ok pings /\ Server_ok sv'.
Proof.
  induction entries as [|[a reqs] entries IH]; intros sv t pings sv' Hs He Hsv; simpl in Hs.
  { simplify_eq. split_and!; [apply map_Forall_empty|apply List.Forall_nil|done]. }
  inversion_clear He as [|? ? [Ha Hr] Hes].
  destruct (scan_requests _ _ _ _) as [[kept ps] sv1] eqn:E1.
  destruct (scan_requests_ok _ _ _ _ _ _ _ E1 Hr Hsv) as (Hk & Hp & Hsv1).
  destruct (scan_addrs _ _ _ _) as [[t' ps'] sv2] eqn:E2.
  destruct (IH _ _ _ _ E2 Hes Hsv1) as (Ht & Hp' & Hsv2). simplify_eq.
  split_and!; [|by apply Forall_app|done]. case_match; [done|]. by apply map_Forall_insert_2.
Qed.

Lemma send_pings_ok now timeout sv : Server_ok sv -> Server_ok (send_pings now timeout sv).
Proof.
  intros Hsv. unfold send_pings. destruct (scan_addrs _ _ _ _) as [[t pings] sv1] eqn:E.
  destruct (scan_addrs_ok _ _ _ _ _ _ _ E) as (Ht & Hp & Hsv1); [|done|].
  { apply Forall_forall. intros [a reqs] Hin%elem_of_map_to_list. by apply (ok_requests _ Hsv). }
  assert (Server_ok (with_requests t sv1)) as Hs by by apply Server_ok_requests.
  clear E. revert Hs. generalize (with_requests t sv1).
  induction Hp as [|s pings ([_ Hi] & Hpeer & _) _ IH]; intros sv2 Hs; [done|].
  simpl. apply IH. by apply Server_ok_request.
Qed.

Lemma success_loop_ok now id reqs : forall sv kept sv',
  success_loop now id reqs sv = (kept, sv') ->
  Forall CheckIpRequest_ok reqs -> Server_ok sv -> Forall CheckIpRequest_ok kept /\ Server_ok sv'.
Proof.
  induction reqs as [|req reqs IH]; intros sv kept sv' Hs Hr Hsv; simpl in Hs; [by simplify_eq|].
  inversion_clear Hr as [|? ? Hq Hrs]. destruct (upgrade sv _); [|by eapply IH].
  case_bool_decide; [by eapply IH; [done..|apply resolve_ok]|].
  destruct (success_loop _ _ _ _) as [k sv1] eqn:E.
  destruct (IH _ _ _ E Hrs Hsv). simplify_eq. auto.
Qed.

Lemma recv_job_ok now pt peer packet sv :
  sock_ok peer -> Server_ok sv -> Server_ok (recv_job now pt peer packet sv).
Proof.
  intros Hp Hsv. unfold recv_job. destruct pt; [| |done].
  - destruct (pkt_kind packet) as [[|[? ? [[]|]]|]|]; try done. unfold resolve_success.
    destruct (SessionId_try_from _); [|done]. pose proof (requests_at_ok peer _ Hsv) as Hr.
    destruct (sv_requests sv !! peer) as [reqs|]; [|done].
    destruct (success_loop _ _ _ _) as [kept sv1] eqn:E.
    destruct (success_loop_ok _ _ _ _ _ _ E Hr Hsv) as [Hk Hsv1].
    apply Server_ok_requests; [|done]. case_match.
    + apply map_Forall_delete, Hsv1.
    + apply map_Forall_insert_2; [done|apply Hsv1].
  - unfold resolve_unreachable. pose proof (requests_at_ok peer _ Hsv) as Hr.
    destruct (sv_requests sv !! peer) as [reqs|]; [|done]. simpl in Hr.
    assert (Server_ok (with_requests (delete peer (sv_requests sv)) sv)) as Hd
      by (apply Server_ok_requests; [apply map_Forall_delete, Hsv|done]).
    revert Hd. generalize (with_requests (delete peer (sv_requests sv)) sv).
    induction Hr as [|req reqs Hq _ IH]; intros sv1 Hd; [done|]. simpl. apply IH.
    case_match; [by apply resolve_ok|done].
Qed.

Lemma server_step_ok ev sv sv' :
  server_step session_hash cf ev sv = Ret sv' -> Event_ok ev -> Server_ok sv -> Server_ok sv'.
Proof.
  intros Hs Hev Hsv. destruct ev as [env pt src p| |env|env pt peer packet|env c|env t];
    simpl in Hs; simplify_eq.
  - destruct Hev as (He & Ha & Hp). unfold serve in Hs.
    destruct (dispatch _ _ _ _ _ _ _) as [[r sv1]|] eqn:Ed; simplify_eq/=.
    destruct (dispatch_ok _ _ _ _ _ _ Ed He Ha Hp Hsv) as [Hr Hsv1].
    destruct r; [by apply Server_ok_send|done].
  - by apply ping_job_ok.
  - by apply send_pings_ok.
  - by apply recv_job_ok; [apply Hev|].
  - destruct Hev as [He Hc], c as [id silent|id reply|mode]; simpl.
    + pose proof (Server_ok_remove id _ Hsv) as Hr.
      destruct (shard session_hash (sv_sessions sv) id !! id) as [l|]; [simpl|done].
      destruct (get _ l) as [s|] eqn:Eg; [simpl|done]. destruct silent; [done|].
      apply Server_ok_send; [|by apply disconnected_ok; apply Hc|done].
      assert (Session_ok s) as Hs by (eapply sessions_ok_get; [apply Hsv|done]). apply Hs.
    + destruct (find_session _ _ _) as [[l s]|] eqn:Ef; [|by destruct Hsv].
      apply check_ip_status_ok; [|done..]. eapply sessions_ok_table; [apply Hsv|done].
    + by apply Server_ok_sessions.
  - apply Server_ok_sessions; [|done]. by apply sessions_ok_heap.
Qed.

(** The steps of all tasks in the order they happen. *)
Fixpoint server_run (evs : list Event) (sv : Server) : outcome Server :=
  match evs with
  | [] => Ret sv
  | ev :: evs => let! sv := server_step session_hash cf ev sv in server_run evs sv
  end.

Lemma server_run_ok evs : Forall Event_ok evs -> forall sv sv',
  server_run evs sv = Ret sv' -> Server_ok sv -> SessionManager.sm_inv session_hash (sv_sessions sv) ->
  Server_ok sv' /\ SessionManager.sm_inv session_hash (sv_sessions sv').
Proof.
  induction 1 as [|ev evs Hev _ IH]; intros sv sv' Hr Hsv Hm; simpl in Hr; [by simplify_eq|].
  destruct (server_step session_hash cf ev sv) as [sv1|] eqn:Es; simpl in Hr; [|done].
  eapply IH; [done|by eapply server_step_ok|]. by apply (step_lifecycle _ _ _ _ _ Es Hm).
Qed.

Lemma Server_new_ok request_id : in_width 64 request_id -> Server_ok (Server_new request_id).
Proof.
  intros Hq. constructor; simpl.
  - apply (map_Forall_empty (K := Z)).
  - split; simpl; [by apply map_Forall_singleton|]. apply Forall_singleton. split; [done|].
    by apply Forall_replicate.
  - apply List.Forall_nil.
  - apply (map_Forall_empty (K := SocketAddr)).
  - done.
  - apply List.Forall_nil.
Qed.

(** C12: the server is well typed.  Whatever datagrams and commands it is given,
    within the ranges of their types, and in whatever order its tasks run,
    everything it holds and everything it sends stays within the ranges of the
    Rust types: sessions, slots, pending checks and request ids, and all fields of
    the packets and forward packets it sends.  The ids of its sessions have sixteen
    bytes. *)
Theorem server_well_typed request_id evs sv :
  in_width 64 request_id -> Forall Event_ok evs ->
  server_run evs (Server_new request_id) = Ret sv ->
  Server_ok sv /\
  (forall id l s, find_session session_hash id sv = Some (l, s) -> session_id_ok id /\ s_session_id s = id).
Proof.
  intros Hq Hevs Hr.
  destruct (server_run_ok evs Hevs _ _ Hr (Server_new_ok _ Hq)) as [Hsv Hm]; [apply inv_new|].
  split; [done|]. intros id l s [Hs Hg]%table_session.
  destruct (session_placed _ _ _ _ Hm Hs) as (s' & Hs' & <-). rewrite Hg in Hs'. simplify_eq.
  split; [|done]. by eapply sessions_ok_get; [apply Hsv|].
Qed.
End Types.

(** ** Example *)

Module ToyTypes.

#[local] Existing Instance ToyCrypto.toy_hashes.
#[local] Existing Instance ToyIp.toy_ip.

(** Two keys, whose signatures name them. *)
#[local] Instance bool_sign : EthSign := {
  PublicKey := bool;
  SecretKey := bool;
  pk_bytes k := [Z.b2z k];
  pk_from_slice b := (fun v => v =? 1) <$> head b;
  pk_address k := replicate 20 (Z.b2z k);
  public_of k := k;
  eth_sign k m := (Z.b2z k, replicate 32 0, replicate 32 0);
  eth_recover v r s m := Some (v =? 1) }.

#[local] Instance bool_sign_types : EthSignTypes.
Proof.
  split.
  - intros k. apply Forall_singleton. destruct k; done.
  - intros k. split; [done|]. apply Forall_replicate. destruct k; done.
Qed.

#[local] Instance toy_keccak_types : KeccakTypes.
Proof.
  split. intros m Hm. apply Forall_take, Forall_app. split; [done|]. by apply Forall_replicate.
Qed.

Definition types_hash (id : SessionId) : Z := default 0 (head id).
Definition types_peer : SocketAddr := {| sa_ip := IpV4 77; sa_port := 1000 |}.
Definition types_id : SessionId := gen_new_challenge toy_config types_peer (epoch (toy_env 10)).

(** The answer to the challenge of the id; its digest begins with enough zero bits. *)
Definition types_answer : ChallengeResponse :=
  let prefix := be_bytes 8 200 in
  solve (prefix ++ digest prefix (session_challenge toy_config types_id)) [true] false.

Definition types_request (wire : list Z) (kind : request_Kind) : Event :=
  EvDatagram (toy_env 10) PtData types_peer
    (KPacket {| pkt_session_id := wire;
                pkt_kind := Some (PkRequest {| rq_request_id := 7; rq_kind := Some kind |}) |}).

Definition types_session (answer : option ChallengeResponse) : request_Kind :=
  RqSession {| rqs_challenge_req := None; rqs_challenge_resp := answer;
               rqs_supported_encryptions := []; rqs_identities := []; rqs_client_version := "0.6.0" |}.

(** A handshake, a registration with its ping, and a ping. *)
Definition types_events : list Event :=
  [types_request [] (types_session None);
   types_request types_id (types_session (Some types_answer));
   types_request types_id (RqRegister []); EvPingJob; types_request types_id RqPing].

Definition types_server : outcome Server :=
  server_run types_hash toy_config types_events (Server_new 0).

Lemma types_request_ok wire kind :
  bytes_ok wire -> request_Kind_ok kind -> Event_ok toy_config (types_request wire kind).
Proof.
  intros Hw Hk. split; [split; [done|apply List.Forall_nil]|]. split; [done|]. by split_and!.
Qed.

Lemma toy_config_ok : Config_ok toy_config.
Proof.
  split; [done|]. split; [|done]. apply Forall_replicate. done.
Qed.

Lemma types_answer_ok : ChallengeResponse_ok types_answer.
Proof. split_and!; apply (bool_decide_eq_true _); vm_compute; reflexivity. Qed.

Lemma types_events_ok : Forall (Event_ok toy_config) types_events.
Proof.
  assert (bytes_ok types_id) as Hi by (apply (bool_decide_eq_true _); vm_compute; reflexivity).
  repeat apply Forall_cons_2; try apply List.Forall_nil; [..|exact I|]; apply types_request_ok;
    try exact Hi; try apply List.Forall_nil; try exact I.
  - split; [exact I|]. split; [exact I|apply List.Forall_nil].
  - split; [exact I|]. split; [exact types_answer_ok|apply List.Forall_nil].
Qed.

Lemma server_well_typed_witness :
  exists sv, server_run types_hash toy_config types_events (Server_new 0) = Ret sv /\ Server_ok sv /\
    is_Some (find_session types_hash types_id sv) /\ session_id_ok types_id /\
    length (sv_sent sv) = 4%nat.
Proof.
  assert (match server_run types_hash toy_config types_events (Server_new 0) with
    | Ret sv => is_some (find_session types_hash types_id sv) && (length (sv_sent sv) =? 4)%nat
    | Panic => false
    end = true) as Hrun by (vm_compute; reflexivity).
  destruct (server_run _ _ _ _) as [sv|] eqn:E; [|discriminate Hrun]. b2p.
  destruct (server_well_typed types_hash toy_config toy_config_ok 0 types_events sv
    ltac:(unfold in_width; lia) types_events_ok E) as [Hsv Hid].
  exists sv. destruct (find_session types_hash types_id sv) as [[l s]|] eqn:Ef; [|discriminate].
  destruct (Hid _ _ _ Ef) as [Hok _]. split_and!; [reflexivity|exact Hsv|by eexists|apply Hok..|done].
Defined.
End ToyTypes.
