(* ===== verification/RelayProps.v ===== *)
(** Who may use the relay server and where it relays: requests from other
    endpoints than the registered one, forwarding between nodes, and the answer
    to a [Register] request. *)

From S2P Require Import Prelude Payload Proto Codec Challenge NodeInfo ServerState.
From S2P Require Import SessionManager SessionNodes SlotManager.
From S2P Require Import ServerCore IpChecker Handlers Server ToyServer.

Section Relay.
Context `{Hashes} `{EthSign} `{IpText} `{Semver} `{Keccak}.
Context `{!CacheOps SocketAddr (Z * bool)} `{!CacheOps SessionId Z}.
Context (session_hash : SessionId -> Z) (cf : ServerConfig).

(** ** Authorisation *)

(** The requests that are bound to the endpoint of a session. *)
Definition needs_endpoint (request : request_Kind) : bool :=
  match request with RqSession _ | RqRegister _ => false | _ => true end.

(** The answers to a request that is not authorised. *)
Definition refusal (request_id : Z) (id : SessionId) (r : option Packet) : Prop :=
  r = None \/
  r = Some (Packet_control id (CtDisconnected (Some (BySessionId id)))) \/
  exists kind, r = Some (Packet_response request_id id Unauthorized kind).

(** a request that names a session but does not come from the endpoint of
    that session has no effect on sessions, slots, address checks or other
    nodes, and is answered with an error at most. *)
Theorem foreign_request_refused env src request_id id request sv r sv' :
  needs_endpoint request = true ->
  find_session_of session_hash id src sv = None ->
  dispatch_request session_hash cf env src request_id (Some id) request sv = Ret (r, sv') ->
  sv_sessions sv' = sv_sessions sv /\ sv_slots sv' = sv_slots sv /\
  sv_sent sv' = sv_sent sv /\ sv_check_queue sv' = sv_check_queue sv /\
  sv_ip_cache sv' = sv_ip_cache sv /\ refusal request_id id r.
Proof.
  intros Hn Hf Hd. unfold refusal. destruct request; simpl in Hn, Hd; try done; injection Hd as Hd.
  - unfold node_handle in Hd. rewrite Hf in Hd. injection Hd as <- <-. unfold node_reply. eauto 10.
  - unfold slot_handle in Hd. rewrite Hf in Hd. injection Hd as <- <-. unfold node_reply. eauto 10.
  - unfold neighbours_handle in Hd. rewrite Hf in Hd. injection Hd as <- <-. eauto 10.
  - unfold rc_handle in Hd. rewrite Hf in Hd. injection Hd as <- <-. unfold rc_reply. eauto 10.
  - unfold handle_ping, mark_session in Hd. rewrite Hf in Hd.
    destruct (cache_get _ _) as [it|]; [destruct (_ <? _)|]; injection Hd as <- <-; simpl; auto 10.
Qed.

(** ** Forwarding *)

Lemma slot_node sl n slot sl' :
  SlotManager.sm_inv sl -> zlen (sm_slots sl) < 2 ^ 32 ->
  SlotManager_slot sl n = (slot, sl') -> SlotManager_node sl' slot = Some n.
Proof.
  intros Hinv Hlt. unfold SlotManager_slot, SlotManager_node.
  destruct (sm_nodes sl !! n) as [i|] eqn:E; intros [= <- <-].
  - apply (inv_inverse sl Hinv) in E as [Hi Hs]. by rewrite (proj2 (Z.leb_le 0 i)).
  - pose proof (zlen_nonneg (sm_slots sl)). unfold wrap. rewrite Z.mod_small by lia.
    rewrite (proj2 (Z.leb_le 0 _)) by done. simpl. unfold zlen. rewrite Nat2Z.id.
    by apply list_lookup_middle.
Qed.

(** The session a node is reached at. *)
Definition live_session (sv : Server) (n : NodeId) : option Session :=
  latest (sv_sessions sv) n ≫= get (sv_sessions sv).

Lemma find_node_spec n sv :
  exists m, find_node n sv = (live_session sv n, on_sessions (fun _ => m) sv).
Proof.
  unfold find_node, live_session. destruct (node_session_spec (sv_sessions sv) n) as (Hr & _ & _).
  destruct (node_session_same (sv_sessions sv) n) as [_ Hh].
  destruct (node_session (sv_sessions sv) n) as [r m]. simpl in *. exists m. f_equal.
  unfold latest. rewrite <- Hr. unfold get. by rewrite Hh.
Qed.

(** Where a node is reached does not depend on time stamps and slots. *)
Lemma live_session_touch env l sv n :
  (fun d => (s_peer d, s_session_id d)) <$> live_session (touch_session cf env l sv) n =
  (fun d => (s_peer d, s_session_id d)) <$> live_session sv n.
Proof.
  unfold live_session. change (latest (sv_sessions (touch_session cf env l sv)) n)
    with (latest (sv_sessions sv) n).
  destruct (latest (sv_sessions sv) n) as [d|]; [|done]. simpl.
  unfold get, touch_session, touch, update. simpl.
  destruct (decide (l = d)) as [->|].
  - rewrite lookup_alter_eq. by destruct (sm_heap (sv_sessions sv) !! d).
  - by rewrite lookup_alter_ne.
Qed.

(** C2: forwarding.  A datagram from the endpoint of a session to the slot of a
    node that has a live session is sent, unchanged and once, to that node's
    latest session and carries the slot of the sender's node, so that it can be
    answered; nothing else is sent.  Otherwise nothing is forwarded and the
    sender is told which of the two sessions is missing. *)
Theorem forward_relays env src id slot flags payload sv :
  SlotManager.sm_inv (sv_slots sv) -> zlen (sm_slots (sv_slots sv)) < 2 ^ 32 ->
  let '(r, sv') := forward_handle session_hash cf env src id slot flags payload sv in
  match find_session_of session_hash id src sv with
  | None =>
      r = Some (Packet_control id (CtDisconnected (Some (BySessionId id)))) /\
      sv_sent sv' = sv_sent sv
  | Some (_, s) =>
      exists k, SlotManager_node (sv_slots sv') k = Some (s_node_id s) /\
      match SlotManager_node (sv_slots sv') slot ≫= live_session sv with
      | Some d =>
          r = None /\
          sv_sent sv' = sv_sent sv ++
            [(s_peer d, DgForward {| fw_session_id := s_session_id d; fw_slot := k;
                                     fw_flags := flags; fw_payload := payload |})]
      | None =>
          r = Some (Packet_control id (CtDisconnected (Some (BySlot slot)))) /\
          sv_sent sv' = sv_sent sv
      end
  end.
Proof.
  intros Hsl Hlt. unfold forward_handle.
  destruct (find_session_of session_hash id src sv) as [[l s]|].
  - destruct (SlotManager_slot (sv_slots sv) (s_node_id s)) as [k slots] eqn:Ek.
    pose proof (slot_node _ _ _ _ Hsl Hlt Ek) as Hk.
    change (sv_slots (touch_session cf env l (with_slots slots sv))) with slots.
    destruct (SlotManager_node slots slot) as [n|] eqn:En.
    + destruct (find_node_spec n (touch_session cf env l (with_slots slots sv))) as [m ->].
      rewrite live_session_touch. change (live_session (with_slots slots sv) n) with (live_session sv n).
      destruct (live_session sv n) as [d|] eqn:Ed; simpl; rewrite En; simpl; rewrite Ed; eauto.
    + simpl. rewrite En. simpl. eauto.
  - destruct (SlotManager_node (sv_slots sv) slot) as [n|]; [|done].
    destruct (find_node_spec n sv) as [m ->]. simpl.
    by destruct (live_session sv n).
Qed.

(** ** Register *)

(** a [Register] request is answered from the cache of checked addresses
    when the address it came from was checked less than a minute ago: the session
    takes over that result whatever its own endpoint is, and a valid one is
    reported with the endpoint of the session, which need not be the address that
    was checked. *)
Theorem register_from_cache env src request_id id sv l s ts :
  find_session session_hash id sv = Some (l, s) ->
  cache_get (sv_ip_cache sv) src = Some (ts, true) ->
  elapsed (e_now env) ts < 60 * SECOND ->
  let '(r, sv') := register_handle session_hash cf env src request_id id sv in
  r = Some (Packet_response request_id id StatusOk
        (RsRegister [{| ep_protocol := 17; ep_address := ip_to_string (sa_ip (s_peer s));
                        ep_port := sa_port (s_peer s) |}])) /\
  (s_addr_status <$> get (sv_sessions sv') l) = Some (Valid (e_now env)) /\
  sv_check_queue sv' = sv_check_queue sv.
Proof.
  intros Hf Hc Hage. unfold register_handle. rewrite Hf.
  change (sv_ip_cache (touch_session cf env l sv)) with (sv_ip_cache sv). rewrite Hc.
  rewrite (proj2 (Z.ltb_lt _ _)) by done.
  apply table_session in Hf as [_ Hg]. simpl. rewrite get_run_link.
  unfold get in *. unfold update. simpl. rewrite lookup_alter_eq.
  rewrite lookup_alter_eq, Hg. done.
Qed.
End Relay.

Section Witness.
Import ToyCrypto ToyIp ToySessions ToyServer.

(** Node 1 asks for the neighbours of session 2. *)
Lemma foreign_request_refused_witness :
  exists r, dispatch_request toy_slot toy_config (toy_env 720) (toy_peer 1) 9
      (Some (replicate 16 2)) (RqNeighbours 2 false) toy_server = Ret (r, toy_server) /\
    refusal 9 (replicate 16 2) r.
Proof.
  assert (find_session_of toy_slot (replicate 16 2) (toy_peer 1) toy_server = None) as Hf
    by (vm_compute; reflexivity).
  assert (forall sv, find_session_of toy_slot (replicate 16 2) (toy_peer 1) sv = None ->
    exists r, dispatch_request toy_slot toy_config (toy_env 720) (toy_peer 1) 9
      (Some (replicate 16 2)) (RqNeighbours 2 false) sv = Ret (r, sv)) as Hd.
  { intros sv Hsv. unfold dispatch_request, neighbours_handle. rewrite Hsv. eauto. }
  destruct (Hd toy_server Hf) as [r Hr]. exists r. split; [exact Hr|].
  exact (proj2 (proj2 (proj2 (proj2 (proj2 (foreign_request_refused toy_slot toy_config (toy_env 720)
    (toy_peer 1) 9 (replicate 16 2) (RqNeighbours 2 false) toy_server r toy_server eq_refl Hf Hr)))))).
Defined.

(** Node 1 forwards to slot 1, the slot of node 2. *)
Lemma forward_relays_witness :
  sv_sent (forward_handle toy_slot toy_config (toy_env 720) (toy_peer 1) (replicate 16 1) 1 0
             (PBytes [7]) toy_server).2 =
    [(toy_peer 2, DgForward {| fw_session_id := replicate 16 2; fw_slot := 2; fw_flags := 0;
                               fw_payload := PBytes [7] |})] /\
  exists k, SlotManager_node
      (sv_slots (forward_handle toy_slot toy_config (toy_env 720) (toy_peer 1) (replicate 16 1) 1 0
                   (PBytes [7]) toy_server).2) k = Some (replicate 20 1).
Proof.
  split; [vm_compute; reflexivity|].
  assert (SlotManager.sm_inv (sv_slots toy_server)) as Hsl
    by (apply slot_inv; [apply SlotManager_new_inv|reflexivity|vm_compute; reflexivity]).
  assert (zlen (sm_slots (sv_slots toy_server)) < 2 ^ 32) as Hlt by (vm_compute; reflexivity).
  pose proof (forward_relays toy_slot toy_config (toy_env 720) (toy_peer 1) (replicate 16 1) 1 0
    (PBytes [7]) toy_server Hsl Hlt) as Hf.
  assert (s_node_id <$> (snd <$> find_session_of toy_slot (replicate 16 1) (toy_peer 1) toy_server)
    = Some (replicate 20 1)) as Hs by (vm_compute; reflexivity).
  clear Hsl Hlt. revert Hf Hs.
  destruct (find_session_of toy_slot (replicate 16 1) (toy_peer 1) toy_server) as [[l s]|];
    [|discriminate].
  destruct (forward_handle _ _ _ _ _ _ _ _ _) as [r sv'].
  intros (k & Hk & _) Hs. exists k. cbn [snd]. rewrite Hk. injection Hs as ->. reflexivity.
Defined.

(** A registration for session 2 that comes from node 1. *)
Lemma register_from_cache_witness :
  toy_peer 2 <> toy_peer 1 /\
  (s_addr_status <$> get (sv_sessions
     (register_handle toy_slot toy_config (toy_env 720) (toy_peer 1) 9 (replicate 16 2)
        toy_server).2) 1) = Some (Valid (720 * SECOND)).
Proof.
  split; [discriminate|].
  assert (fst <$> find_session toy_slot (replicate 16 2) toy_server = Some 1) as Hl
    by (vm_compute; reflexivity).
  assert (cache_get (sv_ip_cache toy_server) (toy_peer 1) = Some (710 * SECOND, true)) as Hc
    by (vm_compute; reflexivity).
  pose proof (register_from_cache toy_slot toy_config (toy_env 720) (toy_peer 1) 9
    (replicate 16 2) toy_server 1) as Hr.
  destruct (find_session toy_slot (replicate 16 2) toy_server) as [[l s]|]; [|discriminate Hl].
  injection Hl as ->. specialize (Hr s (710 * SECOND) eq_refl Hc eq_refl).
  destruct (register_handle _ _ _ _ _ _ _) as [r sv']. apply Hr.
Defined.
End Witness.
