(* ===== verification/DirectoryProps.v ===== *)
(** The relay server as a directory: what it tells about a node can be used to
    reach that node. *)

From S2P Require Import Prelude Payload Proto Codec Challenge NodeInfo ServerState.
From S2P Require Import SessionManager SessionNodes SlotManager.
From S2P Require Import ServerCore IpChecker Handlers Server ToyServer RelayProps.

Section Directory.
Context `{Hashes} `{EthSign} `{IpText} `{Semver} `{Keccak}.
Context `{!CacheOps SocketAddr (Z * bool)} `{!CacheOps SessionId Z}.
Context (session_hash : SessionId -> Z) (cf : ServerConfig).

(** Slots that were given out keep their nodes. *)
Lemma slot_keeps m n slot x :
  SlotManager_node m slot = Some x -> SlotManager_node (SlotManager_slot m n).2 slot = Some x.
Proof.
  unfold SlotManager_node, SlotManager_slot. destruct (sm_nodes m !! n); [done|]. simpl.
  destruct (0 <=? slot); [|done]. apply lookup_app_l_Some.
Qed.

Lemma slot_len m n : zlen (sm_slots (SlotManager_slot m n).2) <= zlen (sm_slots m) + 1.
Proof.
  unfold SlotManager_slot. destruct (sm_nodes m !! n); simpl; [lia|].
  rewrite zlen_app. change (zlen [n]) with 1. lia.
Qed.

(** Looking up a node changes neither the sessions nor where nodes are reached. *)
Lemma find_node_keeps n sv :
  exists sv', find_node n sv = (live_session sv n, sv') /\
    (forall n', live_session sv' n' = live_session sv n') /\
    (forall id src, find_session_of session_hash id src sv' = find_session_of session_hash id src sv) /\
    sv_slots sv' = sv_slots sv /\ sv_sent sv' = sv_sent sv.
Proof.
  destruct (find_node_spec n sv) as [m0 Hf]. eexists. split; [exact Hf|].
  unfold find_node in Hf. destruct (node_session_spec (sv_sessions sv) n) as (_ & Hl & _).
  destruct (node_session_same (sv_sessions sv) n) as [Hs Hh].
  destruct (node_session (sv_sessions sv) n) as [r m] eqn:E. simpl in *.
  injection Hf as _ Hm. subst m0.
  assert (sm_held m = sm_held (sv_sessions sv)) as Hd.
  { revert E. unfold node_session. destruct (sm_node_sessions (sv_sessions sv) !! n); [|by intros [= _ <-]].
    destruct (pop_dead _ _). by intros [= _ <-]. }
  split_and!; [| |done|done].
  - intros n'. unfold live_session, latest. simpl.
    assert (forall refs, live_refs m refs = live_refs (sv_sessions sv) refs) as Hlr.
    { intros refs. unfold live_refs, alive, strong. by rewrite Hs, Hd. }
    rewrite Hlr, Hl. unfold get. by rewrite Hh.
  - intros id src. unfold find_session_of, find_session, table, session, shard, get. simpl.
    by rewrite Hs, Hh.
Qed.

(** What is told about a session does not depend on its time stamp. *)
Definition same_description (a b : Session) : Prop :=
  s_peer a = s_peer b /\ s_session_id a = s_session_id b /\ s_node_id a = s_node_id b /\
  s_keys a = s_keys b /\ s_supported_encryptions a = s_supported_encryptions b /\
  s_session_key a = s_session_key b /\ Session_endpoint a = Session_endpoint b.

Lemma get_touch env l sv l' s :
  get (sv_sessions sv) l' = Some s ->
  exists s', get (sv_sessions (touch_session cf env l sv)) l' = Some s' /\ same_description s' s.
Proof.
  intros Hg. unfold get, touch_session, touch, update in *. simpl.
  destruct (decide (l' = l)) as [->|].
  - rewrite lookup_alter_eq, Hg. eexists. by split.
  - rewrite lookup_alter_ne by done. rewrite Hg. eexists. by split.
Qed.

Lemma find_session_of_touch env l id src sv l' s :
  find_session_of session_hash id src sv = Some (l', s) ->
  exists s', find_session_of session_hash id src (touch_session cf env l sv) = Some (l', s') /\
    same_description s' s.
Proof.
  unfold find_session_of, find_session, table.
  change (session session_hash (sv_sessions (touch_session cf env l sv)) id)
    with (session session_hash (sv_sessions sv) id).
  destruct (session session_hash (sv_sessions sv) id) as [l0|]; [|done]. simpl.
  destruct (get (sv_sessions sv) l0) as [s0|] eqn:Eg; [|done]. simpl.
  case_bool_decide as Hp; [|done]. intros [= <- <-].
  destruct (get_touch env l sv l0 s0 Eg) as (s' & Hg & Hd). simpl in Hg. rewrite Hg. simpl.
  exists s'. split; [|done]. rewrite bool_decide_true; [done|]. by destruct Hd as [-> _].
Qed.

Lemma live_session_touched env l sv n d :
  live_session sv n = Some d ->
  exists d', live_session (touch_session cf env l sv) n = Some d' /\ same_description d' d.
Proof.
  unfold live_session. change (latest (sv_sessions (touch_session cf env l sv)) n)
    with (latest (sv_sessions sv) n).
  destruct (latest (sv_sessions sv) n) as [k|]; [|done]. apply get_touch.
Qed.

(** A change of the server that clients do not see: the same sessions answer at
    the same places. *)
Record keeps (sv sv' : Server) : Prop := {
  keeps_live n d : live_session sv n = Some d ->
    exists d', live_session sv' n = Some d' /\ same_description d' d;
  keeps_session id src l s : find_session_of session_hash id src sv = Some (l, s) ->
    exists s', find_session_of session_hash id src sv' = Some (l, s') /\ same_description s' s;
  keeps_sent : sv_sent sv' = sv_sent sv }.

Lemma same_description_refl a : same_description a a.
Proof. done. Qed.

Lemma same_description_trans a b c :
  same_description a b -> same_description b c -> same_description a c.
Proof. unfold same_description. intuition congruence. Qed.

Lemma same_sessions_trans a b c : keeps a b -> keeps b c -> keeps a c.
Proof.
  intros [L1 S1 E1] [L2 S2 E2]. split; [| |congruence].
  - intros n d (d1 & K1 & D1)%L1. apply L2 in K1 as (d2 & K2 & D2).
    eauto using same_description_trans.
  - intros id src l s (s1 & K1 & D1)%S1. apply S2 in K1 as (s2 & K2 & D2).
    eauto using same_description_trans.
Qed.

Lemma keeps_touch env l sv : keeps sv (touch_session cf env l sv).
Proof.
  split; [apply live_session_touched|intros *; apply find_session_of_touch|done].
Qed.

Lemma keeps_slots slots sv : keeps sv (with_slots slots sv).
Proof. split; [..|done]; by eauto using same_description_refl. Qed.

Lemma keeps_find_node n sv : exists sv',
  find_node n sv = (live_session sv n, sv') /\ keeps sv sv' /\ sv_slots sv' = sv_slots sv.
Proof.
  destruct (find_node_keeps n sv) as (sv' & Hf & Hl & Hs & Hsl & Hse). exists sv'.
  split; [done|]. split; [|done]. split; [| |done].
  - intros n' d Hd. rewrite Hl. by eauto using same_description_refl.
  - intros *. rewrite Hs. by eauto using same_description_refl.
Qed.

(** What the server tells about a session. *)
Definition describes (info : response_Node) (d : Session) : Prop :=
  rn_identities info = map Identity_to_proto (s_keys d) /\
  rn_endpoints info = option_list (Session_endpoint d) /\
  rn_supported_encryptions info = s_supported_encryptions d /\
  rn_session_pub_key info = from_option (fun k => pk_bytes k.1) [] (s_session_key d) /\
  rn_session_key_proof info =
    from_option (fun k => from_option (fun i => default [] (k.2 !! ni_node_id i)) [] (head (s_keys d))) []
      (s_session_key d) /\
  rn_session_key_proofs info =
    from_option (fun k => map (fun i => default [] (k.2 !! ni_node_id i)) (s_keys d)) [] (s_session_key d).

Lemma to_node_info_spec env d n sv : exists info,
  to_node_info cf env d n true sv = (info, with_slots (SlotManager_slot (sv_slots sv) n).2 sv) /\
  rn_slot info = (SlotManager_slot (sv_slots sv) n).1 /\ describes info d.
Proof.
  unfold to_node_info. destruct (SlotManager_slot (sv_slots sv) n) as [k slots].
  destruct (s_session_key d) as [[key proofs]|] eqn:Ek; eexists; split; try done; split; try done;
    unfold describes; rewrite Ek; simpl; destruct (Session_endpoint d); split_and!; try done;
    by destruct (s_keys d).
Qed.

Lemma describes_same info a b : same_description a b -> describes info a -> describes info b.
Proof.
  intros (_ & _ & _ & Hk & He & Hs & Hp). unfold describes. by rewrite Hk, He, Hs, Hp.
Qed.

(** The answer to a lookup of a node with a live session. *)
Lemma node_handle_spec env src request_id id nid n sv l s d :
  find_session_of session_hash id src sv = Some (l, s) ->
  NodeId_try_from nid = Some n -> live_session sv n = Some d ->
  exists info sv',
    node_handle session_hash cf env src request_id id nid sv =
      (Some (Packet_response request_id id StatusOk (RsNode info)), sv') /\
    keeps sv sv' /\ describes info d /\
    rn_slot info = (SlotManager_slot (sv_slots sv) n).1 /\
    sv_slots sv' = (SlotManager_slot (sv_slots sv) n).2.
Proof.
  intros Hf Hn Hd. unfold node_handle. rewrite Hf, Hn.
  pose proof (keeps_touch env l sv) as K1. destruct (keeps_live _ _ K1 _ _ Hd) as (d1 & Hd1 & D1).
  destruct (keeps_find_node n (touch_session cf env l sv)) as (sv1 & -> & K2 & Hsl). rewrite Hd1.
  destruct (to_node_info_spec env d1 n sv1) as (info & -> & Hslot & Hde).
  rewrite Hsl in *. exists info. eexists. split; [done|]. split; [|by eauto using describes_same].
  eapply same_sessions_trans; [exact K1|]. eapply same_sessions_trans; [exact K2|apply keeps_slots].
Qed.

(** A datagram from a session to a slot of a node with a live session. *)
Lemma forward_handle_spec env src id slot n flags payload sv l s d :
  SlotManager.sm_inv (sv_slots sv) -> zlen (sm_slots (sv_slots sv)) < 2 ^ 32 ->
  find_session_of session_hash id src sv = Some (l, s) ->
  SlotManager_node (sv_slots sv) slot = Some n -> live_session sv n = Some d ->
  exists k sv', forward_handle session_hash cf env src id slot flags payload sv = (None, sv') /\
    (SlotManager_slot (sv_slots sv) (s_node_id s)).1 = k /\
    SlotManager_node (sv_slots sv') k = Some (s_node_id s) /\
    sv_sent sv' = sv_sent sv ++
      [(s_peer d, DgForward {| fw_session_id := s_session_id d; fw_slot := k;
                               fw_flags := flags; fw_payload := payload |})].
Proof.
  intros Hi Hlt Hf Hslot Hd. unfold forward_handle. rewrite Hf.
  destruct (SlotManager_slot (sv_slots sv) (s_node_id s)) as [k slots] eqn:Ek.
  pose proof (slot_keeps (sv_slots sv) (s_node_id s) slot n Hslot) as Hn.
  pose proof (slot_node _ _ _ _ Hi Hlt Ek) as Hk. rewrite Ek in Hn. simpl in Hn.
  change (sv_slots (touch_session cf env l (with_slots slots sv))) with slots. rewrite Hn.
  pose proof (same_sessions_trans _ _ _ (keeps_slots slots sv) (keeps_touch env l _)) as K.
  destruct (keeps_live _ _ K _ _ Hd) as (d1 & Hd1 & Hp & Hid & _).
  destruct (keeps_find_node n (touch_session cf env l (with_slots slots sv))) as (sv1 & -> & K1 & Hsl).
  rewrite Hd1. simpl. exists k. eexists. split; [done|]. simpl. rewrite Hsl. split; [done|]. split; [done|].
  by rewrite (keeps_sent _ _ K1), (keeps_sent _ _ K), Hp, Hid.
Qed.

(** A request for a reverse connection to a node with a live session. *)
Lemma rc_handle_spec env src request_id id nid n sv l s d :
  find_session_of session_hash id src sv = Some (l, s) ->
  NodeId_try_from nid = Some n -> live_session sv n = Some d ->
  exists sv',
    rc_handle session_hash cf env src request_id id nid sv =
      (rc_reply request_id id (if is_valid (s_addr_status s) then StatusOk else BadRequest), sv') /\
    sv_sent sv' = sv_sent sv ++
      (e ← option_list (Session_endpoint s);
       [(s_peer d, DgPacket (Packet_control (s_session_id d) (CtReverseConnection (s_node_id s) [e])))]).
Proof.
  intros Hf Hn Hd. unfold rc_handle. rewrite Hf, Hn. pose proof (keeps_touch env l sv) as K1.
  destruct (Session_endpoint s) as [e|] eqn:Ee.
  - destruct (keeps_live _ _ K1 _ _ Hd) as (d1 & Hd1 & Hp & Hid & _).
    destruct (keeps_find_node n (touch_session cf env l sv)) as (sv1 & -> & K2 & Hsl). rewrite Hd1.
    eexists. split; [by unfold Session_endpoint in Ee; destruct (s_addr_status s)|]. simpl.
    by rewrite (keeps_sent _ _ K2), Hp, Hid.
  - eexists. split; [by unfold Session_endpoint in Ee; destruct (s_addr_status s)|].
    simpl. by rewrite app_nil_r.
Qed.

Lemma slot_handle_spec env src request_id id slot n sv l s d :
  find_session_of session_hash id src sv = Some (l, s) ->
  SlotManager_node (sv_slots sv) slot = Some n -> live_session sv n = Some d ->
  exists info sv',
    slot_handle session_hash cf env src request_id id slot sv =
      (Some (Packet_response request_id id StatusOk (RsNode info)), sv') /\
    describes info d /\ rn_slot info = (SlotManager_slot (sv_slots sv) n).1.
Proof.
  intros Hf Hn Hd. unfold slot_handle. rewrite Hf. change (sv_slots (touch_session cf env l sv))
    with (sv_slots sv). rewrite Hn.
  destruct (keeps_live _ _ (keeps_touch env l sv) _ _ Hd) as (d1 & Hd1 & D1).
  destruct (keeps_find_node n (touch_session cf env l sv)) as (sv1 & -> & K2 & Hsl). rewrite Hd1.
  destruct (to_node_info_spec env d1 n sv1) as (info & -> & Hslot & Hde).
  rewrite Hsl in *. exists info. eexists. split; [done|]. by eauto using describes_same.
Qed.

Lemma SlotManager_slot_again sl n :
  (SlotManager_slot (SlotManager_slot sl n).2 n).1 = (SlotManager_slot sl n).1.
Proof.
  unfold SlotManager_slot at 2 3. destruct (sm_nodes sl !! n) as [i|] eqn:E; simpl.
  - unfold SlotManager_slot. by rewrite E.
  - unfold SlotManager_slot. simpl. by rewrite lookup_insert_eq.
Qed.

End Directory.

Section Witness.
Import ToyCrypto ToyIp ToySessions ToyServer.

End Witness.
