(* ===== verification/ServerRestart.v ===== *)
(** Saving the state of the server when it stops and starting from it again:
    [Server::save_state] and [run] of [server/src/server.rs], and [main] of
    [server/src/bin/ya-relay-server.rs].  Opening files is not modelled. *)

From S2P Require Import Prelude Payload Proto Codec Challenge NodeInfo ServerState.
From S2P Require Import SessionManager SessionNodes SessionStore SlotManager ServerCore IpChecker.
From S2P Require Import Handlers Server ToyServer RelayProps DirectoryProps.

Section Restart.
Context `{Hashes} `{EthSign} `{IpText} `{Semver} `{Keccak}.
Context `{!CacheOps SocketAddr (Z * bool)} `{!CacheOps SessionId Z}.
Context `{Rmp SessionData} `{Rmp SessionDataOld}.
Context (session_hash : SessionId -> Z) (cf : ServerConfig).

(** [save_state]: a file of sessions in the old format is left as it is. *)
Definition save_state (sv : Server) (dir : StateDir) : StateDir :=
  {| sd_slots := Some (SlotManager_save (sv_slots sv));
     sd_sessions := Some (SessionManager_save (sv_sessions sv));
     sd_sessions_old := sd_sessions_old dir |}.

Lemma save_slots_length (m : SlotManager) :
  SlotManager.sm_inv m -> (length (sm_slots m) <= length (SlotManager_save m))%nat.
Proof.
  intros Hm. pose proof (zlen_concat_slots (sm_slots m) (inv_len m Hm)) as Hl.
  unfold SlotManager_save, zlen in *. lia.
Qed.

(** The state that is loaded: the sessions always, the slots if there are few. *)
Lemma load_saved `{!EthSignLaws} `{!RmpLaws SessionData} now sv dir :
  SessionManager.sm_inv session_hash (sv_sessions sv) -> SlotManager.sm_inv (sv_slots sv) ->
  (forall id l s, table session_hash (sv_sessions sv) id = Some (l, s) -> persistable s) ->
  exists m, load_state session_hash cf now (Some (save_state sv dir)) =
      Ret (if SlotManager_len (sv_slots sv) <=? 409 then sv_slots sv else SlotManager_new, m) /\
    SessionManager.sm_inv session_hash m /\
    (forall id l s, table session_hash (sv_sessions sv) id = Some (l, s) ->
       exists k l', table session_hash m id = Some (l', reload (cf_server_start cf) (now k) s)) /\
    (forall id, session session_hash (sv_sessions sv) id = None -> session session_hash m id = None) /\
    fully_linked session_hash m.
Proof.
  intros Hm Hs Hp.
  destruct (sessions_save_load session_hash (cf_server_start cf) now (sv_sessions sv) Hm Hp)
    as (m & Hl & Hinv & Ht & Hn & Hf).
  exists m. split_and!; try done. unfold load_state, save_state.
  cbn [sd_slots sd_sessions sd_sessions_old]. rewrite Hl.
  assert (SlotManager_load (S (length (SlotManager_save (sv_slots sv)))) (SlotManager_save (sv_slots sv))
    = Some (if SlotManager_len (sv_slots sv) <=? 409 then Ok (sv_slots sv) else Err WrongFileSize)) as ->.
  { apply slot_save_load; [done|]. pose proof (save_slots_length _ Hs). lia. }
  by destruct (_ <=? 409).
Qed.

(** A node some session of the table belongs to has a live session of the table. *)
Lemma linked_live m n id l d :
  SessionManager.sm_inv session_hash m -> fully_linked session_hash m ->
  table session_hash m id = Some (l, d) -> n ∈ map ni_node_id (s_keys d) ->
  exists id' l' d', (latest m n ≫= get m) = Some d' /\ table session_hash m id' = Some (l', d') /\
    n ∈ map ni_node_id (s_keys d').
Proof.
  intros Hm Hf Ht Hn.
  assert (Forall (fun x => alive m x = true) (node_refs m n)) as Hall.
  { apply Forall_forall. intros x (id' & s' & [Hx _]%table_session & _)%Hf. by eapply session_alive. }
  unfold latest. rewrite live_refs_alive by done.
  assert (l ∈ node_refs m n) as Hin by (apply Hf; eauto).
  destruct (last (node_refs m n)) as [x|] eqn:El.
  2: { apply last_None in El. rewrite El in Hin. by apply not_elem_of_nil in Hin. }
  apply last_Some_elem_of in El. apply Hf in El as (id' & d' & Ht' & Hn').
  exists id', x, d'. split_and!; [|done|done]. simpl. by apply table_session in Ht' as [_ ?].
Qed.

Lemma start_saved `{!EthSignLaws} `{!RmpLaws SessionData} now sv dir mode request_id :
  SessionManager.sm_inv session_hash (sv_sessions sv) -> SlotManager.sm_inv (sv_slots sv) ->
  (forall id l s, table session_hash (sv_sessions sv) id = Some (l, s) -> persistable s) ->
  exists sv1, start session_hash cf now (Some (save_state sv dir)) mode request_id = Ret sv1 /\
    sv_slots sv1 = (if SlotManager_len (sv_slots sv) <=? 409 then sv_slots sv else SlotManager_new) /\
    sv_sent sv1 = [] /\
    (forall id l s, find_session session_hash id sv = Some (l, s) ->
       exists k l', find_session session_hash id sv1 =
         Some (l', reload (cf_server_start cf) (now k) s)) /\
    (forall id, find_session session_hash id sv = None -> find_session session_hash id sv1 = None) /\
    (forall n id l d, find_session session_hash id sv = Some (l, d) -> n ∈ map ni_node_id (s_keys d) ->
       exists id' l' d' k, find_session session_hash id' sv = Some (l', d') /\
         n ∈ map ni_node_id (s_keys d') /\
         live_session sv1 n = Some (reload (cf_server_start cf) (now k) d')).
Proof.
  intros Hm Hs Hp. destruct (load_saved now sv dir Hm Hs Hp) as (m & Hl & Hinv & Ht & Hn & Hf).
  unfold start. rewrite Hl. eexists. split; [done|]. simpl.
  assert (forall id, table session_hash (set_mode m mode) id = table session_hash m id) as Hmode by done.
  split_and!; [done|done|done| |].
  - intros id Hid. unfold find_session in *. cbn [sv_sessions]. rewrite Hmode.
    apply table_None; [done|]. apply Hn. by apply table_None in Hid.
  - intros n id l d Hd Hk. destruct (Ht _ _ _ Hd) as (k & l' & Hd').
    destruct (linked_live m n id l' _ Hinv Hf Hd' Hk) as (id2 & l2 & d2 & Hlive & Ht2 & Hk2).
    destruct (table session_hash (sv_sessions sv) id2) as [[l3 d3]|] eqn:E3.
    + destruct (Ht _ _ _ E3) as (k3 & l4 & Hr4). rewrite Hr4 in Ht2. injection Ht2 as <- <-.
      exists id2, l3, d3, k3. split_and!; [done|done|]. exact Hlive.
    + apply table_None in E3; [|done]. apply Hn in E3. by apply table_session in Ht2 as [Hx _];
        rewrite E3 in Hx.
Qed.

End Restart.

(** ** Example *)

Section Witness.
Import ToyCrypto ToyIp ToySessions ToyStore.

#[local] Instance no_old_records : Rmp SessionDataOld := {
  rmp_write _ := []; rmp_read _ := None }.

End Witness.
