(* ===== verification/IpCheckProps.v ===== *)
(** Properties of the address check: a session is reported with a valid address
    only after its client answered a ping at that address, and every check
    ends. *)

From S2P Require Import Prelude Payload Proto Codec Challenge NodeInfo ServerState.
From S2P Require Import SessionManager SessionNodes SlotManager.
From S2P Require Import ServerCore IpChecker Handlers Server ServerProps ToyServer.

Create HintDb tracks.

Section Tracks.
Context `{Hashes} `{EthSign} `{IpText} `{Semver} `{Keccak}.
Context `{!CacheOps SocketAddr (Z * bool)} `{!CacheOps SessionId Z}.
Context (session_hash : SessionId -> Z) (cf : ServerConfig).

Definition valid_at (m : SessionManager) (l : loc) : Prop :=
  exists s, get m l = Some s /\ is_valid (s_addr_status s) = true.

(** Sessions stay on the heap with what identifies them, and no address becomes
    valid but those of [X]. *)
Definition heap_step (X : loc -> Prop) (m m' : SessionManager) : Prop :=
  (forall l s, get m l = Some s -> exists s', get m' l = Some s' /\ erase s' = erase s) /\
  (forall l, valid_at m' l -> X l \/ valid_at m l).

(** A request is for a session at the address of that session. *)
Definition request_ok (sv : Server) (req : CheckIpRequest) : Prop :=
  exists s, get (sv_sessions sv) (cr_session req) = Some s /\ s_peer s = cr_addr req.

Record checks_inv (sv : Server) : Prop := {
  checks_queue : Forall (request_ok sv) (sv_check_queue sv);
  checks_requests addr reqs :
    sv_requests sv !! addr = Some reqs ->
    Forall (fun req => request_ok sv req /\ cr_addr req = addr) reqs }.

Definition tracks (X : loc -> Prop) (sv sv' : Server) : Prop :=
  heap_step X (sv_sessions sv) (sv_sessions sv') /\ (checks_inv sv -> checks_inv sv').

Lemma heap_step_refl X m : heap_step X m m.
Proof. split; eauto. Qed.

Lemma heap_step_trans X m1 m2 m3 : heap_step X m1 m2 -> heap_step X m2 m3 -> heap_step X m1 m3.
Proof.
  intros [K1 K2] [K3 K4]. split.
  - intros l s Hs. destruct (K1 l s Hs) as (s2 & Hs2 & E2).
    destruct (K3 l s2 Hs2) as (s3 & Hs3 & E3). exists s3. split; [done|congruence].
  - intros l Hl. destruct (K4 l Hl) as [|Hl2]; [by left|]. by apply K2.
Qed.

Lemma heap_step_same X m m' : sm_heap m' = sm_heap m -> heap_step X m m'.
Proof. intros E. unfold heap_step, valid_at, get. rewrite E. eauto. Qed.

Lemma heap_step_update X m l f :
  (forall s, erase (f s) = erase s) ->
  (forall s, get m l = Some s -> is_valid (s_addr_status (f s)) = true ->
     X l \/ is_valid (s_addr_status s) = true) ->
  heap_step X m (update m l f).
Proof.
  intros Hf Hv. unfold heap_step, valid_at, get, update in *. simpl. split.
  - intros l' s Hs. destruct (decide (l = l')) as [<-|].
    + rewrite lookup_alter_eq, Hs. simpl. eauto.
    + rewrite lookup_alter_ne by done. eauto.
  - intros l' (s & Hs & Hval). apply lookup_alter_Some in Hs as [(<- & s0 & Hs & ->)|[_ Hs]].
    + destruct (Hv s0 Hs Hval); eauto.
    + eauto.
Qed.

Lemma request_ok_step X sv sv' req :
  heap_step X (sv_sessions sv) (sv_sessions sv') -> request_ok sv req -> request_ok sv' req.
Proof.
  intros [Hk _] (s & Hs & Hp). destruct (Hk _ _ Hs) as (s' & Hs' & E). exists s'. split; [done|].
  assert (s_peer (erase s') = s_peer (erase s)) as Hpe by (by rewrite E). simpl in Hpe. congruence.
Qed.

Lemma tracks_refl X sv : tracks X sv sv.
Proof. split; [apply heap_step_refl|done]. Qed.

Lemma tracks_trans X sv1 sv2 sv3 : tracks X sv1 sv2 -> tracks X sv2 sv3 -> tracks X sv1 sv3.
Proof. intros [K1 K2] [K3 K4]. split; [by eapply heap_step_trans|auto]. Qed.

(** A change of the sessions only. *)
Lemma tracks_sessions X sv sv0 f :
  heap_step X (sv_sessions sv0) (f (sv_sessions sv0)) ->
  tracks X sv sv0 -> tracks X sv (on_sessions f sv0).
Proof.
  intros Hf Hev. eapply tracks_trans; [done|]. split; [done|]. intros [Hq Hr]. split.
  - eapply Forall_impl; [exact Hq|]. intros req. by apply (request_ok_step X).
  - intros addr reqs Ha. eapply Forall_impl; [by apply (Hr addr)|].
    intros req [? ?]. split; [|done]. by eapply (request_ok_step X).
Qed.

(** A change of neither the sessions nor the checks. *)
Lemma tracks_other X sv sv0 sv1 :
  sv_sessions sv1 = sv_sessions sv0 -> sv_check_queue sv1 = sv_check_queue sv0 ->
  sv_requests sv1 = sv_requests sv0 -> tracks X sv sv0 -> tracks X sv sv1.
Proof.
  intros E1 E2 E3 Hev. eapply tracks_trans; [done|]. split.
  - rewrite E1. apply heap_step_refl.
  - intros [Hq Hr]. destruct sv0, sv1. simpl in *. subst. split; [exact Hq|exact Hr].
Qed.

Lemma tracks_touch X sv sv0 env l : tracks X sv sv0 -> tracks X sv (touch_session cf env l sv0).
Proof. apply tracks_sessions, heap_step_update; eauto. Qed.

Lemma tracks_status X sv sv0 l st :
  (is_valid st = true -> X l) ->
  tracks X sv sv0 -> tracks X sv (on_sessions (fun m => update m l (set_addr_status st)) sv0).
Proof. intros Hv. apply tracks_sessions, heap_step_update; eauto. Qed.

Lemma tracks_link X sv sv0 l :
  tracks X sv sv0 -> tracks X sv (on_sessions (fun m => link_sessions m l) sv0).
Proof. apply tracks_sessions, heap_step_same, link_same. Qed.

Lemma tracks_send X sv sv0 a d : tracks X sv sv0 -> tracks X sv (send_to a d sv0).
Proof. by apply tracks_other. Qed.
Lemma tracks_request X sv sv0 a id k : tracks X sv sv0 -> tracks X sv (send_request a id k sv0).
Proof. by apply tracks_other. Qed.
Lemma tracks_reply X sv sv0 a d : tracks X sv sv0 -> tracks X sv (reply_control a d sv0).
Proof. by apply tracks_other. Qed.
Lemma tracks_ip_cache X sv sv0 x : tracks X sv sv0 -> tracks X sv (with_ip_cache x sv0).
Proof. by apply tracks_other. Qed.
Lemma tracks_disconnect_cache X sv sv0 x :
  tracks X sv sv0 -> tracks X sv (with_disconnect_cache x sv0).
Proof. by apply tracks_other. Qed.
Lemma tracks_slots X sv sv0 x : tracks X sv sv0 -> tracks X sv (with_slots x sv0).
Proof. by apply tracks_other. Qed.

Lemma tracks_find_node X sv sv0 n r sv1 :
  find_node n sv0 = (r, sv1) -> tracks X sv sv0 -> tracks X sv sv1.
Proof.
  unfold find_node. destruct (node_session_same (sv_sessions sv0) n) as [_ Hh].
  destruct (node_session (sv_sessions sv0) n) as [r0 m]. intros [= <- <-].
  by apply tracks_sessions, heap_step_same.
Qed.

Lemma tracks_node_info X sv sv0 env s context pk r sv1 :
  to_node_info cf env s context pk sv0 = (r, sv1) -> tracks X sv sv0 -> tracks X sv sv1.
Proof.
  unfold to_node_info. intros Heq Hev.
  destruct (SlotManager_slot (sv_slots sv0) context) as [slot slots].
  assert (sv1 = with_slots slots sv0) as ->.
  { destruct pk; [destruct (s_session_key s) as [[? ?]|]|]; by simplify_eq. }
  by apply tracks_slots.
Qed.
End Tracks.

#[export] Hint Resolve tracks_refl tracks_touch tracks_link tracks_send tracks_request : tracks.
#[export] Hint Resolve tracks_reply tracks_ip_cache tracks_disconnect_cache tracks_slots : tracks.
#[export] Hint Resolve tracks_find_node tracks_node_info : tracks.

Section Handlers.
Context `{Hashes} `{EthSign} `{IpText} `{Semver} `{Keccak}.
Context `{!CacheOps SocketAddr (Z * bool)} `{!CacheOps SessionId Z}.
Context (session_hash : SessionId -> Z) (cf : ServerConfig).

Lemma ping_tracks X env src request_id id sv :
  tracks X sv (handle_ping session_hash cf env src request_id id sv).2.
Proof. unfold handle_ping, mark_session. handler_cases; eauto with tracks. Qed.

Lemma node_tracks X env src request_id id n sv :
  tracks X sv (node_handle session_hash cf env src request_id id n sv).2.
Proof. unfold node_handle. handler_cases; eauto with tracks. Qed.

Lemma slot_tracks X env src request_id id n sv :
  tracks X sv (slot_handle session_hash cf env src request_id id n sv).2.
Proof. unfold slot_handle. handler_cases; eauto with tracks. Qed.

Lemma rc_tracks X env src request_id id n sv :
  tracks X sv (rc_handle session_hash cf env src request_id id n sv).2.
Proof. unfold rc_handle. handler_cases; eauto with tracks. Qed.

Lemma forward_tracks X env src id slot flags payload sv :
  tracks X sv (forward_handle session_hash cf env src id slot flags payload sv).2.
Proof. unfold forward_handle. handler_cases; eauto 8 with tracks. Qed.

Lemma node_infos_tracks X sv env ls : forall sv0,
  tracks X sv sv0 -> tracks X sv (node_infos cf env ls sv0).2.
Proof.
  induction ls as [|l ls IH]; intros sv0 Hev; [done|]. simpl.
  destruct (get (sv_sessions sv0) l) as [s|]; [|by apply IH].
  destruct (to_node_info cf env s (s_node_id s) false sv0) as [node sv1] eqn:E.
  apply (tracks_node_info cf X sv) in E; [|done].
  specialize (IH sv1 E). by destruct (node_infos cf env ls sv1).
Qed.

Lemma neighbours_heap m n count : sm_heap (neighbours m n count).2 = sm_heap m.
Proof. rewrite neighbours_state. case_match; [apply node_session_same|done]. Qed.

Lemma neighbours_tracks X env src request_id id count sv :
  tracks X sv (neighbours_handle session_hash cf env src request_id id count sv).2.
Proof.
  unfold neighbours_handle. destruct (find_session_of _ _ _ _) as [[l s]|]; [|simpl; eauto with tracks].
  pose proof (neighbours_heap (sv_sessions sv) (s_node_id s) count) as Hk.
  destruct (neighbours (sv_sessions sv) (s_node_id s) count) as [ls m].
  pose proof (node_infos_tracks X sv env ls (on_sessions (fun _ => m) sv)) as Hn.
  destruct (node_infos cf env ls (on_sessions (fun _ => m) sv)). apply Hn.
  apply tracks_sessions; [|apply tracks_refl]. by apply heap_step_same.
Qed.

Lemma check_tracks X sv sv0 ts l s r :
  get (sv_sessions sv0) l = Some s ->
  tracks X sv sv0 -> tracks X sv (check_ip_status cf ts l s r sv0).
Proof.
  intros Hs Hev. eapply tracks_trans; [done|]. split; [apply heap_step_refl|].
  intros [Hq Hr]. split; [|done]. apply Forall_app. split; [done|].
  apply Forall_singleton. by exists s.
Qed.

Lemma register_tracks X env src request_id id sv :
  (forall l s ts, find_session session_hash id sv = Some (l, s) ->
     cache_get (sv_ip_cache sv) src = Some (ts, true) ->
     elapsed (e_now env) ts < 60 * SECOND -> X l) ->
  tracks X sv (register_handle session_hash cf env src request_id id sv).2.
Proof.
  intros HX. unfold register_handle.
  destruct (find_session session_hash id sv) as [[l s]|] eqn:Ef; [|simpl; eauto with tracks].
  assert (forall ts r, tracks X sv (check_ip_status cf ts l s r (touch_session cf env l sv))) as Hc.
  { intros ts r. apply table_session in Ef as [_ Hg]. eapply tracks_trans; [|].
    - apply (check_tracks X sv sv ts l s r); [done|apply tracks_refl].
    - apply (tracks_touch cf X _ (check_ip_status cf ts l s r sv) env l), tracks_refl. }
  change (sv_ip_cache (touch_session cf env l sv)) with (sv_ip_cache sv).
  destruct (cache_get (sv_ip_cache sv) src) as [[ts v]|] eqn:Ec; [|apply Hc].
  destruct (_ <? _) eqn:Ea; [|apply Hc]. apply Z.ltb_lt in Ea. simpl.
  apply tracks_link, tracks_status; [|eauto with tracks]. destruct v; [|done]. eauto.
Qed.

Lemma session_tracks X env src request_id id req sv r sv' :
  SessionManager.sm_inv session_hash (sv_sessions sv) ->
  session_handle session_hash cf env src request_id id req sv = Ret (r, sv') -> tracks X sv sv'.
Proof.
  intros Hm Hh. unfold session_handle in Hh.
  assert (sv' = sv -> tracks X sv sv') as Hid by (intros ->; apply tracks_refl).
  destruct id as [id|]; [|apply Hid; destruct (validate_client_version _ _); by simplify_eq/=].
  destruct (rqs_challenge_resp req) as [resp|]; [|apply Hid; congruence].
  destruct (recover_identities_from_challenge_with_proof _ _ _ _) as [[[node_id keys] sk]|];
    [|apply Hid; congruence].
  destruct (check_session_id cf env id src) as [valid|]; simpl in Hh; [|done].
  destruct valid; simpl in Hh; [|apply Hid; congruence].
  destruct (session session_hash (sv_sessions sv) id) as [l|] eqn:Es.
  { apply Hid. unfold new_session, session in *. rewrite Es in Hh. repeat case_match; congruence. }
  destruct (new_session_alloc session_hash (sv_sessions sv) (clock_of cf env) id src node_id keys
    (rqs_supported_encryptions req) sk Es) as (s & Hn & Hst). rewrite Hn in Hh.
  injection Hh as <- <-. apply tracks_sessions; [|apply tracks_refl]. split.
  - intros l s0 Hs0. exists s0. split; [|done].
    exact (get_alloc_old session_hash (sv_sessions sv) s l s0 Hm Hs0).
  - intros l (s0 & Hs0 & Hv). change (get (set_shard _ ?m _ _)) with (get m) in Hs0.
    rewrite get_alloc in Hs0. destruct (decide _); [|right; exists s0; done].
    injection Hs0 as <-. by rewrite Hst in Hv.
Qed.

Lemma resolve_tracks X now req status sv sv0 :
  (status = true -> X (cr_session req)) ->
  tracks X sv sv0 -> tracks X sv (resolve now req status sv0).
Proof.
  intros HX Hev. unfold resolve.
  assert (tracks X sv (on_sessions (fun m => update m (cr_session req)
    (set_addr_status (set_valid now status))) sv0)) as Hs
    by (apply tracks_status; [|done]; destruct status; auto).
  destruct (cr_resolve req); [|auto with tracks].
  destruct (get _ _); auto with tracks.
Qed.

(** Resolving leaves the checks alone. *)
Lemma resolve_requests now req status sv :
  sv_requests (resolve now req status sv) = sv_requests sv /\
  sv_check_queue (resolve now req status sv) = sv_check_queue sv.
Proof. unfold resolve. destruct (cr_resolve req); [destruct (get _ _)|]; done. Qed.

(** A request after one more round. *)
Definition retried (r : CheckIpRequest) : CheckIpRequest :=
  if 0 <? cr_retry_cnt r then dec_retry r else r.

Lemma scan_requests_spec now timeout reqs : forall sv,
  let '(kept, pings, sv') := scan_requests now timeout reqs sv in
  tracks (fun _ => False) sv sv' /\ sv_requests sv' = sv_requests sv /\
  forall k, k ∈ kept -> exists r, r ∈ reqs /\ k = retried r /\ elapsed now (cr_ts r) <= timeout.
Proof.
  induction reqs as [|req reqs IH]; intros sv; simpl.
  { split_and!; [apply tracks_refl|done|set_solver]. }
  destruct (upgrade sv (cr_session req)).
  - destruct (timeout <? elapsed now (cr_ts req)) eqn:Et.
    + specialize (IH (resolve now req false sv)).
      destruct (scan_requests _ _ reqs _) as [[kept pings] sv']. destruct IH as (It & Ir & Ik).
      split_and!; [|rewrite Ir; apply resolve_requests|set_solver].
      eapply tracks_trans; [|exact It]. apply resolve_tracks; [done|apply tracks_refl].
    + apply Z.ltb_ge in Et. specialize (IH sv).
      destruct (scan_requests _ _ reqs sv) as [[kept pings] sv']. destruct IH as (It & Ir & Ik).
      assert (forall k, k ∈ retried req :: kept -> exists r, r ∈ req :: reqs /\ k = retried r /\
        elapsed now (cr_ts r) <= timeout) as Hk.
      { intros k [->|Hk]%elem_of_cons; [exists req; set_solver|].
        destruct (Ik k Hk) as (r & ? & ?). exists r. set_solver. }
      unfold retried at 1 in Hk. by destruct (0 <? cr_retry_cnt req).
  - specialize (IH sv). destruct (scan_requests _ _ reqs sv) as [[kept pings] sv'].
    destruct IH as (It & Ir & Ik). split_and!; [done|done|set_solver].
Qed.

Lemma scan_addrs_spec now timeout entries : forall sv,
  let '(tbl, pings, sv') := scan_addrs now timeout entries sv in
  tracks (fun _ => False) sv sv' /\ sv_requests sv' = sv_requests sv /\
  forall addr kept, tbl !! addr = Some kept ->
    kept <> [] /\ exists reqs, (addr, reqs) ∈ entries /\
    forall k, k ∈ kept -> exists r, r ∈ reqs /\ k = retried r /\ elapsed now (cr_ts r) <= timeout.
Proof.
  induction entries as [|[addr reqs] entries IH]; intros sv; simpl.
  { split_and!; [apply tracks_refl|done|done]. }
  pose proof (scan_requests_spec now timeout reqs sv) as Hs.
  destruct (scan_requests now timeout reqs sv) as [[kept pings] sv1]. destruct Hs as (St & Sr & Sk).
  specialize (IH sv1). destruct (scan_addrs now timeout entries sv1) as [[tbl pings'] sv2].
  destruct IH as (It & Ir & Ik). split_and!; [by eapply tracks_trans|congruence|].
  assert (forall a kept', tbl !! a = Some kept' -> kept' <> [] /\ exists reqs0,
    (a, reqs0) ∈ (addr, reqs) :: entries /\ forall k, k ∈ kept' ->
    exists r, r ∈ reqs0 /\ k = retried r /\ elapsed now (cr_ts r) <= timeout) as Htl.
  { intros a kept' Ha. destruct (Ik a kept' Ha) as (Hne & reqs0 & Hin & Hk).
    split; [done|]. exists reqs0. split; [by right|done]. }
  destruct kept as [|k0 kept]; [done|]. intros a kept' Ha.
  apply lookup_insert_Some in Ha as [[<- <-]|[_ Ha]]; [|by apply Htl].
  split; [done|]. exists reqs. split; [by left|done].
Qed.

(** ** Expired requests *)

Definition settled (now : Z) (l : loc) (sv : Server) : Prop :=
  s_addr_status <$> get (sv_sessions sv) l = Some (Invalid now).

Lemma resolve_get now req status sv l :
  get (sv_sessions (resolve now req status sv)) l =
  (if decide (cr_session req = l) then set_addr_status (set_valid now status) <$> get (sv_sessions sv) l
   else get (sv_sessions sv) l).
Proof.
  transitivity (get (update (sv_sessions sv) (cr_session req)
    (set_addr_status (set_valid now status))) l).
  - unfold resolve. destruct (cr_resolve req); [|done].
    destruct (get (sv_sessions (on_sessions _ sv)) (cr_session req)) as [s|]; [|done].
    simpl. by rewrite get_run_link.
  - unfold get, update. simpl. destruct (decide _) as [<-|]; [apply lookup_alter_eq|].
    by rewrite lookup_alter_ne.
Qed.

Lemma settled_resolve now req sv l : settled now l sv -> settled now l (resolve now req false sv).
Proof.
  unfold settled. rewrite resolve_get. destruct (decide _); [|done].
  destruct (get (sv_sessions sv) l); done.
Qed.

Lemma upgrade_resolve now req status sv l :
  is_Some (upgrade sv l) -> is_Some (upgrade (resolve now req status sv) l).
Proof.
  unfold upgrade.
  assert (alive (sv_sessions (resolve now req status sv)) l = alive (sv_sessions sv) l) as ->.
  { unfold resolve. destruct (cr_resolve req); [|done].
    destruct (get (sv_sessions (on_sessions _ sv)) (cr_session req)) as [s|]; [|done].
    simpl. unfold alive, strong. rewrite (proj1 (link_same _ _)), link_held. done. }
  destruct (alive (sv_sessions sv) l); [|done]. rewrite resolve_get.
  destruct (decide _); [|done]. by intros [s ->].
Qed.

Lemma scan_requests_settles now timeout reqs : forall sv,
  let sv' := (scan_requests now timeout reqs sv).2 in
  (forall l, settled now l sv -> settled now l sv') /\
  (forall l, is_Some (upgrade sv l) -> is_Some (upgrade sv' l)) /\
  (forall r, r ∈ reqs -> timeout < elapsed now (cr_ts r) ->
     is_Some (upgrade sv (cr_session r)) -> settled now (cr_session r) sv').
Proof.
  induction reqs as [|req reqs IH]; intros sv; simpl; [set_solver|].
  destruct (upgrade sv (cr_session req)) as [s|] eqn:Eu.
  - destruct (timeout <? elapsed now (cr_ts req)) eqn:Et.
    + destruct (IH (resolve now req false sv)) as (I1 & I2 & I3). split_and!.
      * intros l Hl. by apply I1, settled_resolve.
      * intros l Hl. by apply I2, upgrade_resolve.
      * intros r [->|Hr]%elem_of_cons Hto Hu; [|by apply I3, upgrade_resolve].
        apply I1. unfold settled. rewrite resolve_get, decide_True by done.
        unfold upgrade in Eu. destruct (alive _ _); [|done]. by rewrite Eu.
    + apply Z.ltb_ge in Et. specialize (IH sv).
      destruct (scan_requests now timeout reqs sv) as [[kept pings] sv'].
      destruct IH as (I1 & I2 & I3).
      assert (forall r, r ∈ req :: reqs -> timeout < elapsed now (cr_ts r) ->
        is_Some (upgrade sv (cr_session r)) -> settled now (cr_session r) sv')
        by (intros r [->|Hr]%elem_of_cons; [lia|auto]).
      by destruct (0 <? cr_retry_cnt req).
  - destruct (IH sv) as (I1 & I2 & I3). split_and!; [done|done|].
    intros r [->|Hr]%elem_of_cons Hto Hu; [|by apply I3]. rewrite Eu in Hu. by destruct Hu.
Qed.

Lemma scan_addrs_settles now timeout entries : forall sv,
  let sv' := (scan_addrs now timeout entries sv).2 in
  (forall l, settled now l sv -> settled now l sv') /\
  (forall addr reqs r, (addr, reqs) ∈ entries -> r ∈ reqs -> timeout < elapsed now (cr_ts r) ->
     is_Some (upgrade sv (cr_session r)) -> settled now (cr_session r) sv').
Proof.
  induction entries as [|[addr reqs] entries IH]; intros sv; simpl; [set_solver|].
  pose proof (scan_requests_settles now timeout reqs sv) as Hs.
  destruct (scan_requests now timeout reqs sv) as [[kept pings] sv1]. destruct Hs as (S1 & S2 & S3).
  specialize (IH sv1). destruct (scan_addrs now timeout entries sv1) as [[tbl pings'] sv2].
  destruct IH as (I1 & I2). split; [auto|].
  intros a rs r [[= -> ->]|Hin]%elem_of_cons Hr Hto Hu; [by apply I1, S3|]. eauto.
Qed.

Lemma send_all_pings pings : forall sv,
  let sv' := foldl (fun sv s => send_request (s_peer s) (s_session_id s) RqPing sv) sv pings in
  sv_sessions sv' = sv_sessions sv /\ sv_requests sv' = sv_requests sv /\
  sv_check_queue sv' = sv_check_queue sv.
Proof.
  induction pings as [|s pings IH]; intros sv; [done|]. simpl.
  destruct (IH (send_request (s_peer s) (s_session_id s) RqPing sv)) as (-> & -> & ->). done.
Qed.

Lemma checks_with_requests sv x :
  checks_inv sv ->
  (forall addr reqs, x !! addr = Some reqs ->
     Forall (fun req => request_ok sv req /\ cr_addr req = addr) reqs) ->
  checks_inv (with_requests x sv).
Proof. intros [Hq _] Hx. by split. Qed.

Lemma send_pings_tracks X now timeout sv : tracks X sv (send_pings now timeout sv).
Proof.
  unfold send_pings.
  pose proof (scan_addrs_spec now timeout (map_to_list (sv_requests sv)) sv) as Hs.
  destruct (scan_addrs _ _ _ _) as [[tbl pings] sv1]. destruct Hs as ([Hh Hc] & Hr & Hk).
  destruct (send_all_pings pings (with_requests tbl sv1)) as (E1 & E2 & E3).
  apply (tracks_other X sv (with_requests tbl sv1)); [done..|]. clear E1 E2 E3. split.
  - destruct Hh as [K1 K2]. split; [done|]. intros l Hl. destruct (K2 l Hl) as [[]|]; auto.
  - intros Hinv. pose proof (Hc Hinv) as Hinv1. apply checks_with_requests; [done|].
    intros addr kept Ha. destruct (Hk addr kept Ha) as (_ & reqs & Hin & Hkept).
    apply elem_of_map_to_list in Hin. pose proof (checks_requests _ Hinv1 addr reqs) as Hok.
    rewrite Hr in Hok. specialize (Hok Hin). apply Forall_forall. intros k Hk'.
    destruct (Hkept k Hk') as (r & Hrin & -> & _).
    destruct (proj1 (Forall_forall _ _) Hok r Hrin) as [Hro Hra].
    unfold retried. destruct (0 <? cr_retry_cnt r); done.
Qed.

Lemma ping_job_tracks X sv : tracks X sv (ping_job sv).
Proof.
  unfold ping_job. destruct (sv_check_queue sv) as [|req rest] eqn:Eq; [apply tracks_refl|].
  set (sv1 := do_ping req (with_queue rest sv)).
  assert (sv_sessions sv1 = sv_sessions sv /\ sv_requests sv1 = sv_requests sv /\
          sv_check_queue sv1 = rest) as (E1 & E2 & E3)
    by (unfold sv1, do_ping; by destruct (upgrade _ _)).
  split; [simpl; rewrite E1; apply heap_step_refl|]. intros [Hq Hr]. rewrite Eq in Hq.
  apply Forall_cons in Hq as [Hreq Hrest].
  assert (forall r, request_ok sv r -> request_ok (with_requests
    (<[cr_addr req := if forallb (fun p => negb (cr_session req =? cr_session p))
          (default [] (sv_requests sv1 !! cr_addr req))
        then default [] (sv_requests sv1 !! cr_addr req) ++ [req]
        else default [] (sv_requests sv1 !! cr_addr req)]> (sv_requests sv1)) sv1) r) as Hok
    by (intros r (s & Hs & Hp); exists s; simpl; by rewrite E1).
  split.
  - simpl. rewrite E3. eapply Forall_impl; [exact Hrest|]. apply Hok.
  - simpl. rewrite E2. intros addr reqs Ha. rewrite E2 in Hok.
    assert (Forall (fun r => request_ok sv r /\ cr_addr r = addr) reqs) as Hf;
      [|eapply Forall_impl; [exact Hf|]; intros r [? ?]; split; [by apply Hok|done]].
    apply lookup_insert_Some in Ha as [[<- <-]|[_ Ha]]; [|by apply Hr].
    assert (Forall (fun r => request_ok sv r /\ cr_addr r = cr_addr req)
      (default [] (sv_requests sv !! cr_addr req))) as Hd.
    { destruct (sv_requests sv !! cr_addr req) eqn:E; [by apply Hr|constructor]. }
    destruct (forallb _ _); [|done]. apply Forall_app. split; [done|]. by apply Forall_singleton.
Qed.

(** one round of the retry task.  What stays pending was pending at the same
    address, is not older than the timeout and has one retry less, and no
    address is kept without requests; every check that is older than the timeout
    and whose session still exists is resolved: the address counts as invalid
    from now on. *)
Theorem ip_check_round now timeout sv :
  let sv' := send_pings now timeout sv in
  (forall addr kept, sv_requests sv' !! addr = Some kept ->
     kept <> [] /\ exists reqs, sv_requests sv !! addr = Some reqs /\
     forall k, k ∈ kept ->
       exists r, r ∈ reqs /\ k = retried r /\ elapsed now (cr_ts r) <= timeout) /\
  (forall addr reqs r, sv_requests sv !! addr = Some reqs -> r ∈ reqs ->
     timeout < elapsed now (cr_ts r) -> is_Some (upgrade sv (cr_session r)) ->
     s_addr_status <$> get (sv_sessions sv') (cr_session r) = Some (Invalid now)).
Proof.
  intros sv'. unfold sv', send_pings.
  pose proof (scan_addrs_spec now timeout (map_to_list (sv_requests sv)) sv) as Hs.
  pose proof (scan_addrs_settles now timeout (map_to_list (sv_requests sv)) sv) as Hx.
  destruct (scan_addrs _ _ _ _) as [[tbl pings] sv1]. destruct Hs as (_ & _ & Hk).
  destruct Hx as [_ Hx]. destruct (send_all_pings pings (with_requests tbl sv1)) as (E1 & E2 & _).
  rewrite E1, E2. split.
  - intros addr kept Ha. destruct (Hk addr kept Ha) as (Hne & reqs & Hin & Hkept).
    split; [done|]. exists reqs. split; [by apply elem_of_map_to_list|done].
  - intros addr reqs r Ha Hr Hto Hu.
    apply (Hx addr reqs r); [by apply elem_of_map_to_list|done..].
Qed.

(** The sessions whose request a reply of [session_id] answers. *)
Definition answered (reqs : list CheckIpRequest) (session_id : SessionId) (sv : Server) (l : loc)
  : Prop :=
  exists req s, req ∈ reqs /\ cr_session req = l /\ get (sv_sessions sv) l = Some s /\
    s_session_id s = session_id.

Lemma success_loop_tracks now id X reqs : forall sv,
  (forall l, answered reqs id sv l -> X l) ->
  tracks X sv (success_loop now id reqs sv).2 /\
  sv_requests (success_loop now id reqs sv).2 = sv_requests sv /\
  (success_loop now id reqs sv).1 ⊆ reqs.
Proof.
  induction reqs as [|req reqs IH]; intros sv HX; simpl.
  { split_and!; [apply tracks_refl|done|done]. }
  assert (forall l, answered reqs id sv l -> X l) as HX'.
  { intros l (r & s & Hr & Hrest). apply HX. exists r, s. split; [by right|done]. }
  destruct (upgrade sv (cr_session req)) as [s|] eqn:Eu.
  - case_bool_decide as Hid.
    + assert (tracks X sv (resolve now req true sv)) as Ht.
      { apply resolve_tracks; [|apply tracks_refl]. intros _. apply HX. exists req, s.
        unfold upgrade in Eu. destruct (alive _ _); [|done]. split_and!; [by left|done..]. }
      destruct (IH (resolve now req true sv)) as (I1 & I2 & I3).
      { intros l (r & s' & Hr & Hl & Hg & Hs'). apply HX'. rewrite resolve_get in Hg.
        destruct (decide _); [|exists r, s'; done].
        destruct (get (sv_sessions sv) l) as [s0|] eqn:E0; [|done]. simplify_eq/=.
        exists r, s0. done. }
      split_and!; [by eapply tracks_trans|by rewrite I2; apply resolve_requests|set_solver].
    + destruct (IH sv HX') as (I1 & I2 & I3). destruct (success_loop now id reqs sv) as [kept sv'].
      split_and!; [done|done|set_solver].
  - destruct (IH sv HX') as (I1 & I2 & I3). split_and!; [done|done|set_solver].
Qed.

Lemma resolve_success_tracks now peer wire X sv :
  (forall id reqs l, SessionId_try_from wire = Some id -> sv_requests sv !! peer = Some reqs ->
     answered reqs id sv l -> X l) ->
  tracks X sv (resolve_success now peer wire sv).
Proof.
  intros HX. unfold resolve_success. destruct (SessionId_try_from wire) as [id|]; [|apply tracks_refl].
  destruct (sv_requests sv !! peer) as [reqs|] eqn:Er; [|apply tracks_refl].
  destruct (success_loop_tracks now id X reqs sv) as ([Hh Hc] & Hr & Hsub); [by eauto|].
  destruct (success_loop now id reqs sv) as [kept sv']. simpl in *. split; [done|].
  intros Hinv. apply checks_with_requests; [by apply Hc|]. pose proof (Hc Hinv) as Hinv'.
  assert (Forall (fun r => request_ok sv' r /\ cr_addr r = peer) kept) as Hkept.
  { apply Forall_forall. intros r Hrin. pose proof (checks_requests _ Hinv' peer reqs) as Hok.
    rewrite Hr in Hok. by apply (proj1 (Forall_forall _ _) (Hok Er)), Hsub. }
  intros addr rs Ha. destruct kept as [|k kept].
  - apply lookup_delete_Some in Ha as [_ Ha]. by apply (checks_requests _ Hinv').
  - apply lookup_insert_Some in Ha as [[<- <-]|[_ Ha]]; [done|]. by apply (checks_requests _ Hinv').
Qed.

Lemma resolve_unreachable_tracks now peer X sv : tracks X sv (resolve_unreachable now peer sv).
Proof.
  unfold resolve_unreachable. destruct (sv_requests sv !! peer) as [reqs|]; [|apply tracks_refl].
  assert (tracks X sv (with_requests (delete peer (sv_requests sv)) sv)) as Hev.
  { split; [apply heap_step_refl|]. intros Hinv. apply checks_with_requests; [done|].
    intros addr rs [_ Ha]%lookup_delete_Some. by apply (checks_requests _ Hinv). }
  revert Hev. generalize (with_requests (delete peer (sv_requests sv)) sv).
  induction reqs as [|req reqs IH]; intros sv1 Hev; [done|]. simpl. apply IH.
  destruct (upgrade sv1 (cr_session req)); [by apply resolve_tracks|done].
Qed.

(** The two ways an address becomes valid: a reply to a ping that was sent to the
    endpoint of the session, from there and with its id, or a registration from
    an address that was checked less than a minute ago. *)
Definition became_valid (ev : Event) (sv : Server) (l : loc) (s : Session) : Prop :=
  (exists env packet reqs req,
     ev = EvRecv env PtData (s_peer s) packet /\
     sv_requests sv !! s_peer s = Some reqs /\ req ∈ reqs /\ cr_session req = l /\
     SessionId_try_from (pkt_session_id packet) = Some (s_session_id s)) \/
  (exists env src wire request_id endpoints id ts,
     ev = EvDatagram env PtData src
            (KPacket {| pkt_session_id := wire;
                        pkt_kind := Some (PkRequest {| rq_request_id := request_id;
                                                       rq_kind := Some (RqRegister endpoints) |}) |}) /\
     SessionId_from_wire wire = Some (Some id) /\
     session session_hash (sv_sessions sv) id = Some l /\
     cache_get (sv_ip_cache sv) src = Some (ts, true) /\
     elapsed (e_now env) ts < 60 * SECOND).

(** Stated of the session before the step. *)
Definition may_become_valid (ev : Event) (sv : Server) (l : loc) : Prop :=
  exists s, get (sv_sessions sv) l = Some s /\ became_valid ev sv l s.

Lemma unreachable_tracks X env src id sv : tracks X sv (unreachable session_hash env src id sv).
Proof.
  unfold unreachable. destruct (find_session _ _ _) as [[l s]|]; [|apply tracks_refl].
  destruct (_ && _); [|apply tracks_refl].
  apply tracks_sessions; [by apply heap_step_same|apply tracks_refl].
Qed.

Lemma request_tracks env src wire request_id id request sv r sv' :
  SessionManager.sm_inv session_hash (sv_sessions sv) ->
  SessionId_from_wire wire = Some id ->
  dispatch_request session_hash cf env src request_id id request sv = Ret (r, sv') ->
  tracks (may_become_valid (EvDatagram env PtData src
    (KPacket {| pkt_session_id := wire;
                pkt_kind := Some (PkRequest {| rq_request_id := request_id;
                                               rq_kind := Some request |}) |})) sv) sv sv'.
Proof.
  intros Hm Hw Hd. unfold dispatch_request in Hd.
  destruct request; [by eapply session_tracks|..];
    (destruct id as [id|]; [|simplify_eq; apply tracks_refl]);
    injection Hd as Hd; apply (f_equal snd) in Hd; simpl in Hd; subst sv'.
  - apply register_tracks. intros l s ts Hf Hc He. apply table_session in Hf as [Hs Hg].
    exists s. split; [done|]. right. exists env, src, wire, request_id, endpoints, id, ts. done.
  - apply node_tracks.
  - apply slot_tracks.
  - apply neighbours_tracks.
  - apply rc_tracks.
  - apply ping_tracks.
Qed.

Lemma dispatch_tracks env pt src p sv r sv' :
  SessionManager.sm_inv session_hash (sv_sessions sv) ->
  dispatch session_hash cf env pt src p sv = Ret (r, sv') ->
  tracks (may_become_valid (EvDatagram env pt src p) sv) sv sv'.
Proof.
  intros Hm Hd. unfold dispatch in Hd.
  assert (sv' = sv -> tracks (may_become_valid (EvDatagram env pt src p) sv) sv sv') as Hid
    by (intros ->; apply tracks_refl).
  destruct pt; [|destruct p as [[wire [[| |ct]|]]|f|]; simpl in Hd|apply Hid; congruence];
    try (apply Hid; congruence).
  - destruct p as [[wire [[rq|rs|ct]|]]|f|]; try (apply Hid; congruence).
    + destruct rq as [request_id [request|]]; [|apply Hid; congruence].
      destruct (SessionId_from_wire wire) as [id|] eqn:Ew; [|apply Hid; congruence].
      by eapply request_tracks.
    + destruct ct as [[| | | |[[]|]]|]; try (apply Hid; congruence).
      injection Hd as <- <-. unfold disconnect.
      destruct (SessionId_try_from wire); [|apply tracks_refl].
      case_bool_decide; [|apply tracks_refl]. apply tracks_sessions; [|apply tracks_refl].
      apply heap_step_same. unfold remove_session_from. by repeat case_match.
    + injection Hd as Hd. apply (f_equal snd) in Hd. simpl in Hd. subst sv'. apply forward_tracks.
  - destruct ct as [[]|]; try (apply Hid; congruence).
    destruct (SessionId_try_from wire); [|apply Hid; congruence].
    injection Hd as <- <-. apply unreachable_tracks.
  - injection Hd as <- <-. apply unreachable_tracks.
Qed.

Lemma recv_job_tracks env pt peer packet sv :
  checks_inv sv ->
  tracks (may_become_valid (EvRecv env pt peer packet) sv) sv
    (recv_job (e_now env) pt peer packet sv).
Proof.
  intros Hinv. unfold recv_job. destruct pt; [|apply resolve_unreachable_tracks|apply tracks_refl].
  destruct (pkt_kind packet) as [[?|[? ? [[]|]]|?]|]; try apply tracks_refl.
  apply resolve_success_tracks. intros id reqs l Hw Hr (req & s & Hreq & <- & Hg & <-).
  exists s. split; [done|]. left. exists env, packet, reqs, req.
  destruct (proj1 (Forall_forall _ _) (checks_requests _ Hinv peer reqs Hr) req Hreq)
    as [(s' & Hs' & Hp) Ha]. simplify_eq. rewrite Hp. done.
Qed.

Lemma step_tracks ev sv sv' :
  SessionManager.sm_inv session_hash (sv_sessions sv) -> checks_inv sv ->
  server_step session_hash cf ev sv = Ret sv' -> tracks (may_become_valid ev sv) sv sv'.
Proof.
  intros Hm Hinv Hs. destruct ev; simpl in Hs.
  - unfold serve in Hs. destruct (dispatch _ _ _ _ _ _ _) as [[r sv1]|] eqn:Ed; simpl in Hs; [|done].
    apply dispatch_tracks in Ed; [|done]. destruct r; injection Hs as <-; [|done].
    by apply tracks_send.
  - injection Hs as <-. apply ping_job_tracks.
  - injection Hs as <-. apply send_pings_tracks.
  - injection Hs as <-. by apply recv_job_tracks.
  - injection Hs as <-. destruct c as [id silent|id reply|mode]; simpl.
    + destruct (s_peer <$> _); [destruct silent|]; try apply tracks_send;
        (apply tracks_sessions; [by apply heap_step_same|apply tracks_refl]).
    + destruct (find_session _ _ _) as [[l s]|] eqn:Ef; [|apply tracks_reply, tracks_refl].
      apply table_session in Ef as [_ Hg]. by apply check_tracks, tracks_refl.
    + apply tracks_sessions; [by apply heap_step_same|apply tracks_refl].
  - injection Hs as <-. apply tracks_sessions; [by apply heap_step_same|apply tracks_refl].
Qed.

(** C7: an address is believed only after it was checked.  The pending checks
    are for the endpoints of their sessions, and in every step of the server an
    address becomes valid only when a ping sent to the endpoint of the session is
    answered from there with the id of the session, or when its registration
    comes from an address that was checked less than a minute ago. *)
Theorem address_valid_after_check ev sv sv' :
  SessionManager.sm_inv session_hash (sv_sessions sv) -> checks_inv sv ->
  server_step session_hash cf ev sv = Ret sv' ->
  checks_inv sv' /\
  forall l s, get (sv_sessions sv') l = Some s -> is_valid (s_addr_status s) = true ->
    valid_at (sv_sessions sv) l \/ became_valid ev sv l s.
Proof.
  intros Hm Hinv Hs. destruct (step_tracks ev sv sv' Hm Hinv Hs) as [[Hk Hv] Hc].
  split; [by apply Hc|]. intros l s Hg Hval.
  destruct (Hv l) as [(s0 & Hg0 & Hb)|]; [by exists s| |by left]. right.
  destruct (Hk l s0 Hg0) as (s1 & Hs1 & He).
  assert (s1 = s) as -> by congruence.
  assert (s_peer (erase s) = s_peer (erase s0) /\ s_session_id (erase s) = s_session_id (erase s0))
    as [Hp Hi] by (by rewrite He). simpl in Hp, Hi.
  destruct Hb as [(env & packet & reqs & req & Hb)|Hb]; [|by right].
  left. exists env, packet, reqs, req. by rewrite Hp, Hi.
Qed.
End Handlers.

Section Witness.
Import ToyCrypto ToyIp ToySessions ToyServer.

Definition toy_register : Event :=
  EvDatagram (toy_env 720) PtData (toy_peer 1)
    (KPacket {| pkt_session_id := replicate 16 1;
                pkt_kind := Some (PkRequest {| rq_request_id := 4;
                                               rq_kind := Some (RqRegister []) |}) |}).

Lemma address_valid_after_check_witness :
  exists sv', server_step toy_slot toy_config toy_register toy_server = Ret sv' /\
    checks_inv sv' /\
    exists s, get (sv_sessions sv') 0 = Some s /\ became_valid toy_slot toy_register toy_server 0 s.
Proof.
  assert (SessionManager.sm_inv toy_slot (sv_sessions toy_server)) as Hm
    by (apply inv_run_ops, inv_new).
  assert (checks_inv toy_server) as Hc by (split; [constructor|done]).
  assert (match server_step toy_slot toy_config toy_register toy_server with
          | Ret sv' => is_valid <$> (s_addr_status <$> get (sv_sessions sv') 0) = Some true
          | Panic => False end) as Hv by (vm_compute; reflexivity).
  assert (is_valid <$> (s_addr_status <$> get (sv_sessions toy_server) 0) = Some false) as Hn
    by (vm_compute; reflexivity).
  pose proof (address_valid_after_check toy_slot toy_config toy_register toy_server) as Ht.
  destruct (server_step toy_slot toy_config toy_register toy_server) as [sv'|]; [|done].
  destruct (Ht sv' Hm Hc eq_refl) as [Hc' Hb]. exists sv'. split; [done|]. split; [exact Hc'|].
  destruct (get (sv_sessions sv') 0) as [s|] eqn:Eg; [|discriminate Hv].
  exists s. split; [done|]. injection Hv as Hv.
  destruct (Hb 0 s Eg Hv) as [(s0 & Hs0 & Hv0)|Hb']; [|exact Hb'].
  rewrite Hs0 in Hn. injection Hn as Hn. congruence.
Defined.
End Witness.
