(* ===== verification/SessionState.v ===== *)
(** [client/src/session/session_state.rs]: the states of the connection to
    another node and the transitions between them. *)

From S2P Require Import Prelude.

Inductive InitState : Type :=
| ConnectIntent
| Initializing
| ChallengeHandshake
| HandshakeResponse
| ChallengeVerified
| SessionRegistered
| InitReady.

#[export] Instance InitState_eq_dec : EqDecision InitState.
Proof. solve_decision. Defined.

Inductive RelayedState : Type := RelayedInitializing | RelayedReady.

(** [InitState::allowed]. *)
Definition InitState_allowed (prev next : InitState) : bool :=
  match prev, next with
  | ConnectIntent, Initializing => true
  | Initializing, ChallengeHandshake => true
  | ChallengeHandshake, HandshakeResponse => true
  | HandshakeResponse, ChallengeVerified => true
  | ChallengeVerified, SessionRegistered => true
  | SessionRegistered, InitReady => true
  | _, _ => false
  end.

Definition RelayedState_allowed (prev next : RelayedState) : bool :=
  match prev, next with
  | RelayedInitializing, RelayedReady => true
  | _, _ => false
  end.

Section SessionState.
(** The reference to a session object and the error values. *)
Context {DirectSession SessionError : Type}.

Inductive ReverseState : Type :=
| Awaiting
| InProgress (s : InitState)
| Finished (r : result DirectSession SessionError).

Inductive SessionState : Type :=
| Outgoing (s : InitState)
| Incoming (s : InitState)
| ReverseConnection (s : ReverseState)
| Relayed (s : RelayedState)
| Established (d : DirectSession)
| FailedEstablish (e : SessionError)
| Closing
| Closed
| RestartConnect.

Definition ReverseState_allowed (prev next : ReverseState) : bool :=
  match prev, next with
  | Awaiting, InProgress ConnectIntent => true
  | InProgress prev, InProgress next => InitState_allowed prev next
  | InProgress InitReady, Finished (Ok _) => true
  | InProgress _, Finished (Err _) => true
  | _, _ => false
  end.

(** The table of [SessionState::transition]. *)
Definition allowed (s new_state : SessionState) : bool :=
  match s, new_state with
  | Relayed _, FailedEstablish _ => true
  | Incoming _, FailedEstablish _ => true
  | Outgoing _, FailedEstablish _ => true
  | ReverseConnection _, FailedEstablish _ => true
  | RestartConnect, FailedEstablish _ => true
  | FailedEstablish _, FailedEstablish _ => true
  | Incoming InitReady, Established _ => true
  | Outgoing InitReady, Established _ => true
  | Relayed RelayedReady, Established _ => true
  | ReverseConnection (Finished (Ok _)), Established _ => true
  | Outgoing ConnectIntent, ReverseConnection Awaiting => true
  | RestartConnect, ReverseConnection Awaiting => true
  | Outgoing ConnectIntent, Relayed RelayedInitializing => true
  | RestartConnect, Relayed RelayedInitializing => true
  | Closed, Outgoing ConnectIntent => true
  | Closed, Incoming ConnectIntent => true
  | FailedEstablish _, Outgoing ConnectIntent => true
  | FailedEstablish _, Incoming ConnectIntent => true
  | Established _, Established _ => true
  | Relayed _, RestartConnect => true
  | Incoming _, RestartConnect => true
  | Outgoing _, RestartConnect => true
  | ReverseConnection _, RestartConnect => true
  | RestartConnect, RestartConnect => true
  | RestartConnect, Outgoing Initializing => true
  | Established _, Closing => true
  | Closing, Closed => true
  | Incoming prev, Incoming next => InitState_allowed prev next
  | Outgoing prev, Outgoing next => InitState_allowed prev next
  | Relayed prev, Relayed next => RelayedState_allowed prev next
  | ReverseConnection prev, ReverseConnection next => ReverseState_allowed prev next
  | _, _ => false
  end.

(** [TransitionError] of [error.rs]. *)
Inductive TransitionError : Type :=
| InvalidTransition (from to : SessionState)
| NodeNotFound (node_id : list Z).

(** [transition]: the result and the state afterwards. *)
Definition transition (s new_state : SessionState)
  : result SessionState TransitionError * SessionState :=
  if allowed s new_state then (Ok new_state, new_state)
  else (Err (InvalidTransition s new_state), s).

Definition transition_incoming (s : SessionState) (new_state : InitState)
  : result SessionState TransitionError * SessionState :=
  transition s
    (match s with
     | Incoming _ => Incoming new_state
     | ReverseConnection _ => ReverseConnection (InProgress new_state)
     | _ => Incoming new_state
     end).

Definition transition_outgoing (s : SessionState) (new_state : InitState)
  : result SessionState TransitionError * SessionState :=
  transition s (Outgoing new_state).

Definition is_finished (s : SessionState) : bool :=
  match s with
  | Established _ | Closed | FailedEstablish _ => true
  | _ => false
  end.

(** ** Runs *)

(** The states a connection went through by transitions that succeeded, the
    latest first. *)
Inductive run : list SessionState -> Prop :=
| run_start : run [Closed]
| run_step s h new_state s' :
    run (s :: h) -> transition s new_state = (Ok s', s') -> run (s' :: s :: h).

(** The steps of the handshake before a state, the latest first. *)
Definition before (st : InitState) : list InitState :=
  match st with
  | ConnectIntent | Initializing => []
  | ChallengeHandshake => [Initializing]
  | HandshakeResponse => [ChallengeHandshake; Initializing]
  | ChallengeVerified => [HandshakeResponse; ChallengeHandshake; Initializing]
  | SessionRegistered => [ChallengeVerified; HandshakeResponse; ChallengeHandshake; Initializing]
  | InitReady =>
      [SessionRegistered; ChallengeVerified; HandshakeResponse; ChallengeHandshake; Initializing]
  end.

(** A complete handshake, from its end to its beginning. *)
Definition handshake (w : InitState -> SessionState) : list SessionState :=
  map w (InitReady :: before InitReady).

(** The ways to establish a session. *)
Definition completed (hs : list SessionState) : Prop :=
  hs = handshake Outgoing \/ hs = handshake Incoming \/
  (exists d, hs = ReverseConnection (Finished (Ok d)) ::
               handshake (fun st => ReverseConnection (InProgress st))) \/
  hs = [Relayed RelayedReady; Relayed RelayedInitializing].

Definition is_established (s : SessionState) : Prop :=
  match s with Established _ => True | _ => False end.

Definition after_handshake (h : list SessionState) : Prop :=
  exists again hs post, h = again ++ hs ++ post /\ Forall is_established again /\ completed hs.

(** What the history of a state looks like. *)
Definition run_inv (s : SessionState) (h : list SessionState) : Prop :=
  match s with
  | Outgoing st => exists post, h = map Outgoing (before st) ++ post
  | Incoming st => exists post, h = map Incoming (before st) ++ post
  | ReverseConnection (InProgress st) =>
      exists post, h = map (fun st => ReverseConnection (InProgress st)) (before st) ++ post
  | ReverseConnection (Finished (Ok _)) =>
      exists post, h = handshake (fun st => ReverseConnection (InProgress st)) ++ post
  | Relayed RelayedReady => exists post, h = Relayed RelayedInitializing :: post
  | Established _ => after_handshake h
  | _ => True
  end.

Lemma transition_allowed s new_state s' :
  transition s new_state = (Ok s', s') -> s' = new_state /\ allowed s new_state = true.
Proof. unfold transition. destruct (allowed s new_state); intros [=]; by subst. Qed.

Lemma run_allowed s h s' : run (s :: h) -> allowed s s' = true -> run (s' :: s :: h).
Proof. intros Hr Ha. apply (run_step s h s' s'); [done|]. unfold transition. by rewrite Ha. Qed.

Lemma completed_after h hs post : h = hs ++ post -> completed hs -> after_handshake h.
Proof. intros -> Hc. exists [], hs, post. by split; [|split; [constructor|]]. Qed.

(** One more step of the handshake. *)
Lemma before_step prev next :
  InitState_allowed prev next = true -> prev <> ConnectIntent -> before next = prev :: before prev.
Proof. by destruct prev, next. Qed.

Lemma init_step w prev next h :
  InitState_allowed prev next = true ->
  (exists post : list SessionState, h = map w (before prev) ++ post) ->
  exists post, w prev :: h = map w (before next) ++ post.
Proof.
  intros Ha [post ->]. destruct (decide (prev = ConnectIntent)) as [->|Hne].
  - destruct next; try done. simpl. eauto.
  - rewrite (before_step prev next Ha Hne). simpl. eauto.
Qed.

(** The cases of the table that allow a transition. *)
Ltac allowed_cases H :=
  unfold allowed, ReverseState_allowed, InitState_allowed, RelayedState_allowed in H;
  repeat match type of H with context [match ?x with _ => _ end] => destruct x end;
  simpl in *; try discriminate; eauto.

Lemma run_inv_step s h s' : run_inv s h -> allowed s s' = true -> run_inv s' (s :: h).
Proof.
  intros Hi Ha. destruct s' as [st|st|[|st|[d|e]]|[|]|d|e| | |]; simpl; try done.
  - destruct s as [prev| | | | | | | |]; try solve [allowed_cases Ha].
    apply (init_step Outgoing prev st); [by destruct prev, st|done].
  - destruct s as [|prev| | | | | | |]; try solve [allowed_cases Ha].
    apply (init_step Incoming prev st); [by destruct prev, st|done].
  - destruct s as [| |[|prev|]| | | | | |]; try solve [allowed_cases Ha].
    apply (init_step (fun st => ReverseConnection (InProgress st)) prev st); [|done].
    by destruct prev, st.
  - destruct s as [| |[|[]|]| | | | | |]; try solve [allowed_cases Ha].
    destruct Hi as [post ->]. by exists post.
  - destruct s as [| | |[|]| | | | |]; try solve [allowed_cases Ha].
  - destruct s as [[]|[]|[| |[d'|]]|[|]|d'| | | |]; try solve [allowed_cases Ha];
      try destruct Hi as [post ->].
    + eapply completed_after; [|by left]. done.
    + eapply completed_after; [|by right; left]. done.
    + eapply (completed_after _ (_ :: _)); [|right; right; left; by exists d']. done.
    + eapply (completed_after _ [_; _]); [|right; right; by right]. done.
    + destruct Hi as (again & hs & post & -> & Hf & Hc). exists (Established d' :: again), hs, post.
      split; [done|]. split; [by constructor|done].
Qed.

(** A session is established only at the end of a complete handshake.  In
    every run of the state machine an established state is preceded, without
    interruption, by all steps of an outgoing or an incoming handshake in their
    order, by those of a reverse connection that finished with success, or by
    the two steps of a relayed connection. *)
Theorem established_after_handshake h : run h ->
  forall d h', h = Established d :: h' -> after_handshake h'.
Proof.
  intros Hr d h' ->. change (run_inv (Established d) h').
  remember (Established d :: h') as h eqn:E. revert d h' E.
  cut (match h with [] => True | s :: h' => run_inv s h' end); [by intros Hi d h' ->|].
  induction Hr as [|s h new_state s' _ IH Ht]; [done|].
  apply transition_allowed in Ht as [-> Ha]. by apply run_inv_step.
Qed.

(** No connection is stuck.  A state that is not final can always be ended:
    attempts to connect can fail with any error, and a closing session can be
    closed. *)
Theorem connection_can_end (s : SessionState) (e : SessionError) :
  is_finished s = false ->
  (exists s', is_finished s' = true /\ transition s s' = (Ok s', s')) /\
  (s <> Closing -> transition s (FailedEstablish e) = (Ok (FailedEstablish e), FailedEstablish e)).
Proof.
  intros Hf.
  assert (s <> Closing -> transition s (FailedEstablish e) =
    (Ok (FailedEstablish e), FailedEstablish e)) as Hfail
    by (intros Hc; by destruct s as [[]|[]|[|[]|[]]|[]| | | | |]).
  split; [|done]. destruct s; try done; try (exists (FailedEstablish e); split; [done|by apply Hfail]).
  by exists Closed.
Qed.
End SessionState.

(** ** Examples *)

Definition sample_run : list (SessionState (DirectSession := Z) (SessionError := Z)) :=
  [Established 1; Incoming InitReady; Incoming SessionRegistered; Incoming ChallengeVerified;
   Incoming HandshakeResponse; Incoming ChallengeHandshake; Incoming Initializing;
   Incoming ConnectIntent; Closed].

Lemma established_after_handshake_witness :
  run sample_run /\ after_handshake (tail sample_run).
Proof.
  assert (run sample_run) as Hr.
  { do 8 (apply run_allowed; [|reflexivity]). apply run_start. }
  split; [exact Hr|]. exact (established_after_handshake sample_run Hr 1 (tail sample_run) eq_refl).
Defined.
