(* ===== verification/NetworkView.v ===== *)
(** [client/src/session/network_view.rs]: what a client knows about other nodes,
    and the permits that let one task at a time connect to a node.

    The [Arc]s of a [NodeView] (its state behind a lock, the notifier, the epoch
    and the retired flag) are made together in [NodeView::new] and shared by all
    its clones; they are one cell, and a view refers to a cell by its index.  A
    definition is what a task does between two points where it can be
    interrupted, that is from taking the lock of the node or of the registry to
    the next [await]; tasks of the client run on one thread. *)

From S2P Require Import Prelude Proto Challenge NodeInfo SessionState.

(** ** Errors *)

(** [ProtocolError] and [SessionError] of [error.rs]; texts are abbreviated. *)
Inductive ProtocolError : Type :=
| InvalidResponse (msg : string)
| InvalidChallenge (msg : string)
| RecoverId (msg : string)
| SessionNotFound (id : list Z)
| InvalidSessionId (id : list Z).

Inductive SessionError : Type :=
| SeInternal (msg : string)
| SeProtocol (e : ProtocolError)
| SeBadResponse (msg : string)
| SeBadRequest (msg : string)
| SeNetwork (msg : string)
| SeTimeout (msg : string)
| SeAborted (msg : string)
| SeNotFound (msg : string)
| SeRelay (msg : string)
| SeUnexpected (msg : string)
| SeProgrammingError (msg : string)
| SeNotApplicable (msg : string)
| SeGeneric (msg : string).

(** ** Views *)

(** Sessions are referred to by their place in memory, abort handles by a number. *)
Abbreviation SessionRef := nat (only parsing).
Abbreviation AbortHandle := Z (only parsing).
Abbreviation ConnState := (@SessionState nat SessionError) (only parsing).
Abbreviation ConnError := (@TransitionError nat SessionError) (only parsing).
Abbreviation ConnResult := (result nat SessionError) (only parsing).

Section NetworkView.
Context `{EthSign}.

Record NodeViewState : Type := {
  vs_node : list NodeIdentity;
  vs_addresses : list SocketAddr;
  vs_supported_encryption : list string;
  vs_session_key : option PublicKey;
  vs_authenticated_identities : list NodeId;
  vs_state : ConnState;
  vs_slot : Z;
  vs_abort_handle : list AbortHandle }.

(** What the clones of a view share.  [nc_notified] are all the messages sent
    through the notifier. *)
Record NodeCell : Type := {
  nc_state : NodeViewState;
  nc_notified : list ConnState;
  nc_epoch : Z;
  nc_retired : bool;
  nc_last_info_update : Z }.

(** [NodeView]; a [NodeSnapshot] is one with an expected generation. *)
Record NodeView : Type := {
  nv_id : NodeId;
  nv_cell : nat;
  nv_expected_generation : option Z }.

(** [NetworkView], the cells it refers to, the counter of generations and the
    abort handles that were used. *)
Record NetworkView : Type := {
  rg_cells : list NodeCell;
  rg_by_node_id : gmap NodeId NodeView;
  rg_by_addr : gmap SocketAddr NodeView;
  rg_next_generation : Z;
  rg_aborted : list AbortHandle }.

Definition NetworkView_new : NetworkView :=
  {| rg_cells := []; rg_by_node_id := ∅; rg_by_addr := ∅; rg_next_generation := 1;
     rg_aborted := [] |}.

(** [next_generation]. *)
Definition next_generation (w : NetworkView) : Z * NetworkView :=
  (rg_next_generation w,
   {| rg_cells := rg_cells w; rg_by_node_id := rg_by_node_id w; rg_by_addr := rg_by_addr w;
      rg_next_generation := wrap 64 (rg_next_generation w + 1); rg_aborted := rg_aborted w |}).

Definition with_cells (w : NetworkView) (cells : list NodeCell) : NetworkView :=
  {| rg_cells := cells; rg_by_node_id := rg_by_node_id w; rg_by_addr := rg_by_addr w;
     rg_next_generation := rg_next_generation w; rg_aborted := rg_aborted w |}.

Definition with_maps (w : NetworkView) (ids : gmap NodeId NodeView)
  (addrs : gmap SocketAddr NodeView) : NetworkView :=
  {| rg_cells := rg_cells w; rg_by_node_id := ids; rg_by_addr := addrs;
     rg_next_generation := rg_next_generation w; rg_aborted := rg_aborted w |}.

(** [AbortHandle::abort] of some handles. *)
Definition abort_all (w : NetworkView) (handles : list AbortHandle) : NetworkView :=
  {| rg_cells := rg_cells w; rg_by_node_id := rg_by_node_id w; rg_by_addr := rg_by_addr w;
     rg_next_generation := rg_next_generation w; rg_aborted := rg_aborted w ++ handles |}.

(** The fields of a state that an operation replaces. *)
Definition with_state (s : NodeViewState) (state : ConnState) : NodeViewState :=
  {| vs_node := vs_node s; vs_addresses := vs_addresses s;
     vs_supported_encryption := vs_supported_encryption s; vs_session_key := vs_session_key s;
     vs_authenticated_identities := vs_authenticated_identities s; vs_state := state;
     vs_slot := vs_slot s; vs_abort_handle := vs_abort_handle s |}.

Definition with_handles (s : NodeViewState) (handles : list AbortHandle) : NodeViewState :=
  {| vs_node := vs_node s; vs_addresses := vs_addresses s;
     vs_supported_encryption := vs_supported_encryption s; vs_session_key := vs_session_key s;
     vs_authenticated_identities := vs_authenticated_identities s; vs_state := vs_state s;
     vs_slot := vs_slot s; vs_abort_handle := handles |}.

(** [NodeViewState::apply_info] and [NodeViewState::info]. *)
Definition apply_info (s : NodeViewState) (info : NodeInfo) : NodeViewState :=
  {| vs_node := nf_identities info; vs_addresses := map ne_address (nf_endpoints info);
     vs_supported_encryption := nf_supported_encryption info;
     vs_session_key := nf_session_key info;
     vs_authenticated_identities := nf_authenticated info; vs_state := vs_state s;
     vs_slot := nf_slot info; vs_abort_handle := vs_abort_handle s |}.

(** [proto::Protocol::Udp]. *)
Definition PROTOCOL_UDP : Z := 17.

Definition NodeViewState_info (s : NodeViewState) : NodeInfo :=
  {| nf_identities := vs_node s; nf_authenticated := vs_authenticated_identities s;
     nf_slot := vs_slot s;
     nf_endpoints := map (fun addr => {| ne_protocol := PROTOCOL_UDP; ne_address := addr |})
                       (vs_addresses s);
     nf_supported_encryption := vs_supported_encryption s; nf_session_key := vs_session_key s |}.

(** The cell of a view.  Views refer to cells that exist; an absent cell reads as
    a retired one. *)
Definition absent_cell : NodeCell :=
  {| nc_state := {| vs_node := []; vs_addresses := []; vs_supported_encryption := [];
                    vs_session_key := None; vs_authenticated_identities := [];
                    vs_state := Closed; vs_slot := 0; vs_abort_handle := [] |};
     nc_notified := []; nc_epoch := 0; nc_retired := true; nc_last_info_update := 0 |}.

Definition cell (w : NetworkView) (v : NodeView) : NodeCell :=
  match rg_cells w !! nv_cell v with Some c => c | None => absent_cell end.

Definition update_cell (w : NetworkView) (v : NodeView) (f : NodeCell -> NodeCell) : NetworkView :=
  with_cells w (alter f (nv_cell v) (rg_cells w)).

Definition set_view_state (c : NodeCell) (s : NodeViewState) : NodeCell :=
  {| nc_state := s; nc_notified := nc_notified c; nc_epoch := nc_epoch c;
     nc_retired := nc_retired c; nc_last_info_update := nc_last_info_update c |}.

Definition set_epoch (c : NodeCell) (epoch : Z) : NodeCell :=
  {| nc_state := nc_state c; nc_notified := nc_notified c; nc_epoch := epoch;
     nc_retired := nc_retired c; nc_last_info_update := nc_last_info_update c |}.

Definition retire (c : NodeCell) : NodeCell :=
  {| nc_state := with_handles (with_state (nc_state c) Closed) [];
     nc_notified := nc_notified c; nc_epoch := nc_epoch c;
     nc_retired := true; nc_last_info_update := nc_last_info_update c |}.

(** [notify_change]. *)
Definition push_notification (s : ConnState) (c : NodeCell) : NodeCell :=
  {| nc_state := nc_state c; nc_notified := nc_notified c ++ [s]; nc_epoch := nc_epoch c;
     nc_retired := nc_retired c; nc_last_info_update := nc_last_info_update c |}.

Definition notify_change (w : NetworkView) (v : NodeView) (s : ConnState) : NetworkView :=
  update_cell w v (push_notification s).

(** ** Generations *)

Definition generation (w : NetworkView) (v : NodeView) : Z :=
  match nv_expected_generation v with
  | Some g => g
  | None => nc_epoch (cell w v)
  end.

Definition snapshot (w : NetworkView) (v : NodeView) : NodeView :=
  {| nv_id := nv_id v; nv_cell := nv_cell v; nv_expected_generation := Some (generation w v) |}.

Definition is_current (w : NetworkView) (v : NodeView) : bool :=
  negb (nc_retired (cell w v)) && (generation w v =? nc_epoch (cell w v)).

(** [matches!(state, Closed | Closing | FailedEstablish(_))]. *)
Definition is_over (s : ConnState) : bool :=
  match s with Closed | Closing | FailedEstablish _ => true | _ => false end.

(** [publication_guard]: whether the guard is given. *)
Definition publication_guard (w : NetworkView) (v : NodeView) : bool :=
  is_current w v && negb (is_over (vs_state (nc_state (cell w v)))).

(** ** The state of a node *)

Definition NodeView_state (w : NetworkView) (v : NodeView) : ConnState :=
  if is_current w v then vs_state (nc_state (cell w v)) else Closed.

(** Sets the state and notifies, with the lock of the node. *)
Definition change_state (w : NetworkView) (v : NodeView) (s : ConnState) : NetworkView :=
  notify_change (update_cell w v (fun c => set_view_state c (with_state (nc_state c) s))) v s.

Definition begin_closing (w : NetworkView) (v : NodeView) : ConnState * NetworkView :=
  if negb (is_current w v) then (Closed, w)
  else (vs_state (nc_state (cell w v)), change_state w v Closing).

(** [transition], [transition_incoming] and [transition_outgoing] differ in the
    transition of the state. *)
Definition transition_with (f : ConnState -> result ConnState ConnError * ConnState)
  (w : NetworkView) (v : NodeView) : result ConnState ConnError * NetworkView :=
  if negb (is_current w v) then (Err (NodeNotFound (nv_id v)), w)
  else
    match f (vs_state (nc_state (cell w v))) with
    | (Ok new_state, _) => (Ok new_state, change_state w v new_state)
    | (Err e, _) => (Err e, w)
    end.

Definition NodeView_transition (w : NetworkView) (v : NodeView) (new_state : ConnState)
  : result ConnState ConnError * NetworkView :=
  transition_with (fun s => transition s new_state) w v.

Definition NodeView_transition_incoming (w : NetworkView) (v : NodeView) (new_state : InitState)
  : result ConnState ConnError * NetworkView :=
  transition_with (fun s => transition_incoming s new_state) w v.

Definition NodeView_transition_outgoing (w : NetworkView) (v : NodeView) (new_state : InitState)
  : result ConnState ConnError * NetworkView :=
  transition_with (fun s => transition_outgoing s new_state) w v.

(** ** Information about a node *)

Definition public_addresses (w : NetworkView) (v : NodeView) : list SocketAddr :=
  vs_addresses (nc_state (cell w v)).

Inductive Validity (T : Type) : Type :=
| UpToDate (content : T)
| UpdateRecommended (content : T).
Arguments UpToDate {T}.
Arguments UpdateRecommended {T}.

Definition just_get {T} (v : Validity T) : T :=
  match v with UpToDate content | UpdateRecommended content => content end.

(** [NodeView::info], at a time and with the time to live of the configuration. *)
Definition NodeView_info (node_info_ttl now : Z) (w : NetworkView) (v : NodeView)
  : Validity NodeInfo :=
  let c := cell w v in
  let should_update :=
    match vs_node (nc_state c) with
    | [] => true
    | _ =>
        match vs_state (nc_state c) with
        | Established _ => false
        | _ => node_info_ttl <? now - nc_last_info_update c
        end
    end in
  if should_update then UpdateRecommended (NodeViewState_info (nc_state c))
  else UpToDate (NodeViewState_info (nc_state c)).

(** [update_info]; it fails when the first identity is not the one of the view. *)
Definition update_info (w : NetworkView) (v : NodeView) (info : NodeInfo) : bool * NetworkView :=
  let changed :=
    match nf_identities info with
    | ident :: _ => negb (bool_decide (ni_node_id ident = nv_id v))
    | [] => false
    end in
  if changed then (false, w)
  else (true, update_cell w v (fun c => set_view_state c (apply_info (nc_state c) info))).

(** ** Locking *)

Record SessionPermit : Type := {
  sp_registry : NodeView;
  sp_reverse : bool;
  sp_result : option ConnResult }.

(** A waiter, with the number of the notification it receives next. *)
Record NodeAwaiting : Type := { na_registry : NodeView; na_position : nat }.

Inductive SessionLock : Type :=
| Permit (p : SessionPermit)
| Wait (a : NodeAwaiting).

(** [state_notifier.subscribe()]. *)
Definition subscribe (w : NetworkView) (v : NodeView) : nat := length (nc_notified (cell w v)).

Definition is_reverse (s : ConnState) : bool :=
  match s with ReverseConnection _ => true | _ => false end.

(** [lock_session] after its subscription. *)
Definition lock_session (receiver : nat) (w : NetworkView) (v : NodeView) (incoming : bool)
  : SessionLock * NetworkView :=
  let result :=
    if negb (is_current w v) then Err (NodeNotFound (nv_id v))
    else if incoming then (transition_incoming (vs_state (nc_state (cell w v))) ConnectIntent).1
    else (transition_outgoing (vs_state (nc_state (cell w v))) ConnectIntent).1 in
  match result with
  | Ok state =>
      let w := update_cell w v (fun c => set_view_state c (with_state (nc_state c) state)) in
      let reverse := is_reverse state in
      let w :=
        if reverse then w
        else let '(g, w) := next_generation w in update_cell w v (fun c => set_epoch c g) in
      let registry := snapshot w v in
      (Permit {| sp_registry := registry; sp_reverse := reverse; sp_result := None |},
       notify_change w registry state)
  | Err _ => (Wait {| na_registry := snapshot w v; na_position := receiver |}, w)
  end.

Definition awaiting_notifier (w : NetworkView) (v : NodeView) : NodeAwaiting :=
  {| na_registry := snapshot w v; na_position := subscribe w v |}.

(** ** Aborting an initialisation *)

Definition set_abort_handles (handles : list AbortHandle) (c : NodeCell) : NodeCell :=
  set_view_state c (with_handles (nc_state c) handles).

Definition register_abortable (w : NetworkView) (v : NodeView) (abort : AbortHandle) : NetworkView :=
  let s := nc_state (cell w v) in
  if is_current w v && negb (match vs_state s with Closing | Closed => true | _ => false end)
  then update_cell w v (set_abort_handles (vs_abort_handle s ++ [abort]))
  else abort_all w [abort].

Definition unregister_abortable (w : NetworkView) (v : NodeView) : NetworkView :=
  if is_current w v then update_cell w v (set_abort_handles []) else w.

Definition abort_initialization (w : NetworkView) (v : NodeView) : NetworkView :=
  if negb (is_current w v) then w
  else
    let handles := vs_abort_handle (nc_state (cell w v)) in
    abort_all (update_cell w v (set_abort_handles [])) handles.

(** ** The registry *)

(** [NetworkViewState::find] and [find_by_addr]. *)
Definition find_entry (w : NetworkView) (node_id : NodeId) (addrs : list SocketAddr)
  : option NodeView :=
  match rg_by_node_id w !! node_id with
  | Some v => Some v
  | None => head (omap (fun a => rg_by_addr w !! a) addrs)
  end.

Definition get_entry_by_addr (w : NetworkView) (remote : SocketAddr) : option NodeView :=
  rg_by_addr w !! remote.

Definition get_entry (w : NetworkView) (node_id : NodeId) : option NodeView :=
  find_entry w node_id [].

(** [session_target]. *)
Definition session_target (w : NetworkView) (node_id : NodeId) : result NodeView ConnError :=
  match rg_by_node_id w !! node_id with
  | None => Err (NodeNotFound node_id)
  | Some target => Ok target
  end.

(** [NodeView::new], with the current time. *)
Definition NodeView_new (now : Z) (w : NetworkView) (node_id : NodeId) (addresses : list SocketAddr)
  (supported_encryption : list string) (remote_session_key : option PublicKey)
  (authenticated_identities : list NodeId) : NodeView * NetworkView :=
  let '(g, w) := next_generation w in
  ({| nv_id := node_id; nv_cell := length (rg_cells w); nv_expected_generation := None |},
   with_cells w (rg_cells w ++
     [{| nc_state := {| vs_node := []; vs_addresses := addresses;
                        vs_supported_encryption := supported_encryption;
                        vs_session_key := remote_session_key;
                        vs_authenticated_identities := authenticated_identities;
                        vs_state := Closed; vs_slot := FORWARD_SLOT_ID; vs_abort_handle := [] |};
         nc_notified := []; nc_epoch := g; nc_retired := false;
         nc_last_info_update := now |}])).

Definition insert_ids (v : NodeView) (ids : list NodeId) (m : gmap NodeId NodeView)
  : gmap NodeId NodeView :=
  foldl (fun m id => <[id := v]> m) m ids.

Definition insert_addrs (v : NodeView) (addrs : list SocketAddr) (m : gmap SocketAddr NodeView)
  : gmap SocketAddr NodeView :=
  foldl (fun m a => <[a := v]> m) m addrs.

Definition guard (now : Z) (w : NetworkView) (node_id : NodeId) (addrs : list SocketAddr)
  : NodeView * NetworkView :=
  match find_entry w node_id addrs with
  | Some target => (target, w)
  | None =>
      let '(target, w) := NodeView_new now w node_id addrs [] None [] in
      (target, with_maps w (insert_ids target [nv_id target] (rg_by_node_id w))
                 (insert_addrs target addrs (rg_by_addr w)))
  end.

(** [retain] of the entries that are not of a cell. *)
Definition other_cell `{Countable K} (l : nat) (m : gmap K NodeView) : gmap K NodeView :=
  filter (fun kv => nv_cell kv.2 <> l) m.

Definition remove_generation (w : NetworkView) (node : NodeView) : bool * NetworkView :=
  if negb (is_current w node) then (false, w)
  else
    let handles := vs_abort_handle (nc_state (cell w node)) in
    let w := abort_all (update_cell w node retire) handles in
    let w := with_maps w (other_cell (nv_cell node) (rg_by_node_id w))
               (other_cell (nv_cell node) (rg_by_addr w)) in
    (true, notify_change w node Closed).

Definition remove_node (w : NetworkView) (node_id : NodeId) : NetworkView :=
  match get_entry w node_id with
  | Some node => (remove_generation w (snapshot w node)).2
  | None => w
  end.

(** [update_entry].  A node without identities has no default id: a panic. *)
Definition update_entry (now : Z) (w : NetworkView) (info : NodeInfo)
  : outcome (result unit string * NetworkView) :=
  let addrs := map ne_address (nf_endpoints info) in
  let entries := omap (fun ident => get_entry w (ni_node_id ident)) (nf_identities info) in
  let! (entry, w) :=
    match entries with
    | first :: _ =>
        if forallb (fun e => (nv_cell e =? nv_cell first)%nat) entries
        then Ret (Some first, w) else Ret (None, w)
    | [] =>
        let! default_id := NodeInfo_default_node_id info in
        let '(v, w) := NodeView_new now w default_id addrs (nf_supported_encryption info)
                         (nf_session_key info) (nf_authenticated info) in
        Ret (Some v, w)
    end in
  match entry with
  | None => Ret (Err "Inconsistent NetworkView state"%string, w)
  | Some entry =>
      let w := with_maps w
        (insert_ids entry (map ni_node_id (nf_identities info)) (rg_by_node_id w))
        (insert_addrs entry addrs (rg_by_addr w)) in
      Ret (Ok tt, (update_info w entry info).2)
  end.

(** Whether a map leads from some key to another node than that of a cell. *)
Definition conflicts `{Countable K} (l : nat) (m : gmap K NodeView) (keys : list K) : bool :=
  existsb (fun k => match m !! k with Some e => negb (nv_cell e =? l)%nat | None => false end) keys.

(** [commit_refresh]; [publish] changes the tables of the session layer. *)
Definition commit_refresh {L : Type} (now : Z) (w : NetworkView) (owner : NodeView)
  (info : NodeInfo) (publish : L -> result L string) (l : L)
  : result unit string * NetworkView * L :=
  let ids := map ni_node_id (nf_identities info) in
  let addrs := map ne_address (nf_endpoints info) in
  if negb (publication_guard w owner)
  then (Err "Encryption refresh generation was retired"%string, w, l)
  else if negb (existsb (fun id => bool_decide (id = nv_id owner)) ids)
  then (Err "Encryption refresh changed the node identity"%string, w, l)
  else if conflicts (nv_cell owner) (rg_by_node_id w) ids
  then (Err "Encryption refresh conflicts with another identity generation"%string, w, l)
  else if conflicts (nv_cell owner) (rg_by_addr w) addrs
  then (Err "Encryption refresh conflicts with another endpoint generation"%string, w, l)
  else
    match publish l with
    | Err e => (Err e, w, l)
    | Ok l =>
        let live := {| nv_id := nv_id owner; nv_cell := nv_cell owner;
                       nv_expected_generation := None |} in
        let w := with_maps w (insert_ids live ids (rg_by_node_id w))
                   (insert_addrs live addrs (rg_by_addr w)) in
        let w := update_cell w owner (fun c =>
          {| nc_state := apply_info (nc_state c) info; nc_notified := nc_notified c;
             nc_epoch := nc_epoch c; nc_retired := nc_retired c;
             nc_last_info_update := now |}) in
        (Ok tt, w, l)
    end.

(** ** Dropping a permit *)

Definition collect_results (p : SessionPermit) (result : ConnResult) : SessionPermit :=
  {| sp_registry := sp_registry p; sp_reverse := sp_reverse p; sp_result := Some result |}.

Definition final_state (p : SessionPermit) : ConnState :=
  match sp_result p with
  | None =>
      let err := SeProgrammingError "Dropping SessionPermit without result" in
      if sp_reverse p then ReverseConnection (Finished (Err err)) else FailedEstablish err
  | Some result =>
      if sp_reverse p then ReverseConnection (Finished result)
      else match result with
           | Ok session => Established session
           | Err e => FailedEstablish e
           end
  end.

(** [async_drop] runs in a task of its own; these are the points at which it
    waits for a lock. *)
Inductive DropStage : Type :=
| DropStart (new_state : ConnState)
| DropFailed (new_state : ConnState)
| DropUnregisterAbortable (new_state : ConnState)
| DropTransition (new_state : ConnState)
| DropAbort (failure : option ConnState)
| DropUnregister (failure : option ConnState)
| DropFailure (failure : ConnState).

(** What [async_drop] and [clean_state] do from such a point to the next.  Of
    [unregister_generation] this is the part that changes the registry. *)
Definition drop_step (w : NetworkView) (node : NodeView) (stage : DropStage)
  : option DropStage * NetworkView :=
  match stage with
  | DropStart new_state =>
      match NodeView_state w node with
      | Closed | Closing => (None, w)
      | _ =>
          match new_state with
          | FailedEstablish _ => (Some (DropFailed new_state), w)
          | ReverseConnection (Finished _) => (Some (DropTransition new_state), w)
          | _ => (Some (DropUnregisterAbortable new_state), w)
          end
      end
  | DropFailed new_state => (Some (DropAbort None), (NodeView_transition w node new_state).2)
  | DropUnregisterAbortable new_state =>
      (Some (DropTransition new_state), unregister_abortable w node)
  | DropTransition new_state =>
      match NodeView_transition w node new_state with
      | (Ok _, w) => (None, w)
      | (Err _, w) =>
          if is_reverse new_state then (None, w)
          else (Some (DropAbort (Some (FailedEstablish
                  (SeProgrammingError "Failed to transition to state")))), w)
      end
  | DropAbort failure => (Some (DropUnregister failure), abort_initialization w node)
  | DropUnregister failure => (DropFailure <$> failure, (remove_generation w node).2)
  | DropFailure failure => (None, (NodeView_transition w node failure).2)
  end.

(** A drop that is not interrupted. *)
Fixpoint drop_loop (fuel : nat) (w : NetworkView) (node : NodeView) (stage : DropStage)
  : option NetworkView :=
  match fuel with
  | O => None
  | S fuel =>
      match drop_step w node stage with
      | (None, w) => Some w
      | (Some stage, w) => drop_loop fuel w node stage
      end
  end.

Definition async_drop (w : NetworkView) (p : SessionPermit) : option NetworkView :=
  drop_loop 6 w (sp_registry p) (DropStart (final_state p)).

(** ** Waiting *)

(** The receiver of a broadcast channel: it gets the messages in order, and an
    error when more than [capacity] of them are outstanding. *)
Inductive Recv : Type :=
| Received (s : ConnState)
| Lagged (lost : nat)
| Pending.

Definition recv (capacity : nat) (log : list ConnState) (position : nat) : Recv * nat :=
  if (capacity <? length log - position)%nat
  then (Lagged (length log - capacity - position), (length log - capacity)%nat)
  else match log !! position with
       | Some s => (Received s, S position)
       | None => (Pending, position)
       end.

(** [NodeAwaiting::next]; [None] while it waits.  The sender lives as long as the
    view, so the channel is not closed. *)
Definition next (capacity : nat) (w : NetworkView) (a : NodeAwaiting)
  : option (result ConnState SessionError) * NodeAwaiting :=
  if negb (is_current w (na_registry a)) then (Some (Ok Closed), a)
  else
    let '(r, position) := recv capacity (nc_notified (cell w (na_registry a))) (na_position a) in
    let a := {| na_registry := na_registry a; na_position := position |} in
    match r with
    | Received s => (Some (Ok s), a)
    | Lagged _ => (Some (Err (SeInternal "notifier lagged")), a)
    | Pending => (None, a)
    end.

(** The loops of the waiting functions, by what they do with a state: go on or
    return.  A loop that has to wait gives the state it looked at last, and the
    waiter as it is then. *)
Fixpoint await_loop {R} (check : ConnState -> option (result R SessionError)) (capacity fuel : nat)
  (w : NetworkView) (state : ConnState) (a : NodeAwaiting)
  : option (result R SessionError) * ConnState * NodeAwaiting :=
  match check state with
  | Some r => (Some r, state, a)
  | None =>
      match fuel with
      | O => (None, state, a)
      | S fuel =>
          match next capacity w a with
          | (None, a) => (None, state, a)
          | (Some (Err e), a) => (Some (Err e), state, a)
          | (Some (Ok state), a) => await_loop check capacity fuel w state a
          end
      end
  end.

(** A waiter that looked at a state last goes on.  Every round takes a message or
    ends the loop, which bounds the number of rounds. *)
Definition await_from {R} (check : ConnState -> option (result R SessionError)) (capacity : nat)
  (w : NetworkView) (state : ConnState) (a : NodeAwaiting)
  : option (result R SessionError) * ConnState * NodeAwaiting :=
  await_loop check capacity (2 + length (nc_notified (cell w (na_registry a)))) w state a.

Definition await {R} (check : ConnState -> option (result R SessionError)) (capacity : nat)
  (w : NetworkView) (a : NodeAwaiting) : option (result R SessionError) * ConnState * NodeAwaiting :=
  await_from check capacity w (NodeView_state w (na_registry a)) a.

(** [await_for_finish]; [upgrade] tells whether a session is still there. *)
Definition check_finish (upgrade : nat -> bool) (state : ConnState)
  : option (result nat SessionError) :=
  match state with
  | Established session =>
      Some (if upgrade session then Ok session
            else Err (SeUnexpected "Session closed unexpectedly."))
  | Closed => Some (Err (SeUnexpected "Connection closed."))
  | FailedEstablish e => Some (Err e)
  | _ => None
  end.

Definition check_closed_or_failed (state : ConnState) : option (result unit SessionError) :=
  match state with
  | Closed => Some (Err (SeUnexpected "Connection closed."))
  | FailedEstablish e => Some (Err e)
  | _ => None
  end.

Definition check_handshake (state : ConnState) : option (result unit SessionError) :=
  match state with
  | Outgoing ChallengeHandshake
  | Incoming ChallengeHandshake
  | ReverseConnection (InProgress ChallengeHandshake) => Some (Ok tt)
  | Closed | Closing => Some (Err (SeUnexpected "Connection closed."))
  | FailedEstablish e => Some (Err e)
  | _ => None
  end.

Definition check_reverse_finish (state : ConnState) : option (result nat SessionError) :=
  match state with
  | ReverseConnection (Finished result) => Some result
  | Closed | Closing => Some (Err (SeUnexpected "Connection closed."))
  | FailedEstablish e => Some (Err e)
  | _ => None
  end.

Definition await_for_finish (upgrade : nat -> bool) := await (check_finish upgrade).
Definition await_for_closed_or_failed := await check_closed_or_failed.
Definition await_handshake := await check_handshake.
Definition await_reverse_finish := await check_reverse_finish.
End NetworkView.
