(* ===== verification/NetworkViewProps.v ===== *)
(** Properties of the registry of nodes of the client ([NetworkView.v]): its
    entries and generations, and the permits and waiters of tasks that run
    interleaved in any way. *)

From S2P Require Import Prelude Proto Challenge NodeInfo SessionState NetworkView.

Section NetworkViewProps.
Context `{EthSign}.

(** ** Cells *)

Lemma cell_lookup w v c : rg_cells w !! nv_cell v = Some c -> cell w v = c.
Proof. unfold cell. by intros ->. Qed.

Lemma current_cell w v :
  is_current w v = true ->
  exists c, rg_cells w !! nv_cell v = Some c /\ cell w v = c /\ nc_retired c = false /\
            nc_epoch c = generation w v.
Proof.
  unfold is_current. intros Hc. apply andb_true_iff in Hc as [Hr He]. unfold cell in *.
  destruct (rg_cells w !! nv_cell v) as [c|]; [|done]. exists c. apply negb_true_iff in Hr.
  b2p. by split_and!.
Qed.

Lemma change_state_eq w v s :
  change_state w v s =
  update_cell w v (fun c => push_notification s (set_view_state c (with_state (nc_state c) s))).
Proof.
  unfold change_state, notify_change, update_cell, with_cells. cbn. f_equal.
  by rewrite list_alter_alter_eq.
Qed.

Lemma update_cell_lookup w v f l :
  rg_cells (update_cell w v f) !! l =
    if decide (l = nv_cell v) then f <$> rg_cells w !! l else rg_cells w !! l.
Proof.
  unfold update_cell, with_cells. cbn. case_decide as Hl.
  - subst. apply list_lookup_alter_eq.
  - by apply list_lookup_alter_ne.
Qed.

(** ** Invariant of the registry *)

Definition in_progress (s : ConnState) : bool :=
  match s with
  | Outgoing _ | Incoming _ | ReverseConnection _ | Relayed _ | RestartConnect => true
  | _ => false
  end.

(** An entry of the registry is not bound to a generation, and its node is not
    retired. *)
Definition live (w : NetworkView) (v : NodeView) : Prop :=
  nv_expected_generation v = None /\
  exists c, rg_cells w !! nv_cell v = Some c /\ nc_retired c = false.

(** The state of a node is what was notified last, and a retired node is closed. *)
Definition cell_ok (c : NodeCell) : Prop :=
  vs_state (nc_state c) = default Closed (last (nc_notified c)) /\
  (nc_retired c = true -> vs_state (nc_state c) = Closed).

Record view_inv (w : NetworkView) : Prop := {
  vi_ids k v : rg_by_node_id w !! k = Some v -> live w v;
  vi_addrs k v : rg_by_addr w !! k = Some v -> live w v;
  vi_epoch l c : rg_cells w !! l = Some c -> nc_epoch c < rg_next_generation w;
  vi_epochs l1 l2 c1 c2 :
    rg_cells w !! l1 = Some c1 -> rg_cells w !! l2 = Some c2 -> nc_epoch c1 = nc_epoch c2 -> l1 = l2;
  vi_cells l c : rg_cells w !! l = Some c -> cell_ok c;
  vi_next : 0 <= rg_next_generation w }.

(** An update of a cell that leaves its epoch alone and does not retire it. *)
Lemma view_inv_update w v f :
  view_inv w ->
  (forall c, rg_cells w !! nv_cell v = Some c ->
     nc_epoch (f c) = nc_epoch c /\ nc_retired (f c) = nc_retired c /\ cell_ok (f c)) ->
  view_inv (update_cell w v f).
Proof.
  intros Hw Hf.
  assert (forall u, live w u -> live (update_cell w v f) u) as Hlive.
  { intros u [Hu (c & Hc & Hr)]. split; [done|]. rewrite update_cell_lookup. case_decide as Hl.
    - rewrite Hc. exists (f c). split; [done|]. rewrite Hl in Hc. by destruct (Hf c Hc) as (_ & -> & _).
    - by exists c. }
  assert (forall l c', rg_cells (update_cell w v f) !! l = Some c' ->
            exists c, rg_cells w !! l = Some c /\ nc_epoch c' = nc_epoch c /\ cell_ok c') as Hold.
  { intros l c'. rewrite update_cell_lookup. case_decide as Hl.
    - subst l. intros (c & Hc & ->)%fmap_Some. destruct (Hf c Hc) as (? & _ & ?). eauto.
    - intros Hc. exists c'. split_and!; [done..|]. by eapply vi_cells. }
  split.
  - intros k u Hk. apply Hlive. by eapply (vi_ids w Hw).
  - intros k u Hk. apply Hlive. by eapply (vi_addrs w Hw).
  - intros l c' (c & Hc & -> & _)%Hold. by eapply (vi_epoch w Hw).
  - intros l1 l2 c1 c2 (d1 & Hd1 & -> & _)%Hold (d2 & Hd2 & -> & _)%Hold. by eapply (vi_epochs w Hw).
  - intros l c' (c & _ & _ & ?)%Hold. done.
  - apply (vi_next w Hw).
Qed.

Lemma view_inv_same w w' :
  view_inv w -> rg_cells w' = rg_cells w -> rg_by_node_id w' = rg_by_node_id w ->
  rg_by_addr w' = rg_by_addr w -> rg_next_generation w' = rg_next_generation w -> view_inv w'.
Proof.
  intros [] E1 E2 E3 E4. split; unfold live; rewrite ?E1, ?E2, ?E3, ?E4; auto.
Qed.

Lemma view_inv_change w v s :
  view_inv w -> nc_retired (cell w v) = false -> view_inv (change_state w v s).
Proof.
  intros Hw Hr. rewrite change_state_eq. apply view_inv_update; [done|]. intros c Hc.
  rewrite (cell_lookup w v c Hc) in Hr. split_and!; [done..|]. split; cbn.
  - by rewrite last_snoc.
  - by rewrite Hr.
Qed.

Lemma view_inv_transition f w v : view_inv w -> view_inv (transition_with f w v).2.
Proof.
  intros Hw. unfold transition_with. destruct (is_current w v) eqn:Hc; cbn; [|done].
  apply current_cell in Hc as (c & _ & E & Hr & _).
  destruct (f (vs_state (nc_state (cell w v)))) as [[s|e] s']; cbn; [|done].
  apply view_inv_change; [done|by rewrite E].
Qed.

(** An update of the handles or of the information. *)
Lemma view_inv_info w v f :
  view_inv w ->
  (forall c, nc_epoch (f c) = nc_epoch c /\ nc_retired (f c) = nc_retired c /\
     nc_notified (f c) = nc_notified c /\ vs_state (nc_state (f c)) = vs_state (nc_state c)) ->
  view_inv (update_cell w v f).
Proof.
  intros Hw Hf. apply view_inv_update; [done|]. intros c Hc. destruct (Hf c) as (? & Er & En & Es).
  split_and!; [done..|]. unfold cell_ok. rewrite Er, En, Es. by apply (vi_cells w Hw) in Hc.
Qed.

Lemma view_inv_maps w ids addrs :
  view_inv w -> (forall k v, ids !! k = Some v -> live w v) ->
  (forall k v, addrs !! k = Some v -> live w v) -> view_inv (with_maps w ids addrs).
Proof. intros [] Hi Ha. by split. Qed.

(** Entries put into the registry for a live node. *)
Lemma view_inv_insert w v ids addrs :
  view_inv w -> live w v ->
  view_inv (with_maps w (insert_ids v ids (rg_by_node_id w)) (insert_addrs v addrs (rg_by_addr w))).
Proof.
  intros Hw Hv. unfold insert_ids, insert_addrs.
  apply view_inv_maps; [done| |]; intros k u; rewrite foldl_insert_lookup; case_decide.
  - by intros [= <-].
  - apply (vi_ids w Hw).
  - by intros [= <-].
  - apply (vi_addrs w Hw).
Qed.

(** Generations are counted in 64 bits; one is left. *)
Definition bounded (w : NetworkView) : Prop := rg_next_generation w + 1 < 2 ^ 64.

Lemma next_generation_eq w :
  view_inv w -> bounded w -> rg_next_generation (next_generation w).2 = rg_next_generation w + 1.
Proof. intros Hw Hb. cbn. apply wrap_small. pose proof (vi_next w Hw). split; [lia|done]. Qed.

Lemma live_lt w v : live w v -> (nv_cell v < length (rg_cells w))%nat.
Proof. intros [_ (c & Hc & _)]. by eapply lookup_lt_Some. Qed.

Lemma NodeView_new_spec now w id addrs enc key auth :
  view_inv w -> bounded w ->
  let (v, w') := NodeView_new now w id addrs enc key auth in
  nv_id v = id /\ nv_cell v = length (rg_cells w) /\ view_inv w' /\ live w' v /\
  rg_by_node_id w' = rg_by_node_id w /\ rg_by_addr w' = rg_by_addr w /\
  rg_next_generation w' = rg_next_generation w + 1 /\
  exists c, rg_cells w' = rg_cells w ++ [c] /\ vs_state (nc_state c) = Closed /\
    nc_epoch c = rg_next_generation w.
Proof.
  intros Hw Hb. pose proof (next_generation_eq w Hw Hb) as Hn. unfold NodeView_new.
  change (rg_next_generation (next_generation w).2) with (wrap 64 (rg_next_generation w + 1)) in Hn.
  cbn [next_generation nv_id nv_cell with_cells rg_cells rg_by_node_id rg_by_addr rg_next_generation].
  rewrite Hn. split_and!; [done..| | |done|done|done|]; [| |by eexists].
  - assert (forall l c c0, (rg_cells w ++ [c0]) !! l = Some c ->
              rg_cells w !! l = Some c \/ l = length (rg_cells w) /\ c = c0) as Hl
      by (intros l c c0; by rewrite lookup_snoc_Some).
    assert (forall u, live w u -> forall c0, exists c,
              (rg_cells w ++ [c0]) !! nv_cell u = Some c /\ nc_retired c = false) as Hlive.
    { intros u [_ (c & Hc & Hr)] c0. exists c. by rewrite lookup_app_l by (by eapply lookup_lt_Some). }
    split; cbn.
    + intros k u Hu. apply (vi_ids w Hw) in Hu. split; [apply Hu|]. by apply Hlive.
    + intros k u Hu. apply (vi_addrs w Hw) in Hu. split; [apply Hu|]. by apply Hlive.
    + intros l c [Hc|[_ ->]]%Hl; cbn; [apply (vi_epoch w Hw) in Hc|]; lia.
    + intros l1 l2 c1 c2 [H1|[-> ->]]%Hl [H2|[-> ->]]%Hl; cbn; intros He; [|exfalso..|done].
      * by eapply (vi_epochs w Hw).
      * apply (vi_epoch w Hw) in H1. lia.
      * apply (vi_epoch w Hw) in H2. lia.
    + intros l c [Hc|[_ ->]]%Hl; [by eapply (vi_cells w Hw)|]. by split.
    + pose proof (vi_next w Hw). lia.
  - split; [done|]. cbn. eexists. by rewrite lookup_app_r, Nat.sub_diag by done.
Qed.

Lemma live_entry w id addrs v : view_inv w -> find_entry w id addrs = Some v -> live w v.
Proof.
  intros Hw. unfold find_entry. destruct (rg_by_node_id w !! id) as [u|] eqn:E.
  - intros [= <-]. by eapply vi_ids.
  - intros (a & _ & Ha)%head_Some_elem_of%list_elem_of_omap. by eapply vi_addrs.
Qed.

Lemma view_inv_guard now w id addrs :
  view_inv w -> bounded w -> view_inv (guard now w id addrs).2 /\ live (guard now w id addrs).2 (guard now w id addrs).1.
Proof.
  intros Hw Hb. unfold guard. destruct (find_entry w id addrs) as [v|] eqn:E.
  { split; [done|]. by eapply live_entry. }
  pose proof (NodeView_new_spec now w id addrs [] None [] Hw Hb) as Hn.
  destruct (NodeView_new now w id addrs [] None []) as [v w']. destruct Hn as (_ & _ & Hi & Hv & _).
  split; [by apply view_inv_insert|done].
Qed.

Lemma view_inv_update_info w v info : view_inv w -> view_inv (update_info w v info).2.
Proof.
  intros Hw. unfold update_info. destruct (match nf_identities info with [] => _ | _ => _ end); cbn.
  - done.
  - by apply view_inv_info.
Qed.

(** What the removal of a generation leaves. *)
Lemma remove_generation_eq w v :
  is_current w v = true ->
  let w' := (remove_generation w v).2 in
  (remove_generation w v).1 = true /\
  rg_cells w' = alter (fun c => push_notification Closed (retire c)) (nv_cell v) (rg_cells w) /\
  rg_by_node_id w' = other_cell (nv_cell v) (rg_by_node_id w) /\
  rg_by_addr w' = other_cell (nv_cell v) (rg_by_addr w) /\
  rg_next_generation w' = rg_next_generation w.
Proof.
  intros Hc. unfold remove_generation. rewrite Hc. cbn. split_and!; try done.
  by rewrite list_alter_alter_eq.
Qed.

Lemma other_cell_lookup `{Countable K} l (m : gmap K NodeView) k v :
  other_cell l m !! k = Some v <-> m !! k = Some v /\ nv_cell v <> l.
Proof. unfold other_cell. by rewrite map_lookup_filter_Some. Qed.

Lemma view_inv_remove w v : view_inv w -> view_inv (remove_generation w v).2.
Proof.
  intros Hw. destruct (is_current w v) eqn:Hc.
  2:{ unfold remove_generation. by rewrite Hc. }
  destruct (remove_generation_eq w v Hc) as (_ & Ec & Ei & Ea & En).
  apply current_cell in Hc as (c & Hc & _).
  assert (forall l c', rg_cells (remove_generation w v).2 !! l = Some c' ->
    exists c, rg_cells w !! l = Some c /\ nc_epoch c' = nc_epoch c /\ cell_ok c') as Hl.
  { intros l c'. rewrite Ec. destruct (decide (l = nv_cell v)) as [->|Hne].
    - rewrite list_lookup_alter_eq, Hc. intros [= <-]. exists c. split_and!; [done..|].
      split; cbn; [by rewrite last_snoc|done].
    - rewrite list_lookup_alter_ne by done. intros Hc'. exists c'. split_and!; [done..|].
      by eapply vi_cells. }
  assert (forall u, live w u -> nv_cell u <> nv_cell v -> live (remove_generation w v).2 u) as Hlive.
  { intros u [Hu (c' & Hc' & Hr)] Hne. split; [done|]. exists c'. by rewrite Ec, list_lookup_alter_ne. }
  split; rewrite ?Ei, ?Ea, ?En.
  - intros k u [Hk Hne]%other_cell_lookup. apply Hlive; [by eapply vi_ids|done].
  - intros k u [Hk Hne]%other_cell_lookup. apply Hlive; [by eapply vi_addrs|done].
  - intros l c' (d & Hd & -> & _)%Hl. by eapply (vi_epoch w Hw).
  - intros l1 l2 c1 c2 (d1 & Hd1 & -> & _)%Hl (d2 & Hd2 & -> & _)%Hl. by eapply (vi_epochs w Hw).
  - intros l c' (_ & _ & _ & ?)%Hl. done.
  - apply (vi_next w Hw).
Qed.

(** What a lock that is granted does: to the state of the node, and, unless it is
    for a reverse connection, to its generation. *)
Lemma lock_permit_eq receiver w v incoming p w' :
  nv_expected_generation v = None ->
  lock_session receiver w v incoming = (Permit p, w') ->
  exists c s, rg_cells w !! nv_cell v = Some c /\ nc_retired c = false /\
    allowed (vs_state (nc_state c)) s = true /\
    s = (if sp_reverse p then ReverseConnection (InProgress ConnectIntent)
         else if incoming then Incoming ConnectIntent else Outgoing ConnectIntent) /\
    (sp_reverse p = true -> incoming = true) /\
    let epoch := if sp_reverse p then nc_epoch c else rg_next_generation w in
    p = {| sp_registry := {| nv_id := nv_id v; nv_cell := nv_cell v;
                             nv_expected_generation := Some epoch |};
           sp_reverse := sp_reverse p; sp_result := None |} /\
    rg_cells w' = alter (fun c => push_notification s
      (set_epoch (set_view_state c (with_state (nc_state c) s)) epoch)) (nv_cell v) (rg_cells w) /\
    rg_by_node_id w' = rg_by_node_id w /\ rg_by_addr w' = rg_by_addr w /\
    rg_next_generation w' = (if sp_reverse p then rg_next_generation w
                             else wrap 64 (rg_next_generation w + 1)).
Proof.
  intros Hv. unfold lock_session. destruct (is_current w v) eqn:Hc; cbn [negb]; [|done].
  apply current_cell in Hc as (c & Hc & Ec & Hr & _). rewrite Ec.
  set (s := vs_state (nc_state c)).
  assert (forall st, (if incoming then (transition_incoming s ConnectIntent).1
                      else (transition_outgoing s ConnectIntent).1) = Ok st ->
            allowed s st = true /\
            st = (if is_reverse st then ReverseConnection (InProgress ConnectIntent)
                  else if incoming then Incoming ConnectIntent else Outgoing ConnectIntent) /\
            (is_reverse st = true -> incoming = true)) as Hs.
  { intros st. unfold transition_incoming, transition_outgoing, transition.
    destruct incoming; repeat case_match_goal; intros [= <-]; by split_and!. }
  destruct (if incoming then _ else _) as [st|e]; [|done].
  destruct (Hs st eq_refl) as (Ha & Est & Hrev). clear Hs.
  destruct (is_reverse st); cbn; intros [= <- <-]; exists c, st; cbn.
  - unfold snapshot, generation. rewrite Hv. unfold cell, update_cell. cbn. rewrite list_lookup_alter_eq, Hc. cbn.
    split_and!; try done. rewrite list_alter_alter_eq. apply list_alter_ext; [|done].
    intros c' Hc'. assert (c' = c) as -> by congruence. done.
  - unfold snapshot, generation. rewrite Hv. unfold cell, update_cell. cbn.
    rewrite !list_lookup_alter_eq, Hc. cbn. split_and!; try done.
    by rewrite !list_alter_alter_eq.
Qed.

Lemma lock_wait_eq receiver w v incoming a w' :
  lock_session receiver w v incoming = (Wait a, w') ->
  w' = w /\ a = {| na_registry := snapshot w v; na_position := receiver |}.
Proof. unfold lock_session. repeat case_match_goal; intros [= <- <-]; done. Qed.

Lemma view_inv_lock receiver w v incoming p w' :
  view_inv w -> bounded w -> nv_expected_generation v = None ->
  lock_session receiver w v incoming = (Permit p, w') -> view_inv w'.
Proof.
  intros Hw Hb Hv Hlock.
  destruct (lock_permit_eq receiver w v incoming p w' Hv Hlock)
    as (c & s & Hc & Hr & _ & _ & _ & _ & Ecells & Ei & Ea & En).
  assert (rg_next_generation w <= rg_next_generation w') as Hn.
  { rewrite En. destruct (sp_reverse p); [done|].
    rewrite wrap_small; [lia|]. pose proof (vi_next w Hw). split; [lia|done]. }
  assert (forall l c', rg_cells w' !! l = Some c' -> exists d,
    rg_cells w !! l = Some d /\ nc_retired c' = nc_retired d /\ cell_ok c' /\
    (nc_epoch c' = nc_epoch d \/ l = nv_cell v /\ sp_reverse p = false /\ nc_epoch c' = rg_next_generation w)) as Hl.
  { intros l c'. rewrite Ecells. destruct (decide (l = nv_cell v)) as [->|Hne].
    - rewrite list_lookup_alter_eq, Hc. intros [= <-]. exists c. cbn. split_and!; [done..| |].
      + split; cbn; [by rewrite last_snoc|by rewrite Hr].
      + destruct (sp_reverse p); auto.
    - rewrite list_lookup_alter_ne by done. intros Hc'. exists c'. split_and!; [done..| |by left].
      by eapply vi_cells. }
  assert (forall u, live w u -> live w' u) as Hlive.
  { intros u [Hu (d & Hd & Hrd)]. split; [done|]. rewrite Ecells.
    destruct (decide (nv_cell u = nv_cell v)) as [E|Hne].
    - rewrite E, list_lookup_alter_eq, Hc. eexists. split; [done|]. done.
    - rewrite list_lookup_alter_ne by done. eauto. }
  split; rewrite ?Ei, ?Ea.
  - intros k u Hu. apply Hlive. by eapply vi_ids.
  - intros k u Hu. apply Hlive. by eapply vi_addrs.
  - intros l c' (d & Hd & _ & _ & He)%Hl. apply (vi_epoch w Hw) in Hd.
    destruct He as [->|(_ & Hrev & ->)]; [lia|]. rewrite En, Hrev, wrap_small; [lia|].
    pose proof (vi_next w Hw). split; [lia|done].
  - intros l1 l2 c1 c2 (d1 & Hd1 & _ & _ & H1)%Hl (d2 & Hd2 & _ & _ & H2)%Hl He.
    pose proof (vi_epoch w Hw _ _ Hd1). pose proof (vi_epoch w Hw _ _ Hd2).
    destruct H1 as [E1|(-> & _ & E1)], H2 as [E2|(-> & _ & E2)]; try done; try lia.
    eapply (vi_epochs w Hw); [done..|lia].
  - intros l c' (_ & _ & _ & ? & _)%Hl. done.
  - pose proof (vi_next w Hw). lia.
Qed.

(** ** How nodes change *)

(** A cell after some operations: notifications are only added, and there is one
    for every change of the state, the generation or the retired flag; a new
    generation is a fresh one; a retired node stays retired. *)
Record cell_grows (fresh : Z) (c c' : NodeCell) : Prop := {
  cg_log : exists new, nc_notified c' = nc_notified c ++ new /\
    (new = [] -> vs_state (nc_state c') = vs_state (nc_state c) /\
                 nc_epoch c' = nc_epoch c /\ nc_retired c' = nc_retired c);
  cg_epoch : nc_epoch c' = nc_epoch c \/ fresh <= nc_epoch c';
  cg_retired : nc_retired c = true -> nc_retired c' = true }.

Record grows (w w' : NetworkView) : Prop := {
  gr_next : rg_next_generation w <= rg_next_generation w';
  gr_old l c : rg_cells w !! l = Some c ->
    exists c', rg_cells w' !! l = Some c' /\ cell_grows (rg_next_generation w) c c';
  gr_new l c' : rg_cells w' !! l = Some c' -> rg_cells w !! l = None ->
    rg_next_generation w <= nc_epoch c' }.

Lemma cell_grows_refl n c : cell_grows n c c.
Proof. split; [exists []; by rewrite app_nil_r|by left|done]. Qed.

Lemma cell_grows_trans n n' a b c :
  n <= n' -> cell_grows n a b -> cell_grows n' b c -> cell_grows n a c.
Proof.
  intros Hn [(n1 & E1 & H1) Ha1 Hr1] [(n2 & E2 & H2) Ha2 Hr2]. split.
  - exists (n1 ++ n2). rewrite E2, E1, app_assoc. split; [done|]. intros [-> ->]%app_nil.
    by destruct (H2 eq_refl) as (-> & -> & ->), (H1 eq_refl) as (-> & -> & ->).
  - destruct Ha2 as [->|]; [|right; lia]. done.
  - auto.
Qed.

Lemma grows_refl w : grows w w.
Proof.
  split; [done| |].
  - intros l c Hc. exists c. split; [done|]. apply cell_grows_refl.
  - congruence.
Qed.

Lemma grows_trans a b c : grows a b -> grows b c -> grows a c.
Proof.
  intros [Hn1 Ho1 Hw1] [Hn2 Ho2 Hw2]. split; [lia| |].
  - intros l x (y & Hy & H1)%Ho1. destruct (Ho2 l y Hy) as (z & Hz & H2). exists z. split; [done|].
    by eapply cell_grows_trans.
  - intros l z Hz Hx. destruct (rg_cells b !! l) as [y|] eqn:Hy.
    + specialize (Hw1 l y Hy Hx). destruct (Ho2 l y Hy) as (z' & Hz' & H2).
      assert (z' = z) as -> by congruence. destruct (cg_epoch _ _ _ H2); lia.
    + specialize (Hw2 l z Hz Hy). lia.
Qed.

Lemma grows_alter w w' l f :
  rg_cells w' = alter f l (rg_cells w) -> rg_next_generation w <= rg_next_generation w' ->
  (forall c, rg_cells w !! l = Some c -> cell_grows (rg_next_generation w) c (f c)) -> grows w w'.
Proof.
  intros Ec Hn Hf. split; [done| |]; rewrite Ec.
  - intros l' c Hc. destruct (decide (l' = l)) as [->|Hne].
    + exists (f c). rewrite list_lookup_alter_eq, Hc. auto.
    + exists c. rewrite list_lookup_alter_ne by done. split; [done|]. apply cell_grows_refl.
  - intros l' c' Hc' Hnone. apply lookup_ge_None in Hnone. apply lookup_lt_Some in Hc'.
    rewrite length_alter in Hc'. lia.
Qed.

(** Operations on the information or on the handles. *)
Definition same_node (c c' : NodeCell) : Prop :=
  nc_epoch c' = nc_epoch c /\ nc_retired c' = nc_retired c /\ nc_notified c' = nc_notified c /\
  vs_state (nc_state c') = vs_state (nc_state c).

Lemma cell_grows_same n c c' : same_node c c' -> cell_grows n c c'.
Proof.
  intros (He & Hr & Hn & Hs). split.
  - exists []. by rewrite app_nil_r.
  - by left.
  - by rewrite Hr.
Qed.

Lemma cell_grows_push n c s :
  cell_grows n c (push_notification s (set_view_state c (with_state (nc_state c) s))).
Proof. split; [by exists [s]|by left|done]. Qed.

(** Operations that neither start an attempt to connect nor begin to close: a
    node that is in one of these states was so before. *)
Definition quiet (w w' : NetworkView) : Prop :=
  forall l c', rg_cells w' !! l = Some c' -> nc_retired c' = false ->
    in_progress (vs_state (nc_state c')) = true \/ vs_state (nc_state c') = Closing ->
    exists c, rg_cells w !! l = Some c /\ nc_retired c = false /\ nc_epoch c = nc_epoch c' /\
      (in_progress (vs_state (nc_state c')) = true -> in_progress (vs_state (nc_state c)) = true) /\
      (vs_state (nc_state c') = Closing -> vs_state (nc_state c) = Closing).

Lemma quiet_refl w : quiet w w.
Proof. intros l c Hc Hr _. by exists c. Qed.

Lemma quiet_trans a b c : quiet a b -> quiet b c -> quiet a c.
Proof.
  intros H1 H2 l z Hz Hr Hs. destruct (H2 l z Hz Hr Hs) as (y & Hy & Hry & Ey & Hp & Hcl).
  destruct (H1 l y Hy Hry) as (x & Hx & Hrx & Ex & Hp' & Hcl'); [tauto|].
  exists x. split_and!; [done..|congruence| |]; tauto.
Qed.

Lemma quiet_alter w w' l f :
  rg_cells w' = alter f l (rg_cells w) ->
  (forall c, rg_cells w !! l = Some c -> nc_retired (f c) = false ->
     nc_retired c = false /\ nc_epoch (f c) = nc_epoch c /\
     (in_progress (vs_state (nc_state (f c))) = true -> in_progress (vs_state (nc_state c)) = true) /\
     (vs_state (nc_state (f c)) = Closing -> vs_state (nc_state c) = Closing)) ->
  quiet w w'.
Proof.
  intros Ec Hf l' c'. rewrite Ec. destruct (decide (l' = l)) as [->|Hne].
  - rewrite list_lookup_alter_eq. intros (c & Hc & ->)%fmap_Some Hr _.
    destruct (Hf c Hc Hr) as (? & ? & ? & ?). by exists c.
  - rewrite list_lookup_alter_ne by done. intros Hc Hr _. by exists c'.
Qed.

Lemma quiet_same w w' l f :
  rg_cells w' = alter f l (rg_cells w) -> (forall c, same_node c (f c)) -> quiet w w'.
Proof.
  intros Ec Hf. apply (quiet_alter w w' l f Ec). intros c _. destruct (Hf c) as (-> & -> & _ & ->).
  by intros ->.
Qed.

(** ** Operations *)

(** The effect of an operation on the registry, for all but those that start to
    connect or to close. *)
Record tame (w w' : NetworkView) : Prop := {
  tm_inv : view_inv w -> view_inv w';
  tm_grows : grows w w';
  tm_quiet : quiet w w' }.

Lemma tame_refl w : tame w w.
Proof. split; [done|apply grows_refl|apply quiet_refl]. Qed.

Lemma tame_trans a b c : tame a b -> tame b c -> tame a c.
Proof.
  intros [] []. split; [auto|by eapply grows_trans|by eapply quiet_trans].
Qed.

Lemma tame_same w v f : (forall c, same_node c (f c)) -> tame w (update_cell w v f).
Proof.
  intros Hf. split.
  - intros Hw. apply view_inv_info; [done|]. intros c. by destruct (Hf c) as (? & ? & ? & ?).
  - eapply grows_alter; [done..|]. intros c _. by apply cell_grows_same.
  - by eapply quiet_same.
Qed.

Lemma tame_abort w handles : tame w (abort_all w handles).
Proof.
  split; [intros Hw; by eapply view_inv_same| |]; cbn.
  - split; [done| |]; cbn; [|congruence]. intros l c Hc. exists c. split; [done|]. apply cell_grows_refl.
  - intros l c Hc Hr _. by exists c.
Qed.

Lemma tame_maps w ids addrs :
  (view_inv w -> view_inv (with_maps w ids addrs)) -> tame w (with_maps w ids addrs).
Proof.
  intros Hi. split; [done| |]; cbn.
  - split; [done| |]; cbn; [|congruence]. intros l c Hc. exists c. split; [done|]. apply cell_grows_refl.
  - intros l c Hc Hr _. by exists c.
Qed.

Lemma tame_new now w id addrs enc key auth :
  view_inv w -> bounded w -> tame w (NodeView_new now w id addrs enc key auth).2.
Proof.
  intros Hw Hb. pose proof (NodeView_new_spec now w id addrs enc key auth Hw Hb) as Hn.
  destruct (NodeView_new now w id addrs enc key auth) as [v w'].
  destruct Hn as (_ & _ & Hi & _ & _ & _ & En & c0 & Ec & Es & Ee). split; [done| |]; cbn.
  - split; [lia| |]; rewrite Ec.
    + intros l c Hc. exists c. rewrite lookup_app_l by (by eapply lookup_lt_Some).
      split; [done|]. apply cell_grows_refl.
    + intros l c [?|[_ ->]]%lookup_snoc_Some ?; [congruence|lia].
  - intros l c. rewrite Ec. intros [Hc|[_ ->]]%lookup_snoc_Some Hr Hs; [by exists c|].
    rewrite Es in Hs. by destruct Hs.
Qed.

Lemma tame_guard now w id addrs : view_inv w -> bounded w -> tame w (guard now w id addrs).2.
Proof.
  intros Hw Hb. pose proof (proj1 (view_inv_guard now w id addrs Hw Hb)) as Hi. unfold guard in *.
  destruct (find_entry w id addrs) as [v|]; [apply tame_refl|].
  pose proof (tame_new now w id addrs [] None [] Hw Hb) as Hn.
  destruct (NodeView_new now w id addrs [] None []) as [v w'].
  eapply tame_trans; [exact Hn|]. by apply tame_maps.
Qed.

Lemma tame_update_info w v info : tame w (update_info w v info).2.
Proof.
  unfold update_info. destruct (match nf_identities info with [] => _ | _ => _ end); cbn.
  - apply tame_refl.
  - by apply tame_same.
Qed.

Lemma tame_insert w v ids addrs :
  live w v ->
  tame w (with_maps w (insert_ids v ids (rg_by_node_id w)) (insert_addrs v addrs (rg_by_addr w))).
Proof. intros Hv. apply tame_maps. intros Hw. by apply view_inv_insert. Qed.

Lemma tame_update_entry now w info r w' :
  view_inv w -> bounded w -> update_entry now w info = Ret (r, w') -> tame w w'.
Proof.
  intros Hw Hb. unfold update_entry.
  set (entries := omap _ _). destruct entries as [|first entries'] eqn:Ee; cbn [outcome_bind].
  - destruct (NodeInfo_default_node_id info) as [id|]; cbn [outcome_bind]; [|done].
    pose proof (tame_new now w id (map ne_address (nf_endpoints info))
      (nf_supported_encryption info) (nf_session_key info) (nf_authenticated info) Hw Hb) as Ht.
    pose proof (NodeView_new_spec now w id (map ne_address (nf_endpoints info))
      (nf_supported_encryption info) (nf_session_key info) (nf_authenticated info) Hw Hb) as Hn.
    destruct (NodeView_new _ _ _ _ _ _ _) as [v w1]. destruct Hn as (_ & _ & _ & Hv & _).
    cbn [outcome_bind]. intros [= _ <-]. eapply tame_trans; [exact Ht|].
    eapply tame_trans; [by apply tame_insert|apply tame_update_info].
  - assert (live w first) as Hlive.
    { assert (first ∈ entries) as (i & _ & Hi)%list_elem_of_omap
        by (rewrite Ee; apply list_elem_of_here). by eapply live_entry. }
    case_match_goal; cbn [outcome_bind]; intros [= _ <-]; [|apply tame_refl].
    eapply tame_trans; [by apply tame_insert|apply tame_update_info].
Qed.

Lemma tame_refresh {L} now w owner info (publish : L -> result L string) l :
  view_inv w -> tame w (commit_refresh now w owner info publish l).1.2.
Proof.
  intros Hw. unfold commit_refresh. destruct (publication_guard w owner) eqn:Hp; cbn; [|apply tame_refl].
  apply andb_true_iff in Hp as [Hc _]. apply current_cell in Hc as (c & Hc & _ & Hr & _).
  repeat case_match_goal; cbn; try apply tame_refl.
  eapply tame_trans; [apply tame_insert|by apply tame_same]. split; [done|]. by exists c.
Qed.

Lemma tame_remove w v : tame w (remove_generation w v).2.
Proof.
  destruct (is_current w v) eqn:Hc.
  2:{ unfold remove_generation. rewrite Hc. apply tame_refl. }
  destruct (remove_generation_eq w v Hc) as (_ & Ec & _ & _ & En). split.
  - apply view_inv_remove.
  - eapply grows_alter; [exact Ec|lia|]. intros c _. split; [by exists [Closed]|by left|done].
  - eapply quiet_alter; [exact Ec|done].
Qed.

Lemma tame_register_abortable w v h : tame w (register_abortable w v h).
Proof. unfold register_abortable. destruct (_ && _); [by apply tame_same|apply tame_abort]. Qed.

Lemma tame_unregister_abortable w v : tame w (unregister_abortable w v).
Proof. unfold unregister_abortable. case_match_goal; [by apply tame_same|apply tame_refl]. Qed.

Lemma tame_abort_initialization w v : tame w (abort_initialization w v).
Proof.
  unfold abort_initialization. case_match_goal; [apply tame_refl|].
  eapply tame_trans; [|apply tame_abort]. by apply tame_same.
Qed.

(** ** Transitions *)

(** The states that only a lock sets. *)
Definition starts (s : ConnState) : bool :=
  match s with Outgoing ConnectIntent | Incoming ConnectIntent => true | _ => false end.

Lemma allowed_progress (s s' : ConnState) :
  allowed s s' = true -> in_progress s' = true -> starts s' = false -> in_progress s = true.
Proof. intros Ha Hp Hs. destruct s as [[]|[]|[|[]|[]]|[]| | | | |], s' as [[]|[]|[]|[]| | | | |]; done. Qed.

Definition tame_transition (f : ConnState -> result ConnState ConnError * ConnState) : Prop :=
  forall s new_state s', f s = (Ok new_state, s') ->
    new_state <> Closing /\ (in_progress new_state = true -> in_progress s = true).

Lemma tame_transition_with f w v : tame_transition f -> tame w (transition_with f w v).2.
Proof.
  intros Hf. split; [apply view_inv_transition|..]; unfold transition_with.
  all: destruct (is_current w v) eqn:Hc; cbn; [|apply grows_refl || apply quiet_refl].
  all: apply current_cell in Hc as (c & Hc & Ec & Hr & _); rewrite Ec.
  all: destruct (f (vs_state (nc_state c))) as [[s|e] s'] eqn:Ef; cbn;
    [|apply grows_refl || apply quiet_refl].
  all: rewrite change_state_eq.
  - eapply grows_alter; [done..|]. intros d _. apply cell_grows_push.
  - destruct (Hf _ _ _ Ef) as [Hcl Hp]. eapply quiet_alter; [done|]. intros d Hd _. cbn.
    assert (d = c) as -> by congruence. by split_and!.
Qed.

Lemma transition_tame new_state :
  new_state <> Closing -> starts new_state = false ->
  tame_transition (fun s => transition s new_state).
Proof.
  intros Hc Hs s ns s'. unfold transition. destruct (allowed s new_state) eqn:Ha; [|done].
  intros [= <- <-]. split; [done|]. intros Hp. by eapply allowed_progress.
Qed.

Lemma transition_outgoing_tame st :
  st <> ConnectIntent -> tame_transition (fun s => transition_outgoing s st).
Proof. intros Hst. apply transition_tame; [done|]. by destruct st. Qed.

Lemma transition_incoming_tame st :
  st <> ConnectIntent -> tame_transition (fun s => transition_incoming s st).
Proof.
  intros Hst s. unfold transition_incoming.
  apply (transition_tame (match s with
     | Incoming _ => Incoming st
     | ReverseConnection _ => ReverseConnection (InProgress st)
     | _ => Incoming st end)); [by destruct s|by destruct s, st].
Qed.

(** ** Dropping a permit *)

Definition is_failed (s : ConnState) : bool :=
  match s with FailedEstablish _ => true | _ => false end.

Definition is_established (s : ConnState) : bool :=
  match s with Established _ => true | _ => false end.

Definition is_reverse_finished (s : ConnState) : bool :=
  match s with ReverseConnection (Finished _) => true | _ => false end.

(** The states a drop carries through its stages. *)
Definition stage_ok (stage : DropStage) : Prop :=
  match stage with
  | DropStart s => is_failed s || is_established s || is_reverse_finished s = true
  | DropFailed s | DropAbort (Some s) | DropUnregister (Some s) | DropFailure s => is_failed s = true
  | DropUnregisterAbortable s => is_established s = true
  | DropTransition s => is_established s || is_reverse_finished s = true
  | _ => True
  end.

(** The drop of a permit for a reverse connection. *)
Definition stage_reverse (stage : DropStage) : bool :=
  match stage with
  | DropStart s | DropTransition s => is_reverse s
  | _ => false
  end.

Lemma final_state_ok p : stage_ok (DropStart (final_state p)).
Proof. unfold final_state. by repeat case_match_goal. Qed.

Lemma final_state_reverse p : stage_reverse (DropStart (final_state p)) = sp_reverse p.
Proof. unfold final_state. by destruct (sp_result p) as [[]|], (sp_reverse p). Qed.

Lemma tame_final w v s :
  is_failed s || is_established s || is_reverse_finished s = true ->
  tame w (NodeView_transition w v s).2.
Proof. intros Hs. apply tame_transition_with, transition_tame; by destruct s as [[]|[]| | | | | | |]. Qed.

Lemma drop_step_tame w node stage : stage_ok stage -> tame w (drop_step w node stage).2.
Proof.
  intros Ho. destruct stage as [s|s|s|s|f|f|s]; cbn in *.
  - repeat case_match_goal; apply tame_refl.
  - apply tame_final. by rewrite Ho.
  - apply tame_unregister_abortable.
  - pose proof (tame_final w node s) as Ht.
    destruct (NodeView_transition w node s) as [[|] w']; cbn in *; [|case_match_goal];
      apply Ht; destruct (is_failed s); done.
  - apply tame_abort_initialization.
  - apply tame_remove.
  - apply tame_final. by rewrite Ho.
Qed.

Lemma drop_step_next w node stage stage' :
  stage_ok stage -> (drop_step w node stage).1 = Some stage' ->
  stage_ok stage' /\ stage_reverse stage' = stage_reverse stage.
Proof.
  intros Ho. destruct stage as [s|s|s|s|[f|]|[f|]|s]; cbn in *; try (by intros [= <-]); try done.
  - destruct (NodeView_state w node); try done; destruct s as [| |[]| | | | | |]; try done; by intros [= <-].
  - destruct s; try done. by intros [= <-].
  - destruct (NodeView_transition w node s) as [[|] w']; cbn; [done|].
    destruct (is_reverse s) eqn:Er; [done|]. intros [= <-]. by split.
Qed.

(** A drop that is finished leaves a node that is not being connected, or is not
    concerned by the permit any more. *)
Definition settled (w : NetworkView) (v : NodeView) : Prop :=
  is_current w v = true -> in_progress (vs_state (nc_state (cell w v))) = false.

Lemma change_state_settled w v s : in_progress s = false -> settled (change_state w v s) v.
Proof.
  intros Hs Hc. apply current_cell in Hc as (c & Hc & -> & _). rewrite change_state_eq in Hc.
  rewrite update_cell_lookup, decide_True in Hc by done.
  by apply fmap_Some in Hc as (d & _ & ->).
Qed.

Lemma remove_generation_stale w v :
  is_Some (nv_expected_generation v) -> is_current (remove_generation w v).2 v = false.
Proof.
  intros [g Hg]. destruct (is_current w v) eqn:Hc.
  2:{ unfold remove_generation. by rewrite Hc. }
  destruct (remove_generation_eq w v Hc) as (_ & Ec & _).
  apply current_cell in Hc as (c & Hc & _). apply not_true_is_false. intros Hcur.
  apply current_cell in Hcur as (c' & Hc' & _ & Hr & _).
  rewrite Ec, list_lookup_alter_eq, Hc in Hc'. by injection Hc' as <-.
Qed.

Lemma failed_settled w v s : is_failed s = true -> settled (NodeView_transition w v s).2 v.
Proof.
  intros Hs. unfold NodeView_transition, transition_with.
  destruct (is_current w v) eqn:Hc; cbn; [|by intros ?; congruence].
  unfold transition. destruct (allowed _ s) eqn:Ha; cbn.
  - apply change_state_settled. by destruct s.
  - intros _. destruct s; try done. revert Ha. by destruct (vs_state _) as [[]|[]|[|[]|[]]|[]| | | | |].
Qed.

Lemma drop_end w node stage w' :
  stage_ok stage -> stage_reverse stage = false -> is_Some (nv_expected_generation node) ->
  drop_step w node stage = (None, w') -> settled w' node.
Proof.
  intros Ho Hrev Hg. destruct stage as [s|s|s|s|f|[f|]|s]; cbn in *; try done.
  - unfold NodeView_state. destruct (is_current w node) eqn:Hc.
    2:{ intros [= <-] ?. congruence. }
    destruct s as [| |[]| | | | | |]; try done;
      destruct (vs_state _) eqn:Es; try done; intros [= <-] _; by rewrite Es.
  - unfold NodeView_transition, transition_with.
    destruct (is_current w node) eqn:Hc; cbn; [|by rewrite Hrev].
    destruct (transition _ s) as [[s1|] s2] eqn:Et; cbn; [|by rewrite Hrev].
    intros [= <-]. apply change_state_settled. unfold transition in Et.
    destruct (allowed _ _); [|done]. injection Et as <- <-. by destruct s as [| |[]| | | | | |].
  - intros [= <-] Hc. by rewrite remove_generation_stale in Hc.
  - intros [= <-]. by apply failed_settled.
Qed.

(** ** Tasks *)

(** The permits that are held, the drops that are going on, the tasks that began
    to close a node, and the tasks that wait for a session, with the state they
    looked at last. *)
Record Tasks : Type := {
  tk_view : NetworkView;
  tk_permits : list SessionPermit;
  tk_drops : list (NodeView * DropStage);
  tk_closing : list NodeView;
  tk_waiting : list (NodeAwaiting * ConnState) }.

Definition Tasks_new : Tasks :=
  {| tk_view := NetworkView_new; tk_permits := []; tk_drops := []; tk_closing := [];
     tk_waiting := [] |}.

Definition with_view (t : Tasks) (w : NetworkView) : Tasks :=
  {| tk_view := w; tk_permits := tk_permits t; tk_drops := tk_drops t;
     tk_closing := tk_closing t; tk_waiting := tk_waiting t |}.

(** A view is one of the registry, or a snapshot of some time before. *)
Definition captured (w : NetworkView) (v : NodeView) : Prop :=
  forall g, nv_expected_generation v = Some g -> g < rg_next_generation w.

Context (upgrade : nat -> bool) (capacity : nat).

(** One action of one task, between two points where it can be interrupted. *)
Inductive action (t : Tasks) : Tasks -> Prop :=
| act_guard now id addrs : action t (with_view t (guard now (tk_view t) id addrs).2)
| act_update now info r w :
    update_entry now (tk_view t) info = Ret (r, w) -> action t (with_view t w)
| act_refresh L now owner info (publish : L -> result L string) l :
    action t (with_view t (commit_refresh now (tk_view t) owner info publish l).1.2)
| act_permit receiver v incoming p w :
    nv_expected_generation v = None ->
    lock_session receiver (tk_view t) v incoming = (Permit p, w) ->
    action t {| tk_view := w; tk_permits := p :: tk_permits t; tk_drops := tk_drops t;
                tk_closing := tk_closing t; tk_waiting := tk_waiting t |}
| act_wait v a :
    captured (tk_view t) v ->
    na_registry a = snapshot (tk_view t) v ->
    (na_position a <= subscribe (tk_view t) v)%nat ->
    check_finish upgrade (NodeView_state (tk_view t) (na_registry a)) = None ->
    action t {| tk_view := tk_view t; tk_permits := tk_permits t; tk_drops := tk_drops t;
                tk_closing := tk_closing t;
                tk_waiting := (a, NodeView_state (tk_view t) (na_registry a)) :: tk_waiting t |}
| act_transition p s :
    p ∈ tk_permits t -> in_progress s = true -> starts s = false ->
    action t (with_view t (NodeView_transition (tk_view t) (sp_registry p) s).2)
| act_outgoing p st :
    p ∈ tk_permits t -> st <> ConnectIntent ->
    action t (with_view t (NodeView_transition_outgoing (tk_view t) (sp_registry p) st).2)
| act_incoming p st :
    p ∈ tk_permits t -> st <> ConnectIntent ->
    action t (with_view t (NodeView_transition_incoming (tk_view t) (sp_registry p) st).2)
| act_abortable p h :
    p ∈ tk_permits t -> action t (with_view t (register_abortable (tk_view t) (sp_registry p) h))
| act_abort v : action t (with_view t (abort_initialization (tk_view t) v))
| act_release ps1 p ps2 result :
    tk_permits t = ps1 ++ p :: ps2 ->
    action t {| tk_view := tk_view t; tk_permits := ps1 ++ ps2;
                tk_drops := (sp_registry p, DropStart (final_state
                  {| sp_registry := sp_registry p; sp_reverse := sp_reverse p; sp_result := result |}))
                  :: tk_drops t;
                tk_closing := tk_closing t; tk_waiting := tk_waiting t |}
| act_drop ds1 node stage ds2 next w :
    tk_drops t = ds1 ++ (node, stage) :: ds2 ->
    drop_step (tk_view t) node stage = (next, w) ->
    action t {| tk_view := w; tk_permits := tk_permits t;
                tk_drops := ds1 ++ (match next with Some s => [(node, s)] | None => [] end) ++ ds2;
                tk_closing := tk_closing t; tk_waiting := tk_waiting t |}
| act_begin_closing v :
    captured (tk_view t) v -> is_Some (nv_expected_generation v) ->
    action t {| tk_view := (begin_closing (tk_view t) v).2; tk_permits := tk_permits t;
                tk_drops := tk_drops t; tk_closing := v :: tk_closing t;
                tk_waiting := tk_waiting t |}
| act_close cs1 v cs2 :
    tk_closing t = cs1 ++ v :: cs2 ->
    action t {| tk_view := (remove_generation (tk_view t) v).2; tk_permits := tk_permits t;
                tk_drops := tk_drops t; tk_closing := cs1 ++ cs2; tk_waiting := tk_waiting t |}
| act_remove v : action t (with_view t (remove_generation (tk_view t) v).2)
| act_poll ws1 a s ws2 r s' a' :
    tk_waiting t = ws1 ++ (a, s) :: ws2 ->
    await_from (check_finish upgrade) capacity (tk_view t) s a = (r, s', a') ->
    action t {| tk_view := tk_view t; tk_permits := tk_permits t; tk_drops := tk_drops t;
                tk_closing := tk_closing t;
                tk_waiting := ws1 ++ (match r with Some _ => [] | None => [(a', s')] end) ++ ws2 |}.

Definition step (t t' : Tasks) : Prop := bounded (tk_view t) /\ action t t'.

(** ** Invariant of the tasks *)

(** The views of those who may connect: the permits that are not for a reverse
    connection, held or being dropped. *)
Definition holders (t : Tasks) : list NodeView :=
  map sp_registry (filter (fun p => sp_reverse p = false) (tk_permits t)) ++
  map fst (filter (fun d => stage_reverse d.2 = false) (tk_drops t)).

(** A view is a snapshot of a generation of a cell. *)
Definition owns (l : nat) (g : Z) (v : NodeView) : Prop :=
  nv_cell v = l /\ nv_expected_generation v = Some g.

Definition snapshot_ok (w : NetworkView) (v : NodeView) : Prop :=
  exists g, nv_expected_generation v = Some g /\ g < rg_next_generation w.

(** A waiter has seen the state of its node, or there are notifications left. *)
Definition waiter_ok (w : NetworkView) (x : NodeAwaiting * ConnState) : Prop :=
  let '(a, s) := x in
  check_finish upgrade s = None /\ snapshot_ok w (na_registry a) /\
  exists c, rg_cells w !! nv_cell (na_registry a) = Some c /\
    (na_position a <= length (nc_notified c))%nat /\
    (na_position a = length (nc_notified c) -> is_current w (na_registry a) = true ->
     s = vs_state (nc_state c)).

Record tasks_inv (t : Tasks) : Prop := {
  ti_view : view_inv (tk_view t);
  ti_permits : Forall (fun p => snapshot_ok (tk_view t) (sp_registry p)) (tk_permits t);
  ti_drops : Forall (fun d => snapshot_ok (tk_view t) d.1 /\ stage_ok d.2) (tk_drops t);
  ti_once : NoDup (map nv_expected_generation (holders t));
  ti_progress l c : rg_cells (tk_view t) !! l = Some c -> nc_retired c = false ->
    in_progress (vs_state (nc_state c)) = true -> Exists (owns l (nc_epoch c)) (holders t);
  ti_closing l c : rg_cells (tk_view t) !! l = Some c -> nc_retired c = false ->
    vs_state (nc_state c) = Closing -> Exists (owns l (nc_epoch c)) (tk_closing t);
  ti_waiting : Forall (waiter_ok (tk_view t)) (tk_waiting t) }.

Lemma tasks_inv_new : tasks_inv Tasks_new.
Proof. split; cbn; try (by constructor); done. Qed.

Lemma snapshot_ok_grows w w' v : grows w w' -> snapshot_ok w v -> snapshot_ok w' v.
Proof. intros Hg (g & Hv & Hlt). exists g. split; [done|]. pose proof (gr_next _ _ Hg). lia. Qed.

(** A snapshot that is current was so before. *)
Lemma current_grows w w' v :
  grows w w' -> snapshot_ok w v -> is_current w' v = true -> is_current w v = true.
Proof.
  intros Hg (g & Hv & Hlt) Hc. apply current_cell in Hc as (c' & Hc' & _ & Hr & He).
  unfold generation in He. rewrite Hv in He. destruct (rg_cells w !! nv_cell v) as [c|] eqn:Hc.
  - destruct (gr_old _ _ Hg _ _ Hc) as (d & Hd & [_ Hep Hre]). assert (d = c') as -> by congruence.
    unfold is_current, generation, cell. rewrite Hv, Hc. destruct (nc_retired c); [exfalso; rewrite Hre in Hr; done|].
    destruct Hep; [|lia]. apply andb_true_iff. split; [done|]. apply Z.eqb_eq. congruence.
  - pose proof (gr_new _ _ Hg _ _ Hc' Hc). lia.
Qed.

Lemma waiter_ok_grows w w' x : grows w w' -> waiter_ok w x -> waiter_ok w' x.
Proof.
  intros Hg. destruct x as [a s]. intros (Hs & Ha & c & Hc & Hp & Hl). split; [done|].
  split; [by eapply snapshot_ok_grows|]. destruct (gr_old _ _ Hg _ _ Hc) as (c' & Hc' & Hcg).
  destruct (cg_log _ _ _ Hcg) as (new & En & Hnew).
  exists c'. split; [done|]. rewrite En, length_app. split; [lia|]. intros Hpos Hcur.
  assert (new = []) as -> by (destruct new; [done|simpl in Hpos; lia]).
  destruct (Hnew eq_refl) as (-> & _). apply Hl; [simpl in Hpos; lia|]. by eapply current_grows.
Qed.

(** What holds of the other tasks when the registry grew. *)
Lemma tasks_inv_view t w' :
  tasks_inv t -> grows (tk_view t) w' -> view_inv w' ->
  Forall (fun p => snapshot_ok w' (sp_registry p)) (tk_permits t) /\
  Forall (fun d => snapshot_ok w' d.1 /\ stage_ok d.2) (tk_drops t) /\
  Forall (waiter_ok w') (tk_waiting t).
Proof.
  intros Ht Hg Hi. split_and!.
  - eapply Forall_impl; [apply (ti_permits t Ht)|]. intros p. by apply snapshot_ok_grows.
  - eapply Forall_impl; [apply (ti_drops t Ht)|]. intros d [Hd Ho]. split; [|done].
    by eapply snapshot_ok_grows.
  - eapply Forall_impl; [apply (ti_waiting t Ht)|]. intros x. by apply waiter_ok_grows.
Qed.

(** An action that is not about permits or closing. *)
Lemma tasks_inv_tame t w' : tasks_inv t -> tame (tk_view t) w' -> tasks_inv (with_view t w').
Proof.
  intros Ht [Hi Hg Hq]. destruct (tasks_inv_view t w' Ht Hg (Hi (ti_view t Ht))) as (Hp & Hd & Hw).
  split; cbn; try done.
  - apply Hi, (ti_view t Ht).
  - apply (ti_once t Ht).
  - intros l c' Hc' Hr Hs. destruct (Hq l c' Hc' Hr) as (c & Hc & Hrc & <- & Hpr & _); [by left|].
    apply (ti_progress t Ht); auto.
  - intros l c' Hc' Hr Hs. destruct (Hq l c' Hc' Hr) as (c & Hc & Hrc & <- & _ & Hcl); [by right|].
    apply (ti_closing t Ht); auto.
Qed.

Lemma allowed_intent (s : ConnState) :
  allowed s (ReverseConnection (InProgress ConnectIntent)) = true -> s = ReverseConnection Awaiting.
Proof. by destruct s as [[]|[]|[|[]|[]]|[]| | | | |]. Qed.

Lemma allowed_starts (s s' : ConnState) :
  starts s' = true -> allowed s s' = true -> s = Closed \/ is_failed s = true.
Proof.
  intros Hs Ha. destruct s' as [[]|[]| | | | | | |]; try done;
    destruct s as [[]|[]|[|[]|[]]|[]| | | | |]; try done; auto.
Qed.

Lemma holders_cons p t w ds cs ws :
  holders {| tk_view := w; tk_permits := p :: tk_permits t; tk_drops := ds;
             tk_closing := cs; tk_waiting := ws |} =
  (if sp_reverse p then [] else [sp_registry p]) ++
  holders {| tk_view := w; tk_permits := tk_permits t; tk_drops := ds;
             tk_closing := cs; tk_waiting := ws |}.
Proof. unfold holders. cbn. by destruct (sp_reverse p). Qed.

Lemma holders_snapshot t :
  tasks_inv t -> Forall (snapshot_ok (tk_view t)) (holders t).
Proof.
  intros Ht. apply Forall_forall. intros v. unfold holders.
  rewrite elem_of_app. intros [Hv|Hv]; apply list_elem_of_fmap in Hv as (x & -> & Hx);
    apply list_elem_of_filter in Hx as [_ Hx].
  - by eapply Forall_forall in Hx; [|apply (ti_permits t Ht)].
  - eapply Forall_forall in Hx; [|apply (ti_drops t Ht)]. apply Hx.
Qed.

(** The cells after a lock that was granted. *)
Lemma lock_grows receiver w v incoming p w' :
  view_inv w -> bounded w -> nv_expected_generation v = None ->
  lock_session receiver w v incoming = (Permit p, w') -> grows w w'.
Proof.
  intros Hw Hb Hv Hlock.
  destruct (lock_permit_eq receiver w v incoming p w' Hv Hlock)
    as (c & s & Hc & Hr & _ & _ & _ & _ & Ecells & _ & _ & En).
  eapply grows_alter; [exact Ecells| |].
  - rewrite En. destruct (sp_reverse p); [done|].
    rewrite wrap_small; [lia|]. pose proof (vi_next w Hw). split; [lia|done].
  - intros d Hd. assert (d = c) as -> by congruence. split; [by exists [s]| |done].
    cbn. destruct (sp_reverse p); [by left|by right].
Qed.

Lemma inv_permit receiver v incoming p w t :
  tasks_inv t -> bounded (tk_view t) -> nv_expected_generation v = None ->
  lock_session receiver (tk_view t) v incoming = (Permit p, w) ->
  tasks_inv {| tk_view := w; tk_permits := p :: tk_permits t; tk_drops := tk_drops t;
               tk_closing := tk_closing t; tk_waiting := tk_waiting t |}.
Proof.
  intros Ht Hb Hv Hlock.
  pose proof (lock_grows receiver _ v incoming p w (ti_view t Ht) Hb Hv Hlock) as Hg.
  pose proof (view_inv_lock receiver _ v incoming p w (ti_view t Ht) Hb Hv Hlock) as Hi.
  destruct (tasks_inv_view t w Ht Hg Hi) as (Hp & Hd & Hw).
  destruct (lock_permit_eq receiver _ v incoming p w Hv Hlock)
    as (c & s & Hc & Hr & Ha & Es & Hinc & Ep & Ecells & _ & _ & En).
  assert (forall l c', rg_cells w !! l = Some c' -> l <> nv_cell v -> rg_cells (tk_view t) !! l = Some c')
    as Hother by (intros l c'; rewrite Ecells; intros Hl Hne; by rewrite list_lookup_alter_ne in Hl).
  assert (forall c', rg_cells w !! nv_cell v = Some c' ->
    nc_epoch c' = (if sp_reverse p then nc_epoch c else rg_next_generation (tk_view t)) /\
    vs_state (nc_state c') = s) as Hsame
    by (intros c'; rewrite Ecells, list_lookup_alter_eq, Hc; intros [= <-]; done).
  split; cbn [tk_view tk_permits tk_drops tk_closing tk_waiting]; try done; rewrite ?holders_cons.
  - constructor; [|done]. rewrite Ep. eexists. split; [done|]. rewrite En. destruct (sp_reverse p).
    + by apply (vi_epoch _ (ti_view t Ht)) in Hc.
    + rewrite wrap_small; [lia|]. pose proof (vi_next _ (ti_view t Ht)). split; [lia|done].
  - destruct (sp_reverse p) eqn:Erev; [apply (ti_once t Ht)|]. cbn. constructor; [|apply (ti_once t Ht)].
    rewrite Ep. cbn. intros (u & Hu & Hin)%list_elem_of_fmap.
    pose proof (holders_snapshot t Ht) as Hs. eapply Forall_forall in Hs as (g & Hg' & Hlt); [|exact Hin].
    assert (rg_next_generation (tk_view t) = g) by congruence. lia.
  - intros l c' Hc' Hr' Hs'. destruct (decide (l = nv_cell v)) as [->|Hne].
    + destruct (Hsame c' Hc') as [-> Es']. destruct (sp_reverse p) eqn:Erev.
      * rewrite Es in Ha. apply allowed_intent in Ha. apply (ti_progress t Ht); [done..|]. by rewrite Ha.
      * left. rewrite Ep. done.
    + apply Exists_app. right. apply (ti_progress t Ht); auto.
  - intros l c' Hc' Hr' Hs'. destruct (decide (l = nv_cell v)) as [->|Hne].
    + destruct (Hsame c' Hc') as [_ Es']. rewrite Hs', Es in Es'. by destruct (sp_reverse p), incoming.
    + apply (ti_closing t Ht); auto.
Qed.

(** Tasks that hold the same permits and close the same nodes. *)
Lemma tasks_inv_holders t t' :
  tasks_inv t -> tk_view t' = tk_view t -> holders t' ≡ₚ holders t -> tk_closing t' = tk_closing t ->
  Forall (fun p => snapshot_ok (tk_view t) (sp_registry p)) (tk_permits t') ->
  Forall (fun d => snapshot_ok (tk_view t) d.1 /\ stage_ok d.2) (tk_drops t') ->
  Forall (waiter_ok (tk_view t)) (tk_waiting t') -> tasks_inv t'.
Proof.
  intros Ht Ev Eh Ec Hp Hd Hw. split; rewrite ?Ev, ?Ec; try done.
  - apply (ti_view t Ht).
  - eapply (NoDup_Permutation_proper _ (map nv_expected_generation (holders t))); [by rewrite Eh|].
    apply (ti_once t Ht).
  - intros l c Hc Hr Hs. rewrite Eh. by apply (ti_progress t Ht).
  - apply (ti_closing t Ht).
Qed.

Lemma inv_release ps1 p ps2 result t :
  tasks_inv t -> tk_permits t = ps1 ++ p :: ps2 ->
  tasks_inv {| tk_view := tk_view t; tk_permits := ps1 ++ ps2;
               tk_drops := (sp_registry p, DropStart (final_state
                 {| sp_registry := sp_registry p; sp_reverse := sp_reverse p; sp_result := result |}))
                 :: tk_drops t;
               tk_closing := tk_closing t; tk_waiting := tk_waiting t |}.
Proof.
  intros Ht Ep. set (q := {| sp_registry := sp_registry p; sp_reverse := sp_reverse p; sp_result := result |}).
  pose proof (ti_permits t Ht) as Hp. rewrite Ep in Hp. apply Forall_app in Hp as [Hp1 Hp2].
  apply Forall_cons in Hp2 as [Hp0 Hp2].
  apply (tasks_inv_holders t); cbn [tk_view tk_permits tk_drops tk_closing tk_waiting]; try done.
  - unfold holders. cbn [tk_permits tk_drops]. rewrite Ep, !filter_app.
    pose proof (final_state_reverse q) as Hq. unfold q in Hq at 2. cbn [sp_reverse] in Hq.
    destruct (sp_reverse p) eqn:Er.
    { by rewrite !filter_cons_False by (cbn in *; congruence). }
    rewrite !filter_cons_True by (cbn in *; congruence).
    rewrite !map_app. cbn. rewrite <- Permutation_middle, <- (Permutation_middle (map _ _)). done.
  - by apply Forall_app.
  - constructor; [|apply (ti_drops t Ht)]. split; [done|]. apply final_state_ok.
  - apply (ti_waiting t Ht).
Qed.

(** A cell that is in progress in a generation makes its snapshots current. *)
Lemma owner_current w l c v :
  rg_cells w !! l = Some c -> nc_retired c = false -> owns l (nc_epoch c) v ->
  is_current w v = true /\ cell w v = c.
Proof.
  intros Hc Hr [<- Hv]. unfold is_current, generation, cell. rewrite Hc, Hv, Hr. split; [|done].
  apply Z.eqb_refl.
Qed.

Lemma holders_drops t ds1 node stage ds2 :
  tk_drops t = ds1 ++ (node, stage) :: ds2 ->
  holders t ≡ₚ (if stage_reverse stage then [] else [node]) ++
    (map sp_registry (filter (fun p => sp_reverse p = false) (tk_permits t)) ++
     map fst (filter (fun d => stage_reverse d.2 = false) (ds1 ++ ds2))).
Proof.
  intros E. unfold holders. rewrite E, !filter_app, filter_cons. cbn [snd].
  destruct (stage_reverse stage) eqn:Es.
  - by rewrite decide_False by (cbn; congruence).
  - rewrite decide_True by (cbn; congruence). rewrite !map_app. cbn. by rewrite <- !Permutation_middle.
Qed.

Lemma inv_drop ds1 node stage ds2 next w t :
  tasks_inv t -> tk_drops t = ds1 ++ (node, stage) :: ds2 ->
  drop_step (tk_view t) node stage = (next, w) ->
  tasks_inv {| tk_view := w; tk_permits := tk_permits t;
               tk_drops := ds1 ++ (match next with Some s => [(node, s)] | None => [] end) ++ ds2;
               tk_closing := tk_closing t; tk_waiting := tk_waiting t |}.
Proof.
  intros Ht Ed Hstep. pose proof (ti_drops t Ht) as Hd. rewrite Ed in Hd.
  apply Forall_app in Hd as [Hd1 Hd2]. apply Forall_cons in Hd2 as [[Hn Ho] Hd2]. cbn in Hn, Ho.
  pose proof (drop_step_tame (tk_view t) node stage Ho) as Htame. rewrite Hstep in Htame. cbn in Htame.
  destruct (tasks_inv_tame t w Ht Htame) as [Hi Hp Hdr Hon Hpr Hcl Hw]. cbn in Hi, Hp, Hdr, Hcl, Hw.
  rewrite Ed in Hdr. apply Forall_app in Hdr as [Hdr1 Hdr2]. apply Forall_cons in Hdr2 as [[Hn' _] Hdr2].
  pose proof (holders_drops t ds1 node stage ds2 Ed) as Eh.
  destruct next as [stage'|].
  - pose proof (drop_step_next (tk_view t) node stage stage' Ho) as Hnext. rewrite Hstep in Hnext.
    destruct (Hnext eq_refl) as [Ho' Er].
    set (t1 := with_view t w). apply (tasks_inv_holders t1);
      cbn [t1 with_view tk_view tk_permits tk_drops tk_closing tk_waiting]; try done.
    + by apply tasks_inv_tame.
    + rewrite (holders_drops _ ds1 node stage' ds2) by done. change (holders t1) with (holders t).
      by rewrite Eh, Er.
    + apply Forall_app. split; [done|]. by constructor.
  - split; cbn [tk_view tk_permits tk_drops tk_closing tk_waiting app]; try done.
    + by apply Forall_app.
    + pose proof (ti_once t Ht) as Honce. rewrite (fmap_Permutation nv_expected_generation _ _ Eh) in Honce.
      destruct (stage_reverse stage); [done|]. by apply NoDup_cons in Honce as [_ ?].
    + intros l c Hc Hr Hs. pose proof (Hpr l c Hc Hr Hs) as Hex. change (holders (with_view t w)) with (holders t) in Hex.
      rewrite Eh in Hex. destruct (stage_reverse stage) eqn:Er; [done|].
      apply Exists_cons in Hex as [Hown|]; [|done]. exfalso.
      destruct (owner_current w l c node Hc Hr Hown) as [Hcur Hcell].
      assert (is_Some (nv_expected_generation node)) as Hsome by (destruct Hn as (g & -> & _); done).
      pose proof (drop_end (tk_view t) node stage w Ho Er Hsome Hstep Hcur) as Hset.
      rewrite Hcell in Hset. congruence.
Qed.

Lemma begin_closing_grows w v : grows w (begin_closing w v).2.
Proof.
  unfold begin_closing. case_match_goal; cbn; [apply grows_refl|]. rewrite change_state_eq.
  eapply grows_alter; [done..|]. intros d _. apply cell_grows_push.
Qed.

Lemma begin_closing_inv w v : view_inv w -> view_inv (begin_closing w v).2.
Proof.
  intros Hw. unfold begin_closing. destruct (is_current w v) eqn:Hc; cbn; [|done].
  apply current_cell in Hc as (c & _ & E & Hr & _). apply view_inv_change; [done|by rewrite E].
Qed.

Lemma inv_begin_closing v t :
  tasks_inv t -> snapshot_ok (tk_view t) v ->
  tasks_inv {| tk_view := (begin_closing (tk_view t) v).2; tk_permits := tk_permits t;
               tk_drops := tk_drops t; tk_closing := v :: tk_closing t;
               tk_waiting := tk_waiting t |}.
Proof.
  intros Ht (g & Hv & _). pose proof (begin_closing_grows (tk_view t) v) as Hg.
  pose proof (begin_closing_inv (tk_view t) v (ti_view t Ht)) as Hi. unfold begin_closing in *.
  destruct (is_current (tk_view t) v) eqn:Hc; cbn [negb snd] in *.
  2:{ destruct Ht. split; try done. intros l c Hl Hr Hs. right. by auto. }
  apply current_cell in Hc as (c & Hc & Ec & Hr & He). unfold generation in He. rewrite Hv in He.
  destruct (tasks_inv_view t _ Ht Hg Hi) as (Hp & Hd & Hw).
  assert (forall l c', rg_cells (change_state (tk_view t) v Closing) !! l = Some c' ->
    l = nv_cell v /\ nc_epoch c' = g /\ vs_state (nc_state c') = Closing \/
    rg_cells (tk_view t) !! l = Some c') as Hl.
  { intros l c'. rewrite change_state_eq, update_cell_lookup. case_decide as Hl; [|by right].
    subst l. rewrite Hc. intros [= <-]. left. by split_and!. }
  split; cbn [tk_view tk_permits tk_drops tk_closing tk_waiting]; try done.
  - apply (ti_once t Ht).
  - intros l c' [(_ & _ & E)|Hc']%Hl Hr' Hs; [by rewrite E in Hs|]. by apply (ti_progress t Ht).
  - intros l c' [(-> & -> & _)|Hc']%Hl Hr' Hs; [by left|]. right. by apply (ti_closing t Ht).
Qed.

Lemma inv_close cs1 v cs2 t :
  tasks_inv t -> tk_closing t = cs1 ++ v :: cs2 ->
  tasks_inv {| tk_view := (remove_generation (tk_view t) v).2; tk_permits := tk_permits t;
               tk_drops := tk_drops t; tk_closing := cs1 ++ cs2; tk_waiting := tk_waiting t |}.
Proof.
  intros Ht Ec. pose proof (tasks_inv_tame t _ Ht (tame_remove (tk_view t) v)) as Ht'.
  destruct Ht' as [Hi Hp Hd Ho Hpr Hcl Hw]. split; try done.
  cbn [tk_view tk_permits tk_drops tk_closing tk_waiting] in *.
  intros l c Hc Hr Hs. pose proof (Hcl l c Hc Hr Hs) as Hex. cbn in Hex. rewrite Ec in Hex.
  rewrite Exists_app, Exists_cons in Hex. rewrite Exists_app.
  destruct Hex as [?|[Hown|?]]; [by left| |by right].
  exfalso. assert (is_Some (nv_expected_generation v)) as Hsome by (destruct Hown as [_ ->]; done).
  destruct (owner_current _ l c v Hc Hr Hown) as [Hcur _].
  cbn in Hcur. by rewrite remove_generation_stale in Hcur.
Qed.

(** A waiter that finds nothing to receive has seen the present state. *)
Lemma await_blocked w fuel : view_inv w -> forall s a s' a',
  waiter_ok w (a, s) ->
  (length (nc_notified (cell w (na_registry a))) < na_position a + fuel)%nat ->
  await_loop (check_finish upgrade) capacity fuel w s a = (None, s', a') ->
  waiter_ok w (a', s') /\ na_registry a' = na_registry a /\
  is_current w (na_registry a') = true /\ s' = vs_state (nc_state (cell w (na_registry a'))).
Proof.
  intros Hw. induction fuel as [|fuel IH]; intros s a s' a' Ha Hf Hloop.
  { exfalso. destruct Ha as (_ & _ & c & Hc & Hp & _). rewrite (cell_lookup _ _ _ Hc) in Hf. lia. }
  destruct Ha as (Hs & Hsn & c & Hc & Hp & Hl). pose proof (cell_lookup _ _ _ Hc) as Ec.
  rewrite Ec in Hf. cbn in Hloop. rewrite Hs in Hloop. unfold next in Hloop.
  destruct (is_current w (na_registry a)) eqn:Hcur; cbn [negb] in Hloop.
  2:{ destruct fuel; cbn in Hloop; done. }
  unfold recv in Hloop. rewrite Ec in Hloop.
  destruct (capacity <? length (nc_notified c) - na_position a)%nat; cbn in Hloop; [done|].
  destruct (nc_notified c !! na_position a) as [s1|] eqn:Hlog; cbn in Hloop.
  - destruct (check_finish upgrade s1) as [r|] eqn:Hs1.
    { destruct fuel; cbn in Hloop; rewrite Hs1 in Hloop; done. }
    apply IH in Hloop; [done| |cbn; rewrite Ec; lia].
    split; [done|]. split; [done|]. exists c. cbn. split; [done|]. apply lookup_lt_Some in Hlog as Hlt.
    split; [lia|]. intros Hpos _. destruct (vi_cells w Hw _ _ Hc) as [-> _].
    rewrite last_lookup, <- Hpos. cbn. by rewrite Hlog.
  - injection Hloop as <- <-. apply lookup_ge_None in Hlog. split.
    + split; [done|]. split; [done|]. exists c. cbn.
      split_and!; [done..|]. intros Hpos _. by apply Hl.
    + cbn. split_and!; [done..|]. rewrite Ec. apply Hl; [lia|done].
Qed.

Lemma inv_wait v a t :
  tasks_inv t -> captured (tk_view t) v -> na_registry a = snapshot (tk_view t) v ->
  (na_position a <= subscribe (tk_view t) v)%nat ->
  check_finish upgrade (NodeView_state (tk_view t) (na_registry a)) = None ->
  waiter_ok (tk_view t) (a, NodeView_state (tk_view t) (na_registry a)).
Proof.
  intros Ht Hv Ea Hp Hs. split; [done|]. unfold NodeView_state in *.
  destruct (is_current (tk_view t) (na_registry a)) eqn:Hc; [|done].
  apply current_cell in Hc as (c & Hc & Ec & Hr & He). rewrite Ec. split.
  - exists (generation (tk_view t) (na_registry a)). rewrite <- He. split.
    + rewrite He, Ea. done.
    + by eapply (vi_epoch _ (ti_view t Ht)).
  - exists c. split; [done|]. split; [|done]. unfold subscribe in Hp.
    assert (cell (tk_view t) v = c) as E by (apply cell_lookup; rewrite Ea in Hc; done).
    by rewrite E in Hp.
Qed.

Lemma inv_poll ws1 a s ws2 r s' a' t :
  tasks_inv t -> tk_waiting t = ws1 ++ (a, s) :: ws2 ->
  await_from (check_finish upgrade) capacity (tk_view t) s a = (r, s', a') ->
  Forall (waiter_ok (tk_view t))
    (ws1 ++ (match r with Some _ => [] | None => [(a', s')] end) ++ ws2).
Proof.
  intros Ht E Hr. pose proof (ti_waiting t Ht) as Hw. rewrite E in Hw.
  apply Forall_app in Hw as [H1 H2]. apply Forall_cons in H2 as [Ha H2].
  destruct r as [r|]; [by apply Forall_app|]. apply Forall_app. split; [done|]. constructor; [|done].
  apply await_blocked in Hr as (Hok & _); [done|apply (ti_view t Ht)|done|lia].
Qed.

Lemma step_inv t t' : tasks_inv t -> step t t' -> tasks_inv t'.
Proof.
  intros Ht [Hb Hact]. pose proof (ti_view t Ht) as Hv. destruct Hact.
  - by apply tasks_inv_tame, tame_guard.
  - eapply tasks_inv_tame; [done|]. by eapply tame_update_entry.
  - by apply tasks_inv_tame, tame_refresh.
  - by eapply inv_permit.
  - pose proof (inv_wait v a t Ht) as Hw. destruct Ht. split; try done. constructor; [|done]. by apply Hw.
  - apply tasks_inv_tame; [done|]. apply tame_transition_with, transition_tame; [|done]. by destruct s.
  - by apply tasks_inv_tame, tame_transition_with, transition_outgoing_tame.
  - by apply tasks_inv_tame, tame_transition_with, transition_incoming_tame.
  - by apply tasks_inv_tame, tame_register_abortable.
  - by apply tasks_inv_tame, tame_abort_initialization.
  - by apply inv_release.
  - by eapply inv_drop.
  - apply inv_begin_closing; [done|]. match goal with K : is_Some _ |- _ => destruct K as [g Hg] end.
    exists g. split; [done|]. auto.
  - by eapply inv_close.
  - by apply tasks_inv_tame, tame_remove.
  - pose proof (inv_poll ws1 a s ws2 r s' a' t Ht) as Hp. destruct Ht. split; try done. by apply Hp.
Qed.

(** Every action of a task lets the registry grow. *)
Lemma step_grows t t' : tasks_inv t -> step t t' -> grows (tk_view t) (tk_view t').
Proof.
  intros Ht [Hb Hact]. pose proof (ti_view t Ht) as Hv. destruct Hact; cbn [tk_view with_view];
    try apply grows_refl.
  - by apply tame_guard.
  - by eapply tame_update_entry.
  - by apply tame_refresh.
  - by eapply lock_grows.
  - apply tame_transition_with, transition_tame; [|done]. by destruct s.
  - by apply tame_transition_with, transition_outgoing_tame.
  - by apply tame_transition_with, transition_incoming_tame.
  - apply tame_register_abortable.
  - apply tame_abort_initialization.
  - match goal with K : drop_step ?w ?n ?s = (_, ?w'), E : tk_drops t = _ |- _ =>
      change w' with (next, w').2; rewrite <- K;
      pose proof (ti_drops t Ht) as Hd; rewrite E in Hd end.
    apply Forall_app in Hd as [_ Hd]. apply Forall_cons in Hd as [[_ Ho] _]. by apply drop_step_tame.
  - apply begin_closing_grows.
  - apply tame_remove.
  - apply tame_remove.
Qed.

Lemma reachable_inv t : rtc step Tasks_new t -> tasks_inv t.
Proof. apply (rtc_invariant step tasks_inv); [apply step_inv|apply tasks_inv_new]. Qed.

(** A drop that nobody interrupts ends. *)
Lemma async_drop_ends w p : is_Some (async_drop w p).
Proof.
  unfold async_drop. pose proof (final_state_ok p) as Ho. destruct (final_state p) as [| |[]| | | | | |];
    try done; cbn [drop_loop drop_step];
    repeat (case_match_goal; cbn [drop_loop drop_step fmap option_fmap option_map] in *; simplify_eq); try done.
Qed.

Lemma holder_current t l c :
  tasks_inv t -> rg_cells (tk_view t) !! l = Some c -> nc_retired c = false ->
  in_progress (vs_state (nc_state c)) = true ->
  exists h, h ∈ holders t /\ nv_cell h = l /\ nv_expected_generation h = Some (nc_epoch c) /\
            is_current (tk_view t) h = true.
Proof.
  intros Ht Hc Hr Hp. pose proof (ti_progress t Ht l c Hc Hr Hp) as Hex.
  apply Exists_exists in Hex as (h & Hh & Hown). exists h.
  destruct (owner_current _ _ _ _ Hc Hr Hown) as [Hcur _]. destruct Hown. by split_and!.
Qed.

(** C5: at most one task connects to a node.  However the tasks of the client are
    interleaved, there are never two permits for the same node in its present
    generation, a node on which an attempt to connect is going on belongs to
    exactly one such permit, and a lock gives a permit in two cases only: the
    node is closed or the last attempt failed, and then every earlier permit for
    it is void; or the node waits for a reverse connection, the lock is for an
    incoming one, and the permit of the task that waits stays in force. *)
Theorem connect_permits_exclusive t : rtc step Tasks_new t ->
  (forall i j v1 v2, holders t !! i = Some v1 -> holders t !! j = Some v2 ->
     is_current (tk_view t) v1 = true -> is_current (tk_view t) v2 = true ->
     nv_cell v1 = nv_cell v2 -> i = j) /\
  (forall v, is_current (tk_view t) v = true ->
     in_progress (vs_state (nc_state (cell (tk_view t) v))) = true ->
     exists h, h ∈ holders t /\ nv_cell h = nv_cell v /\ is_current (tk_view t) h = true) /\
  (forall receiver v incoming p w', bounded (tk_view t) -> nv_expected_generation v = None ->
     lock_session receiver (tk_view t) v incoming = (Permit p, w') ->
     is_current w' (sp_registry p) = true /\ nv_cell (sp_registry p) = nv_cell v /\
     let s := vs_state (nc_state (cell (tk_view t) v)) in
     if sp_reverse p
     then incoming = true /\ s = ReverseConnection Awaiting /\
          exists h, h ∈ holders t /\ nv_cell h = nv_cell v /\ is_current w' h = true
     else (s = Closed \/ is_failed s = true) /\
          forall h, h ∈ holders t -> nv_cell h = nv_cell v -> is_current w' h = false).
Proof.
  intros Hreach. apply reachable_inv in Hreach as Ht. split_and!.
  - intros i j v1 v2 Hi Hj H1 H2 Hcell. pose proof (holders_snapshot t Ht) as Hs.
    pose proof (Forall_lookup_1 _ _ _ _ Hs Hi) as (g1 & E1 & _).
    pose proof (Forall_lookup_1 _ _ _ _ Hs Hj) as (g2 & E2 & _).
    apply current_cell in H1 as (c1 & Hc1 & _ & _ & He1). apply current_cell in H2 as (c2 & Hc2 & _ & _ & He2).
    rewrite Hcell in Hc1. assert (c2 = c1) as -> by congruence.
    unfold generation in *. rewrite E1 in He1. rewrite E2 in He2.
    eapply (NoDup_lookup _ _ _ _ (ti_once t Ht)); rewrite list_lookup_fmap.
    + by rewrite Hi; cbn; rewrite E1.
    + by rewrite Hj; cbn; rewrite E2, <- He2, He1.
  - intros v Hc Hp. apply current_cell in Hc as (c & Hc & Ec & Hr & _). rewrite Ec in Hp.
    destruct (holder_current t _ c Ht Hc Hr Hp) as (h & ? & ? & _ & ?). by exists h.
  - intros receiver v incoming p w' Hb Hv Hlock.
    destruct (lock_permit_eq _ _ _ _ _ _ Hv Hlock) as (c & s & Hc & Hr & Ha & Es & Hinc & Ep & Ecells & _ & _ & En).
    rewrite (cell_lookup _ _ _ Hc).
    assert (forall h, nv_cell h = nv_cell v -> is_Some (nv_expected_generation h) -> is_current w' h =
      bool_decide (nv_expected_generation h = Some (if sp_reverse p then nc_epoch c
                                                    else rg_next_generation (tk_view t)))) as Hcur.
    { intros h Hh [g Hg]. unfold is_current, generation, cell.
      rewrite Hg, Hh, Ecells, list_lookup_alter_eq, Hc. cbn. rewrite Hr. cbn.
      case_bool_decide as Hd; [apply Z.eqb_eq|apply Z.eqb_neq]; congruence. }
    split; [|split]; [rewrite Ep at 1; cbn; rewrite Hcur by done; by rewrite bool_decide_true|by rewrite Ep|].
    destruct (sp_reverse p) eqn:Erev.
    + subst s. apply allowed_intent in Ha. split_and!; [by apply Hinc|done|].
      destruct (holder_current t _ c Ht Hc Hr) as (h & Hh & Hl & Hg & _); [by rewrite Ha|].
      exists h. split_and!; [done..|]. rewrite Hcur by (done || by rewrite Hg). by rewrite bool_decide_true.
    + split; [subst s; eapply allowed_starts; [|exact Ha]; by destruct incoming|].
      intros h Hh Hl. pose proof (holders_snapshot t Ht) as Hs.
      eapply Forall_forall in Hs as (g & Hg & Hlt); [|exact Hh].
      rewrite Hcur by (done || by rewrite Hg). apply bool_decide_false. rewrite Hg. intros [= ->]. lia.
Qed.

(** A session that a waiter is given was announced as established. *)
Lemma await_session w fuel : forall s a d s' a',
  check_finish upgrade s = None \/ s ∈ Closed :: nc_notified (cell w (na_registry a)) ->
  await_loop (check_finish upgrade) capacity fuel w s a = (Some (Ok d), s', a') ->
  Established d ∈ nc_notified (cell w (na_registry a)) /\ upgrade d = true.
Proof.
  assert (forall s d (log : list ConnState), check_finish upgrade s = None \/ s ∈ Closed :: log ->
    check_finish upgrade s = Some (Ok d) -> Established d ∈ log /\ upgrade d = true) as Hcheck.
  { intros s d log Hs Hc. destruct Hs as [Hs|Hs]; [congruence|]. destruct s as [| | | |d'| | | |]; try done.
    cbn in Hc. destruct (upgrade d') eqn:Hu; [|done]. simplify_eq. split; [|done].
    by apply elem_of_cons in Hs as [|]. }
  induction fuel as [|fuel IH]; intros s a d s' a' Hs Hloop; cbn in Hloop;
    pose proof (Hcheck s d _ Hs) as Hk; clear Hs.
  - destruct (check_finish upgrade s) as [r|]; [|done]. simplify_eq. by apply Hk.
  - destruct (check_finish upgrade s) as [r|]; [simplify_eq; by apply Hk|].
    unfold next in Hloop. destruct (is_current w (na_registry a)); cbn [negb] in Hloop.
    2:{ eapply (IH Closed a); [|done]. right. apply list_elem_of_here. }
    unfold recv in Hloop. case_match_hyp Hloop; cbn in Hloop; [done|].
    destruct (nc_notified (cell w (na_registry a)) !! na_position a) as [s1|] eqn:Hl; cbn in Hloop; [|done].
    eapply IH in Hloop; [done|]. cbn. right. apply list_elem_of_further. by eapply list_elem_of_lookup_2.
Qed.

(** C22: no task waits for ever.  However the tasks are interleaved, when a task
    that waits for a session finds nothing to do, somebody is there who will
    notify it: a permit for the node in its present generation that is still held
    or being dropped, or a task that is closing the node.  A session it gets was
    established for the node and still exists.  And a drop comes to its end. *)
Theorem waiters_never_stranded t : rtc step Tasks_new t ->
  (forall a s, (a, s) ∈ tk_waiting t ->
     match (await_from (check_finish upgrade) capacity (tk_view t) s a).1.1 with
     | None => exists v, v ∈ holders t ++ tk_closing t /\ nv_cell v = nv_cell (na_registry a) /\
                         is_current (tk_view t) v = true
     | Some (Ok d) => Established d ∈ nc_notified (cell (tk_view t) (na_registry a)) /\ upgrade d = true
     | Some (Err _) => True
     end) /\
  forall w p, is_Some (async_drop w p).
Proof.
  intros Hreach. apply reachable_inv in Hreach as Ht. split; [|apply async_drop_ends].
  intros a s Ha. pose proof (ti_waiting t Ht) as Hw. eapply Forall_forall in Hw; [|exact Ha].
  destruct (await_from _ _ _ _ _) as [[[[d|e]|] s'] a'] eqn:Hr; cbn; [|done|].
  { eapply await_session; [|exact Hr]. left. apply Hw. }
  apply await_blocked in Hr as (Hok & Ea & Hcur & Es); [|apply (ti_view t Ht)|done|lia].
  rewrite Ea in *. destruct Hok as (Hs' & _). apply current_cell in Hcur as (c & Hc & Ec & Hre & _).
  rewrite Ec in Es. destruct (in_progress s') eqn:Hp.
  - destruct (holder_current t _ c Ht Hc Hre) as (h & Hh & Hl & _ & Hcur); [by rewrite <- Es|].
    exists h. split_and!; [|done..]. apply elem_of_app. by left.
  - assert (s' = Closing) as E by (by destruct s').
    pose proof (ti_closing t Ht _ c Hc Hre) as Hex. rewrite <- Es, E in Hex.
    apply Exists_exists in Hex as (h & Hh & Hown); [|done].
    destruct (owner_current _ _ _ _ Hc Hre Hown) as [Hcur _]. exists h.
    split_and!; [|apply Hown|done]. apply elem_of_app. by right.
Qed.

(** ** Entries *)

(** A node id keeps its node until that node is retired. *)
Definition entry_kept (w w' : NetworkView) : Prop :=
  forall id v, rg_by_node_id w !! id = Some v ->
    (exists v', rg_by_node_id w' !! id = Some v' /\ nv_cell v' = nv_cell v) \/
    (exists c, rg_cells w' !! nv_cell v = Some c /\ nc_retired c = true).

Lemma entry_kept_same w w' : rg_by_node_id w' = rg_by_node_id w -> entry_kept w w'.
Proof. intros E id v Hv. left. exists v. by rewrite E. Qed.

Lemma entry_kept_insert w v ids w' :
  rg_by_node_id w' = insert_ids v ids (rg_by_node_id w) ->
  (forall id u, id ∈ ids -> rg_by_node_id w !! id = Some u -> nv_cell u = nv_cell v) ->
  entry_kept w w'.
Proof.
  intros E Hids id u Hu. left. rewrite E. unfold insert_ids. rewrite foldl_insert_lookup.
  case_decide; [|by exists u]. exists v. split; [done|]. symmetry. by eapply Hids.
Qed.

Lemma ids_transition f w v : rg_by_node_id (transition_with f w v).2 = rg_by_node_id w.
Proof. unfold transition_with. by repeat case_match_goal. Qed.

Lemma entry_kept_remove w v : entry_kept w (remove_generation w v).2.
Proof.
  destruct (is_current w v) eqn:Hc.
  2:{ apply entry_kept_same. unfold remove_generation. by rewrite Hc. }
  destruct (remove_generation_eq w v Hc) as (_ & Ec & Ei & _).
  apply current_cell in Hc as (c & Hc & _). intros id u Hu. rewrite Ei.
  destruct (decide (nv_cell u = nv_cell v)) as [E|Hne].
  - right. rewrite Ec, E, list_lookup_alter_eq, Hc. eexists. split; [done|]. done.
  - left. exists u. split; [|done]. by apply other_cell_lookup.
Qed.

Lemma ids_abort w v : rg_by_node_id (abort_initialization w v) = rg_by_node_id w.
Proof. unfold abort_initialization. by case_match_goal. Qed.

Lemma entry_kept_drop w node stage : entry_kept w (drop_step w node stage).2.
Proof.
  destruct stage; cbn; try apply entry_kept_remove; apply entry_kept_same.
  - by repeat case_match_goal.
  - apply ids_transition.
  - unfold unregister_abortable. by case_match_goal.
  - pose proof (ids_transition (fun s => transition s new_state) w node) as E.
    fold (NodeView_transition w node new_state) in E.
    destruct (NodeView_transition w node new_state) as [[|] w']; [done|]. by case_match_goal.
  - apply ids_abort.
  - apply ids_transition.
Qed.

Lemma entry_kept_update now w info r w' :
  view_inv w -> update_entry now w info = Ret (r, w') -> entry_kept w w'.
Proof.
  intros Hw. unfold update_entry.
  assert (forall v i w1, rg_by_node_id (update_info w1 v i).2 = rg_by_node_id w1) as Hinfo
    by (intros v i w1; unfold update_info; by destruct (match nf_identities i with [] => _ | _ => _ end)).
  set (entries := omap _ _).
  assert (forall id u, id ∈ map ni_node_id (nf_identities info) ->
            rg_by_node_id w !! id = Some u -> u ∈ entries) as Hin.
  { intros id u (i & -> & Hi)%list_elem_of_fmap Hu. apply list_elem_of_omap. exists i. split; [done|].
    unfold get_entry, find_entry. by rewrite Hu. }
  destruct entries as [|first entries'] eqn:Ee; cbn [outcome_bind].
  - destruct (NodeInfo_default_node_id info) as [id|]; cbn [outcome_bind]; [|done].
    destruct (NodeView_new _ _ _ _ _ _ _) as [v w1] eqn:En.
    assert (rg_by_node_id w1 = rg_by_node_id w) as E1
      by (unfold NodeView_new in En; cbn in En; by simplify_eq).
    cbn [outcome_bind]. intros [= _ <-].
    eapply entry_kept_insert; [rewrite Hinfo; cbn; by rewrite E1|]. intros i u Hi Hu.
    exfalso. by eapply not_elem_of_nil, Hin.
  - destruct (forallb _ _) eqn:Hall; cbn [outcome_bind]; intros [= _ <-]; [|by apply entry_kept_same].
    eapply entry_kept_insert; [by rewrite Hinfo|]. intros i u Hi Hu. apply Nat.eqb_eq.
    rewrite forallb_forall in Hall. apply Hall, list_elem_of_In. by eapply Hin.
Qed.

Lemma entry_kept_guard now w id addrs : entry_kept w (guard now w id addrs).2.
Proof.
  unfold guard. destruct (find_entry w id addrs) as [v|] eqn:Hf; [by apply entry_kept_same|].
  eapply (entry_kept_insert _ _ [id]); [reflexivity|]. intros id' u ->%list_elem_of_singleton Hu.
  unfold find_entry in Hf. by rewrite Hu in Hf.
Qed.

Lemma entry_kept_refresh {L} now w owner info (publish : L -> result L string) l :
  entry_kept w (commit_refresh now w owner info publish l).1.2.
Proof.
  unfold commit_refresh. destruct (publication_guard w owner); cbn; [|by apply entry_kept_same].
  destruct (existsb _ _); cbn; [|by apply entry_kept_same].
  destruct (conflicts _ (rg_by_node_id w) _) eqn:Hcon; cbn; [by apply entry_kept_same|].
  repeat case_match_goal; cbn; try by apply entry_kept_same.
  eapply entry_kept_insert; [done|]. cbn. intros id u Hid Hu. unfold conflicts in Hcon.
  destruct (decide (nv_cell u = nv_cell owner)) as [|Hne]; [done|]. exfalso.
  apply not_true_iff_false in Hcon. apply Hcon, existsb_exists. exists id.
  split; [by apply list_elem_of_In|]. rewrite Hu. by apply negb_true_iff, Nat.eqb_neq.
Qed.

Lemma step_entry_kept t t' : tasks_inv t -> step t t' -> entry_kept (tk_view t) (tk_view t').
Proof.
  intros Ht [Hb Hact]. destruct Hact; cbn [tk_view with_view];
    try (apply entry_kept_same; done).
  - apply entry_kept_guard.
  - eapply entry_kept_update; [apply (ti_view t Ht)|done].
  - apply entry_kept_refresh.
  - apply entry_kept_same. match goal with K : lock_session _ _ _ _ = _ |- _ =>
      apply lock_permit_eq in K as (? & ? & _ & _ & _ & _ & _ & _ & _ & E & _) end; done.
  - apply entry_kept_same, ids_transition.
  - apply entry_kept_same, ids_transition.
  - apply entry_kept_same, ids_transition.
  - apply entry_kept_same. unfold register_abortable. by destruct (_ && _).
  - apply entry_kept_same, ids_abort.
  - match goal with K : drop_step ?w ?n ?s = (_, ?w') |- _ =>
      change w' with (next, w').2; rewrite <- K end. apply entry_kept_drop.
  - apply entry_kept_same. unfold begin_closing. by case_match_goal.
  - apply entry_kept_remove.
  - apply entry_kept_remove.
Qed.

Lemma live_current w v : live w v -> is_current w v = true.
Proof.
  intros [Hv (c & Hc & Hr)]. unfold is_current, generation. rewrite Hv, (cell_lookup _ _ _ Hc), Hr.
  apply Z.eqb_refl.
Qed.

(** the registry knows a node once.  However the tasks are interleaved, every
    entry that is found is of a node that is not retired; the guard of a node
    gives a view that is current, and gives it again when asked again; an id that
    is registered keeps its node until that node is retired; and no id and no
    address leads to a retired node. *)
Theorem registry_entries_unique t : rtc step Tasks_new t ->
  (forall id addrs v, find_entry (tk_view t) id addrs = Some v -> is_current (tk_view t) v = true) /\
  (forall now id addrs, bounded (tk_view t) ->
     let '(v, w) := guard now (tk_view t) id addrs in
     is_current w v = true /\ forall now', guard now' w id addrs = (v, w)) /\
  (forall t', step t t' -> entry_kept (tk_view t) (tk_view t')) /\
  (forall v, nc_retired (cell (tk_view t) v) = true ->
     (forall id u, rg_by_node_id (tk_view t) !! id = Some u -> nv_cell u <> nv_cell v) /\
     (forall a u, rg_by_addr (tk_view t) !! a = Some u -> nv_cell u <> nv_cell v)).
Proof.
  intros Hreach. apply reachable_inv in Hreach as Ht. pose proof (ti_view t Ht) as Hi. split_and!.
  - intros id addrs v Hv. eapply live_current, live_entry; done.
  - intros now id addrs Hb. pose proof (view_inv_guard now _ id addrs Hi Hb) as [_ Hl].
    destruct (guard now (tk_view t) id addrs) as [v w] eqn:E. split; [by apply live_current|].
    intros now'. unfold guard in *. destruct (find_entry (tk_view t) id addrs) as [u|] eqn:Hf.
    + simplify_eq. by rewrite Hf.
    + unfold NodeView_new in E. cbn [next_generation] in E.
      simplify_eq. unfold find_entry. cbn [rg_by_node_id with_maps insert_ids foldl nv_id].
      by rewrite lookup_insert_eq.
  - intros t'. by apply step_entry_kept.
  - intros v Hr.
    assert (forall u, live (tk_view t) u -> nv_cell u <> nv_cell v) as Hl.
    { intros u [_ (c & Hc & Hrc)] E. rewrite E in Hc. rewrite (cell_lookup _ _ _ Hc) in Hr. congruence. }
    split; intros k u Hu; apply Hl; [by eapply (vi_ids _ Hi)|by eapply (vi_addrs _ Hi)].
Qed.
End NetworkViewProps.

(** ** Examples *)

Import ToyCrypto.

Definition sample_id : NodeId := replicate 20 7.
Definition sample_upgrade (d : nat) : bool := true.

(** A task holds the permit for a node, and another one waits. *)
Definition sample_view : NetworkView := (guard 0 NetworkView_new sample_id []).2.
Definition sample_entry : NodeView := (guard 0 NetworkView_new sample_id []).1.
Definition sample_locked : SessionLock * NetworkView := lock_session 0 sample_view sample_entry false.
Definition sample_permit : SessionPermit :=
  {| sp_registry := {| nv_id := sample_id; nv_cell := 0; nv_expected_generation := Some 2 |};
     sp_reverse := false; sp_result := None |}.
Definition sample_waiter : NodeAwaiting :=
  {| na_registry := {| nv_id := sample_id; nv_cell := 0; nv_expected_generation := Some 2 |};
     na_position := 1 |}.
Definition sample_tasks : Tasks :=
  {| tk_view := sample_locked.2; tk_permits := [sample_permit]; tk_drops := []; tk_closing := [];
     tk_waiting := [(sample_waiter, Outgoing ConnectIntent)] |}.

Lemma sample_reachable : rtc (step sample_upgrade 16) Tasks_new sample_tasks.
Proof.
  eapply rtc_l; [split; [done|apply (act_guard _ _ Tasks_new 0 sample_id [])]|].
  eapply rtc_l; [split; [done|eapply (act_permit _ _ _ 0 sample_entry false sample_permit sample_locked.2);
                              [done|vm_compute; reflexivity]]|].
  eapply rtc_l; [split; [done|apply (act_wait _ _ _ sample_entry sample_waiter);
                              [by intros g|vm_compute; reflexivity|vm_compute; lia|vm_compute; reflexivity]]|].
  apply rtc_refl.
Qed.

Lemma connect_permits_exclusive_witness :
  exists h, h ∈ holders sample_tasks /\ nv_cell h = 0%nat.
Proof.
  destruct (connect_permits_exclusive sample_upgrade 16 sample_tasks sample_reachable) as (_ & Hp & _).
  destruct (Hp sample_entry) as (h & Hh & Hl & _); [vm_compute; reflexivity..|].
  exists h. split; [exact Hh|exact Hl].
Defined.

Lemma waiters_never_stranded_witness :
  exists v, v ∈ holders sample_tasks ++ tk_closing sample_tasks /\ nv_cell v = 0%nat /\
            is_current (tk_view sample_tasks) v = true.
Proof.
  destruct (waiters_never_stranded sample_upgrade 16 sample_tasks sample_reachable) as (Hw & _).
  exact (Hw sample_waiter (Outgoing ConnectIntent) (list_elem_of_here _ _)).
Defined.

Lemma registry_entries_unique_witness :
  is_current (tk_view sample_tasks) sample_entry = true.
Proof.
  destruct (registry_entries_unique sample_upgrade 16 sample_tasks sample_reachable) as (He & _).
  apply (He sample_id [] sample_entry). vm_compute. reflexivity.
Defined.
