(* ===== verification/DirectSession.v ===== *)
(** [client/src/direct_session.rs]: a session with a node or a relay server, and
    the nodes it may be used to forward for. *)

From S2P Require Import Prelude Payload Proto Challenge NodeInfo.

(** [NodeEntry<NodeId>]. *)
Record NodeEntry : Type := { nde_default_id : NodeId; nde_identities : list NodeId }.

#[export] Instance NodeEntry_eq_dec : EqDecision NodeEntry.
Proof. solve_decision. Defined.

Record AllowedForwards : Type := {
  af_slots : gmap Z NodeEntry;
  af_nodes : gmap NodeId Z }.

Definition AllowedForwards_default : AllowedForwards := {| af_slots := ∅; af_nodes := ∅ |}.

Definition delete_all (ids : list NodeId) (m : gmap NodeId Z) : gmap NodeId Z :=
  foldl (fun m id => delete id m) m ids.

Definition AllowedForwards_remove (f : AllowedForwards) (node_id : NodeId)
  : option NodeEntry * AllowedForwards :=
  match af_nodes f !! node_id with
  | None => (None, f)
  | Some slot =>
      let nodes := delete node_id (af_nodes f) in
      match af_slots f !! slot with
      | Some entry =>
          (Some entry, {| af_slots := delete slot (af_slots f);
                          af_nodes := delete_all (nde_identities entry) nodes |})
      | None => (None, {| af_slots := af_slots f; af_nodes := nodes |})
      end
  end.

Definition AllowedForwards_remove_by_slot (f : AllowedForwards) (slot : Z)
  : option NodeId * AllowedForwards :=
  match af_slots f !! slot with
  | Some node =>
      (Some (nde_default_id node), (AllowedForwards_remove f (nde_default_id node)).2)
  | None => (None, f)
  end.

Definition AllowedForwards_add (f : AllowedForwards) (node : NodeEntry) (slot : Z)
  : AllowedForwards :=
  let f := (AllowedForwards_remove_by_slot f slot).2 in
  let f := (AllowedForwards_remove f (nde_default_id node)).2 in
  let f := foldl (fun f id => (AllowedForwards_remove f id).2) f (nde_identities node) in
  {| af_slots := <[slot := node]> (af_slots f);
     af_nodes := foldl (fun m id => <[id := slot]> m) (af_nodes f) (nde_identities node) |}.

Definition get_by_slot (f : AllowedForwards) (slot : Z) : option NodeEntry := af_slots f !! slot.

Definition get_slot (f : AllowedForwards) (node_id : NodeId) : option Z := af_nodes f !! node_id.

Definition get_by_id (f : AllowedForwards) (node_id : NodeId) : option NodeEntry :=
  match af_nodes f !! node_id with
  | Some slot => get_by_slot f slot
  | None => None
  end.

(** ** Sessions *)

(** [DirectSession]: the generation of the node it was made for, its owner, the id
    of the raw session, its address and the allowed forwards. *)
Record DirectSession : Type := {
  ds_generation : Z;
  ds_owner : NodeEntry;
  ds_id : SessionId;
  ds_remote : SocketAddr;
  ds_forwards : AllowedForwards }.

(** [DirectSession::new] from the ids of the identities. *)
Definition DirectSession_new (node_id : NodeId) (identities : list NodeId) (id : SessionId)
  (remote : SocketAddr) : option DirectSession :=
  match find (fun ident => bool_decide (ident = node_id)) identities with
  | Some default_id =>
      Some {| ds_generation := 0;
              ds_owner := {| nde_default_id := default_id; nde_identities := identities |};
              ds_id := id; ds_remote := remote; ds_forwards := AllowedForwards_default |}
  | None => None
  end.

Definition DirectSession_new_relay (node_id : NodeId) (id : SessionId) (remote : SocketAddr)
  : DirectSession :=
  {| ds_generation := 0; ds_owner := {| nde_default_id := node_id; nde_identities := [] |};
     ds_id := id; ds_remote := remote; ds_forwards := AllowedForwards_default |}.

Inductive TransportType : Type := Unreliable | Reliable | Transfer.

(** The packet [send_with_flags] sends; an error when the target is neither the
    owner nor an allowed forward. *)
Definition send_with_flags (d : DirectSession) (target : NodeId) (packet : Payload)
  (transport : TransportType) (encrypted encryption_sync : bool) : option Forward :=
  let slot :=
    if bool_decide (nde_default_id (ds_owner d) = target) then Some FORWARD_SLOT_ID
    else get_slot (ds_forwards d) target in
  match slot with
  | None => None
  | Some slot =>
      let forward :=
        match transport with
        | Unreliable => Forward_unreliable (ds_id d) slot packet
        | Reliable => Forward_new (ds_id d) slot packet
        | Transfer => Forward_new (ds_id d) slot packet
        end in
      let forward := if encrypted then set_encrypted forward else forward in
      Some (if encryption_sync then set_encryption_sync forward else forward)
  end.

(** ** Consistency *)

(** The two maps describe the same slots, and an entry lists its default id. *)
Record af_inv (f : AllowedForwards) : Prop := {
  af_inverse n s :
    af_nodes f !! n = Some s <-> exists e, af_slots f !! s = Some e /\ n ∈ nde_identities e;
  af_default s e : af_slots f !! s = Some e -> nde_default_id e ∈ nde_identities e }.

Lemma delete_all_lookup ids m n :
  delete_all ids m !! n = if decide (n ∈ ids) then None else m !! n.
Proof.
  unfold delete_all. revert m. induction ids as [|id ids IH]; intros m; [done|]. simpl. rewrite IH.
  destruct (decide (n = id)) as [->|Hne].
  - rewrite lookup_delete_eq. repeat case_decide; set_solver.
  - rewrite lookup_delete_ne by done. repeat case_decide; set_solver.
Qed.

(** A consistent table is determined by its slots. *)
Lemma remove_spec f n :
  af_inv f ->
  af_inv (AllowedForwards_remove f n).2 /\
  (AllowedForwards_remove f n).1 = get_by_id f n /\
  af_slots (AllowedForwards_remove f n).2 =
    match af_nodes f !! n with Some s => delete s (af_slots f) | None => af_slots f end.
Proof.
  intros [Hinv Hdef]. unfold AllowedForwards_remove, get_by_id, get_by_slot.
  destruct (af_nodes f !! n) as [s|] eqn:En; [|by split_and!; [split|..]].
  pose proof En as (e & He & Hn)%Hinv. rewrite He. simpl. split_and!; [|done|done]. split; simpl.
  - intros k s'. rewrite delete_all_lookup. split.
    + case_decide as Hk; [done|]. intros [Hne Hl]%lookup_delete_Some.
      apply Hinv in Hl as (e' & He' & Hk'). exists e'. split; [|done].
      rewrite lookup_delete_ne; [done|]. intros ->. simplify_eq.
    + intros (e' & [Hss He']%lookup_delete_Some & Hk).
      assert (af_nodes f !! k = Some s') as Hks by (apply Hinv; eauto).
      rewrite decide_False.
      * rewrite lookup_delete_ne; [done|]. intros ->. congruence.
      * intros Hke. assert (af_nodes f !! k = Some s) by (apply Hinv; eauto). congruence.
  - intros s' e' [_ He']%lookup_delete_Some. by eapply Hdef.
Qed.

Lemma remove_by_slot_spec f slot :
  af_inv f ->
  af_inv (AllowedForwards_remove_by_slot f slot).2 /\
  (AllowedForwards_remove_by_slot f slot).1 = nde_default_id <$> get_by_slot f slot /\
  af_slots (AllowedForwards_remove_by_slot f slot).2 = delete slot (af_slots f).
Proof.
  intros Hf. unfold AllowedForwards_remove_by_slot, get_by_slot.
  destruct (af_slots f !! slot) as [e|] eqn:Es; simpl; [|split_and!; [done..|by rewrite delete_id]].
  destruct (remove_spec f (nde_default_id e) Hf) as (Hi & _ & ->). split_and!; [done..|].
  assert (af_nodes f !! nde_default_id e = Some slot) as ->; [|done].
  apply (af_inverse f Hf). exists e. split; [done|]. by eapply (af_default f Hf).
Qed.

(** Entries that share an id with [ids]. *)
Definition overlaps (ids : list NodeId) (e : NodeEntry) : Prop :=
  Exists (fun n => n ∈ nde_identities e) ids.

#[export] Instance overlaps_dec ids e : Decision (overlaps ids e).
Proof. unfold overlaps. apply _. Defined.

Lemma overlaps_nil e : ~ overlaps [] e.
Proof. intros Ho. by apply Exists_nil in Ho. Qed.

Lemma overlaps_cons id ids e : overlaps (id :: ids) e <-> id ∈ nde_identities e \/ overlaps ids e.
Proof. apply Exists_cons. Qed.

(** The slot of an id is the one whose entry lists it. *)
Lemma not_listed f id s e :
  af_inv f -> af_nodes f !! id <> Some s -> af_slots f !! s = Some e -> id ∉ nde_identities e.
Proof. intros Hf Hn Hs Hin. apply Hn, (af_inverse f Hf). eauto. Qed.

Lemma remove_all_spec ids : forall f,
  af_inv f ->
  let f' := foldl (fun f id => (AllowedForwards_remove f id).2) f ids in
  af_inv f' /\
  forall s, af_slots f' !! s =
    match af_slots f !! s with
    | Some e => if decide (overlaps ids e) then None else Some e
    | None => None
    end.
Proof.
  induction ids as [|id ids IH]; intros f Hf; cbn [foldl].
  { split; [done|]. intros s. destruct (af_slots f !! s); [|done].
    case_decide as Ho; [by apply overlaps_nil in Ho|done]. }
  destruct (remove_spec f id Hf) as (Hf1 & _ & Hs1).
  destruct (IH (AllowedForwards_remove f id).2 Hf1) as [Hf2 Hs2]. split; [done|].
  intros s. rewrite Hs2, Hs1. clear Hs2 Hs1 IH.
  pose proof (overlaps_cons id ids) as Hc.
  destruct (af_nodes f !! id) as [s0|] eqn:En.
  - destruct (decide (s0 = s)) as [->|Hne].
    + rewrite lookup_delete_eq. apply (af_inverse f Hf) in En as (e & -> & Hin).
      case_decide as Ho; [done|]. exfalso. apply Ho, Hc. by left.
    + rewrite lookup_delete_ne by done. destruct (af_slots f !! s) as [e|] eqn:Es; [|done].
      pose proof (not_listed f id s e Hf ltac:(congruence) Es). specialize (Hc e).
      repeat case_decide; tauto.
  - destruct (af_slots f !! s) as [e|] eqn:Es; [|done].
    pose proof (not_listed f id s e Hf ltac:(congruence) Es). specialize (Hc e).
    repeat case_decide; tauto.
Qed.

(** The table before the new entry is put in. *)
Definition cleared (f : AllowedForwards) (node : NodeEntry) (slot : Z) : AllowedForwards :=
  foldl (fun f id => (AllowedForwards_remove f id).2) (AllowedForwards_remove_by_slot f slot).2
    (nde_default_id node :: nde_identities node).

Lemma cleared_spec f node slot :
  af_inv f -> nde_default_id node ∈ nde_identities node ->
  af_inv (cleared f node slot) /\ af_slots (cleared f node slot) !! slot = None /\
  forall s, s <> slot -> af_slots (cleared f node slot) !! s =
    match af_slots f !! s with
    | Some e => if decide (overlaps (nde_identities node) e) then None else Some e
    | None => None
    end.
Proof.
  intros Hf Hd. destruct (remove_by_slot_spec f slot Hf) as (Hf1 & _ & Hs1).
  destruct (remove_all_spec (nde_default_id node :: nde_identities node) _ Hf1) as [Hf2 Hs2].
  fold (cleared f node slot) in Hf2, Hs2.
  assert (forall e, overlaps (nde_default_id node :: nde_identities node) e <->
                    overlaps (nde_identities node) e) as Ho.
  { intros e. rewrite overlaps_cons. split; [|by right]. intros [Hin|]; [|done].
    apply Exists_exists. eauto. }
  split_and!; [done| |].
  - by rewrite Hs2, Hs1, lookup_delete_eq.
  - intros s Hs. rewrite Hs2, Hs1, lookup_delete_ne by done.
    destruct (af_slots f !! s) as [e|]; [|done]. specialize (Ho e). repeat case_decide; tauto.
Qed.

Lemma add_inv f node slot :
  af_inv f -> nde_default_id node ∈ nde_identities node -> af_inv (AllowedForwards_add f node slot).
Proof.
  intros Hf Hd. destruct (cleared_spec f node slot Hf Hd) as (Hc & Hslot & Hother).
  unfold AllowedForwards_add. fold (cleared f node slot). split; simpl.
  - intros n s. rewrite foldl_insert_lookup. split.
    + case_decide as Hn; [intros [= <-]; exists node; by rewrite lookup_insert_eq|].
      intros (e & He & Hin)%(af_inverse _ Hc). exists e. split; [|done].
      rewrite lookup_insert_ne; [done|]. intros ->. congruence.
    + intros (e & He & Hin). apply lookup_insert_Some in He as [[<- <-]|[Hne He]].
      { by rewrite decide_True. }
      rewrite decide_False; [by apply (af_inverse _ Hc); eauto|]. intros Hn.
      rewrite Hother in He by done. destruct (af_slots f !! s) as [e0|]; [|done].
      case_decide as Ho; [done|]. simplify_eq. apply Ho, Exists_exists. eauto.
  - intros s e [[<- <-]|[_ He]]%lookup_insert_Some; [done|]. by eapply (af_default _ Hc).
Qed.

(** the table of forwards.  From a consistent table, adding a node gives a
    consistent table in which the slot and all its ids lead to the node; of the
    other entries exactly those that share an id with it are gone, as a whole.
    Removing by an id or by a slot removes exactly the entry they lead to. *)
Theorem allowed_forwards_consistent f node slot :
  af_inv f -> nde_default_id node ∈ nde_identities node ->
  let f' := AllowedForwards_add f node slot in
  af_inv f' /\
  get_by_slot f' slot = Some node /\
  (forall n, n ∈ nde_identities node -> get_slot f' n = Some slot /\ get_by_id f' n = Some node) /\
  (forall s, s <> slot ->
     get_by_slot f' s =
     match get_by_slot f s with
     | Some e => if decide (overlaps (nde_identities node) e) then None else Some e
     | None => None
     end) /\
  (forall n, let r := AllowedForwards_remove f n in
     af_inv r.2 /\ r.1 = get_by_id f n /\
     forall s, get_by_slot r.2 s = if decide (get_slot f n = Some s) then None else get_by_slot f s) /\
  (forall s, let r := AllowedForwards_remove_by_slot f s in
     af_inv r.2 /\ af_slots r.2 = delete s (af_slots f)).
Proof.
  intros Hf Hd f'. pose proof (add_inv f node slot Hf Hd) as Hf'.
  destruct (cleared_spec f node slot Hf Hd) as (_ & _ & Hother).
  assert (get_by_slot f' slot = Some node) as Hslot by apply lookup_insert_eq.
  split_and!; [done|done| | | |].
  - intros n Hn.
    assert (get_slot f' n = Some slot) as Hns by (apply (af_inverse _ Hf'); eauto).
    split; [done|]. unfold get_by_id. unfold get_slot in Hns. by rewrite Hns.
  - intros s Hs. unfold get_by_slot, f', AllowedForwards_add. fold (cleared f node slot). simpl.
    rewrite lookup_insert_ne by done. by apply Hother.
  - intros n r. destruct (remove_spec f n Hf) as (Hr & Hg & Hsl). split_and!; [done..|].
    intros s. unfold r, get_by_slot, get_slot. rewrite Hsl.
    destruct (af_nodes f !! n) as [s0|]; [|by rewrite decide_False].
    destruct (decide (s0 = s)) as [->|].
    + by rewrite lookup_delete_eq, decide_True.
    + rewrite lookup_delete_ne, decide_False by congruence. done.
  - intros s r. destruct (remove_by_slot_spec f s Hf) as (? & _ & ?). done.
Qed.

Lemma af_default_inv : af_inv AllowedForwards_default.
Proof.
  split; simpl.
  - intros n s. rewrite lookup_empty. split; [done|]. intros (e & He & _).
    by rewrite lookup_empty in He.
  - intros s e He. by rewrite lookup_empty in He.
Qed.

(** ** Example *)

Definition sample_entry (k : Z) : NodeEntry :=
  {| nde_default_id := [k]; nde_identities := [[k]; [k + 1]] |}.

Lemma allowed_forwards_consistent_witness :
  let f := AllowedForwards_add AllowedForwards_default (sample_entry 1) 5 in
  get_by_slot (AllowedForwards_add f (sample_entry 2) 6) 5 = None /\
  get_by_id (AllowedForwards_add f (sample_entry 2) 6) [3] = Some (sample_entry 2).
Proof.
  intros f.
  assert (af_inv f) as Hf by (apply add_inv; [apply af_default_inv|apply list_elem_of_here]).
  destruct (allowed_forwards_consistent f (sample_entry 2) 6 Hf (list_elem_of_here _ _))
    as (_ & _ & Hids & Hother & _).
  split.
  - rewrite (Hother 5) by discriminate. vm_compute. reflexivity.
  - apply Hids. apply list_elem_of_further, list_elem_of_here.
Defined.
