(* ===== verification/Encryption.v ===== *)
(** [client/src/encryption.rs]: the encryption of payloads between two nodes.

    AES-256-GCM-SIV and the key agreement are parameters with the laws of an
    authenticated cipher and of a Diffie-Hellman exchange; random nonces are
    arguments.  The two build features [encryption] and [encryption-strict] are
    parameters of the model. *)

From S2P Require Import Prelude Payload Challenge.

Definition NONCE_SIZE : Z := 12.
Definition TAG_SIZE : Z := 16.
Definition AES_256_GCM_SIV_CIPHERTEXT_EXPANSION : Z := NONCE_SIZE + TAG_SIZE.

(** [Aead::encrypt] and [Aead::decrypt] of [Aes256GcmSiv]. *)
Class Aead : Type := {
  aead_encrypt : list Z -> list Z -> list Z -> option (list Z);
  aead_decrypt : list Z -> list Z -> list Z -> option (list Z) }.

(** A ciphertext ends in the tag, and decrypts to what was encrypted. *)
Class AeadLaws `{Aead} : Prop := {
  aead_size k n p c : aead_encrypt k n p = Some c -> zlen c = zlen p + TAG_SIZE;
  aead_open_seal k n p c : aead_encrypt k n p = Some c -> aead_decrypt k n c = Some p }.

(** [SessionCrypto]: a secret, its public key, and the shared secret. *)
Class KeyAgreement `{EthSign} : Type := {
  SessionCrypto : Type;
  session_pub_key : SessionCrypto -> PublicKey;
  secret_with : SessionCrypto -> PublicKey -> list Z }.

Class KeyAgreementLaws `{KeyAgreement} : Prop := {
  secret_shared a b :
    secret_with a (session_pub_key b) = secret_with b (session_pub_key a) }.

Inductive EncryptionError : Type :=
| EncryptFailed
| TooShort (len : Z)
| DecryptFailed
| EncryptionRequired.

(** [Box<dyn Encryption>]. *)
Inductive Encryption : Type :=
| NullEncryption
| Aes256GcmSivEncryption (shared_secret : list Z).

Definition encryption_flag (e : Encryption) : bool :=
  match e with NullEncryption => false | Aes256GcmSivEncryption _ => true end.

Definition Aes256GcmSiv_name : string := "Aes256GcmSiv".

Section Encryption.
Context `{Aead} `{EthSign} `{!KeyAgreement}.
Context (feature_encryption feature_strict : bool).

Definition MAX_CIPHERTEXT_EXPANSION : Z :=
  if feature_encryption then AES_256_GCM_SIV_CIPHERTEXT_EXPANSION else 0.

Definition encrypt (e : Encryption) (nonce : list Z) (packet : Payload)
  : result Payload EncryptionError :=
  match e with
  | NullEncryption => Ok packet
  | Aes256GcmSivEncryption key =>
      match aead_encrypt key nonce (Payload_as_ref packet) with
      | Some ciphertext => Ok (PVec (nonce ++ ciphertext))
      | None => Err EncryptFailed
      end
  end.

Definition decrypt (e : Encryption) (packet : Payload) : result Payload EncryptionError :=
  match e with
  | NullEncryption => Ok packet
  | Aes256GcmSivEncryption key =>
      let packet := Payload_into_vec packet in
      if zlen packet <? AES_256_GCM_SIV_CIPHERTEXT_EXPANSION then Err (TooShort (zlen packet))
      else
        match aead_decrypt key (ztake NONCE_SIZE packet) (zdrop NONCE_SIZE packet) with
        | Some p => Ok (PVec p)
        | None => Err DecryptFailed
        end
  end.

Definition enforce_encryption_policy (e : Encryption) : result Encryption EncryptionError :=
  if feature_strict && negb (encryption_flag e) then Err EncryptionRequired else Ok e.

(** [encryption::new], with and without the feature. *)
Definition encryption_new (supported_encryption : list string)
  (remote_session_key : option PublicKey) (session_crypto : SessionCrypto)
  : result Encryption EncryptionError :=
  if feature_encryption then
    enforce_encryption_policy
      (match remote_session_key with
       | Some key =>
           if existsb (fun enc => String.eqb enc Aes256GcmSiv_name) supported_encryption
           then Aes256GcmSivEncryption (secret_with session_crypto key)
           else NullEncryption
       | None => NullEncryption
       end)
  else enforce_encryption_policy NullEncryption.

Definition supported_encryptions : list string :=
  if feature_encryption then [Aes256GcmSiv_name] else [].

Lemma Payload_into_vec_ref p : Payload_into_vec p = Payload_as_ref p.
Proof. by destruct p. Qed.

Lemma Payload_len_ref p : Payload_len p = zlen (Payload_as_ref p).
Proof. by destruct p. Qed.

(** Decrypting what was encrypted with the same secret. *)
Lemma decrypt_encrypt `{!AeadLaws} e nonce p q q' :
  zlen nonce = NONCE_SIZE -> encrypt e nonce p = Ok q -> Payload_as_ref q' = Payload_as_ref q ->
  exists p', decrypt e q' = Ok p' /\ Payload_as_ref p' = Payload_as_ref p /\
    Payload_len q = Payload_len p + (if encryption_flag e then AES_256_GCM_SIV_CIPHERTEXT_EXPANSION else 0).
Proof.
  intros Hn He Hq. destruct e as [|key]; cbn [encrypt decrypt encryption_flag] in *.
  { simplify_eq. exists q'. split_and!; [done|done|lia]. }
  destruct (aead_encrypt key nonce (Payload_as_ref p)) as [c|] eqn:Ec; simplify_eq.
  pose proof (aead_size _ _ _ _ Ec) as Hs. rewrite Payload_into_vec_ref, Hq. simpl.
  unfold AES_256_GCM_SIV_CIPHERTEXT_EXPANSION. rewrite zlen_app.
  pose proof (zlen_nonneg (Payload_as_ref p)).
  rewrite (proj2 (Z.ltb_ge _ _)) by lia. rewrite <- Hn.
  rewrite ztake_app_exact, zdrop_app_exact by done. rewrite (aead_open_seal _ _ _ _ Ec).
  exists (PVec (Payload_as_ref p)). split_and!; [done|done|].
  rewrite !Payload_len_ref. lia.
Qed.
End Encryption.

(** two nodes that exchanged session keys and support the cipher agree on
    it: what one encrypts the other decrypts, and the payload grows by exactly
    the announced expansion, whatever the policy.  With the strict policy no
    peer is ever accepted without encryption. *)
Theorem encrypted_channel `{AeadLaws} `{EthSign} `{KA : !KeyAgreement} `{!KeyAgreementLaws}
  (strict : bool) (a b : SessionCrypto) (nonce : list Z) :
  zlen nonce = NONCE_SIZE ->
  (exists ea eb,
     encryption_new true strict (supported_encryptions true) (Some (session_pub_key b)) a = Ok ea /\
     encryption_new true strict (supported_encryptions true) (Some (session_pub_key a)) b = Ok eb /\
     encryption_flag ea = true /\ encryption_flag eb = true /\
     forall p q, encrypt ea nonce p = Ok q ->
       Payload_len q = Payload_len p + MAX_CIPHERTEXT_EXPANSION true /\
       exists p', decrypt eb q = Ok p' /\ Payload_as_ref p' = Payload_as_ref p) /\
  (forall feature supported key e,
     encryption_new feature true supported key a = Ok e -> encryption_flag e = true).
Proof.
  intros Hn. split.
  - exists (Aes256GcmSivEncryption (secret_with a (session_pub_key b))),
      (Aes256GcmSivEncryption (secret_with b (session_pub_key a))).
    assert (forall e, encryption_flag e = true -> enforce_encryption_policy strict e = Ok e) as Hp
      by (intros e He; unfold enforce_encryption_policy; rewrite He; by rewrite andb_false_r).
    split_and!; [by apply Hp|by apply Hp|done|done|]. intros p q Hq.
    destruct (decrypt_encrypt _ nonce p q q Hn Hq eq_refl) as (p' & Hd & Hp' & Hl).
    rewrite secret_shared in Hd. eauto.
  - intros feature supported key e. unfold encryption_new, enforce_encryption_policy.
    destruct feature, key as [key|]; try (by destruct (existsb _ _); intros; simplify_eq/=); done.
Qed.

(** ** Example *)

Module ToyCipher.
Import ToyCrypto.

(** The plaintext with the key and a tag of zeros; the sum as shared secret. *)
#[export] Instance toy_aead : Aead := {
  aead_encrypt k n p := Some (p ++ replicate 16 0);
  aead_decrypt k n c := Some (ztake (zlen c - 16) c) }.

#[export] Instance toy_aead_laws : AeadLaws.
Proof.
  assert (forall p q : list Z, zlen q = 16 -> ztake (zlen (p ++ q) - 16) (p ++ q) = p) as Hq.
  { intros p q Hq. apply ztake_app_exact. rewrite zlen_app. lia. }
  split; intros k n p c [= <-].
  - by rewrite zlen_app.
  - cbn [aead_decrypt toy_aead]. f_equal. by apply Hq.
Qed.

#[export] Instance toy_agreement : KeyAgreement := {
  SessionCrypto := Z;
  session_pub_key k := k;
  secret_with a b := [a + b] }.

#[export] Instance toy_agreement_laws : KeyAgreementLaws.
Proof. split. intros a b. simpl. f_equal. lia. Qed.
End ToyCipher.

Section Witness.
Import ToyCrypto ToyCipher.

Lemma encrypted_channel_witness :
  exists ea eb,
    encryption_new true true (supported_encryptions true) (Some 5) 4 = Ok ea /\
    encryption_new true true (supported_encryptions true) (Some 4) 5 = Ok eb /\
    exists p', decrypt eb (PVec (replicate 12 1 ++ [7; 8] ++ replicate 16 0)) = Ok p' /\
      Payload_as_ref p' = [7; 8].
Proof.
  destruct (encrypted_channel (KA := toy_agreement) true 4 5 (replicate 12 1) eq_refl)
    as [(ea & eb & Ha & Hb & _ & _ & Hd) _].
  exists ea, eb. split; [exact Ha|]. split; [exact Hb|].
  apply (Hd (PVec [7; 8])). vm_compute in Ha. injection Ha as <-. reflexivity.
Defined.
End Witness.
