(* ===== verification/ClientForward.v ===== *)
(** Sending and receiving between nodes on the client: [NodeRouting::send] of
    [client/src/routing_session.rs], [on_forward] and the filter of repeated
    requests of [client/src/session.rs].

    [on_forward] is modelled as the decision it takes on a packet; the lookup of
    an unknown slot at the relay server is a parameter.  The routing it finds for
    the sender stays alive while the packet is handled. *)

From S2P Require Import Prelude Payload Proto Challenge NodeInfo DirectSession Encryption.

(** [NodeRouting]: the generation it belongs to, the ids of its node, the place of
    the session that is its route, and the encryption with the node. *)
Record NodeRouting : Type := {
  nr_generation : Z;
  nr_node : NodeEntry;
  nr_route : nat;
  nr_encryption : Encryption;
  nr_authenticated_identities : list NodeId }.

Definition nr_default_id (r : NodeRouting) : NodeId := nde_default_id (nr_node r).

Record Forwarded : Type := {
  fd_transport : TransportType;
  fd_node_id : NodeId;
  fd_authenticated_identities : option (list NodeId);
  fd_payload : Payload }.

(** What [on_forward] does with a packet. *)
Inductive ForwardAction : Type :=
| SendDisconnect (session_id : SessionId) (to : SocketAddr)
| UnknownSender (slot : Z)
| MalformedSync (sender : NodeId)
| HandleSync (sender : NodeId)
| NotNegotiated (sender : NodeId)
| EncryptedFromUnknown (sender : NodeId)
| DecryptionFailed (sender : NodeId)
| UnencryptedDropped (sender : NodeId)
| Deliver (packet : Forwarded).

Section ClientForward.
Context `{Aead}.
Context (feature_strict : bool).

(** [NodeRouting::send] through a route that is still open. *)
Definition routing_send (routing : NodeRouting) (direct : DirectSession) (nonce : list Z)
  (packet : Payload) (transport : TransportType) : option Forward :=
  match encrypt (nr_encryption routing) nonce packet with
  | Err _ => None
  | Ok packet =>
      send_with_flags direct (nr_default_id routing) packet transport
        (encryption_flag (nr_encryption routing)) false
  end.

Definition unencrypted_packet_allowed (route_encrypted : bool) : bool :=
  negb feature_strict && negb route_encrypted.

(** The sender of a packet: the owner of the session, the node of the slot, or
    the node the relay server knows for the slot. *)
Definition forward_sender (resolve_slot : Z -> option NodeId) (session : DirectSession) (slot : Z)
  : option NodeId :=
  if is_direct_message slot then Some (nde_default_id (ds_owner session))
  else
    match get_by_slot (ds_forwards session) slot with
    | Some node => Some (nde_default_id node)
    | None => resolve_slot slot
    end.

Definition on_forward (resolve_slot : Z -> option NodeId) (nodes : gmap NodeId NodeRouting)
  (forward : Forward) (from : SocketAddr) (session : option DirectSession) : ForwardAction :=
  match session with
  | None => SendDisconnect (fw_session_id forward) from
  | Some session =>
      match forward_sender resolve_slot session (fw_slot forward) with
      | None => UnknownSender (fw_slot forward)
      | Some sender =>
          let transport := if is_reliable forward then Reliable else Unreliable in
          if is_encryption_sync forward then
            if is_encrypted forward || negb (Payload_is_empty (fw_payload forward))
            then MalformedSync sender
            else HandleSync sender
          else
            let routing := nodes !! sender in
            if is_encrypted forward then
              match routing with
              | None => EncryptedFromUnknown sender
              | Some routing =>
                  if negb (encryption_flag (nr_encryption routing)) then NotNegotiated sender
                  else
                    match decrypt (nr_encryption routing) (fw_payload forward) with
                    | Ok payload =>
                        Deliver {| fd_transport := transport; fd_node_id := sender;
                                   fd_authenticated_identities :=
                                     Some (nr_authenticated_identities routing);
                                   fd_payload := payload |}
                    | Err _ => DecryptionFailed sender
                    end
              end
            else
              let route_encrypted :=
                match routing with
                | Some routing => encryption_flag (nr_encryption routing)
                | None => false
                end in
              if negb (unencrypted_packet_allowed route_encrypted) then UnencryptedDropped sender
              else Deliver {| fd_transport := transport; fd_node_id := sender;
                              fd_authenticated_identities := None;
                              fd_payload := fw_payload forward |}
      end
  end.
End ClientForward.

(** ** Repeated requests *)

Definition ReqFingerprint : Type := SocketAddr * option SessionId * Z.

Definition REQ_DEDUPLICATE_BUF_SIZE : Z := 32.

Definition record_duplicate (processed_requests : list ReqFingerprint) (r : ReqFingerprint)
  : list ReqFingerprint :=
  let l := processed_requests ++ [r] in
  if REQ_DEDUPLICATE_BUF_SIZE <? zlen l then tail l else l.

Definition is_request_duplicate (processed_requests : list ReqFingerprint) (r : ReqFingerprint)
  : bool :=
  existsb (fun entry => bool_decide (entry = r)) processed_requests.

(** ** Properties *)

Section Properties.
Context `{Aead}.
Context (feature_strict : bool).

Lemma flags_of_send d target q transport encrypted f :
  send_with_flags d target q transport encrypted false = Some f ->
  is_encrypted f = encrypted /\ is_encryption_sync f = false /\
  is_reliable f = (match transport with Unreliable => false | _ => true end) /\
  fw_payload f = q.
Proof.
  unfold send_with_flags.
  destruct (if bool_decide _ then _ else _) as [slot|]; [|done]. intros [= <-].
  by destruct transport, encrypted.
Qed.

(** What is sent is received.  A payload sent through a routing arrives at
    the destination as a packet of the sender: when the relay servers on the way
    change only the session id and the slot, the slot leads to the sender at the
    destination, and both ends agree on the encryption, the payload is delivered
    unchanged, with the transport it was sent with and, under encryption, with
    the identities that were proved for the sender. *)
Theorem forward_delivered `{!AeadLaws} routing direct nonce p transport f f'
  resolve_slot nodes from session sender back :
  zlen nonce = NONCE_SIZE ->
  routing_send routing direct nonce p transport = Some f ->
  fw_flags f' = fw_flags f -> Payload_as_ref (fw_payload f') = Payload_as_ref (fw_payload f) ->
  forward_sender resolve_slot session (fw_slot f') = Some sender ->
  nodes !! sender = Some back -> nr_encryption back = nr_encryption routing ->
  (feature_strict = true -> encryption_flag (nr_encryption routing) = true) ->
  exists payload,
    on_forward feature_strict resolve_slot nodes f' from (Some session) =
      Deliver {| fd_transport := match transport with Unreliable => Unreliable | _ => Reliable end;
                 fd_node_id := sender;
                 fd_authenticated_identities :=
                   (if encryption_flag (nr_encryption routing)
                    then Some (nr_authenticated_identities back) else None);
                 fd_payload := payload |} /\
    Payload_as_ref payload = Payload_as_ref p.
Proof.
  intros Hn Hs Hfl Hpl Hsend Hback Heq Hstrict. unfold routing_send in Hs.
  destruct (encrypt (nr_encryption routing) nonce p) as [q|] eqn:Ee; [|done].
  apply flags_of_send in Hs as (F1 & F2 & F3 & F4).
  assert (is_encrypted f' = is_encrypted f /\ is_encryption_sync f' = is_encryption_sync f /\
          is_reliable f' = is_reliable f) as (G1 & G2 & G3)
    by (unfold is_encrypted, is_encryption_sync, is_reliable; by rewrite Hfl).
  rewrite F4 in Hpl. destruct (decrypt_encrypt _ nonce p q _ Hn Ee Hpl) as (p' & Hd & Hp' & _).
  unfold on_forward. rewrite Hsend, Hback, G1, G2, G3, F1, F2, F3, Heq.
  destruct (encryption_flag (nr_encryption routing)) eqn:Ef.
  - rewrite Hd. exists p'. split; [|done]. by destruct transport.
  - simpl. unfold unencrypted_packet_allowed.
    destruct feature_strict; [by specialize (Hstrict eq_refl)|]. simpl.
    exists (fw_payload f'). split; [by destruct transport|].
    destruct (nr_encryption routing); [|done]. simpl in Ee. congruence.
Qed.

(** C18: no packet is delivered below the negotiated protection.  A delivered
    packet is either decrypted with the key negotiated with its sender and
    carries the identities proved for that key, or it came unencrypted, which
    happens only without the strict policy and without negotiated encryption. *)
Theorem delivery_is_protected resolve_slot nodes f from session packet :
  on_forward feature_strict resolve_slot nodes f from session = Deliver packet ->
  exists s, session = Some s /\
  forward_sender resolve_slot s (fw_slot f) = Some (fd_node_id packet) /\
  match fd_authenticated_identities packet with
  | Some ids =>
      exists routing key, nodes !! fd_node_id packet = Some routing /\
        nr_encryption routing = Aes256GcmSivEncryption key /\
        ids = nr_authenticated_identities routing /\
        aead_decrypt key (ztake NONCE_SIZE (Payload_as_ref (fw_payload f)))
          (zdrop NONCE_SIZE (Payload_as_ref (fw_payload f))) = Some (Payload_as_ref (fd_payload packet))
  | None =>
      feature_strict = false /\ fd_payload packet = fw_payload f /\
      forall routing, nodes !! fd_node_id packet = Some routing ->
        nr_encryption routing = NullEncryption
  end.
Proof.
  unfold on_forward, unencrypted_packet_allowed. destruct session as [s|]; [|done].
  destruct (forward_sender resolve_slot s (fw_slot f)) as [sender|] eqn:Esend; [|done].
  destruct (is_encryption_sync f); [by destruct (_ || _)|]. exists s. split; [done|].
  destruct (is_encrypted f).
  - destruct (nodes !! sender) as [routing|] eqn:En; [|done].
    destruct (nr_encryption routing) as [|key] eqn:Ek; simpl in *; [done|].
    rewrite Payload_into_vec_ref in *. destruct (_ <? _); [done|].
    destruct (aead_decrypt _ _ _) as [q|] eqn:Ed; [|done]. simplify_eq/=.
    split; [done|]. exists routing, key. done.
  - destruct feature_strict; [done|]. simpl in *.
    destruct (nodes !! sender) as [routing|] eqn:En; simpl in *.
    + destruct (nr_encryption routing) eqn:Ek; simpl in *; [|done]. simplify_eq/=.
      split_and!; [done..|]. intros r Hr. congruence.
    + simplify_eq/=. split_and!; [done..|]. intros r Hr. congruence.
Qed.
End Properties.

Lemma record_duplicates_spec rs : forall l,
  zlen l <= REQ_DEDUPLICATE_BUF_SIZE ->
  foldl record_duplicate l rs = zdrop (zlen (l ++ rs) - REQ_DEDUPLICATE_BUF_SIZE) (l ++ rs).
Proof.
  unfold REQ_DEDUPLICATE_BUF_SIZE. induction rs as [|r rs IH]; intros l Hl; simpl.
  - rewrite app_nil_r. unfold zdrop. by replace (Z.to_nat (zlen l - 32)) with 0%nat by lia.
  - unfold record_duplicate at 2, REQ_DEDUPLICATE_BUF_SIZE. rewrite zlen_app.
    change (zlen [r]) with 1. destruct (Z.ltb_spec 32 (zlen l + 1)) as [Hgt|Hle].
    + destruct l as [|x l]; [by unfold zlen in Hgt|]. cbn [app tail]. rewrite zlen_cons in *.
      rewrite IH by (rewrite zlen_app; change (zlen [r]) with 1; lia). rewrite <- app_assoc. cbn [app].
      rewrite !zlen_app, !zlen_cons in *. unfold zdrop.
      replace (Z.to_nat (1 + (zlen l + (1 + zlen rs)) - 32))
        with (S (Z.to_nat (zlen l + (1 + zlen rs) - 32))) by zlia.
      done.
    + rewrite IH by (rewrite zlen_app; change (zlen [r]) with 1; lia). by rewrite <- app_assoc.
Qed.

(** A request counts as repeated exactly when it is among the last 32
    recorded ones, compared by source, session and request id. *)
Theorem duplicate_window (rs : list ReqFingerprint) (r : ReqFingerprint) :
  is_request_duplicate (foldl record_duplicate [] rs) r =
  bool_decide (r ∈ zdrop (zlen rs - REQ_DEDUPLICATE_BUF_SIZE) rs).
Proof.
  rewrite record_duplicates_spec by done. simpl. unfold is_request_duplicate.
  apply eq_true_iff_eq. rewrite existsb_exists, bool_decide_eq_true. split.
  - intros (x & Hx & E%bool_decide_eq_true). subst x. by apply list_elem_of_In.
  - intros Hr. exists r. split; [by apply list_elem_of_In|]. by apply bool_decide_eq_true.
Qed.

(** ** Examples *)

Section Witness.
Import ToyCipher.

Definition toy_routing (id : NodeId) : NodeRouting :=
  {| nr_generation := 1; nr_node := {| nde_default_id := id; nde_identities := [id] |};
     nr_route := 0; nr_encryption := Aes256GcmSivEncryption [9];
     nr_authenticated_identities := [id] |}.

Definition toy_session (id : NodeId) : DirectSession :=
  {| ds_generation := 1; ds_owner := {| nde_default_id := id; nde_identities := [id] |}; ds_id := replicate 16 3;
     ds_remote := {| sa_ip := IpV4 1; sa_port := 1 |}; ds_forwards := AllowedForwards_default |}.

(** What node 1 sends to node 2 over a direct session. *)
Definition toy_packet : Forward :=
  {| fw_session_id := replicate 16 3; fw_slot := 0; fw_flags := 2;
     fw_payload := PVec (replicate 12 0 ++ [5; 6] ++ replicate 16 0) |}.

Lemma forward_delivered_witness :
  exists payload,
    on_forward true (fun _ => None) {[ [1] := toy_routing [1] ]} toy_packet
      {| sa_ip := IpV4 1; sa_port := 1 |} (Some (toy_session [1])) =
      Deliver {| fd_transport := Reliable; fd_node_id := [1];
                 fd_authenticated_identities := Some [[1]]; fd_payload := payload |} /\
    Payload_as_ref payload = [5; 6].
Proof.
  exact (forward_delivered true (toy_routing [2]) (toy_session [2]) (replicate 12 0) (PVec [5; 6])
    Reliable toy_packet toy_packet (fun _ => None) {[ [1] := toy_routing [1] ]}
    {| sa_ip := IpV4 1; sa_port := 1 |} (toy_session [1]) [1] (toy_routing [1])
    eq_refl eq_refl eq_refl eq_refl eq_refl (lookup_singleton_eq _ _) eq_refl (fun _ => eq_refl)).
Defined.

Lemma delivery_is_protected_witness :
  exists packet,
    on_forward true (fun _ => None) {[ [1] := toy_routing [1] ]} toy_packet
      {| sa_ip := IpV4 1; sa_port := 1 |} (Some (toy_session [1])) = Deliver packet /\
    Some (fd_node_id packet) = Some [1].
Proof.
  assert (exists packet, on_forward true (fun _ => None) {[ [1] := toy_routing [1] ]} toy_packet
    {| sa_ip := IpV4 1; sa_port := 1 |} (Some (toy_session [1])) = Deliver packet) as [packet Hp]
    by (eexists; vm_compute; reflexivity).
  exists packet. split; [exact Hp|].
  destruct (delivery_is_protected true (fun _ => None) {[ [1] := toy_routing [1] ]} toy_packet
    {| sa_ip := IpV4 1; sa_port := 1 |} (Some (toy_session [1])) packet Hp) as (s & Hs & Hsend & _).
  injection Hs as <-. symmetry. exact Hsend.
Defined.
End Witness.
