(* ===== verification/RelayDelivery.v ===== *)
(** A message from one node to another through the relay server, in bytes: the
    sending node ([client/src/routing_session.rs]), the codec of datagrams, the
    worker of the server ([server/src/server.rs]) and the handler of forward packets
    of the receiving node ([client/src/session.rs]) together. *)

From S2P Require Import Prelude Payload Proto Codec Challenge NodeInfo ServerState SessionManager.
From S2P Require Import SlotManager ServerCore IpChecker Handlers Server ServerProps RelayProps DirectoryProps.
From S2P Require Import DirectSession Encryption ClientForward.

Section RelayDelivery.
Context `{HH : Hashes} `{E : EthSign} `{T : IpText} `{V : Semver} `{Kc : Keccak}.
Context `{!CacheOps SocketAddr (Z * bool)} `{!CacheOps SessionId Z}.
Context `{PL : ProstKeyLaws Packet} `{A : AeadLaws}.
Context (session_hash : SessionId -> Z) (cf : ServerConfig).

(** The slot of a node is the one it was given before. *)
Lemma slot_known m n slot :
  SlotManager.sm_inv m -> SlotManager_node m slot = Some n -> (SlotManager_slot m n).1 = slot.
Proof.
  intros Hm. unfold SlotManager_node. destruct (Z.leb_spec 0 slot); [|done]. intros Hs.
  unfold SlotManager_slot. by rewrite (proj2 (inv_inverse m Hm n slot)).
Qed.

Lemma slot_in_width m n slot :
  zlen (sm_slots m) < 2 ^ 32 -> SlotManager_node m slot = Some n -> in_width 32 slot.
Proof.
  unfold SlotManager_node. destruct (Z.leb_spec 0 slot); [|done].
  intros Hlt Hs%lookup_lt_Some. unfold in_width, zlen in *. lia.
Qed.

(** A forward packet in bytes: what the worker does with it. *)
Lemma worker_forward env src f sv :
  Forward_wf f ->
  exists bs, datagram_encode (P := Packet) (KForward f) [] = Ok bs /\
    worker session_hash cf env PtData src bs sv =
      serve session_hash cf env PtData src (KForward (Forward_received f)) sv.
Proof.
  intros Hwf. exists (Forward_encode (P := Packet) f []). split; [done|]. unfold worker.
  by rewrite datagram_decode_forward.
Qed.

(** A session with the server knows the slot under which the server knows a node:
    to send to it, and to recognise what comes from it. *)
Definition reaches (sv : Server) (d : DirectSession) (n : NodeId) : Prop :=
  nde_default_id (ds_owner d) <> n /\
  exists slot, get_slot (ds_forwards d) n = Some slot /\ SlotManager_node (sv_slots sv) slot = Some n.

Definition recognises (sv : Server) (d : DirectSession) (n : NodeId) : Prop :=
  exists slot e, slot <> FORWARD_SLOT_ID /\ get_by_slot (ds_forwards d) slot = Some e /\
    nde_default_id e = n /\ SlotManager_node (sv_slots sv) slot = Some n.

(** A node that the server described with its slot is reached and recognised. *)
Lemma told_slot sv d node slot :
  af_inv (ds_forwards d) -> nde_default_id node ∈ nde_identities node ->
  nde_default_id (ds_owner d) <> nde_default_id node -> slot <> FORWARD_SLOT_ID ->
  SlotManager_node (sv_slots sv) slot = Some (nde_default_id node) ->
  let d' := {| ds_generation := ds_generation d; ds_owner := ds_owner d; ds_id := ds_id d;
               ds_remote := ds_remote d; ds_forwards := AllowedForwards_add (ds_forwards d) node slot |} in
  reaches sv d' (nde_default_id node) /\ recognises sv d' (nde_default_id node).
Proof.
  intros Hf Hin Ho Hne Hs. destruct (allowed_forwards_consistent _ node slot Hf Hin) as (_ & Hslot & Hn & _).
  split; [split; [done|]; exists slot; split; [by apply Hn|done]|]. by exists slot, node.
Qed.

(** Let two nodes have sessions with the server, each knowing the slot of the
    other, and routes to each other with the same encryption.  Then the bytes one
    node sends for a message make the server send exactly one datagram, to the
    latest session of the other node; and the other node, which gets these bytes,
    delivers the payload unchanged as one of the sender. *)
Lemma forward_through_relay strict env src sv l s d routing direct back session nodes
  resolve_slot from nonce p transport f :
  SlotManager.sm_inv (sv_slots sv) -> zlen (sm_slots (sv_slots sv)) < 2 ^ 32 ->
  find_session_of session_hash (ds_id direct) src sv = Some (l, s) ->
  live_session sv (nr_default_id routing) = Some d ->
  zlen (s_session_id d) = SESSION_ID_SIZE -> bytes_ok (s_session_id d) ->
  reaches sv direct (nr_default_id routing) -> recognises sv session (s_node_id s) ->
  nodes !! s_node_id s = Some back -> nr_encryption back = nr_encryption routing ->
  (strict = true -> encryption_flag (nr_encryption routing) = true) ->
  zlen nonce = NONCE_SIZE -> routing_send routing direct nonce p transport = Some f -> Forward_wf f ->
  exists sent sv' received payload,
    datagram_encode (P := Packet) (KForward f) [] = Ok sent /\
    worker session_hash cf env PtData src sent sv = Ret sv' /\
    (exists f' bytes, sv_sent sv' = sv_sent sv ++ [(s_peer d, DgForward f')] /\
       fw_session_id f' = s_session_id d /\
       datagram_encode (P := Packet) (KForward f') [] = Ok bytes /\
       datagram_decode (P := Packet) bytes = Ret (Ok (Some (KForward received)), [])) /\
    on_forward strict resolve_slot nodes received from (Some session) =
      Deliver {| fd_transport := match transport with Unreliable => Unreliable | _ => Reliable end;
                 fd_node_id := s_node_id s;
                 fd_authenticated_identities :=
                   (if encryption_flag (nr_encryption routing)
                    then Some (nr_authenticated_identities back) else None);
                 fd_payload := payload |} /\
    Payload_as_ref payload = Payload_as_ref p.
Proof.
  intros Hm Hlt Hs Hd Hlen Hok (Howner & slot & Hslot & Hnode) (back_slot & e & Hne & He & Hen & Hback)
    Hb Henc Hstrict Hnonce Hsend Hwf.
  assert (fw_session_id f = ds_id direct /\ fw_slot f = slot) as [Hfs Hfslot].
  { unfold routing_send, send_with_flags in Hsend. destruct (encrypt _ nonce p); [|done].
    rewrite bool_decide_eq_false_2, Hslot in Hsend by done. injection Hsend as <-.
    by destruct transport, (encryption_flag _). }
  destruct (worker_forward env src f sv Hwf) as (sent & Hsent & Hwork).
  destruct (forward_handle_spec session_hash cf env src (ds_id direct) slot (nr_default_id routing)
    (fw_flags f) (PBytesMut (Payload_as_ref (fw_payload f))) sv l s d Hm Hlt Hs Hnode Hd)
    as (k & sv' & Hfwd & Hk & _ & Hout).
  rewrite (slot_known _ _ _ Hm Hback) in Hk. subst k.
  set (f' := {| fw_session_id := s_session_id d; fw_slot := back_slot; fw_flags := fw_flags f;
                fw_payload := PBytesMut (Payload_as_ref (fw_payload f)) |}).
  assert (Forward_wf f') as Hwf'.
  { destruct Hwf as (_ & _ & _ & Hfl & Hp). split_and!; try done. by eapply slot_in_width. }
  destruct (forward_delivered strict routing direct nonce p transport f (Forward_received f')
    resolve_slot nodes from session (s_node_id s) back) as (payload & Hdel & Hpay); try done.
  { unfold forward_sender, is_direct_message. change (fw_slot (Forward_received f')) with back_slot. rewrite (proj2 (Z.eqb_neq _ _)) by done.
    by rewrite He, Hen. }
  exists sent, sv', (Forward_received f'), payload. split; [done|]. split.
  { rewrite Hwork. unfold serve. cbn. by rewrite Hfs, Hfslot, Hfwd. }
  split; [|done]. exists f', (Forward_encode (P := Packet) f' []). split_and!; try done.
  by apply datagram_decode_forward.
Qed.
End RelayDelivery.
