(* ===== verification/ClientSessions.v ===== *)
(** [client/src/session.rs]: the tables of the session layer, in which sessions
    and routes are published and from which they are removed when their node is
    closed.

    Sessions and routings are shared and compared by address; they are referred to
    by their place in memory.  A definition is what a task does between two points
    where it can be interrupted, or a sequence of such parts of which each looks
    its objects up again. *)

From S2P Require Import Prelude Payload Proto Challenge NodeInfo SessionState DirectSession Encryption.
From S2P Require Import ClientForward NetworkView.

(** ** Limiting encryption syncs *)

Definition ENCRYPTION_SYNC_INITIAL_INTERVAL : Z := 2 * 60.
Definition ENCRYPTION_SYNC_MAX_INTERVAL : Z := 30 * 60.
Definition ENCRYPTION_SYNC_SUCCESS_RESET_THRESHOLD : Z := 3.

(** [ExponentialBackoff] of the backoff library, in seconds: a fresh one for
    given intervals, and the next delay. *)
Class ExponentialBackoff : Type := {
  Backoff : Type;
  backoff_new : Z -> Z -> Backoff;
  next_backoff : Backoff -> option Z * Backoff }.

Section EncryptionSyncBackoff.
Context `{ExponentialBackoff}.

Record EncryptionSyncBackoff : Type := {
  es_backoff : Backoff;
  es_next_notification : option Z;
  es_consecutive_successes : Z }.

Definition EncryptionSyncBackoff_new : EncryptionSyncBackoff :=
  {| es_backoff := backoff_new ENCRYPTION_SYNC_INITIAL_INTERVAL ENCRYPTION_SYNC_MAX_INTERVAL;
     es_next_notification := None; es_consecutive_successes := 0 |}.

Definition record_failure (e : EncryptionSyncBackoff) (now : Z) : bool * EncryptionSyncBackoff :=
  if match es_next_notification e with Some next => now <? next | None => false end
  then (false, {| es_backoff := es_backoff e; es_next_notification := es_next_notification e;
                  es_consecutive_successes := 0 |})
  else
    let '(delay, backoff) := next_backoff (es_backoff e) in
    let delay := match delay with Some d => d | None => ENCRYPTION_SYNC_MAX_INTERVAL end in
    (true, {| es_backoff := backoff; es_next_notification := Some (now + delay);
              es_consecutive_successes := 0 |}).

Definition record_success (e : EncryptionSyncBackoff) : bool * EncryptionSyncBackoff :=
  let n := Z.min 255 (es_consecutive_successes e + 1) in
  (ENCRYPTION_SYNC_SUCCESS_RESET_THRESHOLD <=? n,
   {| es_backoff := es_backoff e; es_next_notification := es_next_notification e;
      es_consecutive_successes := n |}).
End EncryptionSyncBackoff.

(** An exponential backoff without randomness. *)
Module ToyBackoff.

#[export] Instance toy_backoff : ExponentialBackoff := {
  Backoff := Z * Z;
  backoff_new initial max := (initial, max);
  next_backoff b := (Some b.1, (Z.min (2 * b.1) b.2, b.2)) }.
End ToyBackoff.

(** ** The tables *)

Section ClientSessions.
Context `{K : KeyAgreement} `{ExponentialBackoff}.
Context (feature_encryption feature_strict : bool) (session_crypto : SessionCrypto).

(** [SessionLayerState], the sessions and routings it refers to, and whether the
    socket is open. *)
Record SessionLayerState : Type := {
  ly_public_addr : option SocketAddr;
  ly_bind_addr : option SocketAddr;
  ly_sink : bool;
  ly_nodes : gmap NodeId nat;
  ly_p2p_sessions : gmap SocketAddr nat;
  ly_p2p_nodes : gmap NodeId nat;
  ly_sync_backoff : gmap NodeId EncryptionSyncBackoff;
  ly_refresh_backoff : gmap NodeId EncryptionSyncBackoff;
  ly_sessions : list DirectSession;
  ly_routings : list NodeRouting }.

Record Client : Type := { cl_registry : NetworkView; cl_state : SessionLayerState }.

Definition routing_at (s : SessionLayerState) (r : nat) : option NodeRouting := ly_routings s !! r.
Definition session_at (s : SessionLayerState) (d : nat) : option DirectSession := ly_sessions s !! d.

(** The generation of a published routing or session. *)
Definition routing_of (s : SessionLayerState) (g : Z) (r : nat) : bool :=
  match routing_at s r with Some x => nr_generation x =? g | None => false end.
Definition session_of (s : SessionLayerState) (g : Z) (d : nat) : bool :=
  match session_at s d with Some x => ds_generation x =? g | None => false end.
Definition routed_by (s : SessionLayerState) (d r : nat) : bool :=
  match routing_at s r with Some x => (nr_route x =? d)%nat | None => false end.

Definition with_tables (s : SessionLayerState) (nodes : gmap NodeId nat)
  (p2p_sessions : gmap SocketAddr nat) (p2p_nodes : gmap NodeId nat) : SessionLayerState :=
  {| ly_public_addr := ly_public_addr s; ly_bind_addr := ly_bind_addr s; ly_sink := ly_sink s;
     ly_nodes := nodes; ly_p2p_sessions := p2p_sessions; ly_p2p_nodes := p2p_nodes;
     ly_sync_backoff := ly_sync_backoff s; ly_refresh_backoff := ly_refresh_backoff s;
     ly_sessions := ly_sessions s; ly_routings := ly_routings s |}.

Definition with_backoffs (s : SessionLayerState) (sync refresh : gmap NodeId EncryptionSyncBackoff)
  : SessionLayerState :=
  {| ly_public_addr := ly_public_addr s; ly_bind_addr := ly_bind_addr s; ly_sink := ly_sink s;
     ly_nodes := ly_nodes s; ly_p2p_sessions := ly_p2p_sessions s; ly_p2p_nodes := ly_p2p_nodes s;
     ly_sync_backoff := sync; ly_refresh_backoff := refresh;
     ly_sessions := ly_sessions s; ly_routings := ly_routings s |}.

Definition with_objects (s : SessionLayerState) (sessions : list DirectSession)
  (routings : list NodeRouting) : SessionLayerState :=
  {| ly_public_addr := ly_public_addr s; ly_bind_addr := ly_bind_addr s; ly_sink := ly_sink s;
     ly_nodes := ly_nodes s; ly_p2p_sessions := ly_p2p_sessions s; ly_p2p_nodes := ly_p2p_nodes s;
     ly_sync_backoff := ly_sync_backoff s; ly_refresh_backoff := ly_refresh_backoff s;
     ly_sessions := sessions; ly_routings := routings |}.

(** ** Encryption syncs *)

(** The record of a node, a fresh one when there is none. *)
Definition sync_entry (m : gmap NodeId EncryptionSyncBackoff) (node_id : NodeId)
  : EncryptionSyncBackoff :=
  match m !! node_id with Some e => e | None => EncryptionSyncBackoff_new end.

Definition encryption_sync_notification_due (s : SessionLayerState) (node_id : NodeId) (now : Z)
  : bool * SessionLayerState :=
  let '(due, e) := record_failure (sync_entry (ly_sync_backoff s) node_id) now in
  (due, with_backoffs s (<[node_id := e]> (ly_sync_backoff s)) (ly_refresh_backoff s)).

Definition encryption_sync_refresh_due (s : SessionLayerState) (node_id : NodeId) (now : Z)
  : bool * SessionLayerState :=
  let '(due, e) := record_failure (sync_entry (ly_refresh_backoff s) node_id) now in
  (due, with_backoffs s (ly_sync_backoff s) (<[node_id := e]> (ly_refresh_backoff s))).

Definition record_encryption_sync_key_change (s : SessionLayerState) (node_id : NodeId)
  : SessionLayerState :=
  with_backoffs s (ly_sync_backoff s) (delete node_id (ly_refresh_backoff s)).

Definition record_successful_decryption (s : SessionLayerState) (node_id : NodeId)
  : SessionLayerState :=
  match ly_sync_backoff s !! node_id with
  | None => s
  | Some e =>
      let '(reset, e) := record_success e in
      if reset
      then with_backoffs s (delete node_id (ly_sync_backoff s)) (delete node_id (ly_refresh_backoff s))
      else with_backoffs s (<[node_id := e]> (ly_sync_backoff s)) (ly_refresh_backoff s)
  end.

(** ** Publishing *)

(** [SessionRegistrationInfo]. *)
Record SessionRegistrationInfo : Type := {
  sri_addr : SocketAddr;
  sri_id : SessionId;
  sri_node_id : NodeId;
  sri_identities : list NodeIdentity;
  sri_supported_encryptions : list string;
  sri_session_key : option PublicKey }.

Definition with_generation (d : DirectSession) (g : Z) : DirectSession :=
  {| ds_generation := g; ds_owner := ds_owner d; ds_id := ds_id d; ds_remote := ds_remote d;
     ds_forwards := ds_forwards d |}.

(** Puts a session and its routing into the tables. *)
Definition publish_session (s : SessionLayerState) (direct : DirectSession)
  (routing : option NodeRouting) : nat * SessionLayerState :=
  let d := length (ly_sessions s) in
  let r := length (ly_routings s) in
  let ids := nde_identities (ds_owner direct) in
  (d, with_objects
        (with_tables s
           (match routing with
            | Some _ => foldl (fun m id => <[id := r]> m) (ly_nodes s) ids
            | None => ly_nodes s
            end)
           (<[ds_remote direct := d]> (ly_p2p_sessions s))
           (foldl (fun m id => <[id := d]> m) (ly_p2p_nodes s) ids))
        (ly_sessions s ++ [direct])
        (match routing with Some x => ly_routings s ++ [x] | None => ly_routings s end)).

(** What [register_session] makes before it publishes: the session and, unless it
    is with a relay server, the routing. *)
Definition new_session_objects (info : SessionRegistrationInfo) (g : Z) (d : nat)
  : result (DirectSession * option NodeRouting) string :=
  let ids := map ni_node_id (sri_identities info) in
  let is_relay := bool_decide (ids = []) in
  match (if is_relay
         then Some (DirectSession_new_relay (sri_node_id info) (sri_id info) (sri_addr info))
         else DirectSession_new (sri_node_id info) ids (sri_id info) (sri_addr info)) with
  | None => Err "Registering session"%string
  | Some direct =>
      let direct := with_generation direct g in
      match find (fun ident => bool_decide (ni_node_id ident = sri_node_id info))
              (sri_identities info) with
      | Some default_id =>
          match encryption_new feature_encryption feature_strict (sri_supported_encryptions info)
                  (sri_session_key info) session_crypto with
          | Ok encryption =>
              Ok (direct, Some {| nr_generation := g;
                                  nr_node := {| nde_default_id := ni_node_id default_id;
                                                nde_identities := ids |};
                                  nr_route := d; nr_encryption := encryption;
                                  nr_authenticated_identities := ids |})
          | Err _ => Err "Encryption"%string
          end
      | None =>
          if is_relay then Ok (direct, None)
          else Err "DirectSession constructor expects default id on identities list."%string
      end
  end.

Definition register_session (w : Client) (info : SessionRegistrationInfo) (owner : NodeView)
  : result nat string * Client :=
  let s := cl_state w in
  if negb (publication_guard (cl_registry w) owner)
  then (Err "Session generation is no longer initializing"%string, w)
  else if negb (ly_sink s) then (Err "Network sink not initialized"%string, w)
  else
    match new_session_objects info (generation (cl_registry w) owner) (length (ly_sessions s)) with
    | Err e => (Err e, w)
    | Ok (direct, routing) =>
        let '(d, s) := publish_session s direct routing in
        (Ok d, {| cl_registry := cl_registry w; cl_state := s |})
    end.

(** Puts a routing into the table for all ids of its node. *)
Definition publish_routing (s : SessionLayerState) (routing : NodeRouting) (ids : list NodeId)
  : SessionLayerState :=
  let r := length (ly_routings s) in
  with_objects
    (with_tables s (foldl (fun m id => <[id := r]> m) (ly_nodes s) ids)
       (ly_p2p_sessions s) (ly_p2p_nodes s))
    (ly_sessions s) (ly_routings s ++ [routing]).

(** Whether a session is the one of its address. *)
Definition is_physical (s : SessionLayerState) (d : nat) : bool :=
  match session_at s d with
  | Some direct => bool_decide (ly_p2p_sessions s !! ds_remote direct = Some d)
  | None => false
  end.

(** [register_routing]; [upgrade] tells whether a session still exists. *)
Definition register_routing (upgrade : nat -> bool) (w : Client) (routing : NodeRouting)
  : result unit string * Client :=
  let s := cl_state w in
  match get_entry (cl_registry w) (nr_default_id routing) with
  | None => (Err "Routing generation was removed"%string, w)
  | Some entry =>
      let owner := snapshot (cl_registry w) entry in
      if negb (publication_guard (cl_registry w) owner)
      then (Err "Session generation is no longer initializing"%string, w)
      else if negb (generation (cl_registry w) owner =? nr_generation routing)
      then (Err "Routing generation was replaced"%string, w)
      else if negb (upgrade (nr_route routing)) then (Err "DirectSession was closed"%string, w)
      else if negb (is_physical s (nr_route routing))
      then (Err "Physical route was replaced"%string, w)
      else (Ok tt, {| cl_registry := cl_registry w;
                      cl_state := publish_routing s routing (nde_identities (nr_node routing)) |})
  end.

(** ** Refreshing the encryption of a node *)

(** [refresh_node_encryption_with] up to the lookup: the owner and the routing
    the refresh is for. *)
Definition begin_refresh (w : Client) (node_id : NodeId) : result (NodeView * nat) string :=
  match get_entry (cl_registry w) node_id with
  | None => Err "Node removed before encryption refresh"%string
  | Some entry =>
      let owner := snapshot (cl_registry w) entry in
      match ly_nodes (cl_state w) !! node_id with
      | None => Err "Routing removed before encryption refresh"%string
      | Some original =>
          if routing_of (cl_state w) (generation (cl_registry w) owner) original
          then Ok (owner, original)
          else Err "Routing generation changed before encryption refresh"%string
      end
  end.

(** Changes the forwards of a session. *)
Definition update_forwards (s : SessionLayerState) (d : nat)
  (f : AllowedForwards -> AllowedForwards) : SessionLayerState :=
  with_objects s
    (alter (fun x => {| ds_generation := ds_generation x; ds_owner := ds_owner x; ds_id := ds_id x;
                        ds_remote := ds_remote x; ds_forwards := f (ds_forwards x) |}) d (ly_sessions s))
    (ly_routings s).

Definition publish_encryption_refresh (upgrade : nat -> bool) (now : Z) (w : Client)
  (node_id : NodeId) (owner : NodeView) (original : nat) (info : NodeInfo)
  : result unit string * Client :=
  let s := cl_state w in
  match nf_identities info, routing_at s original with
  | [], _ => (Err "Refreshed node has no identities"%string, w)
  | _, None => (Err "Original route was closed"%string, w)
  | default :: _, Some orig =>
      if negb (bool_decide (ni_node_id default = nr_default_id orig))
      then (Err "Encryption refresh changed the default identity"%string, w)
      else if negb (upgrade (nr_route orig)) then (Err "Original route was closed"%string, w)
      else
        match nf_session_key info with
        | None => (Err "Refreshed node has no verified session key"%string, w)
        | Some key =>
            match encryption_new feature_encryption feature_strict (nf_supported_encryption info)
                    (Some key) session_crypto with
            | Err _ => (Err "Encryption"%string, w)
            | Ok encryption =>
                let ids := map ni_node_id (nf_identities info) in
                let node := {| nde_default_id := ni_node_id default; nde_identities := ids |} in
                let refreshed :=
                  {| nr_generation := generation (cl_registry w) owner; nr_node := node;
                     nr_route := nr_route orig; nr_encryption := encryption;
                     nr_authenticated_identities := nf_authenticated info |} in
                let publish (s : SessionLayerState) : result SessionLayerState string :=
                  if negb (bool_decide (ly_nodes s !! node_id = Some original)) ||
                     negb (is_physical s (nr_route orig))
                  then Err "Encryption refresh route was replaced"%string
                  else
                    let s :=
                      match session_at s (nr_route orig) with
                      | Some route =>
                          if bool_decide (nde_default_id (ds_owner route) = ni_node_id default) then s
                          else update_forwards s (nr_route orig)
                                 (fun f => AllowedForwards_add f node (nf_slot info))
                      | None => s
                      end in
                    Ok (publish_routing s refreshed ids) in
                let '(r, view, s) := commit_refresh now (cl_registry w) owner info publish s in
                (r, {| cl_registry := view; cl_state := s |})
            end
        end
  end.

(** ** Removing *)

(** [retain] of the values that do not satisfy a test. *)
Definition retain_not `{Countable A} (f : nat -> bool) (m : gmap A nat) : gmap A nat :=
  filter (fun kv => f kv.2 = false) m.

(** The keys of the values that satisfy a test. *)
Definition keys_where `{Countable A} (f : nat -> bool) (m : gmap A nat) : list A :=
  map fst (filter (fun kv => f kv.2 = true) (map_to_list m)).

Definition values_where `{Countable A} (f : nat -> bool) (m : gmap A nat) : list nat :=
  map snd (filter (fun kv => f kv.2 = true) (map_to_list m)).

Definition forget_backoffs (s : SessionLayerState) (ids : list NodeId) : SessionLayerState :=
  with_backoffs s (foldl (fun m id => delete id m) (ly_sync_backoff s) ids)
    (foldl (fun m id => delete id m) (ly_refresh_backoff s) ids).

(** One id in the loop of [unregister_generation]. *)
Definition unregister_id (g : Z) (s : SessionLayerState) (id : NodeId) : SessionLayerState :=
  let s :=
    match ly_nodes s !! id with
    | Some r =>
        match routing_at s r with
        | Some routing =>
            if nr_generation routing =? g then
              let s := with_tables s (delete id (ly_nodes s)) (ly_p2p_sessions s) (ly_p2p_nodes s) in
              update_forwards s (nr_route routing) (fun f => (AllowedForwards_remove f id).2)
            else s
        | None => s
        end
    | None => s
    end in
  forget_backoffs s [id].

(** [unregister_generation] up to the closing of the session it finds; [pick] is
    the one of several that the map gives first. *)
Definition unregister_generation (pick : list nat -> option nat) (w : Client) (node : NodeView)
  : option nat * Client :=
  let g := generation (cl_registry w) node in
  match remove_generation (cl_registry w) node with
  | (false, _) => (None, w)
  | (true, view) =>
      let s := cl_state w in
      let direct := pick (values_where (session_of s g) (ly_p2p_sessions s)) in
      let ids := keys_where (routing_of s g) (ly_nodes s) ++ [nv_id node] in
      let s := foldl (unregister_id g) s ids in
      let s := with_tables s (ly_nodes s) (retain_not (session_of s g) (ly_p2p_sessions s))
                 (retain_not (session_of s g) (ly_p2p_nodes s)) in
      (direct, {| cl_registry := view; cl_state := s |})
  end.

(** [unregister_session]: the nodes that are reached through the session, *)
Definition session_owners (s : SessionLayerState) (d : nat) : list (NodeId * Z) :=
  omap (fun kv => match routing_at s kv.2 with
                  | Some routing => if (nr_route routing =? d)%nat
                                    then Some (kv.1, nr_generation routing) else None
                  | None => None
                  end) (map_to_list (ly_nodes s)) ++
  match session_at s d with
  | Some direct => [(nde_default_id (ds_owner direct), ds_generation direct)]
  | None => []
  end.

(** the removal of one of them if it is still of that generation, *)
Definition retire_owner (w : Client) (owner : NodeId * Z) : Client :=
  match get_entry (cl_registry w) owner.1 with
  | None => w
  | Some entry =>
      let node := snapshot (cl_registry w) entry in
      let g := owner.2 in
      if generation (cl_registry w) node =? g then
        match remove_generation (cl_registry w) node with
        | (false, _) => w
        | (true, view) =>
            let s := cl_state w in
            let ids := keys_where (routing_of s g) (ly_nodes s) in
            let s := with_tables s (retain_not (routing_of s g) (ly_nodes s))
                       (ly_p2p_sessions s) (ly_p2p_nodes s) in
            {| cl_registry := view; cl_state := forget_backoffs s ids |}
        end
      else w
  end.

(** and the removal of the session itself. *)
Definition forget_session (w : Client) (d : nat) : Client :=
  let s := cl_state w in
  {| cl_registry := cl_registry w;
     cl_state := with_tables s (retain_not (routed_by s d) (ly_nodes s))
                   (retain_not (fun d' => (d' =? d)%nat) (ly_p2p_sessions s))
                   (retain_not (fun d' => (d' =? d)%nat) (ly_p2p_nodes s)) |}.

Definition unregister_session (w : Client) (d : nat) : Client :=
  forget_session (foldl retire_owner w (session_owners (cl_state w) d)) d.

Definition on_view (w : Client) (f : NetworkView -> NetworkView) : Client :=
  {| cl_registry := f (cl_registry w); cl_state := cl_state w |}.

(** Closes what [unregister_generation] found. *)
Definition unregister_node (pick : list nat -> option nat) (w : Client) (node : NodeView) : Client :=
  match unregister_generation pick w node with
  | (Some d, w) => unregister_session w d
  | (None, w) => w
  end.

(** [disconnect]. *)
Definition disconnect (pick : list nat -> option nat) (w : Client) (node_id : NodeId) : Client :=
  match get_entry (cl_registry w) node_id with
  | None => w
  | Some entry =>
      let node := snapshot (cl_registry w) entry in
      let w := on_view w (fun v => (begin_closing v node).2) in
      let w := on_view w (fun v => abort_initialization v node) in
      unregister_node pick w node
  end.

(** [close_session]. *)
Definition close_session (w : Client) (d : nat) : Client :=
  match session_at (cl_state w) d with
  | None => w
  | Some session =>
      if match ly_p2p_sessions (cl_state w) !! ds_remote session with
         | Some current => negb (current =? d)%nat
         | None => false
         end
      then w
      else
        let w :=
          match get_entry (cl_registry w) (nde_default_id (ds_owner session)) with
          | Some entry =>
              let node := snapshot (cl_registry w) entry in
              if generation (cl_registry w) node =? ds_generation session
              then on_view (on_view w (fun v => (begin_closing v node).2))
                     (fun v => abort_initialization v node)
              else w
          | None => w
          end in
        unregister_session w d
  end.

Definition abort_initializations (w : Client) (remote : SocketAddr) : bool * Client :=
  match get_entry_by_addr (cl_registry w) remote with
  | None => (false, w)
  | Some entry => (true, on_view w (fun v => abort_initialization v entry))
  end.

Definition find_session (w : Client) (addr : SocketAddr) : option nat :=
  ly_p2p_sessions (cl_state w) !! addr.

(** [on_disconnected]. *)
Definition on_disconnected (pick : list nat -> option nat) (w : Client) (session_id : list Z)
  (from : SocketAddr) (by_ : disconnected_By) : result unit string * Client :=
  match SessionId_try_from session_id with
  | None => (Err "Invalid session id"%string, w)
  | Some session_id =>
      let s := cl_state w in
      let sender := find_session w from in
      (* Whether the sender is our relay server, in the session it names. *)
      let from_relay :=
        match sender with
        | Some d =>
            match session_at s d with
            | Some x => bool_decide (ds_id x = session_id) &&
                        bool_decide (nde_default_id (ds_owner x) = NodeId_default)
            | None => false
            end
        | None => false
        end in
      let gone (node : NodeId) (w : Client) : result unit string * Client :=
        let routed :=
          match sender, ly_nodes (cl_state w) !! node with
          | Some d, Some r => routed_by (cl_state w) d r
          | _, _ => false
          end in
        if negb routed then (Err "Relay notification does not own the route"%string, w)
        else (Ok tt, disconnect pick w node) in
      match by_ with
      | BySessionId to_close =>
          match SessionId_try_from to_close with
          | None => (Err "Invalid session id"%string, w)
          | Some to_close =>
              if negb (bool_decide (to_close = session_id)) then (Err "Session id mismatch"%string, w)
              else
                match sender with
                | Some d =>
                    match session_at s d with
                    | Some x =>
                        if negb (bool_decide (ds_id x = session_id))
                        then (Err "Unexpected Session id"%string, w)
                        else (Ok tt, close_session w d)
                    | None => (Ok tt, w)
                    end
                | None =>
                    match abort_initializations w from with
                    | (true, w) => (Ok tt, w)
                    | (false, w) => (Err "Can't find NodeView by addr"%string, w)
                    end
                end
          end
      | ByNodeId id =>
          if negb from_relay then (Err "Not from the current relay session"%string, w)
          else match NodeId_try_from id with
               | Some node => gone node w
               | None => (Ok tt, w)
               end
      | BySlot slot =>
          if negb from_relay then (Err "Not from the current relay session"%string, w)
          else
            match sender with
            | Some d =>
                match session_at s d with
                | Some x =>
                    match AllowedForwards_remove_by_slot (ds_forwards x) slot with
                    | (Some node, f) =>
                        gone node {| cl_registry := cl_registry w;
                                     cl_state := update_forwards s d (fun _ => f) |}
                    | (None, _) => (Ok tt, w)
                    end
                | None => (Ok tt, w)
                end
            | None => (Ok tt, w)
            end
      end
  end.
End ClientSessions.
