(* ===== verification/ClientSessionsProps.v ===== *)
(** Properties of the tables of the session layer of the client
    ([ClientSessions.v]). *)

From S2P Require Import Prelude Payload Proto Challenge NodeInfo SessionState DirectSession Encryption.
From S2P Require Import ClientForward NetworkView NetworkViewProps ClientSessions.

Section ClientSessionsProps.
Context `{K : KeyAgreement} `{B : ExponentialBackoff}.
Context (feature_encryption feature_strict : bool) (session_crypto : SessionCrypto).

(** ** Tables without a generation *)

(** Nothing of a generation is in a table, and what is there exists. *)
Record absent (g : Z) (s : SessionLayerState) : Prop := {
  ab_nodes id r : ly_nodes s !! id = Some r ->
    exists x, routing_at s r = Some x /\ nr_generation x <> g;
  ab_sessions a d : ly_p2p_sessions s !! a = Some d ->
    exists x, session_at s d = Some x /\ ds_generation x <> g;
  ab_p2p_nodes id d : ly_p2p_nodes s !! id = Some d ->
    exists x, session_at s d = Some x /\ ds_generation x <> g }.

(** What is in the tables exists. *)
Record in_range (s : SessionLayerState) : Prop := {
  ir_nodes id r : ly_nodes s !! id = Some r -> is_Some (routing_at s r);
  ir_sessions a d : ly_p2p_sessions s !! a = Some d -> is_Some (session_at s d);
  ir_p2p_nodes id d : ly_p2p_nodes s !! id = Some d -> is_Some (session_at s d) }.

(** Tables that grew: entries are old ones, or of one of some generations. *)
Record publishes (gs : Z -> Prop) (s s' : SessionLayerState) : Prop := {
  pb_routings r x : routing_at s r = Some x -> routing_at s' r = Some x;
  pb_objects d x : session_at s d = Some x ->
    exists x', session_at s' d = Some x' /\ ds_generation x' = ds_generation x;
  pb_nodes id r : ly_nodes s' !! id = Some r -> ly_nodes s !! id = Some r \/
    exists x, routing_at s' r = Some x /\ gs (nr_generation x);
  pb_sessions a d : ly_p2p_sessions s' !! a = Some d -> ly_p2p_sessions s !! a = Some d \/
    exists x, session_at s' d = Some x /\ gs (ds_generation x);
  pb_p2p_nodes id d : ly_p2p_nodes s' !! id = Some d -> ly_p2p_nodes s !! id = Some d \/
    exists x, session_at s' d = Some x /\ gs (ds_generation x) }.

Lemma publishes_refl gs s : publishes gs s s.
Proof. split; eauto. Qed.

Lemma publishes_trans gs a b c : publishes gs a b -> publishes gs b c -> publishes gs a c.
Proof.
  intros H1 H2. split.
  - intros r x Hx. by apply (pb_routings _ _ _ H2), (pb_routings _ _ _ H1).
  - intros d x (y & Hy & E)%(pb_objects _ _ _ H1). apply (pb_objects _ _ _ H2) in Hy as (z & Hz & Ez).
    exists z. split; [done|congruence].
  - intros id r [Hr|?]%(pb_nodes _ _ _ H2); [|by right].
    apply (pb_nodes _ _ _ H1) in Hr as [|(x & Hx & Hg)]; [by left|right]. exists x. split; [|done].
    by apply (pb_routings _ _ _ H2).
  - intros a' d [Hd|?]%(pb_sessions _ _ _ H2); [|by right].
    apply (pb_sessions _ _ _ H1) in Hd as [|(x & Hx & Hg)]; [by left|right].
    apply (pb_objects _ _ _ H2) in Hx as (y & Hy & E). exists y. split; [done|by rewrite E].
  - intros id d [Hd|?]%(pb_p2p_nodes _ _ _ H2); [|by right].
    apply (pb_p2p_nodes _ _ _ H1) in Hd as [|(x & Hx & Hg)]; [by left|right].
    apply (pb_objects _ _ _ H2) in Hx as (y & Hy & E). exists y. split; [done|by rewrite E].
Qed.

Lemma publishes_absent gs g s s' : publishes gs s s' -> ~ gs g -> absent g s -> absent g s'.
Proof.
  intros Hp Hg Ha. split.
  - intros id r [Hr|(x & Hx & Hx')]%(pb_nodes _ _ _ Hp).
    + apply (ab_nodes _ _ Ha) in Hr as (x & Hx & Hne). exists x. split; [|done].
      by apply (pb_routings _ _ _ Hp).
    + exists x. split; [done|]. intros E. by rewrite E in Hx'.
  - intros a d [Hd|(x & Hx & Hx')]%(pb_sessions _ _ _ Hp).
    + apply (ab_sessions _ _ Ha) in Hd as (x & Hx & Hne).
      apply (pb_objects _ _ _ Hp) in Hx as (y & Hy & E). exists y. split; [done|congruence].
    + exists x. split; [done|]. intros E. by rewrite E in Hx'.
  - intros id d [Hd|(x & Hx & Hx')]%(pb_p2p_nodes _ _ _ Hp).
    + apply (ab_p2p_nodes _ _ Ha) in Hd as (x & Hx & Hne).
      apply (pb_objects _ _ _ Hp) in Hx as (y & Hy & E). exists y. split; [done|congruence].
    + exists x. split; [done|]. intros E. by rewrite E in Hx'.
Qed.

Lemma publishes_in_range gs s s' : publishes gs s s' -> in_range s -> in_range s'.
Proof.
  intros Hp Hr. split.
  - intros id r [Hn|(x & Hx & _)]%(pb_nodes _ _ _ Hp); [|by rewrite Hx].
    apply (ir_nodes _ Hr) in Hn as [x Hx]. apply (pb_routings _ _ _ Hp) in Hx. by rewrite Hx.
  - intros a d [Hn|(x & Hx & _)]%(pb_sessions _ _ _ Hp); [|by rewrite Hx].
    apply (ir_sessions _ Hr) in Hn as [x Hx]. apply (pb_objects _ _ _ Hp) in Hx as (y & -> & _). done.
  - intros id d [Hn|(x & Hx & _)]%(pb_p2p_nodes _ _ _ Hp); [|by rewrite Hx].
    apply (ir_p2p_nodes _ Hr) in Hn as [x Hx]. apply (pb_objects _ _ _ Hp) in Hx as (y & -> & _). done.
Qed.

(** ** Operations on the tables *)

Lemma update_forwards_publishes gs s d f : publishes gs s (update_forwards s d f).
Proof.
  split; cbn; auto. intros d' x Hx. unfold session_at in *. cbn.
  destruct (decide (d' = d)) as [->|Hne].
  - rewrite list_lookup_alter_eq, Hx. by eexists.
  - rewrite list_lookup_alter_ne by done. by exists x.
Qed.

Lemma retain_not_lookup `{Countable A} f (m : gmap A nat) k v :
  retain_not f m !! k = Some v <-> m !! k = Some v /\ f v = false.
Proof. unfold retain_not. by rewrite map_lookup_filter_Some. Qed.

Lemma shrink_publishes gs s nodes sessions p2p_nodes :
  nodes ⊆ ly_nodes s -> sessions ⊆ ly_p2p_sessions s -> p2p_nodes ⊆ ly_p2p_nodes s ->
  publishes gs s (with_tables s nodes sessions p2p_nodes).
Proof.
  intros Hn Hs Hp. split; cbn; eauto.
  - intros id r Hr. left. by eapply lookup_weaken.
  - intros a d Hd. left. by eapply lookup_weaken.
  - intros id d Hd. left. by eapply lookup_weaken.
Qed.

Lemma retain_not_subseteq `{Countable A} f (m : gmap A nat) : retain_not f m ⊆ m.
Proof. apply map_filter_subseteq. Qed.

Lemma backoffs_publishes gs s sync refresh : publishes gs s (with_backoffs s sync refresh).
Proof. split; cbn; eauto. Qed.

Lemma publish_session_publishes s direct routing :
  (forall x, routing = Some x -> nr_generation x = ds_generation direct) ->
  publishes (eq (ds_generation direct)) s (publish_session s direct routing).2.
Proof.
  intros Hr. unfold publish_session. split; unfold routing_at, session_at; cbn.
  - intros r x Hx. destruct routing; [|done]. by apply lookup_app_l_Some.
  - intros d x Hx. exists x. split; [|done]. by apply lookup_app_l_Some.
  - intros id r. destruct routing as [x|]; [|by left]. rewrite foldl_insert_lookup.
    case_decide; [|by left]. intros [= <-]. right. exists x.
    rewrite lookup_app_r, Nat.sub_diag by done. split; [done|]. symmetry. by apply Hr.
  - intros a d [[_ <-]|[_ ?]]%lookup_insert_Some; [right|by left]. exists direct.
    by rewrite lookup_app_r, Nat.sub_diag by done.
  - intros id d. rewrite foldl_insert_lookup. case_decide; [|by left]. intros [= <-]. right.
    exists direct. by rewrite lookup_app_r, Nat.sub_diag by done.
Qed.

Lemma publish_routing_publishes s routing ids :
  publishes (eq (nr_generation routing)) s (publish_routing s routing ids).
Proof.
  unfold publish_routing. split; unfold routing_at, session_at; cbn; eauto.
  - intros r x Hx. by apply lookup_app_l_Some.
  - intros id r. rewrite foldl_insert_lookup. case_decide; [|by left]. intros [= <-]. right.
    exists routing. by rewrite lookup_app_r, Nat.sub_diag by done.
Qed.

(** ** Operations of the client *)

(** A node is in a generation, and may publish in it. *)
Definition publisher (view : NetworkView) (g : Z) : Prop :=
  exists v, is_current view v = true /\ generation view v = g.

Lemma publishes_impl (gs gs' : Z -> Prop) s s' :
  (forall g, gs g -> gs' g) -> publishes gs s s' -> publishes gs' s s'.
Proof.
  intros Hi [H1 H2 H3 H4 H5]. split; [done|done|..].
  - intros id r [|(x & ? & ?)]%H3; [by left|right]. eauto.
  - intros a d [|(x & ? & ?)]%H4; [by left|right]. eauto.
  - intros id d [|(x & ? & ?)]%H5; [by left|right]. eauto.
Qed.

Lemma new_session_objects_generation info g d direct routing :
  new_session_objects feature_encryption feature_strict session_crypto info g d = Ok (direct, routing) ->
  ds_generation direct = g /\ forall x, routing = Some x -> nr_generation x = g.
Proof.
  unfold new_session_objects. repeat case_match_goal; intros [= <- <-]; split; try done; by intros x [= <-].
Qed.

Lemma guard_publisher view v :
  publication_guard view v = true -> publisher view (generation view v).
Proof. intros [Hc _]%andb_true_iff. by exists v. Qed.

Abbreviation register_session := (register_session feature_encryption feature_strict session_crypto).
Abbreviation publish_encryption_refresh :=
  (publish_encryption_refresh feature_encryption feature_strict session_crypto).

Lemma register_session_publishes w info owner :
  cl_registry (register_session w info owner).2 = cl_registry w /\
  publishes (publisher (cl_registry w)) (cl_state w) (cl_state (register_session w info owner).2).
Proof.
  unfold ClientSessions.register_session.
  destruct (publication_guard (cl_registry w) owner) eqn:Hg; cbn [negb snd]; [|by split; [|apply publishes_refl]].
  destruct (ly_sink (cl_state w)); cbn [negb snd]; [|by split; [|apply publishes_refl]].
  destruct (new_session_objects _ _ _ _ _ _) as [[direct routing]|] eqn:Hn; cbn [snd];
    [|by split; [|apply publishes_refl]].
  apply new_session_objects_generation in Hn as [Ed Er].
  pose proof (publish_session_publishes (cl_state w) direct routing) as Hp.
  destruct (publish_session (cl_state w) direct routing) as [d s]. cbn in *. split; [done|].
  eapply publishes_impl; [|apply Hp; intros x Hx; by rewrite Ed, (Er x Hx)].
  intros g <-. rewrite Ed. by apply guard_publisher.
Qed.

Lemma register_routing_publishes upgrade w routing :
  cl_registry (register_routing upgrade w routing).2 = cl_registry w /\
  publishes (publisher (cl_registry w)) (cl_state w) (cl_state (register_routing upgrade w routing).2).
Proof.
  unfold register_routing. destruct (get_entry _ _) as [entry|]; [|by split; [|apply publishes_refl]].
  destruct (publication_guard _ _) eqn:Hg; cbn [negb snd]; [|by split; [|apply publishes_refl]].
  destruct (_ =? nr_generation routing) eqn:Eg; cbn [negb snd]; [|by split; [|apply publishes_refl]].
  destruct (upgrade _); cbn [negb snd]; [|by split; [|apply publishes_refl]].
  destruct (is_physical _ _); cbn [negb snd]; [|by split; [|apply publishes_refl]].
  split; [done|]. eapply publishes_impl; [|apply publish_routing_publishes].
  intros g <-. apply guard_publisher in Hg. b2p. by rewrite <- Eg.
Qed.

Lemma commit_refresh_state {L} now view owner info (publish : L -> result L string) l :
  (commit_refresh now view owner info publish l).2 = l \/
  publication_guard view owner = true /\ publish l = Ok (commit_refresh now view owner info publish l).2.
Proof.
  unfold commit_refresh. destruct (publication_guard view owner); cbn; [|by left].
  repeat case_match_goal; cbn; try (by left). by right.
Qed.

Lemma refresh_publishes upgrade now w node_id owner original info :
  view_inv (cl_registry w) ->
  let w' := (publish_encryption_refresh upgrade now w node_id owner original info).2 in
  tame (cl_registry w) (cl_registry w') /\
  publishes (publisher (cl_registry w)) (cl_state w) (cl_state w').
Proof.
  intros Hv. cbn zeta. unfold ClientSessions.publish_encryption_refresh.
  assert (tame (cl_registry w) (cl_registry w) /\
          publishes (publisher (cl_registry w)) (cl_state w) (cl_state w)) as Hsame
    by (split; [apply tame_refl|apply publishes_refl]).
  destruct (nf_identities info) as [|default ids] eqn:Ei; [done|].
  destruct (routing_at (cl_state w) original) as [orig|]; [|done].
  destruct (bool_decide _); cbn [negb]; [|done]. destruct (upgrade _); cbn [negb]; [|done].
  destruct (nf_session_key info) as [key|]; [|done].
  destruct (encryption_new _ _ _ _ _) as [encryption|]; [|done].
  match goal with |- context [commit_refresh now ?v ?o ?i ?p ?l] =>
    pose proof (tame_refresh now v o i p l Hv) as Ht;
    pose proof (commit_refresh_state now v o i p l) as Hs;
    destruct (commit_refresh now v o i p l) as [[r view] s] end.
  cbn in Ht, Hs |- *. split; [done|]. destruct Hs as [->|[Hg Hs]]; [apply publishes_refl|].
  destruct (_ || _); [done|]. injection Hs as <-. apply guard_publisher in Hg.
  set (s1 := match session_at _ _ with Some _ => _ | None => _ end).
  apply (publishes_trans _ _ s1).
  - unfold s1. repeat case_match_goal; try apply publishes_refl. apply update_forwards_publishes.
  - eapply publishes_impl; [|apply publish_routing_publishes]. by intros g <-.
Qed.

Lemma unregister_id_publishes gs g s id : publishes gs s (unregister_id g s id).
Proof.
  unfold unregister_id. eapply publishes_trans; [|apply backoffs_publishes].
  repeat case_match_goal; try apply publishes_refl.
  eapply publishes_trans; [|apply update_forwards_publishes]. by apply shrink_publishes; [apply delete_subseteq|..].
Qed.

Lemma unregister_ids_publishes gs g ids : forall s, publishes gs s (foldl (unregister_id g) s ids).
Proof.
  induction ids as [|id ids IH]; intros s; cbn; [apply publishes_refl|].
  eapply publishes_trans; [apply unregister_id_publishes|apply IH].
Qed.

Lemma unregister_generation_publishes gs pick w node :
  tame (cl_registry w) (cl_registry (unregister_generation pick w node).2) /\
  publishes gs (cl_state w) (cl_state (unregister_generation pick w node).2).
Proof.
  unfold unregister_generation. pose proof (tame_remove (cl_registry w) node) as Ht.
  destruct (remove_generation (cl_registry w) node) as [[|] view]; cbn in *.
  2:{ split; [apply tame_refl|apply publishes_refl]. }
  split; [done|]. eapply publishes_trans; [apply unregister_ids_publishes|].
  apply shrink_publishes; [done|apply retain_not_subseteq..].
Qed.

Lemma retire_owner_publishes gs w o :
  tame (cl_registry w) (cl_registry (retire_owner w o)) /\
  publishes gs (cl_state w) (cl_state (retire_owner w o)).
Proof.
  assert (tame (cl_registry w) (cl_registry w) /\ publishes gs (cl_state w) (cl_state w)) as Hsame
    by (split; [apply tame_refl|apply publishes_refl]).
  unfold retire_owner. destruct (get_entry _ _) as [entry|]; [|done]. destruct (_ =? _); [|done].
  pose proof (tame_remove (cl_registry w) (snapshot (cl_registry w) entry)) as Ht.
  destruct (remove_generation _ _) as [[|] view]; cbn in *; [|done]. split; [done|].
  eapply publishes_trans; [|apply backoffs_publishes].
  apply shrink_publishes; [apply retain_not_subseteq|done..].
Qed.

Lemma forget_session_publishes gs w d : publishes gs (cl_state w) (cl_state (forget_session w d)).
Proof. apply shrink_publishes; apply retain_not_subseteq. Qed.

(** ** Closed nodes *)

(** What the loop over the ids of a generation leaves in the table of routings. *)
Lemma unregister_id_nodes g s id :
  ly_routings (unregister_id g s id) = ly_routings s /\
  forall id' r, ly_nodes (unregister_id g s id) !! id' = Some r <->
    ly_nodes s !! id' = Some r /\ (id' = id -> routing_of s g r = false).
Proof.
  unfold unregister_id, routing_of. destruct (ly_nodes s !! id) as [r0|] eqn:Hr; cbn.
  - destruct (routing_at s r0) as [x|] eqn:Hx; cbn.
    + destruct (nr_generation x =? g) eqn:Eg; cbn; (split; [done|]); intros id' r.
      * rewrite lookup_delete_Some. split.
        -- intros [Hne Hn]. split; [done|]. by intros ->.
        -- intros [Hn Hid]. split; [|done]. intros <-. specialize (Hid eq_refl).
           assert (r = r0) as -> by congruence. by rewrite Hx, Eg in Hid.
      * split; [|by intros []]. intros Hn. split; [done|]. intros ->.
        assert (r = r0) as -> by congruence. by rewrite Hx, Eg.
    + split; [done|]. intros id' r. split; [|by intros []]. intros Hn. split; [done|]. intros ->.
      assert (r = r0) as -> by congruence. by rewrite Hx.
  - split; [done|]. intros id' r. split; [|by intros []]. intros Hn. split; [done|]. intros ->. congruence.
Qed.

Lemma unregister_ids_nodes g ids : forall s,
  ly_routings (foldl (unregister_id g) s ids) = ly_routings s /\
  forall id r, ly_nodes (foldl (unregister_id g) s ids) !! id = Some r <->
    ly_nodes s !! id = Some r /\ (id ∈ ids -> routing_of s g r = false).
Proof.
  induction ids as [|id0 ids IH]; intros s; cbn.
  { split; [done|]. intros id r. split; [|by intros []]. intros Hn. split; [done|]. by intros ?%not_elem_of_nil. }
  destruct (unregister_id_nodes g s id0) as [E0 H0]. destruct (IH (unregister_id g s id0)) as [E1 H1].
  split; [congruence|]. intros id r. rewrite H1, H0, elem_of_cons.
  unfold routing_of, routing_at. rewrite E0. tauto.
Qed.

Lemma keys_where_elem `{Countable A} f (m : gmap A nat) k v :
  m !! k = Some v -> f v = true -> k ∈ keys_where f m.
Proof.
  intros Hk Hf. unfold keys_where. apply list_elem_of_fmap. exists (k, v). split; [done|].
  apply list_elem_of_filter. split; [done|]. by apply elem_of_map_to_list.
Qed.

(** No node is in a generation any more, nor will one ever be again. *)
Definition dead (view : NetworkView) (g : Z) : Prop :=
  g < rg_next_generation view /\
  forall l c, rg_cells view !! l = Some c -> nc_epoch c = g -> nc_retired c = true.

Lemma dead_grows view view' g : grows view view' -> dead view g -> dead view' g.
Proof.
  intros Hg [Hlt Hd]. split; [pose proof (gr_next _ _ Hg); lia|]. intros l c' Hc' He.
  destruct (rg_cells view !! l) as [c|] eqn:Hc.
  - destruct (gr_old _ _ Hg _ _ Hc) as (d & Hd' & Hcg). assert (d = c') as -> by congruence.
    apply (cg_retired _ _ _ Hcg). apply (Hd l c Hc). destruct (cg_epoch _ _ _ Hcg); lia.
  - pose proof (gr_new _ _ Hg _ _ Hc' Hc). lia.
Qed.

Lemma dead_publisher view g : dead view g -> ~ publisher view g.
Proof.
  intros [_ Hd] (v & Hc & Hg). apply current_cell in Hc as (c & Hc & _ & Hr & He).
  rewrite (Hd _ _ Hc) in Hr; [done|congruence].
Qed.

Lemma unregister_generation_clears pick w node g :
  view_inv (cl_registry w) -> in_range (cl_state w) ->
  nv_expected_generation node = Some g -> is_current (cl_registry w) node = true ->
  dead (cl_registry (unregister_generation pick w node).2) g /\
  absent g (cl_state (unregister_generation pick w node).2).
Proof.
  intros Hv Hir Hn Hc. pose proof (remove_generation_eq _ _ Hc) as (Er & Ecells & _ & _ & En).
  pose proof Hc as Hc'. apply current_cell in Hc' as (c & Hc' & _ & Hr & He).
  assert (generation (cl_registry w) node = g) as Eg by (unfold generation; by rewrite Hn).
  rewrite Eg in He. unfold unregister_generation. rewrite Eg.
  destruct (remove_generation (cl_registry w) node) as [b view] eqn:Erm. cbn in Er, Ecells, En. subst b.
  cbn [snd cl_registry cl_state]. split.
  - split; [rewrite En, <- He; by eapply (vi_epoch _ Hv)|]. intros l d. rewrite Ecells.
    destruct (decide (l = nv_cell node)) as [->|Hne].
    + rewrite list_lookup_alter_eq, Hc'. by intros [= <-].
    + rewrite list_lookup_alter_ne by done. intros Hd Hde. exfalso. apply Hne.
      eapply (vi_epochs _ Hv); [done..|congruence].
  - set (ids := keys_where _ _ ++ _). set (s1 := foldl (unregister_id g) (cl_state w) ids).
    destruct (unregister_ids_nodes g ids (cl_state w)) as [Ert Hnodes]. fold s1 in Ert, Hnodes.
    pose proof (publishes_in_range _ _ _ (unregister_ids_publishes (fun _ => False) g ids (cl_state w)) Hir) as Hir1.
    fold s1 in Hir1. split; cbn.
    + intros id r [Hr0 Hid]%Hnodes. apply (ir_nodes _ Hir) in Hr0 as Hsome. destruct Hsome as [x Hx].
      exists x. split; [unfold routing_at in *; cbn; by rewrite Ert|]. intros Hxg.
      assert (routing_of (cl_state w) g r = true) as Hro
        by (unfold routing_of; rewrite Hx; by apply Z.eqb_eq).
      rewrite Hid in Hro; [done|]. apply elem_of_app. left. by eapply keys_where_elem.
    + intros a d [Hd Hs]%retain_not_lookup. apply (ir_sessions _ Hir1) in Hd as [x Hx]. exists x.
      split; [done|]. unfold session_of in Hs. rewrite Hx in Hs. by apply Z.eqb_neq.
    + intros id d [Hd Hs]%retain_not_lookup. apply (ir_p2p_nodes _ Hir1) in Hd as [x Hx]. exists x.
      split; [done|]. unfold session_of in Hs. rewrite Hx in Hs. by apply Z.eqb_neq.
Qed.

(** ** Runs *)

Context (upgrade : nat -> bool) (capacity : nat).

(** The registry changes by an action of some task. *)
Definition registry_action (view view' : NetworkView) : Prop :=
  exists t t', tasks_inv upgrade t /\ step upgrade capacity t t' /\ tk_view t = view /\ tk_view t' = view'.

(** One action of a task on the registry or on the tables. *)
Inductive client_step (w : Client) : Client -> Prop :=
| cs_registry view :
    registry_action (cl_registry w) view ->
    client_step w {| cl_registry := view; cl_state := cl_state w |}
| cs_register info owner : client_step w (register_session w info owner).2
| cs_routing routing : client_step w (register_routing upgrade w routing).2
| cs_refresh now node_id owner original info :
    client_step w (publish_encryption_refresh upgrade now w node_id owner original info).2
| cs_unregister pick node : client_step w (unregister_generation pick w node).2
| cs_retire owner : client_step w (retire_owner w owner)
| cs_forget d : client_step w (forget_session w d)
| cs_closing node : client_step w (on_view w (fun v => (begin_closing v node).2))
| cs_abort node : client_step w (on_view w (fun v => abort_initialization v node))
| cs_forwards d f :
    client_step w {| cl_registry := cl_registry w; cl_state := update_forwards (cl_state w) d f |}
| cs_backoffs sync refresh :
    client_step w {| cl_registry := cl_registry w; cl_state := with_backoffs (cl_state w) sync refresh |}.

Definition Client_new : Client :=
  {| cl_registry := NetworkView_new;
     cl_state := {| ly_public_addr := None; ly_bind_addr := None; ly_sink := true; ly_nodes := ∅;
                    ly_p2p_sessions := ∅; ly_p2p_nodes := ∅; ly_sync_backoff := ∅;
                    ly_refresh_backoff := ∅; ly_sessions := []; ly_routings := [] |} |}.

(** What every action does. *)
Lemma client_step_spec w w' : view_inv (cl_registry w) -> client_step w w' ->
  view_inv (cl_registry w') /\ grows (cl_registry w) (cl_registry w') /\
  publishes (publisher (cl_registry w)) (cl_state w) (cl_state w').
Proof.
  intros Hv Hs. set (P := publisher (cl_registry w)).
  assert (forall view s, tame (cl_registry w) view /\ publishes P (cl_state w) s ->
    view_inv view /\ grows (cl_registry w) view /\ publishes P (cl_state w) s) as Htame
    by (intros view s [[] Hp]; auto).
  destruct Hs as [view Ha|info owner|routing|now node_id owner original info|pick node|owner|d|node|node|d f|sync refresh];
    cbn [cl_registry cl_state on_view].
  - destruct Ha as (t & t' & Ht & Hst & Ev & Ev'). rewrite <- Ev, <- Ev'.
    split; [by eapply step_inv|]. split; [by eapply step_grows|apply publishes_refl].
  - destruct (register_session_publishes w info owner) as [-> Hp]. split_and!; [done|apply grows_refl|done].
  - destruct (register_routing_publishes upgrade w routing) as [-> Hp]. split_and!; [done|apply grows_refl|done].
  - by apply Htame, refresh_publishes.
  - apply Htame, unregister_generation_publishes.
  - apply Htame, retire_owner_publishes.
  - split_and!; [done|apply grows_refl|apply forget_session_publishes].
  - split_and!; [by apply begin_closing_inv|apply begin_closing_grows|apply publishes_refl].
  - apply Htame. split; [apply tame_abort_initialization|apply publishes_refl].
  - split_and!; [done|apply grows_refl|apply update_forwards_publishes].
  - split_and!; [done|apply grows_refl|apply backoffs_publishes].
Qed.

Definition client_inv (w : Client) : Prop := view_inv (cl_registry w) /\ in_range (cl_state w).

Lemma client_step_inv w w' : client_inv w -> client_step w w' -> client_inv w'.
Proof.
  intros [Hv Hr] Hs. destruct (client_step_spec w w' Hv Hs) as (Hv' & _ & Hp). split; [done|].
  by eapply publishes_in_range.
Qed.

Lemma client_inv_new : client_inv Client_new.
Proof. by split. Qed.

Lemma gone_step g w w' :
  client_inv w /\ dead (cl_registry w) g /\ absent g (cl_state w) -> client_step w w' ->
  client_inv w' /\ dead (cl_registry w') g /\ absent g (cl_state w').
Proof.
  intros (Hi & Hd & Ha) Hs. split; [by eapply client_step_inv|].
  destruct (client_step_spec w w' (proj1 Hi) Hs) as (_ & Hg & Hp). split; [by eapply dead_grows|].
  eapply publishes_absent; [done| |done]. by apply dead_publisher.
Qed.


(** ** Disconnecting *)

Lemma retire_owner_keeps w o :
  ly_routings (cl_state (retire_owner w o)) = ly_routings (cl_state w) /\
  ly_p2p_sessions (cl_state (retire_owner w o)) = ly_p2p_sessions (cl_state w) /\
  ly_p2p_nodes (cl_state (retire_owner w o)) = ly_p2p_nodes (cl_state w) /\
  forall id r, routing_of (cl_state w) o.2 r = false ->
    ly_nodes (cl_state w) !! id = Some r -> ly_nodes (cl_state (retire_owner w o)) !! id = Some r.
Proof.
  unfold retire_owner. destruct (get_entry _ _) as [entry|]; [|done]. destruct (_ =? _); [|done].
  destruct (remove_generation _ _) as [[|] view]; cbn; [|done]. split_and!; [done..|].
  intros id r Hg Hr. by apply retain_not_lookup.
Qed.

Lemma retire_owners_keep os : forall w,
  ly_routings (cl_state (foldl retire_owner w os)) = ly_routings (cl_state w) /\
  ly_p2p_sessions (cl_state (foldl retire_owner w os)) = ly_p2p_sessions (cl_state w) /\
  ly_p2p_nodes (cl_state (foldl retire_owner w os)) = ly_p2p_nodes (cl_state w) /\
  forall id r, (forall o, o ∈ os -> routing_of (cl_state w) o.2 r = false) ->
    ly_nodes (cl_state w) !! id = Some r -> ly_nodes (cl_state (foldl retire_owner w os)) !! id = Some r.
Proof.
  induction os as [|o os IH]; intros w; cbn; [done|].
  destruct (retire_owner_keeps w o) as (E1 & E2 & E3 & H1). destruct (IH (retire_owner w o)) as (F1 & F2 & F3 & H2).
  split_and!; [congruence..|]. intros id r Ho Hr. apply H2.
  - intros o' Ho'. unfold routing_of, routing_at. rewrite E1. apply Ho. by apply list_elem_of_further.
  - apply H1; [|done]. apply Ho, list_elem_of_here.
Qed.

(** A session that is unregistered is gone from all tables; routings over other
    sessions and in other generations stay, and so do the other sessions. *)
Lemma unregister_session_spec w d :
  let s := cl_state w in
  let s' := cl_state (unregister_session w d) in
  (forall id r x, ly_nodes s' !! id = Some r -> routing_at s' r = Some x -> nr_route x <> d) /\
  (forall a, ly_p2p_sessions s' !! a <> Some d) /\ (forall id, ly_p2p_nodes s' !! id <> Some d) /\
  (forall id r x, ly_nodes s !! id = Some r -> routing_at s r = Some x -> nr_route x <> d ->
     (forall o, o ∈ session_owners s d -> o.2 <> nr_generation x) -> ly_nodes s' !! id = Some r) /\
  (forall a d', ly_p2p_sessions s !! a = Some d' -> d' <> d -> ly_p2p_sessions s' !! a = Some d').
Proof.
  cbn zeta. unfold unregister_session.
  destruct (retire_owners_keep (session_owners (cl_state w) d) w) as (E1 & E2 & E3 & Hk).
  set (w1 := foldl retire_owner w _) in *. unfold forget_session. cbn. split_and!.
  - intros id r x [_ Hr]%retain_not_lookup Hx. unfold routed_by in Hr.
    change (routing_at (cl_state w1) r = Some x) in Hx. rewrite Hx in Hr. by apply Nat.eqb_neq.
  - intros a [_ Hd]%retain_not_lookup. by rewrite Nat.eqb_refl in Hd.
  - intros id [_ Hd]%retain_not_lookup. by rewrite Nat.eqb_refl in Hd.
  - intros id r x Hr Hx Hne Ho. apply retain_not_lookup. split.
    + apply Hk; [|done]. intros o Hin. unfold routing_of. rewrite Hx. apply Z.eqb_neq.
      intros E. by apply (Ho o Hin).
    + unfold routed_by, routing_at in *. rewrite E1, Hx. by apply Nat.eqb_neq.
  - intros a d' Hd Hne. apply retain_not_lookup. rewrite E2. split; [done|]. by apply Nat.eqb_neq.
Qed.

Lemma close_session_state w d :
  cl_state (close_session w d) = cl_state w \/
  exists w1, cl_state w1 = cl_state w /\ close_session w d = unregister_session w1 d.
Proof.
  unfold close_session. destruct (session_at (cl_state w) d) as [x|]; [|by left].
  destruct (match ly_p2p_sessions _ !! _ with Some _ => _ | None => _ end); [by left|]. right.
  eexists. split; [|reflexivity]. repeat case_match_goal; done.
Qed.

(** What a disconnect message from a peer can come to. *)
Lemma peer_disconnect_cases pick w sid from by_ r w' :
  on_disconnected pick w sid from by_ = (r, w') ->
  (forall d x, find_session w from = Some d -> session_at (cl_state w) d = Some x ->
     nde_default_id (ds_owner x) <> NodeId_default) ->
  (w' = w /\ exists e, r = Err e) \/
  by_ = BySessionId sid /\
  (cl_state w' = cl_state w /\
   (forall d, find_session w from = Some d -> session_at (cl_state w) d = None) \/
   exists d x, find_session w from = Some d /\ session_at (cl_state w) d = Some x /\ ds_id x = sid /\
     w' = close_session w d).
Proof.
  unfold on_disconnected. intros Hon Hpeer.
  destruct (SessionId_try_from sid) as [sid'|] eqn:Esid; [|injection Hon as <- <-; eauto].
  assert (sid' = sid) as -> by (unfold SessionId_try_from in Esid; by case_match_hyp Esid; simplify_eq).
  assert (match find_session w from with
          | Some d => match session_at (cl_state w) d with
                      | Some x => bool_decide (ds_id x = sid) &&
                                  bool_decide (nde_default_id (ds_owner x) = NodeId_default)
                      | None => false end
          | None => false end = false) as Hrelay.
  { destruct (find_session w from) as [d|]; [|done].
    destruct (session_at (cl_state w) d) as [x|] eqn:Hx; [|done].
    apply andb_false_iff. right. apply bool_decide_false. by eapply Hpeer. }
  rewrite Hrelay in Hon. destruct by_ as [slot|id|other]; cbn [negb] in Hon.
  1,2: injection Hon as <- <-; eauto.
  destruct (SessionId_try_from other) as [o|] eqn:Eo; [|injection Hon as <- <-; eauto].
  assert (o = other) as -> by (unfold SessionId_try_from in Eo; by case_match_hyp Eo; simplify_eq).
  case_bool_decide as Eother; cbn [negb] in Hon; [|injection Hon as <- <-; eauto]. subst other.
  destruct (find_session w from) as [d|] eqn:Hd.
  - destruct (session_at (cl_state w) d) as [x|] eqn:Hx.
    + case_bool_decide as Eid; cbn [negb] in Hon; injection Hon as <- <-; [|eauto]. right. split; [done|].
      right. by exists d, x.
    + injection Hon as <- <-. right. split; [done|]. left. split; [done|]. by intros d' [= <-].
  - unfold abort_initializations in Hon. destruct (get_entry_by_addr _ _) as [entry|];
      injection Hon as <- <-; [|eauto]. right. split; [done|]. by left.
Qed.

(** C34: a peer can end its own session only.  A disconnect message from an address
    at which no session with the relay server is open changes nothing but this:
    when it carries the id of the session at that address, that session is closed.
    Routings over other sessions and in other generations, and the sessions at
    other addresses, stay as they are; a message that names a slot or a node, or
    another session, is refused and changes nothing. *)
Theorem peer_disconnect_confined pick w sid from by_ r w' :
  on_disconnected pick w sid from by_ = (r, w') ->
  (forall d x, find_session w from = Some d -> session_at (cl_state w) d = Some x ->
     nde_default_id (ds_owner x) <> NodeId_default) ->
  (forall id q x, ly_nodes (cl_state w) !! id = Some q -> routing_at (cl_state w) q = Some x ->
     (forall d, find_session w from = Some d ->
        nr_route x <> d /\ forall o, o ∈ session_owners (cl_state w) d -> o.2 <> nr_generation x) ->
     ly_nodes (cl_state w') !! id = Some q) /\
  (forall a d, ly_p2p_sessions (cl_state w) !! a = Some d -> find_session w from <> Some d ->
     ly_p2p_sessions (cl_state w') !! a = Some d) /\
  (by_ <> BySessionId sid \/
   (exists d x, find_session w from = Some d /\ session_at (cl_state w) d = Some x /\ ds_id x <> sid) ->
   w' = w /\ exists e, r = Err e).
Proof.
  intros Hon Hpeer. pose proof (peer_disconnect_cases _ _ _ _ _ _ _ Hon Hpeer) as Hcases.
  assert (cl_state w' = cl_state w \/ exists d w1, find_session w from = Some d /\
            cl_state w1 = cl_state w /\ w' = unregister_session w1 d) as Hst.
  { destruct Hcases as [[-> _]|(_ & [[-> _]|(d & x & Hd & _ & _ & ->)])]; [by left|by left|].
    destruct (close_session_state w d) as [->|(w1 & E1 & ->)]; [by left|right]. by exists d, w1. }
  split_and!.
  - intros id q x Hq Hx Hne. destruct Hst as [->|(d & w1 & Hd & E1 & ->)]; [done|].
    destruct (Hne d Hd) as [Hroute Ho]. rewrite <- E1 in Hq, Hx, Ho.
    by eapply (unregister_session_spec w1 d).
  - intros a d' Ha Hf. destruct Hst as [->|(d & w1 & Hd & E1 & ->)]; [done|]. rewrite <- E1 in Ha.
    apply (unregister_session_spec w1 d); [done|]. congruence.
  - intros Hbad. destruct Hcases as [|[Eby Hrest]]; [done|]. exfalso.
    destruct Hbad as [|(d & x & Hd & Hx & Hid)]; [done|].
    destruct Hrest as [[_ Hnone]|(d' & x' & Hd' & Hx' & Hid' & _)]; [|congruence].
    specialize (Hnone d Hd). congruence.
Qed.
End ClientSessionsProps.

(** ** Examples *)

Import ToyCrypto ToyCipher ToyBackoff.

Definition sample_addr (k : Z) : SocketAddr := {| sa_ip := IpV4 k; sa_port := 1 |}.
Definition sample_crypto : @SessionCrypto toy_sign toy_agreement := 5.
Definition sample_owner : NodeView := sp_registry sample_permit.
Definition sample_registration : SessionRegistrationInfo :=
  {| sri_addr := sample_addr 1; sri_id := replicate 16 5; sri_node_id := sample_id;
     sri_identities := [{| ni_node_id := sample_id; ni_public_key := 7 |}];
     sri_supported_encryptions := ["Aes256GcmSiv"%string]; sri_session_key := Some 9 |}.

(** A client with one session, registered by the holder of the permit. *)
Definition sample_client : Client :=
  (ClientSessions.register_session true true sample_crypto
     {| cl_registry := sample_locked.2; cl_state := cl_state Client_new |}
     sample_registration sample_owner).2.

Lemma sample_client_reachable :
  rtc (client_step true true sample_crypto sample_upgrade 16) Client_new sample_client.
Proof.
  set (t1 := with_view Tasks_new sample_view).
  assert (step sample_upgrade 16 Tasks_new t1) as H1
    by (split; [done|apply (act_guard _ _ Tasks_new 0 sample_id [])]).
  assert (step sample_upgrade 16 t1 {| tk_view := sample_locked.2; tk_permits := [sample_permit];
    tk_drops := []; tk_closing := []; tk_waiting := [] |}) as H2.
  { split; [done|]. eapply (act_permit _ _ t1 0 sample_entry false sample_permit sample_locked.2);
      [done|vm_compute; reflexivity]. }
  eapply rtc_l; [apply (cs_registry _ _ _ _ _ Client_new sample_view)|].
  { exists Tasks_new, t1. split_and!; [apply tasks_inv_new|done..]. }
  eapply rtc_l; [eapply (cs_registry _ _ _ _ _ _ sample_locked.2)|].
  { exists t1. eexists. split_and!; [|exact H2|done|done].
    eapply step_inv; [apply tasks_inv_new|exact H1]. }
  eapply rtc_l; [apply (cs_register _ _ _ _ _ _ sample_registration sample_owner)|]. apply rtc_refl.
Qed.


Lemma peer_disconnect_confined_witness :
  let w' := (on_disconnected head sample_client (replicate 16 5) (sample_addr 1)
               (ByNodeId sample_id)).2 in
  w' = sample_client.
Proof.
  destruct (peer_disconnect_confined head sample_client (replicate 16 5) (sample_addr 1)
    (ByNodeId sample_id) (on_disconnected head sample_client (replicate 16 5) (sample_addr 1)
       (ByNodeId sample_id)).1 (on_disconnected head sample_client (replicate 16 5) (sample_addr 1)
       (ByNodeId sample_id)).2) as (_ & _ & Hbad).
  - vm_compute. reflexivity.
  - intros d x Hd Hx. vm_compute in Hd. injection Hd as <-. vm_compute in Hx. injection Hx as <-.
    vm_compute. discriminate.
  - apply Hbad. left. discriminate.
Defined.
