(* ===== verification/SessionInit.v ===== *)
(** [client/src/session/session_initializer.rs]: the handshakes by which a client
    opens a session with a relay server or another node, and by which it accepts
    one; and the limits on handshakes that others start.

    A handshake is a sequence of parts that are separated by [await]s.  While it
    waits other tasks change the registry and the tables; what they do is an
    argument, an arbitrary function for every such point.  The answers of the
    other party are arguments as well. *)

From S2P Require Import Prelude Payload Proto Challenge NodeInfo SessionState DirectSession Encryption.
From S2P Require Import ClientForward NetworkView ClientSessions.

(** ** Handshakes of others *)

Definition MAX_INCOMING_HANDSHAKES : Z := 256.

(** [IncomingSession]: the address, and the queue of one message of its channel. *)
Record IncomingSession : Type := {
  in_remote : SocketAddr;
  in_queue : option (Z * request_Session) }.

(** [TemporarySession]; raw sessions are referred to by a number. *)
Record TemporarySession : Type := { ts_raw : nat; ts_users : Z }.

(** [SessionInitializerState].  [si_next_raw] numbers the raw sessions. *)
Record SessionInitializerState : Type := {
  si_incoming_sessions : gmap SessionId IncomingSession;
  si_admitted : gmap SocketAddr Z;
  si_next_admission : Z;
  si_tmp_sessions : gmap SocketAddr TemporarySession;
  si_handles : gset SessionId;
  si_next_raw : nat }.

Definition SessionInitializerState_default : SessionInitializerState :=
  {| si_incoming_sessions := ∅; si_admitted := ∅; si_next_admission := 0; si_tmp_sessions := ∅;
     si_handles := ∅; si_next_raw := 0 |}.

Definition with_admitted (s : SessionInitializerState) (m : gmap SocketAddr Z) (n : Z)
  : SessionInitializerState :=
  {| si_incoming_sessions := si_incoming_sessions s; si_admitted := m; si_next_admission := n;
     si_tmp_sessions := si_tmp_sessions s; si_handles := si_handles s;
     si_next_raw := si_next_raw s |}.

Definition with_incoming (s : SessionInitializerState) (m : gmap SessionId IncomingSession)
  (h : gset SessionId) : SessionInitializerState :=
  {| si_incoming_sessions := m; si_admitted := si_admitted s; si_next_admission := si_next_admission s;
     si_tmp_sessions := si_tmp_sessions s; si_handles := h; si_next_raw := si_next_raw s |}.

Definition with_tmp (s : SessionInitializerState) (m : gmap SocketAddr TemporarySession) (n : nat)
  : SessionInitializerState :=
  {| si_incoming_sessions := si_incoming_sessions s; si_admitted := si_admitted s;
     si_next_admission := si_next_admission s; si_tmp_sessions := m; si_handles := si_handles s;
     si_next_raw := n |}.

(** [IncomingAdmission], [IncomingSessionGuard] and [TemporarySessionGuard]. *)
Record IncomingAdmission : Type := { ia_remote : SocketAddr; ia_token : Z }.
Record TemporarySessionGuard : Type := { tg_remote : SocketAddr; tg_raw : nat }.

Definition admit_incoming (s : SessionInitializerState) (remote : SocketAddr)
  : option IncomingAdmission * SessionInitializerState :=
  if bool_decide (is_Some (si_admitted s !! remote)) ||
     (MAX_INCOMING_HANDSHAKES <=? Z.of_nat (size (si_admitted s)))
  then (None, s)
  else if 2 ^ 64 <=? si_next_admission s + 1 then (None, s)
  else
    let token := si_next_admission s + 1 in
    (Some {| ia_remote := remote; ia_token := token |},
     with_admitted s (<[remote := token]> (si_admitted s)) token).

(** [Drop] of an admission. *)
Definition drop_admission (s : SessionInitializerState) (a : IncomingAdmission)
  : SessionInitializerState :=
  if bool_decide (si_admitted s !! ia_remote a = Some (ia_token a))
  then with_admitted s (delete (ia_remote a) (si_admitted s)) (si_next_admission s)
  else s.

(** [Drop] of the guard of an incoming session. *)
Definition drop_incoming (s : SessionInitializerState) (id : SessionId) : SessionInitializerState :=
  with_incoming s (delete id (si_incoming_sessions s)) (si_handles s ∖ {[ id ]}).

Definition lease_temporary_session (s : SessionInitializerState) (addr : SocketAddr)
  : TemporarySessionGuard * SessionInitializerState :=
  match si_tmp_sessions s !! addr with
  | Some entry =>
      ({| tg_remote := addr; tg_raw := ts_raw entry |},
       with_tmp s (<[addr := {| ts_raw := ts_raw entry; ts_users := ts_users entry + 1 |}]>
                     (si_tmp_sessions s)) (si_next_raw s))
  | None =>
      ({| tg_remote := addr; tg_raw := si_next_raw s |},
       with_tmp s (<[addr := {| ts_raw := si_next_raw s; ts_users := 1 |}]> (si_tmp_sessions s))
         (S (si_next_raw s)))
  end.

Definition get_temporary_session (s : SessionInitializerState) (addr : SocketAddr) : option nat :=
  ts_raw <$> si_tmp_sessions s !! addr.

(** [Drop] of a lease; the counter of users is unsigned. *)
Definition drop_lease (s : SessionInitializerState) (g : TemporarySessionGuard)
  : outcome SessionInitializerState :=
  match si_tmp_sessions s !! tg_remote g with
  | Some entry =>
      if (ts_raw entry =? tg_raw g)%nat then
        if ts_users entry =? 0 then Panic
        else if ts_users entry - 1 =? 0
        then Ret (with_tmp s (delete (tg_remote g) (si_tmp_sessions s)) (si_next_raw s))
        else Ret (with_tmp s (<[tg_remote g := {| ts_raw := ts_raw entry;
                                                  ts_users := ts_users entry - 1 |}]>
                                (si_tmp_sessions s)) (si_next_raw s))
      else Ret s
  | None => Ret s
  end.

(** The part of [new_session] that reserves a slot, given the generated id. *)
Definition reserve_incoming (s : SessionInitializerState) (session_id : SessionId)
  (with_ : SocketAddr) : bool * SessionInitializerState :=
  if (MAX_INCOMING_HANDSHAKES <=? Z.of_nat (size (si_incoming_sessions s))) ||
     existsb (fun kv => bool_decide (in_remote kv.2 = with_)) (map_to_list (si_incoming_sessions s))
  then (false, s)
  else (true, with_incoming s
                (<[session_id := {| in_remote := with_; in_queue := None |}]> (si_incoming_sessions s))
                (si_handles s ∪ {[ session_id ]})).

(** [try_continue_session]: hands a message over to a handshake that waits. *)
Definition try_continue_session (s : SessionInitializerState) (session_id : SessionId)
  (request_id : Z) (from : SocketAddr) (request : request_Session)
  : result unit SessionError * SessionInitializerState :=
  match si_incoming_sessions s !! session_id with
  | Some entry =>
      if bool_decide (in_remote entry = from) then
        match in_queue entry with
        | None =>
            (Ok tt, with_incoming s
                      (<[session_id := {| in_remote := in_remote entry;
                                          in_queue := Some (request_id, request) |}]>
                         (si_incoming_sessions s)) (si_handles s))
        | Some _ => (Err (SeInternal "Handshake queue unavailable"), s)
        end
      else (Err (SeInternal "Handshake endpoint mismatch"), s)
  | None => (Err (SeProtocol (SessionNotFound session_id)), s)
  end.

(** [shutdown]. *)
Definition shutdown (s : SessionInitializerState) : SessionInitializerState :=
  {| si_incoming_sessions := ∅; si_admitted := si_admitted s;
     si_next_admission := si_next_admission s; si_tmp_sessions := ∅; si_handles := ∅;
     si_next_raw := si_next_raw s |}.

(** The receiver of a waiting handshake takes the message. *)
Definition recv_incoming (s : SessionInitializerState) (session_id : SessionId)
  : option (Z * request_Session) * SessionInitializerState :=
  match si_incoming_sessions s !! session_id with
  | Some entry =>
      (in_queue entry,
       with_incoming s (<[session_id := {| in_remote := in_remote entry; in_queue := None |}]>
                          (si_incoming_sessions s)) (si_handles s))
  | None => (None, s)
  end.

(** ** Handshakes *)

(** [CryptoProvider]: the key of an id, and the further ids of the node. *)
Class CryptoProvider `{EthSign} : Type := {
  crypto_get : NodeId -> option SecretKey;
  crypto_aliases : option (list NodeId) }.

Section SessionInit.
Context `{Hs : Hashes} `{K : KeyAgreement} `{B : ExponentialBackoff} `{C : !CryptoProvider}.
Context (feature_encryption feature_strict : bool) (session_crypto : SessionCrypto).

(** [ClientConfig], as far as it is used: the id of the node, the difficulty of
    its challenges, and the version of the client. *)
Record InitConfig : Type := {
  ic_node_id : NodeId;
  ic_challenge_difficulty : Z;
  ic_client_version : string }.
Context (config : InitConfig).

(** What a handshake works on: the registry and the tables, the state of the
    initializer, the packets sent, and the number of times it was suspended. *)
Record World : Type := {
  wd_client : Client;
  wd_init : SessionInitializerState;
  wd_sent : list (Packet * SocketAddr);
  wd_time : nat }.

Definition with_client (w : World) (c : Client) : World :=
  {| wd_client := c; wd_init := wd_init w; wd_sent := wd_sent w; wd_time := wd_time w |}.
Definition with_init (w : World) (s : SessionInitializerState) : World :=
  {| wd_client := wd_client w; wd_init := s; wd_sent := wd_sent w; wd_time := wd_time w |}.
Definition with_sent (w : World) (p : Packet) (to : SocketAddr) : World :=
  {| wd_client := wd_client w; wd_init := wd_init w; wd_sent := wd_sent w ++ [(p, to)];
     wd_time := wd_time w |}.

(** What comes from outside: what the other tasks do while the handshake is
    suspended for the n-th time; the error it ends with when it is cut off there
    (a deadline or an abort); whether the socket takes the packet sent then; and
    the ids of temporary sessions. *)
Record Environment : Type := {
  ev_others : nat -> Client * SessionInitializerState -> Client * SessionInitializerState;
  ev_interrupt : nat -> option SessionError;
  ev_sends : nat -> bool;
  ev_raw_id : nat -> SessionId }.
Context (env : Environment).

(** The run of a task: its result, a panic, or that it is not finished: a search for
    the solution of a challenge needs more fuel, or what it waits for did not come. *)
Inductive run (A : Type) : Type :=
| Done (r : result A SessionError) (w : World)
| Panicked
| Unfinished.
Arguments Done {A}.
Arguments Panicked {A}.
Arguments Unfinished {A}.

Definition Task (A : Type) : Type := World -> run A.

Definition task_ret {A} (x : A) : Task A := fun w => Done (Ok x) w.
Definition task_err {A} (e : SessionError) : Task A := fun w => Done (Err e) w.
Definition task_bind {A T} (t : Task A) (k : A -> Task T) : Task T := fun w =>
  match t w with
  | Done (Ok x) w => k x w
  | Done (Err e) w => Done (Err e) w
  | Panicked => Panicked
  | Unfinished => Unfinished
  end.
Notation "'do!' x := t 'in' k" := (task_bind t (fun x => k))
  (at level 10, x name, t at level 100, k at level 200).

Definition task_result {A} (r : result A SessionError) : Task A := fun w => Done r w.

(** [.await]: others run, or the task is cut off. *)
Definition await_others : Task unit := fun w =>
  match ev_interrupt env (wd_time w) with
  | Some e => Done (Err e) w
  | None =>
      let '(c, s) := ev_others env (wd_time w) (wd_client w, wd_init w) in
      Done (Ok tt) {| wd_client := c; wd_init := s; wd_sent := wd_sent w; wd_time := S (wd_time w) |}
  end.

(** [guard.transition_outgoing(state).await?] and [transition_incoming]. *)
Definition step_outgoing (v : NodeView) (state : InitState) : Task unit :=
  do! _ := await_others in fun w =>
  match NodeView_transition_outgoing (cl_registry (wd_client w)) v state with
  | (Ok _, reg) => Done (Ok tt) (with_client w {| cl_registry := reg; cl_state := cl_state (wd_client w) |})
  | (Err _, _) => Done (Err (SeInternal "Transition")) w
  end.

Definition step_incoming (v : NodeView) (state : InitState) : Task unit :=
  do! _ := await_others in fun w =>
  match NodeView_transition_incoming (cl_registry (wd_client w)) v state with
  | (Ok _, reg) => Done (Ok tt) (with_client w {| cl_registry := reg; cl_state := cl_state (wd_client w) |})
  | (Err _, _) => Done (Err (SeInternal "Transition")) w
  end.

(** [raw.send(packet).await]. *)
Definition send (packet : Packet) (to : SocketAddr) : Task unit :=
  do! _ := await_others in fun w =>
  if ev_sends env (wd_time w) then Done (Ok tt) (with_sent w packet to)
  else Done (Err (SeNetwork "Request failed")) w.

(** [let _ = tmp_session.disconnect().await], then the error. *)
Definition disconnect_with {A} (raw : nat) (to : SocketAddr) (e : SessionError) : Task A := fun w =>
  match send (Packet_control (ev_raw_id env raw)
               (CtDisconnected (Some (BySessionId (ev_raw_id env raw))))) to w with
  | Done _ w => Done (Err e) w
  | Panicked => Panicked
  | Unfinished => Unfinished
  end.

(** [tmp_session.request(..).await?]: the request goes out, again and again until
    it is answered, and the answer comes with the session id of its packet. *)
Definition request (request_id : Z) (session_id : list Z) (req : request_Session) (to : SocketAddr)
  (answer : option (list Z * response_Session)) : Task (list Z * response_Session) :=
  do! _ := (fun w => Done (Ok tt)
              (with_sent w {| pkt_session_id := session_id;
                              pkt_kind := Some (PkRequest {| rq_request_id := request_id;
                                                             rq_kind := Some (RqSession req) |}) |} to)) in
  do! _ := await_others in
  match answer with
  | Some response => task_ret response
  | None => task_err (SeNetwork "Request failed")
  end.

(** [self.layer.register_session(..).await]. *)
Definition register (info : SessionRegistrationInfo) (v : NodeView) : Task nat :=
  do! _ := await_others in fun w =>
  match register_session feature_encryption feature_strict session_crypto (wd_client w) info v with
  | (Ok d, c) => Done (Ok d) (with_client w c)
  | (Err _, c) => Done (Err (SeInternal "Failed to register session")) (with_client w c)
  end.

(** Runs a task while a temporary session is leased. *)
Definition leased {A} (addr : SocketAddr) (t : nat -> Task A) : Task A := fun w =>
  let '(lease, s) := lease_temporary_session (wd_init w) addr in
  match t (tg_raw lease) (with_init w s) with
  | Done r w =>
      match drop_lease (wd_init w) lease with
      | Ret s => Done r (with_init w s)
      | Panic => Panicked
      end
  | Panicked => Panicked
  | Unfinished => Unfinished
  end.

(** [list_crypto]. *)
Definition list_crypto : result (list SecretKey) SessionError :=
  match crypto_get (ic_node_id config) with
  | None => Err (SeInternal "Crypto")
  | Some key =>
      match crypto_aliases with
      | None => Err (SeInternal "Crypto")
      | Some aliases => Ok (key :: omap crypto_get aliases)
      end
  end.

(** [solve_challenge] and the search it awaits. *)
Definition solve_request (fuel : nat) (req : ChallengeRequest) : Task ChallengeResponse :=
  do! crypto := task_result list_crypto in
  do! _ := await_others in fun w =>
  match solve_challenge fuel (cq_challenge req) (cq_difficulty req) with
  | Some (Ok solution) => Done (Ok (solve solution crypto (session_pub_key session_crypto))) w
  | Some (Err _) => Done (Err (SeInternal "Challenge")) w
  | None => Unfinished
  end.

(** [prepare_session_request], given the random challenge. *)
Definition prepare_session_request (challenge : bool) (raw : list Z)
  : result (request_Session * list Z) SessionError :=
  let '(req, raw_challenge) := prepare_challenge_request (ic_challenge_difficulty config) raw in
  let? crypto := list_crypto in
  Ok ({| rqs_challenge_req := if challenge then rqs_challenge_req req else None;
         rqs_challenge_resp := rqs_challenge_resp req;
         rqs_supported_encryptions := rqs_supported_encryptions req;
         rqs_identities := map (fun k => Identity_to_proto (Identity_from (public_of k))) crypto;
         rqs_client_version := ic_client_version config |}, raw_challenge).

Definition answer_request (response : ChallengeResponse) : request_Session :=
  {| rqs_challenge_req := None; rqs_challenge_resp := Some response;
     rqs_supported_encryptions := supported_encryptions feature_encryption;
     rqs_identities := []; rqs_client_version := EmptyString |}.

(** The identities of the other party: those its answer proves, none for a relay
    server. *)
Definition recovered (challenge : bool) (raw : list Z) (resp : option ChallengeResponse)
  (node_id : NodeId) : result (NodeId * list NodeIdentity * option PublicKey) ChallengeError :=
  if challenge
  then recover_identities_from_challenge raw (ic_challenge_difficulty config) resp (Some node_id)
  else Ok (NodeId_default, [], None).

(** The part of [init_session] after the answers are there. *)
Definition conclude (addr : SocketAddr) (v : NodeView) (challenge : bool) (raw : list Z) (tmp : nat)
  (session_id : SessionId) (response : list Z * response_Session) : Task nat :=
  let node_id := nv_id v in
  do! _ := step_outgoing v HandshakeResponse in
  if bool_decide (session_id <> response.1)
  then disconnect_with tmp addr (SeProtocol (InvalidResponse "Session id mismatch"))
  else
  match recovered challenge raw (rss_challenge_resp response.2) node_id with
  | Err _ => disconnect_with tmp addr (SeProtocol (InvalidChallenge "Challenge"))
  | Ok (remote_id, identities, session_key) =>
      do! _ := step_outgoing v ChallengeVerified in
      if bool_decide (remote_id <> node_id) &&
         negb (existsb (fun i => bool_decide (ni_node_id i = node_id)) identities)
      then disconnect_with tmp addr (SeProtocol (InvalidResponse "Remote node id mismatch"))
      else
      do! session := register {| sri_addr := addr; sri_id := session_id; sri_node_id := remote_id;
                                 sri_identities := identities;
                                 sri_supported_encryptions := rss_supported_encryptions response.2;
                                 sri_session_key := session_key |} v in
      do! _ := step_outgoing v SessionRegistered in
      do! _ := send (Packet_control session_id (CtResumeForwarding 0)) addr in
      do! _ := step_outgoing v InitReady in
      task_ret session
  end.

(** [init_session], given the random challenge, the ids of the requests and the
    answers of the other party. *)
Definition init_session (fuel : nat) (addr : SocketAddr) (v : NodeView) (challenge : bool)
  (raw : list Z) (request_ids : Z * Z) (answer1 answer2 : option (list Z * response_Session))
  : Task nat :=
  do! _ := step_outgoing v Initializing in
  leased addr (fun tmp =>
  do! prepared := task_result (prepare_session_request challenge raw) in
  do! response := request request_ids.1 [] prepared.1 addr answer1 in
  do! _ := step_outgoing v ChallengeHandshake in
  match SessionId_try_from response.1 with
  | None => task_err (SeProtocol (InvalidResponse "Session id"))
  | Some session_id =>
      match rss_challenge_req response.2 with
      | None => task_err (SeProtocol (InvalidResponse "Expected ChallengeRequest"))
      | Some req =>
          do! solved := solve_request fuel req in
          do! response := request request_ids.2 session_id (answer_request solved) addr answer2 in
          conclude addr v challenge prepared.2 tmp session_id response
      end
  end).

(** [init_session_handler], given the random challenge and the message that
    comes, if one does. *)
Definition accept_answer (fuel : nat) (with_ : SocketAddr) (v : NodeView) (raw : list Z)
  (session_id : SessionId) (challenge_req : option ChallengeRequest) (request_id : Z)
  (message : request_Session) : Task nat :=
  do! _ := step_incoming v HandshakeResponse in
  match recover_identities_from_challenge raw (ic_challenge_difficulty config)
          (rqs_challenge_resp message) (Some (nv_id v)) with
  | Err _ => task_err (SeProtocol (InvalidChallenge "Challenge"))
  | Ok (node_id, identities, session_key) =>
      do! solved := match challenge_req with
                    | Some req => solve_request fuel req
                    | None => task_ret {| cs_solution := []; cs_signatures := [];
                                          cs_session_sign := []; cs_session_pub_key := [] |}
                    end in
      do! _ := step_incoming v ChallengeVerified in
      do! session := register {| sri_addr := with_; sri_id := session_id; sri_node_id := node_id;
                                 sri_identities := identities;
                                 sri_supported_encryptions := rqs_supported_encryptions message;
                                 sri_session_key := session_key |} v in
      do! _ := step_incoming v SessionRegistered in
      do! _ := send (Packet_response request_id session_id StatusOk
                       (RsSession {| rss_challenge_req := None; rss_challenge_resp := Some solved;
                                     rss_supported_encryptions := supported_encryptions feature_encryption;
                                     rss_identities := [] |})) with_ in
      do! _ := await_others in
      do! _ := step_incoming v InitReady in
      task_ret session
  end.

Definition init_session_handler (fuel : nat) (with_ : SocketAddr) (request_id : Z)
  (session_id : SessionId) (v : NodeView) (req : request_Session) (raw : list Z)
  (message : option (Z * request_Session)) : Task nat :=
  do! _ := step_incoming v Initializing in
  do! _ := (fun w => match get_temporary_session (wd_init w) with_ with
                     | Some _ => Done (Ok tt) w
                     | None => Done (Err (SeInternal "Incoming handshake lease was released")) w
                     end) in
  let '(packet, raw_challenge) := prepare_challenge_response (ic_challenge_difficulty config) raw in
  do! _ := send (Packet_response request_id session_id StatusOk (RsSession packet)) with_ in
  do! _ := step_incoming v ChallengeHandshake in
  do! _ := await_others in
  match message with
  | None => task_err (SeTimeout "Gave up waiting for Session messages from peer.")
  | Some (request_id, message) =>
      accept_answer fuel with_ v raw_challenge session_id (rqs_challenge_req req) request_id message
  end.

(** [new_session], given the generated id: reserves a slot for the handshake and
    gives it back when the handshake ended. *)
Definition new_session (fuel : nat) (request_id : Z) (with_ : SocketAddr) (v : NodeView)
  (req : request_Session) (session_id : SessionId) (raw : list Z)
  (message : option (Z * request_Session)) : Task nat := fun w =>
  match reserve_incoming (wd_init w) session_id with_ with
  | (false, s) => Done (Err (SeInternal "Incoming handshake slot unavailable")) (with_init w s)
  | (true, s) =>
      match leased with_ (fun _ => init_session_handler fuel with_ request_id session_id v req raw
                                     message) (with_init w s) with
      | Done r w => Done r (with_init w (drop_incoming (wd_init w) session_id))
      | Panicked => Panicked
      | Unfinished => Unfinished
      end
  end.

(** [init_p2p_session] and [init_server_session]; the error they return wraps the
    one of [init_session]. *)
Definition init_p2p_session (fuel : nat) (addr : SocketAddr) (v : NodeView) :=
  init_session fuel addr v true.
Definition init_server_session (fuel : nat) (addr : SocketAddr) (v : NodeView) :=
  init_session fuel addr v false.

End SessionInit.

Arguments Done {_ _ _} r w.
Arguments Panicked {_ _ _}.
Arguments Unfinished {_ _ _}.
