(* ===== verification/SessionInitProps.v ===== *)
(** Properties of the session initializer: the handshakes that others can start
    are bounded and hold on to nothing, a session is registered only for the node
    that proved its identities, and the handshake of two honest nodes succeeds on
    both sides. *)

From S2P Require Import Prelude Payload Proto Challenge NodeInfo SessionState DirectSession Encryption.
From S2P Require Import ClientForward NetworkView ClientSessions SessionInit.

(** ** Resources of handshakes *)

(** The state of the initializer with the guards its tasks hold.  Temporary
    sessions from number [hs_since] on were made after the last shutdown. *)
Record Handshakes : Type := {
  hs_state : SessionInitializerState;
  hs_admissions : list IncomingAdmission;
  hs_leases : list TemporarySessionGuard;
  hs_incoming : list SessionId;
  hs_since : nat }.

Definition Handshakes_new : Handshakes :=
  {| hs_state := SessionInitializerState_default; hs_admissions := []; hs_leases := [];
     hs_incoming := []; hs_since := 0 |}.

(** What tasks do: get and drop guards, pass messages on, shut down.  A task may
    drop any guard at any time, as the future that owns it is dropped. *)
Inductive hs_step (h : Handshakes) : Handshakes -> Prop :=
| hs_admit remote a s :
    admit_incoming (hs_state h) remote = (Some a, s) ->
    hs_step h {| hs_state := s; hs_admissions := a :: hs_admissions h; hs_leases := hs_leases h;
                 hs_incoming := hs_incoming h; hs_since := hs_since h |}
| hs_refuse remote s :
    admit_incoming (hs_state h) remote = (None, s) ->
    hs_step h {| hs_state := s; hs_admissions := hs_admissions h; hs_leases := hs_leases h;
                 hs_incoming := hs_incoming h; hs_since := hs_since h |}
| hs_dismiss a l1 l2 :
    hs_admissions h = l1 ++ a :: l2 ->
    hs_step h {| hs_state := drop_admission (hs_state h) a; hs_admissions := l1 ++ l2;
                 hs_leases := hs_leases h; hs_incoming := hs_incoming h; hs_since := hs_since h |}
| hs_lease addr g s :
    lease_temporary_session (hs_state h) addr = (g, s) ->
    hs_step h {| hs_state := s; hs_admissions := hs_admissions h; hs_leases := g :: hs_leases h;
                 hs_incoming := hs_incoming h; hs_since := hs_since h |}
| hs_release g l1 l2 s :
    hs_leases h = l1 ++ g :: l2 -> drop_lease (hs_state h) g = Ret s ->
    hs_step h {| hs_state := s; hs_admissions := hs_admissions h; hs_leases := l1 ++ l2;
                 hs_incoming := hs_incoming h; hs_since := hs_since h |}
| hs_reserve id remote s :
    reserve_incoming (hs_state h) id remote = (true, s) ->
    hs_step h {| hs_state := s; hs_admissions := hs_admissions h; hs_leases := hs_leases h;
                 hs_incoming := id :: hs_incoming h; hs_since := hs_since h |}
| hs_end id l1 l2 :
    hs_incoming h = l1 ++ id :: l2 ->
    hs_step h {| hs_state := drop_incoming (hs_state h) id; hs_admissions := hs_admissions h;
                 hs_leases := hs_leases h; hs_incoming := l1 ++ l2; hs_since := hs_since h |}
| hs_continue id request_id from message r s :
    try_continue_session (hs_state h) id request_id from message = (r, s) ->
    hs_step h {| hs_state := s; hs_admissions := hs_admissions h; hs_leases := hs_leases h;
                 hs_incoming := hs_incoming h; hs_since := hs_since h |}
| hs_recv id m s :
    recv_incoming (hs_state h) id = (m, s) ->
    hs_step h {| hs_state := s; hs_admissions := hs_admissions h; hs_leases := hs_leases h;
                 hs_incoming := hs_incoming h; hs_since := hs_since h |}
| hs_shutdown :
    hs_step h {| hs_state := shutdown (hs_state h); hs_admissions := hs_admissions h;
                 hs_leases := hs_leases h; hs_incoming := hs_incoming h;
                 hs_since := si_next_raw (hs_state h) |}.

(** The leases of a temporary session. *)
Definition leases_of (raw : nat) (l : list TemporarySessionGuard) : list TemporarySessionGuard :=
  filter (fun g => tg_raw g = raw) l.

#[local] Arguments leases_of : simpl never.

Definition admissions_ok (s : SessionInitializerState) (l : list IncomingAdmission) : Prop :=
  (forall remote token, si_admitted s !! remote = Some token <->
     {| ia_remote := remote; ia_token := token |} ∈ l) /\
  NoDup (ia_token <$> l) /\ Forall (fun a => ia_token a <= si_next_admission s) l /\
  Z.of_nat (size (si_admitted s)) <= MAX_INCOMING_HANDSHAKES.

Definition leases_ok (since : nat) (s : SessionInitializerState) (l : list TemporarySessionGuard)
  : Prop :=
  (forall addr e, si_tmp_sessions s !! addr = Some e ->
     (ts_raw e < si_next_raw s)%nat /\ 0 < ts_users e /\
     ts_users e = zlen (leases_of (ts_raw e) l) /\
     Forall (fun g => tg_remote g = addr) (leases_of (ts_raw e) l)) /\
  Forall (fun g => (tg_raw g < si_next_raw s)%nat) l /\
  Forall (fun g => (since <= tg_raw g)%nat ->
    exists e, si_tmp_sessions s !! tg_remote g = Some e /\ ts_raw e = tg_raw g) l.

Definition incoming_ok (s : SessionInitializerState) (l : list SessionId) : Prop :=
  (forall id, is_Some (si_incoming_sessions s !! id) -> id ∈ l) /\
  (forall id id' e e', si_incoming_sessions s !! id = Some e ->
     si_incoming_sessions s !! id' = Some e' -> in_remote e = in_remote e' -> id = id') /\
  Z.of_nat (size (si_incoming_sessions s)) <= MAX_INCOMING_HANDSHAKES.

Definition hs_inv (h : Handshakes) : Prop :=
  admissions_ok (hs_state h) (hs_admissions h) /\ leases_ok (hs_since h) (hs_state h) (hs_leases h) /\
  incoming_ok (hs_state h) (hs_incoming h).

Lemma admit_ok s l remote a s' :
  admissions_ok s l -> admit_incoming s remote = (Some a, s') ->
  admissions_ok s' (a :: l) /\ ia_remote a = remote.
Proof.
  intros (Hm & Hn & Hf & Hs). unfold admit_incoming.
  destruct (bool_decide _) eqn:Hd; cbn [orb]; [done|]. apply bool_decide_eq_false in Hd.
  destruct (Z.leb_spec MAX_INCOMING_HANDSHAKES (Z.of_nat (size (si_admitted s)))); [done|].
  destruct (2 ^ 64 <=? si_next_admission s + 1); [done|].
  intros [= <- <-]. split; [|done].
  apply eq_None_not_Some in Hd. rewrite Forall_forall in Hf. split_and!; cbn.
  - intros r t. rewrite elem_of_cons. destruct (decide (r = remote)) as [->|Hne].
    + rewrite lookup_insert_eq. split; [intros [= <-]; by left|].
      intros [[= ->]|Hin]; [done|]. apply Hm in Hin. congruence.
    + rewrite lookup_insert_ne by done. rewrite Hm.
      split; [by right|]. by intros [[= -> ->]|?].
  - constructor; [|done]. rewrite list_elem_of_fmap. intros (b & Hb & Hin).
    apply Hf in Hin. lia.
  - constructor; cbn; [lia|]. apply Forall_forall. intros b Hb%Hf. lia.
  - rewrite map_size_insert_None by done. lia.
Qed.

Lemma dismiss_ok s l1 a l2 :
  admissions_ok s (l1 ++ a :: l2) -> admissions_ok (drop_admission s a) (l1 ++ l2).
Proof.
  intros (Hm & Hn & Hf & Hs). unfold drop_admission.
  assert (si_admitted s !! ia_remote a = Some (ia_token a)) as Ha.
  { apply Hm. destruct a. set_solver. }
  rewrite bool_decide_eq_true_2 by done.
  assert (ia_token a ∉ ia_token <$> (l1 ++ l2)) as Hnot.
  { rewrite fmap_app, fmap_cons in Hn. apply NoDup_app in Hn as (_ & Hd & [Hh _]%NoDup_cons).
    rewrite fmap_app, elem_of_app. intros [H1|H2]; [|done]. apply (Hd _ H1). by left. }
  split_and!; cbn.
  - intros r t. destruct (decide (r = ia_remote a)) as [->|Hne].
    + rewrite lookup_delete_eq. split; [done|]. intros Hin.
      assert (ia_token a = t) as <-.
      { assert (si_admitted s !! ia_remote a = Some t); [apply Hm; set_solver|congruence]. }
      destruct Hnot. apply list_elem_of_fmap. eexists; split; [|exact Hin]. done.
    + rewrite lookup_delete_ne by done. rewrite Hm, !elem_of_app, elem_of_cons.
      split; [intros [?|[<-|?]]; [by left|done|by right]|tauto].
  - rewrite fmap_app, fmap_cons in Hn. rewrite fmap_app. apply NoDup_app in Hn as (Hn1 & Hd & [_ Hn2]%NoDup_cons).
    apply NoDup_app. split_and!; [done| |done]. intros x Hx Hx2. apply (Hd x Hx). by right.
  - apply Forall_app in Hf as [Hf1 [_ Hf2]%Forall_cons]. by apply Forall_app.
  - rewrite map_size_delete_Some by eauto. lia.
Qed.

Lemma leases_of_fresh raw l :
  Forall (fun g => (tg_raw g < raw)%nat) l -> leases_of raw l = [].
Proof.
  intros Hf. unfold leases_of. induction Hf as [|g l Hg _ IH]; [done|].
  rewrite filter_cons_False by lia. done.
Qed.

Lemma leases_of_middle raw l1 g l2 :
  leases_of raw (l1 ++ g :: l2)
  = leases_of raw l1 ++ (if decide (tg_raw g = raw) then [g] else []) ++ leases_of raw l2.
Proof. unfold leases_of. rewrite filter_app, filter_cons. by case_decide. Qed.

Lemma leases_of_app raw l1 l2 : leases_of raw (l1 ++ l2) = leases_of raw l1 ++ leases_of raw l2.
Proof. apply filter_app. Qed.

Lemma leases_of_cons raw g l :
  leases_of raw (g :: l) = (if decide (tg_raw g = raw) then [g] else []) ++ leases_of raw l.
Proof. exact (leases_of_middle raw [] g l). Qed.

Lemma lease_ok since s l addr g s' :
  (since <= si_next_raw s)%nat -> leases_ok since s l -> lease_temporary_session s addr = (g, s') ->
  leases_ok since s' (g :: l) /\ tg_remote g = addr /\ (since <= si_next_raw s')%nat.
Proof.
  intros Hsi (Hm & Hr & Hs). unfold lease_temporary_session.
  destruct (si_tmp_sessions s !! addr) as [e|] eqn:He; intros [= <- <-]; cbn.
  - destruct (Hm _ _ He) as (Hl & Hu & Heq & Hf). split; [|done]. split; cbn; [|split].
    + intros a e'. destruct (decide (a = addr)) as [->|Hne].
      * rewrite lookup_insert_eq. intros [= <-]. cbn. rewrite leases_of_cons. cbn.
        rewrite decide_True by done. split_and!; [done|lia| |].
        -- rewrite zlen_app. unfold zlen at 1. cbn. lia.
        -- by constructor.
      * rewrite lookup_insert_ne by done. intros He'. destruct (Hm _ _ He') as (Hl' & Hu' & Heq' & Hf').
        rewrite leases_of_cons. cbn. rewrite decide_False; [done|]. intros Hraw.
        destruct (leases_of (ts_raw e) l) as [|g0 l0] eqn:Hlo; [unfold zlen in Heq; cbn in Heq; lia|].
        rewrite Hraw in Hlo. rewrite Hlo in Hf'. apply Forall_cons in Hf as [<- _].
        by apply Forall_cons in Hf' as [<- _].
    + by constructor.
    + constructor; cbn; [intros _; rewrite lookup_insert_eq; eauto|].
      eapply Forall_impl; [exact Hs|]. intros g0 Hg0 Hle. destruct (Hg0 Hle) as (e0 & He0 & Hr0).
      destruct (decide (tg_remote g0 = addr)) as [Ha|Hne].
      * rewrite Ha in *. rewrite lookup_insert_eq. simplify_eq. eauto.
      * rewrite lookup_insert_ne by done. eauto.
  - split; [|split; [done|lia]]. split; cbn; [|split].
    + intros a e'. destruct (decide (a = addr)) as [->|Hne].
      * rewrite lookup_insert_eq. intros [= <-]. cbn. rewrite leases_of_cons. cbn.
        rewrite decide_True by done. rewrite leases_of_fresh by done.
        split_and!; [lia|lia|done|by constructor].
      * rewrite lookup_insert_ne by done. intros He'. destruct (Hm _ _ He') as (Hl' & Hu' & Heq' & Hf').
        rewrite leases_of_cons. cbn. rewrite decide_False by lia. split_and!; [lia|done..].
    + constructor; cbn; [lia|]. eapply Forall_impl; [exact Hr|]. cbn. lia.
    + constructor; cbn; [intros _; rewrite lookup_insert_eq; eauto|].
      eapply Forall_impl; [exact Hs|]. intros g0 Hg0 Hle. destruct (Hg0 Hle) as (e0 & He0 & Hr0).
      rewrite lookup_insert_ne by congruence. eauto.
Qed.

Lemma release_others since s l1 g l2 a e :
  leases_ok since s (l1 ++ g :: l2) -> si_tmp_sessions s !! a = Some e ->
  (ts_raw e = tg_raw g -> False) ->
  (ts_raw e < si_next_raw s)%nat /\ 0 < ts_users e /\
  ts_users e = zlen (leases_of (ts_raw e) (l1 ++ l2)) /\
  Forall (fun g => tg_remote g = a) (leases_of (ts_raw e) (l1 ++ l2)).
Proof.
  intros (Hm & _) He Hne. specialize (Hm a e He).
  rewrite leases_of_middle, decide_False in Hm by (intros Heq; by apply Hne).
  by rewrite leases_of_app.
Qed.

Lemma release_place since s l1 g l2 a e :
  leases_ok since s (l1 ++ g :: l2) -> si_tmp_sessions s !! a = Some e -> ts_raw e = tg_raw g ->
  a = tg_remote g /\ ts_users e = 1 + zlen (leases_of (ts_raw e) (l1 ++ l2)) /\
  Forall (fun g => tg_remote g = a) (leases_of (ts_raw e) (l1 ++ l2)).
Proof.
  intros (Hm & _) He Hraw. destruct (Hm a e He) as (_ & _ & Hu & Hf).
  rewrite leases_of_middle, decide_True in Hu, Hf by done. rewrite leases_of_app.
  apply Forall_app in Hf as [Hf1 [Hg Hf2]%Forall_cons]. rewrite !zlen_app in Hu. rewrite zlen_app.
  split_and!; [done| |by apply Forall_app]. unfold zlen at 2 in Hu. cbn in Hu. lia.
Qed.

Lemma leases_of_elem raw l g : g ∈ leases_of raw l <-> tg_raw g = raw /\ g ∈ l.
Proof. unfold leases_of. by rewrite list_elem_of_filter. Qed.

Lemma release_ok since s l1 g l2 :
  leases_ok since s (l1 ++ g :: l2) ->
  exists s', drop_lease s g = Ret s' /\ leases_ok since s' (l1 ++ l2) /\
    si_next_raw s' = si_next_raw s.
Proof.
  intros Hok. pose proof Hok as (Hm & Hr & Hs). unfold drop_lease.
  apply Forall_app in Hr as [Hr1 [Hrg Hr2]%Forall_cons]. apply Forall_app in Hs as [Hs1 [_ Hs2]%Forall_cons].
  assert (Forall (fun g => (tg_raw g < si_next_raw s)%nat) (l1 ++ l2)) as Hr by by apply Forall_app.
  pose proof (proj2 (Forall_app _ _ _) (conj Hs1 Hs2)) as Hs. clear Hr1 Hr2 Hs1 Hs2.
  destruct (si_tmp_sessions s !! tg_remote g) as [e|] eqn:He.
  2:{ exists s. split_and!; [done| |done]. split; [|done]. intros a e' He'.
      eapply release_others; [done..|]. intros Hraw.
      destruct (release_place _ _ _ _ _ _ _ Hok He' Hraw) as [-> _]. congruence. }
  destruct (Nat.eqb_spec (ts_raw e) (tg_raw g)) as [Hraw|Hraw].
  2:{ exists s. split_and!; [done| |done]. split; [|done]. intros a e' He'.
      eapply release_others; [done..|]. intros Hraw'.
      destruct (release_place _ _ _ _ _ _ _ Hok He' Hraw') as [-> _]. congruence. }
  destruct (release_place _ _ _ _ _ _ _ Hok He Hraw) as (_ & Hu & Hf).
  pose proof (zlen_nonneg (leases_of (ts_raw e) (l1 ++ l2))) as Hnn.
  rewrite (proj2 (Z.eqb_neq _ _)) by lia.
  destruct (Z.eqb_spec (ts_users e - 1) 0) as [Hz|Hz]; (eexists; split_and!; [done| |done]);
    (split; [|split; [done|]]); cbn.
  - intros a e' [Hne He']%lookup_delete_Some. eapply release_others; [done..|]. intros Hraw'.
    destruct (release_place _ _ _ _ _ _ _ Hok He' Hraw') as [-> _]. done.
  - apply Forall_forall. intros g0 Hin Hle. rewrite Forall_forall in Hs.
    destruct (Hs g0 Hin Hle) as (e0 & He0 & Hr0). exists e0. split; [|done].
    apply lookup_delete_Some. split; [|done]. intros Ha. rewrite <- Ha, He in He0. simplify_eq.
    assert (g0 ∈ leases_of (ts_raw e0) (l1 ++ l2)) as Hin0 by by apply leases_of_elem.
    destruct (leases_of (ts_raw e0) (l1 ++ l2)) as [|x xs]; [by apply elem_of_nil in Hin0|].
    rewrite zlen_cons in Hu. pose proof (zlen_nonneg xs). lia.
  - intros a e'. destruct (decide (a = tg_remote g)) as [->|Hne].
    + rewrite lookup_insert_eq. intros [= <-]. cbn. destruct (Hm _ _ He) as (Hlt & _).
      split_and!; [done|lia|lia|done].
    + rewrite lookup_insert_ne by done. intros He'. eapply release_others; [done..|]. intros Hraw'.
      destruct (release_place _ _ _ _ _ _ _ Hok He' Hraw') as [-> _]. done.
  - eapply Forall_impl; [exact Hs|]. intros g0 Hg0 Hle. destruct (Hg0 Hle) as (e0 & He0 & Hr0).
    destruct (decide (tg_remote g0 = tg_remote g)) as [Ha|Hne].
    + rewrite Ha in *. rewrite lookup_insert_eq. simplify_eq. eauto.
    + rewrite lookup_insert_ne by done. eauto.
Qed.

Lemma reserve_ok s l id remote s' :
  incoming_ok s l -> reserve_incoming s id remote = (true, s') -> incoming_ok s' (id :: l).
Proof.
  intros (Hl & Hu & Hs). unfold reserve_incoming.
  destruct (Z.leb_spec MAX_INCOMING_HANDSHAKES (Z.of_nat (size (si_incoming_sessions s))));
    cbn [orb]; [done|].
  destruct (existsb _ _) eqn:Hex; intros [= <-].
  assert (forall k e, si_incoming_sessions s !! k = Some e -> in_remote e <> remote) as Hfree.
  { intros k e He Heq. apply Bool.not_true_iff_false in Hex. apply Hex, existsb_exists.
    exists (k, e). split; [by apply list_elem_of_In, elem_of_map_to_list|]. by apply bool_decide_eq_true. }
  split_and!; cbn.
  - intros k Hk. destruct (decide (k = id)) as [->|Hne]; [by left|].
    rewrite lookup_insert_ne in Hk by done. right. by apply Hl.
  - intros k k' e e' He He' Hr.
    apply lookup_insert_Some in He as [[<- <-]|[Hne He]], He' as [[<- <-]|[Hne' He']]; cbn in Hr;
      [done| | |by eapply Hu].
    + by destruct (Hfree _ _ He').
    + by destruct (Hfree _ _ He).
  - destruct (si_incoming_sessions s !! id) eqn:Hid.
    + rewrite map_size_insert_Some by eauto. done.
    + rewrite map_size_insert_None by done. lia.
Qed.

Lemma end_ok s l1 id l2 : incoming_ok s (l1 ++ id :: l2) -> incoming_ok (drop_incoming s id) (l1 ++ l2).
Proof.
  intros (Hl & Hu & Hs). split_and!; cbn.
  - intros k [e [Hne He]%lookup_delete_Some]. specialize (Hl k (ex_intro _ e He)). set_solver.
  - intros k k' e e' [_ He]%lookup_delete_Some [_ He']%lookup_delete_Some. by eapply Hu.
  - unfold MAX_INCOMING_HANDSHAKES in *. rewrite map_size_delete.
    destruct (si_incoming_sessions s !! id); cbn; lia.
Qed.

(** A change of the queue of one handshake. *)
Lemma requeue_ok s l id e q h :
  incoming_ok s l -> si_incoming_sessions s !! id = Some e ->
  incoming_ok (with_incoming s (<[id := {| in_remote := in_remote e; in_queue := q |}]>
                                  (si_incoming_sessions s)) h) l.
Proof.
  intros (Hl & Hu & Hs) He. split_and!; cbn.
  - intros k [x [[<- _]|[_ Hx]]%lookup_insert_Some]; apply Hl; eauto.
  - intros k k' x x' Hx Hx' Hr.
    apply lookup_insert_Some in Hx as [[<- <-]|[Hne Hx]], Hx' as [[<- <-]|[Hne' Hx']]; cbn in Hr;
      [done|by eapply Hu..].
  - by rewrite map_size_insert_Some by eauto.
Qed.

Lemma hs_step_inv h h' :
  hs_inv h /\ (hs_since h <= si_next_raw (hs_state h))%nat -> hs_step h h' ->
  hs_inv h' /\ (hs_since h' <= si_next_raw (hs_state h'))%nat.
Proof.
  intros [(Ha & Hl & Hi) Hsi] Hstep. unfold hs_inv.
  destruct Hstep as [remote a s Hs|remote s Hs|a l1 l2 Hs|addr g s Hs|g l1 l2 s Hg Hs|id remote s Hs
    |id l1 l2 Hs|id request_id from message r s Hs|id m s Hs|]; cbn [hs_state hs_admissions hs_leases hs_incoming hs_since].
  - pose proof (admit_ok _ _ _ _ _ Ha Hs) as [Ha' _]. unfold admit_incoming in Hs.
    case_match_hyp Hs; [done|]. case_match_hyp Hs; [done|]. injection Hs as <- <-. done.
  - unfold admit_incoming in Hs. case_match_hyp Hs; [by injection Hs as <-|].
    case_match_hyp Hs; [by injection Hs as <-|done].
  - rewrite Hs in Ha. apply dismiss_ok in Ha.
    unfold drop_admission in *. by destruct (bool_decide _).
  - destruct (lease_ok _ _ _ _ _ _ Hsi Hl Hs) as (Hl' & _ & Hsi'). unfold lease_temporary_session in Hs.
    case_match_hyp Hs; injection Hs as <- <-; done.
  - rewrite Hg in Hl. destruct (release_ok _ _ _ _ _ Hl) as (s' & Hs' & Hl' & Hn).
    rewrite Hs in Hs'. injection Hs' as <-. rewrite Hn. unfold drop_lease in Hs.
    repeat (case_match_hyp Hs; try done); injection Hs as <-; done.
  - pose proof (reserve_ok _ _ _ _ _ Hi Hs) as Hi'. unfold reserve_incoming in Hs.
    case_match_hyp Hs; [done|]. injection Hs as <-. done.
  - rewrite Hs in Hi. apply end_ok in Hi. done.
  - unfold try_continue_session in Hs. destruct (_ !! id) as [e|] eqn:He; [|by injection Hs as <- <-].
    repeat (case_match_hyp Hs); injection Hs as <- <-; split_and!; try done. by apply requeue_ok.
  - unfold recv_incoming in Hs. destruct (_ !! id) as [e|] eqn:He; injection Hs as <- <-; [|done].
    split_and!; try done. by apply requeue_ok.
  - destruct Hl as (_ & Hr & _). split_and!; [exact Ha| |split_and!; cbn; [by intros ? []|done|done]|done].
    split_and!; cbn; [done|done|]. eapply Forall_impl; [exact Hr|]. cbn. lia.
Qed.

Lemma hs_reachable_inv h : rtc hs_step Handshakes_new h -> hs_inv h.
Proof.
  intros Hr. eapply (rtc_invariant hs_step (fun h => hs_inv h /\ (hs_since h <= si_next_raw (hs_state h))%nat));
    [exact hs_step_inv| |exact Hr]. split; [|done]. split_and!.
  - split_and!; cbn; [|constructor|done|done]. intros r t. by rewrite elem_of_nil.
  - by split_and!.
  - split_and!; cbn; [by intros ? []|done|done].
Qed.

Lemma admissions_counted s l :
  admissions_ok s l -> zlen l = Z.of_nat (size (si_admitted s)) /\ NoDup (ia_remote <$> l).
Proof.
  intros (Hm & Hn & _).
  assert (l ≡ₚ (fun kv => {| ia_remote := kv.1; ia_token := kv.2 |}) <$> map_to_list (si_admitted s)) as Hp.
  { apply NoDup_Permutation; [by eapply NoDup_fmap_1| |].
    - apply NoDup_fmap_2; [intros [] []; cbn; congruence|apply NoDup_map_to_list].
    - intros [r t]. rewrite <- Hm, list_elem_of_fmap. split.
      + intros Hr. exists (r, t). by rewrite elem_of_map_to_list.
      + intros ([r' t'] & [= -> ->] & Hin). by apply elem_of_map_to_list in Hin. }
  split.
  - unfold zlen. rewrite Hp, length_fmap, length_map_to_list. done.
  - rewrite Hp, <- list_fmap_compose. exact (NoDup_fst_map_to_list (si_admitted s)).
Qed.

(** C35: handshakes that others start hold bounded resources and leave nothing
    behind.  However tasks start, continue, cancel and end handshakes, and also
    across a shutdown: at most 256 are admitted, no two of the same address, and
    an address without one is refused only when all places, or the tokens, are
    used up.  At most 256 wait for a message, no two of the same address, and a
    message reaches a handshake only from its own address.  A temporary session
    counts its leases exactly; dropping a lease never panics, a lease that was
    taken since the last shutdown keeps its session, and without leases no
    temporary session is left. *)
Theorem handshake_resources_bounded h : rtc hs_step Handshakes_new h ->
  (zlen (hs_admissions h) <= MAX_INCOMING_HANDSHAKES /\ NoDup (ia_remote <$> hs_admissions h)) /\
  (forall remote, (admit_incoming (hs_state h) remote).1 = None <->
     remote ∈ ia_remote <$> hs_admissions h \/ zlen (hs_admissions h) = MAX_INCOMING_HANDSHAKES \/
     2 ^ 64 - 1 <= si_next_admission (hs_state h)) /\
  (Z.of_nat (size (si_incoming_sessions (hs_state h))) <= MAX_INCOMING_HANDSHAKES /\
   (forall id id' e e', si_incoming_sessions (hs_state h) !! id = Some e ->
      si_incoming_sessions (hs_state h) !! id' = Some e' -> in_remote e = in_remote e' -> id = id') /\
   (hs_incoming h = [] -> si_incoming_sessions (hs_state h) = ∅)) /\
  (forall id request_id from message s,
     try_continue_session (hs_state h) id request_id from message = (Ok tt, s) ->
     id ∈ hs_incoming h /\
     exists e, si_incoming_sessions (hs_state h) !! id = Some e /\ in_remote e = from) /\
  (forall addr e, si_tmp_sessions (hs_state h) !! addr = Some e ->
     0 < ts_users e /\ ts_users e = zlen (leases_of (ts_raw e) (hs_leases h))) /\
  (forall g, g ∈ hs_leases h ->
     (exists s, drop_lease (hs_state h) g = Ret s) /\
     ((hs_since h <= tg_raw g)%nat ->
      get_temporary_session (hs_state h) (tg_remote g) = Some (tg_raw g))) /\
  (hs_leases h = [] -> si_tmp_sessions (hs_state h) = ∅).
Proof.
  intros (Ha & Hl & Hi)%hs_reachable_inv. pose proof (admissions_counted _ _ Ha) as [Hc Hn].
  destruct Ha as (Hm & _ & _ & Hs), Hi as (Hil & Hiu & His), Hl as (Hlm & Hlr & Hls) eqn:Heq. clear Heq.
  split_and!; [lia|done| |done|done| | | | |].
  - intros remote. rewrite Hc. unfold admit_incoming.
    assert (is_Some (si_admitted (hs_state h) !! remote) <-> remote ∈ ia_remote <$> hs_admissions h) as Hiff.
    { rewrite list_elem_of_fmap. split.
      - intros [t Ht%Hm]. eexists; split; [|exact Ht]. done.
      - intros ([r t] & -> & Hin%Hm). eauto. }
    rewrite <- Hiff. destruct (bool_decide (is_Some _)) eqn:Hb; cbn [orb].
    { apply bool_decide_eq_true in Hb. cbn. tauto. }
    apply bool_decide_eq_false in Hb.
    destruct (Z.leb_spec MAX_INCOMING_HANDSHAKES (Z.of_nat (size (si_admitted (hs_state h)))));
      [cbn; split; [lia|done]|].
    destruct (Z.leb_spec (2 ^ 64) (si_next_admission (hs_state h) + 1)); cbn; split; try done; [lia|].
    intros [?|[?|?]]; [done|lia|lia].
  - intros Hnil. apply map_eq. intros id. rewrite lookup_empty. apply eq_None_not_Some. intros Hid%Hil.
    rewrite Hnil in Hid. by apply elem_of_nil in Hid.
  - intros id request_id from message s. unfold try_continue_session.
    destruct (_ !! id) as [e|] eqn:He; [|done]. case_bool_decide; [|done]. intros _. eauto.
  - intros addr e He. by destruct (Hlm _ _ He) as (_ & ? & ? & _).
  - intros g Hg. split.
    + apply list_elem_of_split in Hg as (l1 & l2 & Hg). rewrite Hg in Hlm, Hlr, Hls.
      destruct (release_ok (hs_since h) (hs_state h) l1 g l2) as (s & Hd & _); [done|]. eauto.
    + intros Hle. rewrite Forall_forall in Hls. destruct (Hls g Hg Hle) as (e & He & Hr).
      unfold get_temporary_session. rewrite He. cbn. by f_equal.
  - intros Hnil. apply map_eq. intros a. rewrite lookup_empty. apply eq_None_not_Some. intros [e He].
    destruct (Hlm _ _ He) as (_ & Hp & Hz & _). rewrite Hnil in Hz. unfold leases_of, zlen in Hz. cbn in Hz. lia.
Qed.

(** ** Example *)

(** A handshake is admitted, reserved and leased, and its second message arrives. *)
Definition peer_addr : SocketAddr := {| sa_ip := IpV4 1; sa_port := 1 |}.
Definition peer_message : request_Session :=
  {| rqs_challenge_req := None; rqs_challenge_resp := None; rqs_supported_encryptions := [];
     rqs_identities := []; rqs_client_version := EmptyString |}.
Definition admitted_state : SessionInitializerState :=
  (admit_incoming SessionInitializerState_default peer_addr).2.
Definition reserved_state : SessionInitializerState :=
  (reserve_incoming admitted_state [1] peer_addr).2.
Definition leased_state : SessionInitializerState :=
  (lease_temporary_session reserved_state peer_addr).2.
Definition peer_handshake : Handshakes :=
  {| hs_state := (try_continue_session leased_state [1] 7 peer_addr peer_message).2;
     hs_admissions := [{| ia_remote := peer_addr; ia_token := 1 |}];
     hs_leases := [{| tg_remote := peer_addr; tg_raw := 0 |}]; hs_incoming := [[1]]; hs_since := 0 |}.

Lemma peer_handshake_reachable : rtc hs_step Handshakes_new peer_handshake.
Proof.
  eapply rtc_l; [apply (hs_admit Handshakes_new peer_addr {| ia_remote := peer_addr; ia_token := 1 |}
    admitted_state); reflexivity|]. cbn [hs_admissions hs_leases hs_incoming hs_since Handshakes_new].
  eapply rtc_l; [apply (hs_reserve _ [1] peer_addr reserved_state); reflexivity|].
  cbn [hs_admissions hs_leases hs_incoming hs_since].
  eapply rtc_l; [apply (hs_lease _ peer_addr {| tg_remote := peer_addr; tg_raw := 0 |} leased_state);
    reflexivity|].
  cbn [hs_admissions hs_leases hs_incoming hs_since].
  eapply rtc_l; [eapply (hs_continue _ [1] 7 peer_addr peer_message (Ok tt)); reflexivity|].
  apply rtc_refl.
Qed.

Lemma handshake_resources_bounded_witness :
  (exists s, drop_lease (hs_state peer_handshake) {| tg_remote := peer_addr; tg_raw := 0 |} = Ret s) /\
  (admit_incoming (hs_state peer_handshake) peer_addr).1 = None.
Proof.
  destruct (handshake_resources_bounded peer_handshake peer_handshake_reachable)
    as (_ & Hadmit & _ & _ & _ & Hlease & _). split.
  - apply Hlease. by left.
  - apply Hadmit. left. by left.
Defined.
