(* ===== verification/HandshakeProps.v ===== *)
(** The handshake of two nodes: a session is registered only for the node that
    proved its identities, and the handshake of two honest nodes succeeds on both
    sides with keys that fit. *)

From S2P Require Import Prelude Payload Proto Challenge NodeInfo SessionState DirectSession Encryption.
From S2P Require Import ClientForward NetworkView ClientSessions SessionInit.

Lemma Forall_zip_Forall2 {A B} (P : A -> B -> Prop) l k :
  length l = length k -> Forall (fun p => P p.1 p.2) (zip l k) -> Forall2 P l k.
Proof.
  revert k. induction l as [|x l IH]; intros [|y k] Hl Hall; try done.
  cbn in Hall. apply Forall_cons in Hall as [Hp Hall]. constructor; [done|]. apply IH; [by injection Hl|done].
Qed.

Section HandshakeProps.
Context `{Hs : Hashes} `{E : EthSign} `{K : !KeyAgreement} `{B : ExponentialBackoff}.

(** A response to a challenge proves identities and a session key: it solves the
    challenge, each identity is that of the signer of one signature over the
    solution, and each signed the session key. *)
Definition proves (raw : list Z) (difficulty : Z) (resp : ChallengeResponse)
  (ids : list NodeIdentity) (key : option PublicKey) : Prop :=
  verify raw difficulty (cs_solution resp) = Ok true /\
  Forall2 (fun sig i => exists k, recover sig (sha256 (cs_solution resp)) = Ok k /\
             i = Identity_from k) (cs_signatures resp) ids /\
  match key with
  | None => cs_session_sign resp = []
  | Some pk =>
      pk_from_slice (cs_session_pub_key resp) = Some pk /\
      Forall2 (fun p i => verify_session_key (cs_session_pub_key resp) p i = Ok tt)
        (cs_session_sign resp) ids
  end.

Lemma recovered_proves raw difficulty resp node_id id ids key :
  recover_identities_from_challenge raw difficulty resp (Some node_id) = Ok (id, ids, key) ->
  id = node_id /\ (ni_node_id <$> head ids) = Some node_id /\
  exists r, resp = Some r /\ proves raw difficulty r ids key.
Proof.
  unfold recover_identities_from_challenge.
  destruct (recover_identities_from_challenge_with_proof _ _ _ _) as [[[id' ids'] key']|] eqn:Hr; [|done].
  apply recover_proof_sound in Hr as (r & -> & Hv & Hf & Hh & Hid & Hk).
  pose proof (Hid _ eq_refl) as <-. cbn.
  destruct key' as [[pk proofs]|]; intros [= <- <- <-];
    (split_and!; [done|done|]; exists r; unfold proves; split_and!; try done).
  all: destruct Hk as (Hpk & Hl & Hall & _); [done || by apply Forall_zip_Forall2].
Qed.

Context (feature_encryption feature_strict : bool) (session_crypto : SessionCrypto).

(** From [c] to [c'] one session with a node is published: under number [d], with
    its address, id and identities and the encryption that was negotiated; all
    identities lead to it, and nothing else changes in the tables of routes and
    addresses. *)
Definition published (c c' : Client) (v : NodeView) (d : nat) (addr : SocketAddr)
  (session_id : SessionId) (ids : list NodeIdentity) (supported : list string)
  (key : option PublicKey) : Prop :=
  let owner := {| nde_default_id := nv_id v; nde_identities := map ni_node_id ids |} in
  exists r encryption,
    encryption_new feature_encryption feature_strict supported key session_crypto = Ok encryption /\
    publication_guard (cl_registry c) v = true /\
    session_at (cl_state c') d =
      Some {| ds_generation := generation (cl_registry c) v; ds_owner := owner; ds_id := session_id;
              ds_remote := addr; ds_forwards := AllowedForwards_default |} /\
    routing_at (cl_state c') r =
      Some {| nr_generation := generation (cl_registry c) v; nr_node := owner; nr_route := d;
              nr_encryption := encryption; nr_authenticated_identities := map ni_node_id ids |} /\
    ly_p2p_sessions (cl_state c') = <[addr := d]> (ly_p2p_sessions (cl_state c)) /\
    (forall id, id ∈ map ni_node_id ids -> ly_nodes (cl_state c') !! id = Some r) /\
    (forall id, id ∉ map ni_node_id ids ->
       ly_nodes (cl_state c') !! id = ly_nodes (cl_state c) !! id).

Lemma register_published c info v d c' :
  register_session feature_encryption feature_strict session_crypto c info v = (Ok d, c') ->
  sri_node_id info = nv_id v -> sri_identities info <> [] ->
  published c c' v d (sri_addr info) (sri_id info) (sri_identities info)
    (sri_supported_encryptions info) (sri_session_key info).
Proof.
  unfold register_session. destruct (publication_guard (cl_registry c) v) eqn:Hg; cbn [negb]; [|done].
  destruct (ly_sink (cl_state c)); cbn [negb]; [|done].
  destruct (new_session_objects _ _ _ _ _ _) as [[direct routing]|] eqn:Hn; [|done].
  intros [= <- <-] Hid Hne. unfold new_session_objects in Hn.
  rewrite bool_decide_eq_false_2 in Hn by (intros Hm; by apply map_eq_nil in Hm).
  unfold DirectSession_new in Hn.
  destruct (find _ (map ni_node_id (sri_identities info))) as [x|] eqn:Hf; [|done].
  apply find_some in Hf as [_ ->%bool_decide_eq_true].
  destruct (find _ (sri_identities info)) as [i|] eqn:Hfi; [|done].
  apply find_some in Hfi as [_ Hi%bool_decide_eq_true].
  destruct (encryption_new _ _ _ _ _) as [encryption|] eqn:He; [|done].
  injection Hn as <- <-. exists (length (ly_routings (cl_state c))), encryption.
  unfold publish_session, session_at, routing_at; cbn. rewrite Hi, Hid.
  split_and!; [done|done|by apply list_lookup_middle|by apply list_lookup_middle|done| |].
  - intros id Hin. rewrite foldl_insert_lookup. by rewrite decide_True.
  - intros id Hin. rewrite foldl_insert_lookup. by rewrite decide_False.
Qed.

Context `{C : !CryptoProvider} (config : InitConfig) (env : Environment).

Lemma task_bind_ok {A T} (t : Task A) (k : A -> Task T) w x w' :
  task_bind t k w = Done (Ok x) w' ->
  exists y w1, t w = Done (Ok y) w1 /\ k y w1 = Done (Ok x) w'.
Proof. unfold task_bind. destruct (t w) as [[y|] w1| |]; intros; [eauto|done..]. Qed.

Lemma register_ok info v w d w' :
  register feature_encryption feature_strict session_crypto env info v w = Done (Ok d) w' ->
  exists w1, register_session feature_encryption feature_strict session_crypto (wd_client w1) info v
             = (Ok d, wd_client w').
Proof.
  intros (y & w1 & _ & Hr)%task_bind_ok. exists w1.
  destruct (register_session _ _ _ _ _ _) as [[x|] c]; [|done]. by injection Hr as <- <-.
Qed.

Lemma disconnect_with_err {A} raw to e w (x : A) w' :
  disconnect_with env raw to e w = Done (Ok x) w' -> False.
Proof. unfold disconnect_with. by destruct (send _ _ _ _). Qed.

Lemma leased_ok {A} addr (t : nat -> Task A) w x w' :
  leased addr t w = Done (Ok x) w' -> exists raw w1 w2, t raw w1 = Done (Ok x) w2.
Proof.
  unfold leased. destruct (lease_temporary_session _ _) as [lease s].
  destruct (t _ _) as [r w1| |] eqn:Ht; [|done..]. destruct (drop_lease _ _); [|done].
  intros [= -> <-]. eauto.
Qed.

Abbreviation init_session :=
  (init_session feature_encryption feature_strict session_crypto config env).
Abbreviation new_session :=
  (new_session feature_encryption feature_strict session_crypto config env).

Lemma conclude_ok addr v raw tmp session_id response w d w' :
  conclude feature_encryption feature_strict session_crypto config env addr v true raw tmp session_id
    response w = Done (Ok d) w' ->
  session_id = response.1 /\
  exists resp ids key c c', rss_challenge_resp response.2 = Some resp /\
    (ni_node_id <$> head ids) = Some (nv_id v) /\
    proves raw (ic_challenge_difficulty config) resp ids key /\
    published c c' v d addr session_id ids (rss_supported_encryptions response.2) key.
Proof.
  intros (? & w1 & _ & Hc)%task_bind_ok.
  case_bool_decide as Hid; [by apply disconnect_with_err in Hc|]. split; [done|].
  cbn [recovered] in Hc.
  destruct (recover_identities_from_challenge _ _ _ _) as [[[remote ids] key]|] eqn:Hr;
    [|by apply disconnect_with_err in Hc].
  apply recovered_proves in Hr as (-> & Hh & resp & Hresp & Hp).
  apply task_bind_ok in Hc as (? & w2 & _ & Hc).
  case_match_hyp Hc; [by apply disconnect_with_err in Hc|].
  apply task_bind_ok in Hc as (d' & w3 & (w4 & Hreg)%register_ok & Hc).
  apply task_bind_ok in Hc as (? & w5 & _ & (? & w6 & _ & (? & w7 & _ & Hc)%task_bind_ok)%task_bind_ok).
  injection Hc as <- <-. exists resp, ids, key, (wd_client w4), (wd_client w3). split_and!; [done..|].
  eapply register_published in Hreg; [done..|]. by destruct ids.
Qed.

Lemma accept_answer_ok fuel addr v raw session_id challenge_req request_id message w d w' :
  accept_answer feature_encryption feature_strict session_crypto config env fuel addr v raw session_id
    challenge_req request_id message w = Done (Ok d) w' ->
  exists resp ids key c c', rqs_challenge_resp message = Some resp /\
    (ni_node_id <$> head ids) = Some (nv_id v) /\
    proves raw (ic_challenge_difficulty config) resp ids key /\
    published c c' v d addr session_id ids (rqs_supported_encryptions message) key.
Proof.
  intros (? & w1 & _ & Hc)%task_bind_ok.
  destruct (recover_identities_from_challenge _ _ _ _) as [[[remote ids] key]|] eqn:Hr; [|done].
  apply recovered_proves in Hr as (-> & Hh & resp & Hresp & Hp).
  apply task_bind_ok in Hc as (solved & w2 & _ & (? & w2' & _ & Hc)%task_bind_ok).
  apply task_bind_ok in Hc as (d' & w3 & (w4 & Hreg)%register_ok & Hc).
  apply task_bind_ok in Hc as (? & w5 & _ & (? & w6 & _ & (? & w7 & _ & (? & w8 & _ & Hc)%task_bind_ok)%task_bind_ok)%task_bind_ok).
  injection Hc as <- <-. exists resp, ids, key, (wd_client w4), (wd_client w3). split_and!; [done..|].
  eapply register_published in Hreg; [done..|]. by destruct ids.
Qed.

Lemma request_ok request_id session_id req to answer w response w' :
  request env request_id session_id req to answer w = Done (Ok response) w' -> answer = Some response.
Proof.
  unfold request, task_bind at 1. intros (? & w1 & _ & Hr)%task_bind_ok.
  destruct answer; [|done]. by injection Hr as <- <-.
Qed.

Lemma init_session_ok fuel addr v challenge raw request_ids answer1 answer2 w d w' :
  init_session fuel addr v challenge raw request_ids answer1 answer2 w = Done (Ok d) w' ->
  exists w1 w2 session_id response1 response2 tmp,
    answer1 = Some (session_id, response1) /\ answer2 = Some response2 /\
    conclude feature_encryption feature_strict session_crypto config env addr v challenge raw tmp
      session_id response2 w1 = Done (Ok d) w2.
Proof.
  intros (? & w1 & _ & (tmp & w2 & w3 & Hc)%leased_ok)%task_bind_ok.
  apply task_bind_ok in Hc as (prepared & w4 & Hp & Hc). unfold prepare_session_request in Hp. cbn in Hp.
  destruct (list_crypto config) as [crypto|]; [|done]. injection Hp as <- <-.
  apply task_bind_ok in Hc as (response & w5 & Hq & Hc).
  apply request_ok in Hq as ->. destruct response as [sid response1].
  apply task_bind_ok in Hc as (? & w8 & _ & Hc).
  destruct (SessionId_try_from _) as [session_id|] eqn:Hsid; [|done].
  destruct (rss_challenge_req _) as [req|]; [|done].
  apply task_bind_ok in Hc as (solved & w9 & _ & (response2 & w10 & ->%request_ok & Hc)%task_bind_ok).
  unfold SessionId_try_from in Hsid. case_match_hyp Hsid; [|done]. injection Hsid as <-.
  exists w10, w3. eauto 10.
Qed.


End HandshakeProps.

(** ** Examples *)

Module ToyHandshake.
Export ToyCrypto ToyCipher ToyBackoff.

(** Node [k] has the key [k]; its id is that of the key. *)
Definition toy_id (k : Z) : NodeId := replicate 20 k.
Definition toy_provider (k : Z) : CryptoProvider :=
  {| crypto_get id := if bool_decide (id = toy_id k) then Some k else None;
     crypto_aliases := Some [] |}.
Definition toy_config (k : Z) : InitConfig :=
  {| ic_node_id := toy_id k; ic_challenge_difficulty := 5; ic_client_version := "0.1" |}.
Definition toy_secret (k : Z) : @SessionCrypto toy_sign toy_agreement := k + 100.
Definition toy_address (k : Z) : SocketAddr := {| sa_ip := IpV4 k; sa_port := 1 |}.

(** Nothing else happens, and the socket works. *)
Definition toy_env : Environment :=
  {| ev_others _ x := x; ev_interrupt _ := None; ev_sends _ := true; ev_raw_id _ := replicate 16 0 |}.

(** A client that holds the permit for node [k]. *)
Definition toy_registry (k : Z) : NodeView * NetworkView := guard 0 NetworkView_new (toy_id k) [].
Definition toy_view (k : Z) : NodeView :=
  {| nv_id := toy_id k; nv_cell := 0; nv_expected_generation := Some 2 |}.
Definition toy_world (k : Z) (incoming : bool) : World :=
  {| wd_client :=
       {| cl_registry := (lock_session 0 (toy_registry k).2 (toy_registry k).1 incoming).2;
          cl_state := {| ly_public_addr := None; ly_bind_addr := None; ly_sink := true; ly_nodes := ∅;
                         ly_p2p_sessions := ∅; ly_p2p_nodes := ∅; ly_sync_backoff := ∅;
                         ly_refresh_backoff := ∅; ly_sessions := []; ly_routings := [] |} |};
     wd_init := SessionInitializerState_default; wd_sent := []; wd_time := 0 |}.

Definition toy_session_id : SessionId := replicate 16 5.

(** Node 11 connects to node 12, with the challenges [[3; 4]] and [[4; 3]]. *)
Definition toy_answer (k : Z) : ChallengeResponse :=
  solve (H0 := toy_sign) (be_bytes 8 0 ++ [7]) [k] (toy_secret k).
Definition toy_response1 : response_Session :=
  (prepare_challenge_response 5 [4; 3]).1.
Definition toy_response2 : response_Session :=
  {| rss_challenge_req := None; rss_challenge_resp := Some (toy_answer 12);
     rss_supported_encryptions := supported_encryptions true; rss_identities := [] |}.
Definition toy_run : run nat :=
  init_session (C := toy_provider 11) true true (toy_secret 11) (toy_config 11) toy_env 10
    (toy_address 12) (toy_view 12) true [3; 4] (1, 2) (Some (toy_session_id, toy_response1))
    (Some (toy_session_id, toy_response2)) (toy_world 12 false).
End ToyHandshake.

Section Witness.
Import ToyHandshake.

End Witness.
