(* ===== verification/ConnectSession.v ===== *)
(** [client/src/session.rs]: the ways in which the client connects to another node,
    and the order in which it tries them.

    As in a handshake, what other tasks do at every point where the task waits, the
    answers from the network and the time are arguments.  The session with the
    relay server is obtained by a task that is an argument of those that need it;
    [server_session] is that task. *)

From S2P Require Import Prelude Payload Proto Challenge NodeInfo SessionState DirectSession Encryption.
From S2P Require Import ClientForward NetworkView ClientSessions SessionInit.

Inductive ConnectionMethod : Type := MethodDirect | MethodReverse | MethodRelay.

#[export] Instance ConnectionMethod_eq_dec : EqDecision ConnectionMethod.
Proof. solve_decision. Defined.

Notation "'do!' x := t 'in' k" := (task_bind t (fun x => k))
  (at level 10, x name, t at level 100, k at level 200).

Section ConnectSession.
Context `{Hs : Hashes} `{K : KeyAgreement} `{B : ExponentialBackoff} `{C : !CryptoProvider} `{T : IpText}.
Context (feature_encryption feature_strict : bool) (session_crypto : SessionCrypto).
Context (config : InitConfig) (env : Environment).
(** The capacity of the notifier, whether a session still exists, the time and the
    address of the relay server. *)
Context (capacity : nat) (upgrade : nat -> bool) (now node_info_ttl : Z) (srv_addr : SocketAddr).
Context (fuel : nat).

(** What the network brings to one handshake: the random challenge, the ids of the
    requests and the answers. *)
Record Answers : Type := {
  an_raw : list Z;
  an_request_ids : Z * Z;
  an_answer1 : option (list Z * response_Session);
  an_answer2 : option (list Z * response_Session) }.

(** Goes on after an error. *)
Definition attempt {A} (t : Task A) : Task (result A SessionError) := fun w =>
  match t w with
  | Done r w => Done (Ok r) w
  | Panicked => Panicked
  | Unfinished => Unfinished
  end.

Definition task_map_err {A} (f : SessionError -> SessionError) (t : Task A) : Task A := fun w =>
  match t w with
  | Done (Err e) w => Done (Err (f e)) w
  | r => r
  end.

(** [permit.registry.transition(state).await?]. *)
Definition step_transition (v : NodeView) (state : ConnState) : Task unit :=
  do! _ := await_others env in fun w =>
  match NodeView_transition (cl_registry (wd_client w)) v state with
  | (Ok _, reg) => Done (Ok tt) (with_client w {| cl_registry := reg; cl_state := cl_state (wd_client w) |})
  | (Err _, _) => Done (Err (SeInternal "Transition")) w
  end.

(** ** Direct connections *)

(** The loop of [try_direct_session] over the addresses of the node. *)
Fixpoint try_addresses (v : NodeView) (answers : SocketAddr -> Answers) (addrs : list SocketAddr)
  : Task nat :=
  match addrs with
  | [] => task_err (SeGeneric "All attempts to establish direct session failed")
  | addr :: addrs =>
      let a := answers addr in
      do! r := attempt (init_p2p_session feature_encryption feature_strict session_crypto config env fuel
                          addr v (an_raw a) (an_request_ids a) (an_answer1 a) (an_answer2 a)) in
      match r with
      | Ok session => task_ret session
      | Err _ =>
          do! _ := step_transition v RestartConnect in
          try_addresses v answers addrs
      end
  end.

Definition try_direct_session (v : NodeView) (answers : SocketAddr -> Answers) : Task nat :=
  do! _ := await_others env in fun w =>
  match public_addresses (cl_registry (wd_client w)) v with
  | [] => task_err (SeNotApplicable "Node has no public endpoints.") w
  | addrs => try_addresses v answers addrs w
  end.

(** ** Reverse connections *)

(** A wait with a deadline: what has not come when the others have run is late. *)
Definition wait_for {R} (check : ConnState -> option (result R SessionError)) (a : NodeAwaiting)
  : Task (R * NodeAwaiting) :=
  do! _ := await_others env in fun w =>
  match await check capacity (cl_registry (wd_client w)) a with
  | (Some (Ok x), _, a) => Done (Ok (x, a)) w
  | (Some (Err e), _, _) => Done (Err e) w
  | (None, _, _) => Done (Err (SeTimeout "ReverseConnection")) w
  end.

(** [raw.reverse_connection(node_id)], given whether the server agrees. *)
Definition request_reverse (d : nat) (node_id : NodeId) (request_id : Z) (accepted : bool) : Task unit :=
  fun w =>
  match session_at (cl_state (wd_client w)) d with
  | None => Done (Err (SeNetwork "Request failed")) w
  | Some session =>
      (do! _ := (fun w => Done (Ok tt)
           (with_sent w {| pkt_session_id := ds_id session;
                           pkt_kind := Some (PkRequest {| rq_request_id := request_id;
                                                          rq_kind := Some (RqReverseConnection node_id) |}) |}
              (ds_remote session))) in
       do! _ := await_others env in
       if accepted then task_ret tt else task_err (SeNetwork "Request failed")) w
  end.

Definition try_reverse_connection (server : Task nat) (v : NodeView) (node_id : NodeId) (request_id : Z)
  (accepted : bool) : Task nat :=
  do! public := (do! _ := await_others env in fun w =>
                 Done (Ok (ly_public_addr (cl_state (wd_client w)))) w) in
  match public with
  | None => task_err (SeNotApplicable "We don't have public endpoints.")
  | Some _ =>
      do! awaiting := (fun w => Done (Ok (awaiting_notifier (cl_registry (wd_client w)) v)) w) in
      do! _ := step_transition v (ReverseConnection Awaiting) in
      do! d := server in
      do! _ := request_reverse d node_id request_id accepted in
      do! r := wait_for check_handshake awaiting in
      do! r := wait_for check_reverse_finish r.2 in
      task_ret r.1
  end.

(** ** Relayed connections *)

(** [NodeView::identities], and the addition of the node to the forwards of the
    session with the server. *)
Definition relayed_node (v : NodeView) (server : nat) : Task (NodeInfo * NodeEntry) := fun w =>
  let reg := cl_registry (wd_client w) in
  let info := just_get (NodeView_info node_info_ttl now reg v) in
  match vs_node (nc_state (cell reg v)) with
  | [] => Done (Err (SeInternal "Identities list is empty")) w
  | default_id :: _ as ids =>
      let entry := {| nde_default_id := ni_node_id default_id; nde_identities := map ni_node_id ids |} in
      Done (Ok (info, entry))
        (with_client w {| cl_registry := reg;
                          cl_state := update_forwards (cl_state (wd_client w)) server
                                        (fun f => AllowedForwards_add f entry (nf_slot info)) |})
  end.

Definition try_relayed_connection (server_session : Task nat) (v : NodeView) : Task nat :=
  do! _ := step_transition v (Relayed RelayedInitializing) in
  do! server := task_map_err (fun _ => SeRelay "Relay") server_session in
  do! _ := await_others env in
  do! node := relayed_node v server in
  do! encryption :=
    task_result (match encryption_new feature_encryption feature_strict
                         (nf_supported_encryption node.1) (nf_session_key node.1) session_crypto with
                 | Ok e => Ok e
                 | Err _ => Err (SeNotApplicable "Encryption")
                 end) in
  do! _ := (do! _ := await_others env in fun w =>
            let reg := cl_registry (wd_client w) in
            match register_routing upgrade (wd_client w)
                    {| nr_generation := generation reg v; nr_node := node.2; nr_route := server;
                       nr_encryption := encryption;
                       nr_authenticated_identities := nf_authenticated node.1 |} with
            | (Ok _, c) => Done (Ok tt) (with_client w c)
            | (Err _, c) => Done (Err (SeUnexpected "Routing")) (with_client w c)
            end) in
  do! _ := step_transition v (Relayed RelayedReady) in
  task_ret server.

(** ** [resolve] *)

(** A method that is not excluded is tried; when it fails the connection is
    restarted. *)
Definition try_method (dont_use : list ConnectionMethod) (method : ConnectionMethod) (v : NodeView)
  (t : Task nat) (otherwise : Task nat) : Task nat :=
  if bool_decide (method ∈ dont_use) then otherwise
  else
    do! r := attempt t in
    match r with
    | Ok session => task_ret session
    | Err _ =>
        do! _ := step_transition v RestartConnect in
        otherwise
    end.

Definition resolve (server : Task nat) (v : NodeView) (node_id : NodeId)
  (answers : SocketAddr -> Answers) (request_id : Z) (accepted : bool) (dont_use : list ConnectionMethod)
  : Task nat :=
  let failed := task_err (SeGeneric "All attempts to establish session failed") in
  try_method dont_use MethodDirect v (try_direct_session v answers)
    (try_method dont_use MethodReverse v
       (try_reverse_connection server v node_id request_id accepted)
       (if bool_decide (MethodRelay ∈ dont_use) then failed
        else
          do! r := attempt (try_relayed_connection server v) in
          match r with
          | Ok session => task_ret session
          | Err _ => failed
          end)).

(** ** The session with the relay server *)

(** [try_server_session], given the endpoints the server registered. *)
Definition try_server_session (v : NodeView) (a : Answers) (endpoints : option (list Endpoint)) : Task nat :=
  do! session := init_server_session feature_encryption feature_strict session_crypto config env fuel
                   srv_addr v (an_raw a) (an_request_ids a) (an_answer1 a) (an_answer2 a) in
  do! _ := await_others env in
  match endpoints with
  | None => task_err (SeNetwork "Request failed")
  | Some endpoints => fun w =>
      let s := cl_state (wd_client w) in
      Done (Ok session)
        (with_client w
           {| cl_registry := cl_registry (wd_client w);
              cl_state :=
                match head (omap SocketAddr_try_from endpoints) with
                | Some addr =>
                    {| ly_public_addr := Some addr; ly_bind_addr := ly_bind_addr s; ly_sink := ly_sink s;
                       ly_nodes := ly_nodes s; ly_p2p_sessions := ly_p2p_sessions s;
                       ly_p2p_nodes := ly_p2p_nodes s; ly_sync_backoff := ly_sync_backoff s;
                       ly_refresh_backoff := ly_refresh_backoff s; ly_sessions := ly_sessions s;
                       ly_routings := ly_routings s |}
                | None => s
                end |})
  end.

(** The session at the address of the server, unless the registry does not know it
    any more, in which case it is closed. *)
Definition cached_server_session : Task (option nat) := fun w =>
  let c := wd_client w in
  match ly_p2p_sessions (cl_state c) !! srv_addr with
  | None => Done (Ok None) w
  | Some d =>
      let stale :=
        match get_entry (cl_registry c) NodeId_default with
        | None => true
        | Some entry =>
            match NodeView_state (cl_registry c) entry with
            | Closed | FailedEstablish _ => true
            | _ => false
            end
        end in
      if stale then Done (Ok None) (with_client w (close_session c d))
      else Done (Ok (Some d)) w
  end.

(** [lock_outgoing] and [lock_incoming] of the registry. *)
Definition lock_node (incoming : bool) (node_id : NodeId) (addrs : list SocketAddr) : Task SessionLock :=
  do! _ := await_others env in fun w =>
  let c := wd_client w in
  let '(v, reg) := guard now (cl_registry c) node_id addrs in
  let '(lock, reg) := lock_session (subscribe reg v) reg v incoming in
  Done (Ok lock) (with_client w {| cl_registry := reg; cl_state := cl_state c |}).

(** [run_abortable] and [collect_results].  The permit is dropped afterwards, by a
    task of its own that starts in [DropStart (final_state p)]. *)
Definition run_abortable (p : SessionPermit) (abort : AbortHandle) (t : Task nat) : Task nat :=
  do! _ := (do! _ := await_others env in fun w =>
            let c := wd_client w in
            Done (Ok tt) (with_client w {| cl_registry := register_abortable (cl_registry c)
                                                            (sp_registry p) abort;
                                           cl_state := cl_state c |})) in
  t.

Definition server_session (abort : AbortHandle) (a : Answers) (endpoints : option (list Endpoint)) : Task nat :=
  do! cached := cached_server_session in
  match cached with
  | Some d => task_ret d
  | None =>
      do! lock := lock_node false NodeId_default [srv_addr] in
      match lock with
      | Permit p =>
          task_map_err (fun _ => SeGeneric "Session")
            (run_abortable p abort (try_server_session (sp_registry p) a endpoints))
      | Wait a =>
          do! _ := await_others env in fun w =>
          match await_for_finish upgrade capacity (cl_registry (wd_client w)) a with
          | (Some (Ok d), _, _) => Done (Ok d) w
          | (Some (Err _), _, _) => Done (Err (SeGeneric "Session")) w
          | (None, _, _) => Unfinished
          end
      end
  end.
End ConnectSession.
