(* ===== verification/ConnectProps.v ===== *)
(** The attempts to connect to a node follow its state machine: whatever answers
    come and whenever an attempt is cut off, the permit is dropped in a state from
    which the node gets established, or its failure is announced. *)

From S2P Require Import Prelude Payload Proto Challenge NodeInfo SessionState DirectSession Encryption.
From S2P Require Import ClientForward NetworkView NetworkViewProps ClientSessions SessionInit ConnectSession.

(** States through which a reverse connection passes, from one to another. *)
Inductive reverse_path : ConnState -> list ConnState -> ConnState -> Prop :=
| rp_nil st : reverse_path st [] st
| rp_cons st s ss st' :
    is_reverse st = true -> is_reverse s = true -> allowed st s = true -> reverse_path s ss st' ->
    reverse_path st (s :: ss) st'.

Lemma reverse_path_app a ss b ss' c :
  reverse_path a ss b -> reverse_path b ss' c -> reverse_path a (ss ++ ss') c.
Proof. induction 1; [done|]. intros Hc. cbn. constructor; auto. Qed.

Lemma reverse_path_other st ss st' : reverse_path st ss st' -> is_reverse st = false -> ss = [] /\ st' = st.
Proof. by destruct 1 as [|st s ss st' ->]. Qed.

Lemma reverse_path_reverse st ss st' : reverse_path st ss st' -> is_reverse st = is_reverse st'.
Proof. induction 1 as [|st s ss st' Hst Hs Ha Hp IH]; congruence. Qed.

(** A reverse connection that finished passes through no other state. *)
Lemma reverse_path_finished r ss st :
  reverse_path (ReverseConnection (Finished r)) ss st -> st = ReverseConnection (Finished r).
Proof.
  inversion 1 as [|? s ss' ? _ Hs Ha]; [done|]. subst. destruct s as [| |rs| | | | | |]; try done.
  destruct r, rs as [|i|[]]; done.
Qed.

Lemma reverse_path_through st ss st' r :
  reverse_path st ss st' -> ReverseConnection (Finished r) ∈ ss -> st' = ReverseConnection (Finished r).
Proof.
  induction 1 as [|st s ss st' Hst Hs Ha Hp IH]; [by intros ?%elem_of_nil|].
  intros [<-|Hin]%elem_of_cons; [by eapply reverse_path_finished|auto].
Qed.

Section ConnectProps.
Context `{HH : Hashes} `{K : KeyAgreement} `{B : ExponentialBackoff} `{C : !CryptoProvider} `{T : IpText}.
Context (feature_encryption feature_strict : bool) (session_crypto : SessionCrypto).
Context (config : InitConfig) (env : Environment).
Context (capacity : nat) (upgrade : nat -> bool) (now node_info_ttl : Z) (srv_addr : SocketAddr).
Context (fuel : nat) (v : NodeView).

Abbreviation state_of c := (vs_state (nc_state (cell (cl_registry c) v))).
Abbreviation log_of c := (nc_notified (cell (cl_registry c) v)).

(** The node is left alone, but for a reverse connection that goes on, with every
    state announced. *)
Definition left_alone (c c' : Client) : Prop :=
  is_current (cl_registry c) v = true ->
  is_current (cl_registry c') v = true /\
  exists ss, log_of c' = log_of c ++ ss /\ reverse_path (state_of c) ss (state_of c').

Definition calm : Prop :=
  forall n c s c' s', ev_others env n (c, s) = (c', s') -> left_alone c c'.
Definition calm_task {A} (t : Task A) : Prop :=
  forall w r w', t w = Done r w' -> left_alone (wd_client w) (wd_client w').

(** The node is current, in a state with a property. *)
Definition in_state (P : ConnState -> Prop) (w : World) : Prop :=
  is_current (cl_registry (wd_client w)) v = true /\ P (state_of (wd_client w)).

(** From [P], [t] ends well in [Q], and with an error in [R]. *)
Definition ends {A} (t : Task A) (P : World -> Prop) (Q : A -> World -> Prop) (R : World -> Prop) : Prop :=
  forall w, P w -> match t w with
                   | Done (Ok x) w' => Q x w'
                   | Done (Err _) w' => R w'
                   | _ => True
                   end.

Lemma ends_bind {A U} (t : Task A) (k : A -> Task U) P Q Q' R :
  ends t P Q R -> (forall x, ends (k x) (Q x) Q' R) -> ends (task_bind t k) P Q' R.
Proof.
  intros Ht Hk w Hw. specialize (Ht w Hw). unfold task_bind. destruct (t w) as [[x|] w1| |]; try done.
  by apply Hk.
Qed.

Lemma ends_ret {A} (x : A) (P : World -> Prop) R : ends (task_ret x) P (fun _ => P) R.
Proof. by intros w Hw. Qed.

Lemma ends_err {A} e (P : World -> Prop) (Q : A -> World -> Prop) : ends (task_err e) P Q P.
Proof. by intros w Hw. Qed.

Lemma ends_weaken {A} (t : Task A) (P P' : World -> Prop) (Q Q' : A -> World -> Prop) (R R' : World -> Prop) :
  ends t P Q R -> (forall w, P' w -> P w) -> (forall x w, Q x w -> Q' x w) -> (forall w, R w -> R' w) ->
  ends t P' Q' R'.
Proof.
  intros Ht HP HQ HR w Hw. specialize (Ht w (HP w Hw)). destruct (t w) as [[x|] w1| |]; auto.
Qed.

Lemma ends_attempt {A} (t : Task A) P Q R R' :
  ends t P Q R ->
  ends (attempt t) P (fun r w => match r with Ok x => Q x w | Err _ => R w end) R'.
Proof.
  intros Ht w Hw. specialize (Ht w Hw). unfold attempt. by destruct (t w) as [[x|] w1| |].
Qed.

Context (Hcalm : calm).

(** Properties of states that hold on while a reverse connection goes on. *)
Definition steady (P : ConnState -> Prop) : Prop :=
  forall st ss st', reverse_path st ss st' -> P st -> P st'.

Lemma left_alone_state c c' P :
  left_alone c c' -> steady P -> is_current (cl_registry c) v = true /\ P (state_of c) ->
  is_current (cl_registry c') v = true /\ P (state_of c').
Proof. intros Hl HP [Hc Hs]. destruct (Hl Hc) as (Hc' & ss & _ & Hp). split; [done|]. by eapply HP. Qed.

Lemma ends_await P : steady P -> ends (await_others env) (in_state P) (fun _ => in_state P) (in_state P).
Proof.
  intros HP w Hw. unfold await_others. destruct (ev_interrupt env (wd_time w)); [done|].
  destruct (ev_others env (wd_time w) (wd_client w, wd_init w)) as [c s] eqn:Ho.
  by eapply left_alone_state; [eapply Hcalm|..].
Qed.

Lemma change_state_in c st :
  is_current (cl_registry c) v = true ->
  is_current (change_state (cl_registry c) v st) v = true /\
  vs_state (nc_state (cell (change_state (cl_registry c) v st) v)) = st /\
  nc_notified (cell (change_state (cl_registry c) v st) v) = log_of c ++ [st].
Proof.
  intros Hc. pose proof (current_cell _ _ Hc) as (x & Hx & _).
  assert (cell (change_state (cl_registry c) v st) v
    = push_notification st (set_view_state x (with_state (nc_state x) st))) as Hcell.
  { apply cell_lookup. rewrite change_state_eq, update_cell_lookup, decide_True by done. by rewrite Hx. }
  unfold is_current, generation in *. rewrite Hcell. rewrite (cell_lookup _ _ _ Hx) in *. done.
Qed.

(** A transition that is allowed from every state it can find the node in. *)
Lemma ends_transition P st :
  steady P -> (forall s, P s -> allowed s st = true) ->
  ends (step_transition env v st) (in_state P) (fun _ => in_state (eq st)) (in_state P).
Proof.
  intros HP Ha. eapply ends_bind; [by apply ends_await|]. intros _ w [Hc Hs].
  unfold NodeView_transition, transition_with. rewrite Hc. cbn [negb]. unfold transition.
  rewrite (Ha _ Hs). destruct (change_state_in (wd_client w) st Hc) as (? & ? & _). by split.
Qed.

(** A step of a handshake: it stays in the states of an outgoing connection. *)
Definition outgoing (s : ConnState) : Prop :=
  match s with Outgoing _ | RestartConnect => True | _ => False end.

Lemma steady_other (P : ConnState -> Prop) : (forall s, P s -> is_reverse s = false) -> steady P.
Proof. intros HP st ss st' Hp Hs. by destruct (reverse_path_other _ _ _ Hp (HP _ Hs)) as [_ ->]. Qed.

(** States of an attempt to connect, from which it can be restarted or fail. *)
Definition connecting (s : ConnState) : Prop :=
  match s with Outgoing _ | RestartConnect | ReverseConnection _ | Relayed _ => True | _ => False end.

Lemma steady_connecting : steady connecting.
Proof.
  intros st ss st' Hp Hs. destruct (is_reverse st) eqn:Hr.
  - rewrite (reverse_path_reverse _ _ _ Hp) in Hr. by destruct st'.
  - by destruct (reverse_path_other _ _ _ Hp Hr) as [_ ->].
Qed.

Lemma connecting_restart s : connecting s -> allowed s RestartConnect = true.
Proof.
  destruct s as [i|i|rs|rl|d|e| | |]; try done; intros _; [by destruct i| |by destruct rl].
  destruct rs as [|i|[]]; try done; by destruct i.
Qed.

Lemma outgoing_restart s : outgoing s -> allowed s RestartConnect = true.
Proof. by destruct s as [[]| | | | | | | |]. Qed.

Lemma outgoing_other s : outgoing s -> is_reverse s = false.
Proof. by destruct s. Qed.

Lemma ends_step P s :
  steady P ->
  ends (step_outgoing env v s) (in_state P) (fun _ => in_state (eq (Outgoing s))) (in_state P).
Proof.
  intros HP. eapply ends_bind; [by apply ends_await|]. intros _ w [Hc Hs].
  unfold NodeView_transition_outgoing, transition_with. rewrite Hc. cbn [negb].
  unfold transition_outgoing, transition. destruct (allowed _ _); [|done].
  destruct (change_state_in (wd_client w) (Outgoing s) Hc) as (? & ? & _). by split.
Qed.

Lemma ends_await_out : ends (await_others env) (in_state outgoing) (fun _ => in_state outgoing) (in_state outgoing).
Proof. apply ends_await, steady_other, outgoing_other. Qed.

Lemma ends_step_out s :
  ends (step_outgoing env v s) (in_state outgoing) (fun _ => in_state (eq (Outgoing s))) (in_state outgoing).
Proof. apply ends_step, steady_other, outgoing_other. Qed.

Lemma in_outgoing s w : in_state (eq (Outgoing s)) w -> in_state outgoing w.
Proof. intros [Hc Hs]. split; [done|]. by rewrite <- Hs. Qed.

(** A step, of which only the direction matters. *)
Lemma ends_step_out' s :
  ends (step_outgoing env v s) (in_state outgoing) (fun _ => in_state outgoing) (in_state outgoing).
Proof. eapply ends_weaken; [apply ends_step_out|done|intros x w; apply in_outgoing|done]. Qed.

Lemma ends_send_in P packet to : steady P ->
  ends (send env packet to) (in_state P) (fun _ => in_state P) (in_state P).
Proof.
  intros HP. eapply ends_bind; [by apply ends_await|]. intros _ w Hw. by destruct (ev_sends _ _).
Qed.

Lemma ends_send packet to :
  ends (send env packet to) (in_state outgoing) (fun _ => in_state outgoing) (in_state outgoing).
Proof. apply ends_send_in, steady_other, outgoing_other. Qed.

Lemma ends_disconnect {A} raw to e Q :
  ends (disconnect_with (A := A) env raw to e) (in_state outgoing) Q (in_state outgoing).
Proof.
  intros w Hw. pose proof (ends_send (Packet_control (ev_raw_id env raw)
    (CtDisconnected (Some (BySessionId (ev_raw_id env raw))))) to w Hw) as Hs.
  unfold disconnect_with. by destruct (send _ _ _ _) as [[]| |].
Qed.

Lemma ends_request request_id session_id req to answer :
  ends (request env request_id session_id req to answer) (in_state outgoing)
    (fun _ => in_state outgoing) (in_state outgoing).
Proof.
  unfold request. eapply (ends_bind _ _ _ (fun _ => in_state outgoing)); [by intros w Hw|]. intros ?.
  eapply ends_bind; [apply ends_await_out|]. intros ?. destruct answer; [apply ends_ret|apply ends_err].
Qed.

Lemma register_registry c info owner :
  cl_registry (register_session feature_encryption feature_strict session_crypto c info owner).2 = cl_registry c.
Proof. unfold register_session. by repeat case_match_goal. Qed.

Lemma ends_register P info owner : steady P ->
  ends (register feature_encryption feature_strict session_crypto env info owner) (in_state P)
    (fun _ => in_state P) (in_state P).
Proof.
  intros HP. eapply ends_bind; [by apply ends_await|]. intros _ w Hw.
  pose proof (register_registry (wd_client w) info owner) as Hreg.
  destruct (register_session _ _ _ _ _ _) as [[d|] c]; cbn in Hreg; unfold in_state; cbn; by rewrite Hreg.
Qed.

Lemma ends_solve P req : steady P ->
  ends (solve_request session_crypto config env fuel req) (in_state P)
    (fun _ => in_state P) (in_state P).
Proof.
  intros HP. unfold solve_request. eapply (ends_bind _ _ _ (fun _ => in_state P));
    [intros w Hw; by destruct (list_crypto config)|]. intros crypto.
  eapply ends_bind; [by apply ends_await|]. intros _ w Hw. by destruct (solve_challenge _ _ _) as [[]|].
Qed.

Lemma ends_leased {A} addr (t : nat -> Task A) (P P' : ConnState -> Prop) (R : ConnState -> Prop) :
  (forall raw, ends (t raw) (in_state P) (fun _ => in_state P') (in_state R)) ->
  ends (leased addr t) (in_state P) (fun _ => in_state P') (in_state R).
Proof.
  intros Ht w Hw. unfold leased. destruct (lease_temporary_session _ _) as [g s].
  specialize (Ht (tg_raw g) (with_init w s) Hw). destruct (t _ _) as [[x|] w1| |]; try done;
    by destruct (drop_lease _ _).
Qed.

Lemma ends_conclude addr challenge raw tmp session_id response :
  ends (conclude feature_encryption feature_strict session_crypto config env addr v challenge raw tmp
          session_id response) (in_state outgoing)
    (fun _ => in_state (eq (Outgoing InitReady))) (in_state outgoing).
Proof.
  unfold conclude. eapply ends_bind; [apply ends_step_out'|]. intros ?.
  case_bool_decide; [apply ends_disconnect|].
  destruct (recovered _ _ _ _ _) as [[[remote ids] key]|]; [|apply ends_disconnect].
  eapply ends_bind; [apply ends_step_out'|]. intros ?. case_match_goal; [apply ends_disconnect|].
  eapply ends_bind; [apply ends_register, steady_other, outgoing_other|]. intros d.
  eapply ends_bind; [apply ends_step_out'|]. intros ?.
  eapply ends_bind; [apply ends_send|]. intros ?.
  eapply ends_bind; [apply ends_step_out|]. intros ?. apply ends_ret.
Qed.

Lemma ends_init_session addr challenge raw request_ids answer1 answer2 :
  ends (init_session feature_encryption feature_strict session_crypto config env fuel addr v challenge raw
          request_ids answer1 answer2) (in_state outgoing)
    (fun _ => in_state (eq (Outgoing InitReady))) (in_state outgoing).
Proof.
  unfold init_session. eapply ends_bind; [apply ends_step_out'|]. intros ?. apply ends_leased. intros tmp.
  eapply (ends_bind _ _ _ (fun _ => in_state outgoing));
    [intros w Hw; by destruct (prepare_session_request _ _ _)|]. intros prepared.
  eapply ends_bind; [apply ends_request|]. intros response.
  eapply ends_bind; [apply ends_step_out'|]. intros ?.
  destruct (SessionId_try_from _); [|apply ends_err]. destruct (rss_challenge_req _); [|apply ends_err].
  eapply ends_bind; [apply ends_solve, steady_other, outgoing_other|]. intros solved.
  eapply ends_bind; [apply ends_request|]. intros response2. apply ends_conclude.
Qed.

Lemma ends_direct answers :
  ends (try_direct_session feature_encryption feature_strict session_crypto config env fuel v answers)
    (in_state outgoing) (fun _ => in_state (eq (Outgoing InitReady))) (in_state outgoing).
Proof.
  eapply ends_bind; [apply ends_await_out|]. intros _ w Hw.
  destruct (public_addresses _ _) as [|addr addrs]; [done|]. revert w Hw.
  generalize (addr :: addrs). clear addr addrs. intros addrs.
  induction addrs as [|addr addrs IH]; [apply ends_err|]. cbn [try_addresses].
  eapply ends_bind; [eapply ends_attempt, ends_init_session|]. intros [d|e]; [apply ends_ret|].
  eapply ends_bind; [apply ends_transition; [apply steady_other, outgoing_other|apply outgoing_restart]|]. intros ?.
  eapply ends_weaken; [exact IH|intros w [Hc Hs]; split; [done|by rewrite <- Hs]|done|done].
Qed.

(** ** Reverse connections *)

(** Since [awaiting] was made the node passed through the states of a reverse
    connection, from the first one on. *)
Definition reversing (awaiting : NodeAwaiting) (w : World) : Prop :=
  is_current (cl_registry (wd_client w)) v = true /\ nv_cell (na_registry awaiting) = nv_cell v /\
  exists ss, reverse_path (ReverseConnection Awaiting) ss (state_of (wd_client w)) /\
    forall s, s ∈ drop (na_position awaiting) (log_of (wd_client w)) ->
      s = ReverseConnection Awaiting \/ s ∈ ss.

Lemma left_alone_reversing a w w' :
  left_alone (wd_client w) (wd_client w') -> reversing a w -> reversing a w'.
Proof.
  intros Hl (Hc & Hn & ss & Hp & Hs).
  destruct (Hl Hc) as (Hc' & ss' & Hlog & Hp'). split_and!; [done..|]. exists (ss ++ ss').
  split; [by eapply reverse_path_app|]. intros s. rewrite Hlog, drop_app, elem_of_app.
  intros [Hin|Hin].
  - destruct (Hs s Hin); [by left|]. right. by apply elem_of_app; left.
  - right. apply elem_of_app. right. eapply subseteq_drop; exact Hin.
Qed.

Lemma reversing_connecting a w : reversing a w -> in_state connecting w.
Proof.
  intros (Hc & _ & ss & Hp & _). split; [done|]. by eapply steady_connecting.
Qed.

Lemma ends_await_reversing a :
  ends (await_others env) (reversing a) (fun _ => reversing a) (in_state connecting).
Proof.
  intros w Hw. unfold await_others. destruct (ev_interrupt env (wd_time w)); [by apply reversing_connecting in Hw|].
  destruct (ev_others env (wd_time w) (wd_client w, wd_init w)) as [c s] eqn:Ho.
  eapply left_alone_reversing; [|done]. by eapply Hcalm.
Qed.

Lemma cell_same reg x y : nv_cell x = nv_cell y -> cell reg x = cell reg y.
Proof. unfold cell. by intros ->. Qed.

(** What a wait gives was announced since, or is the state now. *)
Lemma await_seen {X} (check : ConnState -> option (result X SessionError)) w n : forall s a x s' a',
  nv_cell (na_registry a) = nv_cell v ->
  await_loop check capacity n w s a = (Some (Ok x), s', a') ->
  nv_cell (na_registry a') = nv_cell v /\ (na_position a <= na_position a')%nat /\
  (check s = Some (Ok x) \/ check Closed = Some (Ok x) \/
   exists s1, s1 ∈ drop (na_position a) (nc_notified (cell w v)) /\ check s1 = Some (Ok x)).
Proof.
  induction n as [|n IH]; intros s a x s' a' Hn; cbn.
  - destruct (check s) as [r|] eqn:Hk; [|done]. intros [= -> <- <-]. auto.
  - destruct (check s) as [r|] eqn:Hk; [intros [= -> <- <-]; auto|]. unfold next.
    rewrite (cell_same w _ _ Hn).
    destruct (is_current w (na_registry a)); cbn [negb].
    2:{ intros Hl. apply IH in Hl as (? & ? & [?|[?|?]]); auto. }
    unfold recv. case_match_goal; [done|].
    destruct (nc_notified (cell w v) !! na_position a) as [s1|] eqn:Hs1; [|done].
    intros Hl. apply IH in Hl as (Hn' & Hp & Hx); [|done]. cbn in Hp, Hx.
    split_and!; [done|lia|]. rewrite (drop_S _ _ _ Hs1). destruct Hx as [Hx|[Hx|(s2 & Hin & Hx)]].
    + right. right. exists s1. split; [by left|done].
    + auto.
    + right. right. exists s2. split; [by right|done].
Qed.

Lemma ends_wait {X} (check : ConnState -> option (result X SessionError)) a :
  ends (wait_for env capacity check a) (reversing a)
    (fun r w => reversing a w /\ reversing r.2 w /\
       (check (NodeView_state (cl_registry (wd_client w)) (na_registry a)) = Some (Ok r.1) \/
        check Closed = Some (Ok r.1) \/
        exists s, s ∈ drop (na_position a) (log_of (wd_client w)) /\ check s = Some (Ok r.1)))
    (in_state connecting).
Proof.
  eapply ends_bind; [apply ends_await_reversing|]. intros _ w Hw. unfold await, await_from.
  destruct (await_loop _ _ _ _ _ _) as [[[[x|e]|] s'] a'] eqn:Hl; [|by apply reversing_connecting in Hw..].
  split; [done|]. destruct Hw as (Hc & Hn & ss & Hp & Hs). apply await_seen in Hl as (Hn' & Hpos & Hx); [|done].
  split; [|done]. split_and!; [done..|]. exists ss. split; [done|]. intros s Hin. apply Hs. cbn [snd] in Hin.
  replace (na_position a') with (na_position a + (na_position a' - na_position a))%nat in Hin by lia.
  rewrite <- drop_drop in Hin. by eapply subseteq_drop.
Qed.

Context (server : Task nat) (Hserver : calm_task server).

(** Where an attempt other than a direct one starts. *)
Definition start (s : ConnState) : Prop := s = RestartConnect \/ s = Outgoing ConnectIntent.

Lemma start_other s : start s -> is_reverse s = false.
Proof. by intros [->| ->]. Qed.

Lemma in_connecting (P : ConnState -> Prop) w :
  (forall s, P s -> connecting s) -> in_state P w -> in_state connecting w.
Proof. intros HP [Hc Hs]. split; [done|auto]. Qed.

Lemma start_connecting s : start s -> connecting s.
Proof. by intros [->| ->]. Qed.

Lemma ends_await_start :
  ends (await_others env) (in_state start) (fun _ => in_state start) (in_state connecting).
Proof.
  eapply ends_weaken; [apply (ends_await start), steady_other, start_other|auto|auto|].
  intros w. apply in_connecting, start_connecting.
Qed.

(** The announcement of the first state, for a task that listens already. *)
Lemma ends_announce a :
  ends (step_transition env v (ReverseConnection Awaiting))
    (fun w => in_state start w /\ nv_cell (na_registry a) = nv_cell v /\
              na_position a = length (log_of (wd_client w)))
    (fun _ => reversing a) (in_state connecting).
Proof.
  intros w (Hw & Hn & Hpos). unfold step_transition, task_bind, await_others.
  destruct (ev_interrupt env (wd_time w)); [by eapply in_connecting; [apply start_connecting|]|].
  destruct (ev_others env (wd_time w) (wd_client w, wd_init w)) as [c s] eqn:Ho. cbn.
  destruct Hw as [Hc Hs]. destruct (Hcalm _ _ _ _ _ Ho Hc) as (Hc' & ss & Hlog & Hp).
  destruct (reverse_path_other _ _ _ Hp (start_other _ Hs)) as [-> Hst]. rewrite app_nil_r in Hlog.
  unfold NodeView_transition, transition_with. rewrite Hc'. cbn [negb]. unfold transition. rewrite Hst.
  assert (allowed (state_of (wd_client w)) (ReverseConnection Awaiting) = true) as ->
    by by destruct Hs as [->| ->].
  destruct (change_state_in c (ReverseConnection Awaiting) Hc') as (Hc2 & Hs2 & Hl2).
  split; [done|]. split; [done|]. exists []. cbn. rewrite Hs2. split; [constructor|].
  intros s0. rewrite Hl2, Hlog, Hpos, drop_app_length. rewrite list_elem_of_singleton. by left.
Qed.

Lemma ends_request_reverse a d node_id request_id accepted :
  ends (request_reverse env d node_id request_id accepted) (reversing a) (fun _ => reversing a)
    (in_state connecting).
Proof.
  intros w Hw. unfold request_reverse. destruct (session_at _ _) as [x|]; [|by apply reversing_connecting in Hw].
  revert w Hw. eapply (ends_bind _ _ _ (fun _ => reversing a)); [by intros w Hw|]. intros ?.
  eapply ends_bind; [apply ends_await_reversing|]. intros ?. destruct accepted; [apply ends_ret|].
  intros w Hw. by apply reversing_connecting in Hw.
Qed.

Lemma finished_state a d w :
  reversing a w ->
  check_reverse_finish (NodeView_state (cl_registry (wd_client w)) (na_registry a)) = Some (Ok d) \/
  check_reverse_finish Closed = Some (Ok d) \/
  (exists s, s ∈ drop (na_position a) (log_of (wd_client w)) /\ check_reverse_finish s = Some (Ok d)) ->
  in_state (eq (ReverseConnection (Finished (Ok d)))) w.
Proof.
  assert (forall s, check_reverse_finish s = Some (Ok d) -> s = ReverseConnection (Finished (Ok d))) as Hk.
  { intros s. destruct s as [| |[| |r]| | | | | |]; try done. by intros [= ->]. }
  intros (Hc & Hn & ss & Hp & Hs) Hd. split; [done|]. destruct Hd as [Hd%Hk|[Hd|(s & Hin & ->%Hk)]]; [|done|].
  - unfold NodeView_state in Hd.
    destruct (is_current (cl_registry (wd_client w)) (na_registry a)); [|done]. 
    rewrite (cell_same _ _ _ Hn) in Hd. by rewrite Hd.
  - destruct (Hs _ Hin) as [|Hin']; [done|]. symmetry. by eapply reverse_path_through.
Qed.

Lemma ends_reverse node_id request_id accepted :
  ends (try_reverse_connection env capacity server v node_id request_id accepted) (in_state start)
    (fun d => in_state (eq (ReverseConnection (Finished (Ok d))))) (in_state connecting).
Proof.
  unfold try_reverse_connection. eapply (ends_bind _ _ _ (fun _ => in_state start)).
  { eapply (ends_bind _ _ _ (fun _ => in_state start)); [apply ends_await_start|]. by intros ? w Hw. }
  intros [public|]; [|intros w; apply in_connecting, start_connecting].
  eapply (ends_bind _ _ _ (fun a w => in_state start w /\ nv_cell (na_registry a) = nv_cell v /\
    na_position a = length (log_of (wd_client w)))); [by intros w Hw|]. intros a.
  eapply ends_bind; [apply ends_announce|]. intros ?.
  eapply (ends_bind _ _ _ (fun _ => reversing a)).
  { intros w Hw. destruct (server w) as [[d|e] w'| |] eqn:Hsv; try done;
      apply Hserver, left_alone_reversing with (a := a) in Hsv; [done|done| |done].
    by apply reversing_connecting in Hsv. }
  intros d. eapply ends_bind; [apply ends_request_reverse|]. intros ?.
  eapply ends_bind; [apply ends_wait|]. intros [[] a1].
  eapply ends_bind; [eapply ends_weaken; [apply (ends_wait check_reverse_finish a1)|by intros w (_ & Hw & _)|done|done]|].
  intros [d' a2] w (Hw & _ & Hd). by eapply finished_state.
Qed.

(** ** Relayed connections *)

Lemma relayed_other (s : ConnState) : Relayed RelayedInitializing = s -> is_reverse s = false.
Proof. by intros <-. Qed.

Lemma relayed_connecting (s : ConnState) : Relayed RelayedInitializing = s -> connecting s.
Proof. by intros <-. Qed.

Abbreviation relaying := (in_state (eq (Relayed RelayedInitializing))).

Lemma ends_await_relaying : ends (await_others env) relaying (fun _ => relaying) (in_state connecting).
Proof.
  eapply ends_weaken; [apply ends_await, steady_other, relayed_other|auto|auto|].
  intros w. apply in_connecting, relayed_connecting.
Qed.

Lemma ends_server : ends server relaying (fun _ => relaying) (in_state connecting).
Proof.
  intros w Hw. destruct (server w) as [[d|e] w'| |] eqn:Hs; try done; apply Hserver in Hs.
  - eapply left_alone_state; [done|apply steady_other, relayed_other|done].
  - eapply in_connecting; [apply relayed_connecting|].
    eapply left_alone_state; [done|apply steady_other, relayed_other|done].
Qed.

Lemma register_routing_registry c routing : cl_registry (register_routing upgrade c routing).2 = cl_registry c.
Proof. unfold register_routing. by repeat case_match_goal. Qed.

Lemma ends_relayed :
  ends (try_relayed_connection feature_encryption feature_strict session_crypto env upgrade now node_info_ttl
          server v) (in_state start)
    (fun _ => in_state (eq (Relayed RelayedReady))) (in_state connecting).
Proof.
  unfold try_relayed_connection. eapply (ends_bind _ _ _ (fun _ => relaying)).
  { eapply ends_weaken; [apply (ends_transition start); [apply steady_other, start_other|by intros s [->| ->]]|auto|auto|].
    intros w. apply in_connecting, start_connecting. }
  intros ?. eapply (ends_bind _ _ _ (fun _ => relaying)).
  { intros w Hw. pose proof (ends_server w Hw). unfold task_map_err. by destruct (server w) as [[]| |]. }
  intros d. eapply ends_bind; [apply ends_await_relaying|]. intros ?.
  eapply (ends_bind _ _ _ (fun _ => relaying)).
  { intros w Hw. unfold relayed_node. destruct (vs_node _); [|done].
    eapply in_connecting; [apply relayed_connecting|done]. }
  intros node. eapply (ends_bind _ _ _ (fun _ => relaying)).
  { intros w Hw. unfold task_result. case_match_goal; [done|]. eapply in_connecting; [apply relayed_connecting|done]. }
  intros encryption. eapply (ends_bind _ _ _ (fun _ => relaying)).
  { eapply ends_bind; [apply ends_await_relaying|]. intros ? w Hw. cbv zeta.
    match goal with |- context [register_routing upgrade ?c ?r] =>
      pose proof (register_routing_registry c r) as Hreg; destruct (register_routing upgrade c r) as [[u|e] c'] end;
      cbn in Hreg; [|eapply in_connecting; [apply relayed_connecting|]]; unfold in_state; cbn; by rewrite Hreg. }
  intros ?. eapply (ends_bind _ _ _ (fun _ => in_state (eq (Relayed RelayedReady)))).
  { eapply ends_weaken; [apply (ends_transition (eq (Relayed RelayedInitializing)));
      [apply steady_other, relayed_other|by intros s <-]|auto|auto|].
    intros w. apply in_connecting, relayed_connecting. }
  intros ?. apply ends_ret.
Qed.

(** ** All attempts *)

(** The states in which an attempt that gave a session leaves the node. *)
Definition connected (d : nat) (s : ConnState) : Prop :=
  s = Outgoing InitReady \/ s = ReverseConnection (Finished (Ok d)) \/ s = Relayed RelayedReady.

Lemma ends_method dont_use method t otherwise (P : ConnState -> Prop) (Q : nat -> ConnState -> Prop) :
  ends t (in_state P) (fun d => in_state (Q d)) (in_state connecting) ->
  (forall d s, Q d s -> connected d s) ->
  ends otherwise (in_state P) (fun d => in_state (connected d)) (in_state connecting) ->
  ends otherwise (in_state (eq RestartConnect)) (fun d => in_state (connected d)) (in_state connecting) ->
  ends (try_method env dont_use method v t otherwise) (in_state P)
    (fun d => in_state (connected d)) (in_state connecting).
Proof.
  intros Ht HQ Ho Hr. unfold try_method. case_bool_decide; [done|].
  eapply ends_bind; [by eapply ends_attempt|]. intros [d|e].
  - intros w [Hc Hs]. split; [done|auto].
  - eapply ends_bind; [apply ends_transition; [apply steady_connecting|apply connecting_restart]|]. intros ?. exact Hr.
Qed.

Lemma ends_resolve node_id answers request_id accepted dont_use :
  ends (resolve feature_encryption feature_strict session_crypto config env capacity upgrade now node_info_ttl
          fuel server v node_id answers request_id accepted dont_use)
    (in_state (eq (Outgoing ConnectIntent))) (fun d => in_state (connected d)) (in_state connecting).
Proof.
  unfold resolve.
  set (last := if bool_decide (MethodRelay ∈ dont_use) then _ else _).
  assert (ends last (in_state start) (fun d => in_state (connected d)) (in_state connecting)) as Hlast.
  { unfold last. case_bool_decide; [intros w; apply in_connecting, start_connecting|].
    eapply ends_bind; [eapply ends_attempt, ends_relayed|]. intros [d|e]; [|by intros w Hw].
    intros w [Hc Hs]. split; [done|]. by right; right. }
  assert (ends (try_method env dont_use MethodReverse v
      (try_reverse_connection env capacity server v node_id request_id accepted) last)
    (in_state start) (fun d => in_state (connected d)) (in_state connecting)) as Hrev.
  { eapply ends_method; [apply ends_reverse|by intros d s <-; right; left|exact Hlast|].
    eapply ends_weaken; [exact Hlast|intros w [Hc Hs]; split; [done|by left]|auto|auto]. }
  eapply (ends_method _ _ _ _ _ (fun _ => eq (Outgoing InitReady))).
  - eapply ends_weaken; [apply ends_direct|intros w [Hc Hs]; split; [done|by rewrite <- Hs]|auto|].
    intros w. apply in_connecting. by intros [].
  - intros d s <-. by left.
  - eapply ends_weaken; [exact Hrev|intros w [Hc Hs]; split; [done|by right]|auto|auto].
  - eapply ends_weaken; [exact Hrev|intros w [Hc Hs]; split; [done|by left]|auto|auto].
Qed.

(** ** Dropping the permit *)

(** The permit of the attempt, with its result. *)
Definition result_permit (r : result nat SessionError) : SessionPermit :=
  collect_results {| sp_registry := v; sp_reverse := false; sp_result := None |} r.

Lemma transition_to c st st' :
  is_current c v = true -> vs_state (nc_state (cell c v)) = st -> allowed st st' = true ->
  NodeView_transition c v st' = (Ok st', change_state c v st').
Proof.
  intros Hc Hs Ha. unfold NodeView_transition, transition_with. rewrite Hc, Hs. cbn [negb].
  unfold transition. by rewrite Ha.
Qed.

Lemma unregister_abortable_in reg :
  is_current reg v = true ->
  is_current (unregister_abortable reg v) v = true /\
  vs_state (nc_state (cell (unregister_abortable reg v) v)) = vs_state (nc_state (cell reg v)).
Proof.
  intros Hc. pose proof (current_cell _ _ Hc) as (x & Hx & _).
  assert (cell (unregister_abortable reg v) v = set_abort_handles [] x) as Hcell.
  { apply cell_lookup. unfold unregister_abortable. rewrite Hc.
    by rewrite update_cell_lookup, decide_True, Hx by done. }
  unfold is_current, generation in *. rewrite Hcell, (cell_lookup _ _ _ Hx) in *. done.
Qed.

Lemma connected_established d s : connected d s -> allowed s (Established d) = true.
Proof. by intros [->|[->| ->]]. Qed.

Lemma drop_established c d :
  is_current (cl_registry c) v = true -> allowed (state_of c) (Established d) = true ->
  exists reg, async_drop (cl_registry c) (result_permit (Ok d)) = Some reg /\
    NodeView_state reg v = Established d.
Proof.
  intros Hc Ha. destruct (unregister_abortable_in _ Hc) as [Hc1 Hs1].
  set (w1 := unregister_abortable (cl_registry c) v) in *.
  pose proof (transition_to w1 _ (Established d) Hc1 Hs1 Ha) as Ht.
  exists (change_state w1 v (Established d)). split.
  - unfold async_drop.
    cbn [drop_loop drop_step final_state result_permit collect_results sp_result sp_reverse sp_registry].
    unfold NodeView_state. rewrite Hc.
    destruct (state_of c); try done; cbn [drop_loop drop_step]; fold w1; by rewrite Ht.
  - destruct (change_state_in {| cl_registry := w1; cl_state := cl_state c |} (Established d) Hc1) as (Hc2 & Hs2 & _).
    cbn in Hc2, Hs2. unfold NodeView_state. by rewrite Hc2, Hs2.
Qed.

Lemma connecting_failed e s : connecting s -> allowed s (FailedEstablish e) = true.
Proof.
  destruct s as [i|i|rs|rl|d|e'| | |]; try done; intros _; [by destruct i| |by destruct rl].
  destruct rs as [|i|[]]; try done; by destruct i.
Qed.

(** The cell of the node when it is removed: retired, with the end announced. *)
Lemma remove_generation_cell reg x :
  is_current reg v = true -> rg_cells reg !! nv_cell v = Some x ->
  cell (remove_generation reg v).2 v = push_notification Closed (retire x).
Proof.
  intros Hc Hx. unfold remove_generation. rewrite Hc. cbn [negb snd]. apply cell_lookup.
  unfold notify_change. rewrite update_cell_lookup, decide_True by done.
  unfold with_maps, abort_all. cbn [rg_cells]. rewrite update_cell_lookup, decide_True by done. by rewrite Hx.
Qed.

Lemma drop_failed c e :
  is_current (cl_registry c) v = true -> allowed (state_of c) (FailedEstablish e) = true ->
  exists reg, async_drop (cl_registry c) (result_permit (Err e)) = Some reg /\
    is_current reg v = false /\ log_of {| cl_registry := reg; cl_state := cl_state c |}
      = log_of c ++ [FailedEstablish e; Closed].
Proof.
  intros Hc Hs. pose proof (transition_to _ _ _ Hc eq_refl Hs) as Ht.
  destruct (change_state_in c (FailedEstablish e) Hc) as (Hc1 & Hs1 & Hl1).
  set (w1 := change_state (cl_registry c) v (FailedEstablish e)) in *.
  pose proof (current_cell _ _ Hc1) as (x & Hx & Hcx & _).
  set (w2 := abort_initialization w1 v).
  assert (rg_cells w2 !! nv_cell v = Some (set_abort_handles [] x)) as Hx2.
  { unfold w2, abort_initialization. rewrite Hc1. cbn [negb]. unfold abort_all. cbn [rg_cells].
    by rewrite update_cell_lookup, decide_True, Hx by done. }
  assert (is_current w2 v = true) as Hc2.
  { unfold is_current, generation in *. rewrite (cell_lookup _ _ _ Hx2). by rewrite Hcx in Hc1. }
  pose proof (remove_generation_cell _ _ Hc2 Hx2) as Hcell.
  exists (remove_generation w2 v).2. split_and!.
  - unfold async_drop.
    cbn [drop_loop drop_step final_state result_permit collect_results sp_result sp_reverse sp_registry].
    unfold NodeView_state. rewrite Hc.
    destruct (state_of c) as [| | | | | | | |]; try done; cbn [drop_loop drop_step]; rewrite Ht; cbn [snd]; done.
  - unfold is_current. by rewrite Hcell.
  - cbn [cl_registry]. rewrite Hcell. cbn. rewrite <- Hcx in Hx. cbn in Hl1. rewrite Hcx in Hl1.
    rewrite Hl1. by rewrite <- app_assoc.
Qed.
End ConnectProps.
