(* ===== verification/HonestHandshake.v ===== *)
(** The handshake of two honest nodes succeeds on both sides: the messages each
    sends are the ones the other accepts, both publish a session with the same id,
    and both derive the same key. *)

From S2P Require Import Prelude Payload Proto Challenge NodeInfo SessionState DirectSession Encryption.
From S2P Require Import ClientForward NetworkView NetworkViewProps ClientSessions SessionInit HandshakeProps.
From S2P Require Import ConnectSession ConnectProps.

(** ** Runs of a handshake that is not disturbed *)

Section Runs.
Context `{HH : Hashes} `{E : EthSign} `{K : !KeyAgreement} `{B : ExponentialBackoff} `{C : !CryptoProvider}.
Context (feature_encryption feature_strict : bool) (session_crypto : SessionCrypto).
Context (config : InitConfig) (env : Environment) (v : NodeView) (addr : SocketAddr).

(** The node is current and in a state, and the socket is open. *)
Definition ready (st : ConnState) (c : Client) : Prop :=
  is_current (cl_registry c) v = true /\ vs_state (nc_state (cell (cl_registry c) v)) = st /\
  ly_sink (cl_state c) = true.

(** A lease of the temporary session is held, if one is meant; the number of users
    is not negative. *)
Definition held (lease : option nat) (s : SessionInitializerState) : Prop :=
  (forall e, si_tmp_sessions s !! addr = Some e -> 0 <= ts_users e) /\
  forall raw, lease = Some raw ->
    exists e, si_tmp_sessions s !! addr = Some e /\ ts_raw e = raw /\ 0 < ts_users e.

(** The other tasks leave the node and the lease alone, nobody cuts the handshake
    off, and the socket takes every packet. *)
Definition undisturbed : Prop :=
  (forall n, ev_interrupt env n = None) /\ (forall n, ev_sends env n = true) /\
  (forall n c s c' s', ev_others env n (c, s) = (c', s') ->
     (forall st, ready st c -> ready st c') /\ (forall lease, held lease s -> held lease s')).

(** [t] runs from one state of the node to another, sends packets and has a result
    with a property. *)
Definition runs {A} (t : Task A) (st st' : ConnState) (sent : list (Packet * SocketAddr))
  (Q : A -> Prop) : Prop :=
  forall lease w, ready st (wd_client w) -> held lease (wd_init w) ->
    exists x w', t w = Done (Ok x) w' /\ ready st' (wd_client w') /\ held lease (wd_init w') /\
      wd_sent w' = wd_sent w ++ sent /\ Q x.

Lemma runs_bind {A T} (t : Task A) (k : A -> Task T) st st' st'' sent sent' Q R :
  runs t st st' sent Q -> (forall x, Q x -> runs (k x) st' st'' sent' R) ->
  runs (task_bind t k) st st'' (sent ++ sent') R.
Proof.
  intros Ht Hk lease w Hr Hh. destruct (Ht lease w Hr Hh) as (x & w1 & Hx & Hr1 & Hh1 & Hs1 & HQ).
  destruct (Hk x HQ lease w1 Hr1 Hh1) as (y & w2 & Hy & Hr2 & Hh2 & Hs2 & HR).
  exists y, w2. unfold task_bind. rewrite Hx. split_and!; try done. by rewrite Hs2, Hs1, app_assoc.
Qed.

Lemma runs_ret {A} (x : A) st (Q : A -> Prop) : Q x -> runs (task_ret x) st st [] Q.
Proof. intros HQ lease w Hr Hh. exists x, w. rewrite app_nil_r. done. Qed.

Context (Hu : undisturbed).

Lemma runs_await st : runs (await_others env) st st [] (fun _ => True).
Proof.
  intros lease w Hr Hh. destruct Hu as (Hi & _ & Ho). unfold await_others. rewrite Hi.
  destruct (ev_others env (wd_time w) (wd_client w, wd_init w)) as [c s] eqn:He.
  destruct (Ho _ _ _ _ _ He) as [Hc Hl]. eexists tt, _. split; [done|]. cbn. rewrite app_nil_r. auto.
Qed.

Lemma change_state_ready c st st' :
  ready st c -> ready st' {| cl_registry := change_state (cl_registry c) v st'; cl_state := cl_state c |}.
Proof.
  intros (Hc & _ & Hs). pose proof (current_cell _ _ Hc) as (x & Hx & _). unfold ready. cbn.
  assert (cell (change_state (cl_registry c) v st') v
    = push_notification st' (set_view_state x (with_state (nc_state x) st'))) as Hcell.
  { apply cell_lookup. rewrite change_state_eq, update_cell_lookup, decide_True by done.
    by rewrite Hx. }
  unfold is_current, generation in *. rewrite Hcell. rewrite (cell_lookup _ _ _ Hx) in Hc. done.
Qed.

Lemma runs_outgoing st s :
  allowed st (Outgoing s) = true -> runs (step_outgoing env v s) st (Outgoing s) [] (fun _ => True).
Proof.
  intros Ha. apply (runs_bind _ _ st st _ [] [] _ _ (runs_await st)). intros _ _ lease w Hr Hh.
  pose proof Hr as (Hc & Hst & _). unfold NodeView_transition_outgoing, transition_with.
  rewrite Hc, Hst. unfold transition_outgoing, transition. rewrite Ha. cbn [negb].
  eexists tt, _. split; [done|]. cbn. rewrite app_nil_r.
  split; [by eapply change_state_ready|done].
Qed.

Lemma runs_incoming prev s :
  InitState_allowed prev s = true ->
  runs (step_incoming env v s) (Incoming prev) (Incoming s) [] (fun _ => True).
Proof.
  intros Ha. apply (runs_bind _ _ _ _ _ [] [] _ _ (runs_await _)). intros _ _ lease w Hr Hh.
  pose proof Hr as (Hc & Hst & _). unfold NodeView_transition_incoming, transition_with.
  assert (transition_incoming (Incoming prev : ConnState) s = (Ok (Incoming s), Incoming s)) as Ht
    by by destruct prev, s.
  rewrite Hc, Hst, Ht. cbn [negb].
  eexists tt, _. split; [done|]. cbn. rewrite app_nil_r.
  split; [by eapply change_state_ready|done].
Qed.

Lemma runs_send st packet to : runs (send env packet to) st st [(packet, to)] (fun _ => True).
Proof.
  apply (runs_bind _ _ st st _ [] [(packet, to)] _ _ (runs_await st)). intros _ _ lease w Hr Hh.
  destruct Hu as (_ & Hse & _). rewrite Hse. eexists tt, _. done.
Qed.

Lemma runs_request st request_id session_id req to response :
  runs (request env request_id session_id req to (Some response)) st st
    [({| pkt_session_id := session_id;
         pkt_kind := Some (PkRequest {| rq_request_id := request_id;
                                        rq_kind := Some (RqSession req) |}) |}, to)]
    (fun r => r = response).
Proof.
  unfold request. eapply (runs_bind _ _ st st st [_] [] (fun _ => True)).
  - intros lease w Hr Hh. eexists tt, _. split; [done|]. done.
  - intros _ _. apply (runs_bind _ _ st st st [] [] _ _ (runs_await st)). intros _ _. by apply runs_ret.
Qed.

Lemma runs_register st info :
  is_over st = false -> sri_node_id info = nv_id v ->
  (ni_node_id <$> head (sri_identities info)) = Some (nv_id v) ->
  is_Some (match encryption_new feature_encryption feature_strict (sri_supported_encryptions info)
                   (sri_session_key info) session_crypto with Ok e => Some e | Err _ => None end) ->
  runs (register feature_encryption feature_strict session_crypto env info v) st st []
    (fun d => exists c c', published feature_encryption feature_strict session_crypto c c' v d
       (sri_addr info) (sri_id info) (sri_identities info) (sri_supported_encryptions info)
       (sri_session_key info)).
Proof.
  intros Hst Hid Hhd He. apply (runs_bind _ _ st st _ [] [] _ _ (runs_await st)). intros _ _ lease w Hr Hh.
  destruct (register_session _ _ _ (wd_client w) info v) as [r c'] eqn:Hreg.
  assert (exists d, r = Ok d /\ ready st c') as (d & -> & Hr').
  { destruct Hr as (Hc & Hs & Hsink). revert Hreg. unfold register_session, publication_guard.
    rewrite Hc, Hs, Hst, Hsink. cbn [negb andb]. unfold new_session_objects.
    destruct (sri_identities info) as [|i ids] eqn:Hids; [done|]. injection Hhd as Hi.
    rewrite bool_decide_eq_false_2 by done. unfold DirectSession_new. cbn [map find].
    rewrite Hid, !bool_decide_eq_true_2 by done.
    destruct (encryption_new _ _ _ _ _) as [e|]; [|by destruct He].
    intros [= <- <-]. eexists. split; [done|]. done. }
  eexists d, _. split; [done|]. cbn. rewrite app_nil_r. split_and!; [done..|].
  eapply register_published in Hreg; [|done|by destruct (sri_identities info)]. eauto.
Qed.

Lemma runs_solve st fuel req crypto solution :
  list_crypto config = Ok crypto ->
  solve_challenge fuel (cq_challenge req) (cq_difficulty req) = Some (Ok solution) ->
  runs (solve_request session_crypto config env fuel req) st st []
    (fun r => r = solve solution crypto (session_pub_key session_crypto)).
Proof.
  intros Hl Hs. unfold solve_request. rewrite Hl.
  apply (runs_bind _ _ st st _ [] [] (fun x => x = crypto)); [by apply runs_ret|]. intros x ->.
  apply (runs_bind _ _ st st _ [] [] _ _ (runs_await st)). intros _ _ lease w Hr Hh. rewrite Hs.
  eexists _, w. rewrite app_nil_r. done.
Qed.

Lemma runs_leased {A} (t : nat -> Task A) st st' sent Q :
  (forall raw lease w, ready st (wd_client w) -> held lease (wd_init w) -> lease = Some raw ->
     exists x w', t raw w = Done (Ok x) w' /\ ready st' (wd_client w') /\ held lease (wd_init w') /\
       wd_sent w' = wd_sent w ++ sent /\ Q x) ->
  forall w, ready st (wd_client w) -> held None (wd_init w) ->
    exists x w', leased addr t w = Done (Ok x) w' /\ ready st' (wd_client w') /\
      wd_sent w' = wd_sent w ++ sent /\ Q x.
Proof.
  intros Ht w Hr [Hw _]. unfold leased.
  destruct (lease_temporary_session (wd_init w) addr) as [g s] eqn:Hl.
  assert (tg_remote g = addr /\ held (Some (tg_raw g)) s) as [Hg Hh].
  { unfold lease_temporary_session in Hl. destruct (_ !! addr) as [e|] eqn:He; injection Hl as <- <-;
      (split; [done|]); (split; cbn;
        [intros e'|intros raw [= <-]; eexists]; rewrite lookup_insert_eq; [intros [= <-]|split; [done|]]);
      cbn; try specialize (Hw e eq_refl); try done; [lia|split; [done|lia]]. }
  destruct (Ht (tg_raw g) (Some (tg_raw g)) (with_init w s)) as (x & w' & -> & Hr' & Hh' & Hs & HQ); [done..|].
  destruct Hh' as [_ Hh']. destruct (Hh' _ eq_refl) as (e & He & Hraw & Hp). unfold drop_lease.
  rewrite Hg, He, Hraw, Nat.eqb_refl. rewrite (proj2 (Z.eqb_neq _ _)) by lia.
  case_match_goal; eexists x, _; done.
Qed.

(** A party to the handshake: its keys and the identities they stand for. *)
Context (crypto : list SecretKey) (Hcrypto : list_crypto config = Ok crypto).

Abbreviation answered ids supported key session_id :=
  (fun d => exists c c', published feature_encryption feature_strict session_crypto c c' v d addr
     session_id ids supported key).

Lemma runs_conclude raw tmp session_id resp supported ids key :
  recover_identities_from_challenge raw (ic_challenge_difficulty config) (Some resp) (Some (nv_id v))
    = Ok (nv_id v, ids, key) ->
  (ni_node_id <$> head ids) = Some (nv_id v) ->
  is_Some (match encryption_new feature_encryption feature_strict supported key session_crypto with
           | Ok e => Some e | Err _ => None end) ->
  runs (conclude feature_encryption feature_strict session_crypto config env addr v true raw tmp
          session_id (session_id, {| rss_challenge_req := None; rss_challenge_resp := Some resp;
                                     rss_supported_encryptions := supported; rss_identities := [] |}))
    (Outgoing ChallengeHandshake) (Outgoing InitReady)
    [(Packet_control session_id (CtResumeForwarding 0), addr)]
    (answered ids supported key session_id).
Proof.
  intros Hrec Hhd He. unfold conclude.
  apply (runs_bind _ _ _ (Outgoing HandshakeResponse) _ [] _ (fun _ => True)); [by apply runs_outgoing|].
  intros _ _. rewrite bool_decide_eq_false_2 by tauto. cbn [recovered fst snd rss_challenge_resp].
  rewrite Hrec.
  apply (runs_bind _ _ _ (Outgoing ChallengeVerified) _ [] _ (fun _ => True)); [by apply runs_outgoing|].
  intros _ _. rewrite bool_decide_eq_false_2 by tauto. cbn [andb].
  eapply (runs_bind _ _ _ (Outgoing ChallengeVerified) _ [] _); [by apply runs_register|]. intros d Hd.
  apply (runs_bind _ _ _ (Outgoing SessionRegistered) _ [] _ (fun _ => True)); [by apply runs_outgoing|].
  intros _ _.
  apply (runs_bind _ _ _ (Outgoing SessionRegistered) _ [_] [] (fun _ => True)); [apply runs_send|].
  intros _ _.
  apply (runs_bind _ _ _ (Outgoing InitReady) _ [] [] (fun _ => True)); [by apply runs_outgoing|].
  intros _ _. by apply runs_ret.
Qed.

Lemma runs_accept fuel raw session_id challenge_req request_id resp supported ids key solution :
  recover_identities_from_challenge raw (ic_challenge_difficulty config) (Some resp) (Some (nv_id v))
    = Ok (nv_id v, ids, key) ->
  (ni_node_id <$> head ids) = Some (nv_id v) ->
  is_Some (match encryption_new feature_encryption feature_strict supported key session_crypto with
           | Ok e => Some e | Err _ => None end) ->
  solve_challenge fuel (cq_challenge challenge_req) (cq_difficulty challenge_req)
    = Some (Ok solution) ->
  runs (accept_answer feature_encryption feature_strict session_crypto config env fuel addr v raw
          session_id (Some challenge_req) request_id
          {| rqs_challenge_req := None; rqs_challenge_resp := Some resp;
             rqs_supported_encryptions := supported; rqs_identities := [];
             rqs_client_version := EmptyString |})
    (Incoming ChallengeHandshake) (Incoming InitReady)
    [(Packet_response request_id session_id StatusOk
        (RsSession {| rss_challenge_req := None;
                      rss_challenge_resp :=
                        Some (solve solution crypto (session_pub_key session_crypto));
                      rss_supported_encryptions := supported_encryptions feature_encryption;
                      rss_identities := [] |}), addr)]
    (answered ids supported key session_id).
Proof.
  intros Hrec Hhd He Hsol. unfold accept_answer.
  apply (runs_bind _ _ _ (Incoming HandshakeResponse) _ [] _ (fun _ => True)); [by apply runs_incoming|].
  intros _ _. cbn [rqs_challenge_resp]. rewrite Hrec.
  eapply (runs_bind _ _ _ (Incoming HandshakeResponse) _ [] _); [by apply runs_solve|]. intros r ->.
  apply (runs_bind _ _ _ (Incoming ChallengeVerified) _ [] _ (fun _ => True)); [by apply runs_incoming|].
  intros _ _.
  eapply (runs_bind _ _ _ (Incoming ChallengeVerified) _ [] _); [by apply runs_register|]. intros d Hd.
  apply (runs_bind _ _ _ (Incoming SessionRegistered) _ [] _ (fun _ => True)); [by apply runs_incoming|].
  intros _ _.
  apply (runs_bind _ _ _ (Incoming SessionRegistered) _ [_] [] (fun _ => True)); [apply runs_send|].
  intros _ _. apply (runs_bind _ _ _ (Incoming SessionRegistered) _ [] [] (fun _ => True)); [apply runs_await|].
  intros _ _. apply (runs_bind _ _ _ (Incoming InitReady) _ [] [] (fun _ => True)); [by apply runs_incoming|].
  intros _ _. by apply runs_ret.
Qed.

(** The first message of the side that starts, and both messages of the other. *)
Definition first_request (raw : list Z) : request_Session :=
  {| rqs_challenge_req := Some (prepare_challenge (ic_challenge_difficulty config) raw).1;
     rqs_challenge_resp := None; rqs_supported_encryptions := [];
     rqs_identities := map (fun k => Identity_to_proto (Identity_from (public_of k))) crypto;
     rqs_client_version := ic_client_version config |}.

Definition session_request (request_id : Z) (session_id : list Z) (req : request_Session) : Packet :=
  {| pkt_session_id := session_id;
     pkt_kind := Some (PkRequest {| rq_request_id := request_id; rq_kind := Some (RqSession req) |}) |}.

Definition last_response (resp : ChallengeResponse) (supported : list string) : response_Session :=
  {| rss_challenge_req := None; rss_challenge_resp := Some resp;
     rss_supported_encryptions := supported; rss_identities := [] |}.

Lemma init_session_runs fuel raw ids2 session_id response1 req resp supported ids key solution w :
  ready (Outgoing ConnectIntent) (wd_client w) ->
  held None (wd_init w) -> zlen session_id = SESSION_ID_SIZE ->
  rss_challenge_req response1 = Some req ->
  solve_challenge fuel (cq_challenge req) (cq_difficulty req) = Some (Ok solution) ->
  recover_identities_from_challenge raw (ic_challenge_difficulty config) (Some resp) (Some (nv_id v))
    = Ok (nv_id v, ids, key) ->
  (ni_node_id <$> head ids) = Some (nv_id v) ->
  is_Some (match encryption_new feature_encryption feature_strict supported key session_crypto with
           | Ok e => Some e | Err _ => None end) ->
  exists d w',
    init_session feature_encryption feature_strict session_crypto config env fuel addr v true raw ids2
      (Some (session_id, response1)) (Some (session_id, last_response resp supported)) w
    = Done (Ok d) w' /\
    ready (Outgoing InitReady) (wd_client w') /\
    wd_sent w' = wd_sent w ++
      [(session_request ids2.1 [] (first_request raw), addr);
       (session_request ids2.2 session_id
          (answer_request feature_encryption (solve solution crypto (session_pub_key session_crypto))),
        addr);
       (Packet_control session_id (CtResumeForwarding 0), addr)] /\
    answered ids supported key session_id d.
Proof.
  intros Hr Hc Hsid Hreq Hsol Hrec Hhd He. unfold init_session, task_bind at 1.
  destruct (runs_outgoing (Outgoing ConnectIntent) Initializing eq_refl None w Hr Hc) as
    ([] & w1 & -> & Hr1 & Hc1 & Hs1 & _). rewrite app_nil_r in Hs1. rewrite <- Hs1.
  eapply runs_leased; [|done|done].
  intros tmp lease w2 Hr2 Hh2 _.
  unfold prepare_session_request. rewrite Hcrypto. cbn [prepare_challenge_request prepare_challenge result_bind].
  revert lease w2 Hr2 Hh2. 
  apply (runs_bind _ _ _ (Outgoing Initializing) _ [] _ (fun x => x = (first_request raw, raw)));
    [by apply runs_ret|]. intros x ->.
  apply (runs_bind _ _ _ (Outgoing Initializing) _ [_] [_; _] (fun r => r = (session_id, response1)));
    [by apply runs_request|]. intros r ->.
  apply (runs_bind _ _ _ (Outgoing ChallengeHandshake) _ [] _ (fun _ => True)); [by apply runs_outgoing|].
  intros _ _. cbn [fst snd]. unfold SessionId_try_from. rewrite Hsid. cbn [Z.eqb]. rewrite Hreq.
  eapply (runs_bind _ _ _ (Outgoing ChallengeHandshake) _ [] _); [by apply runs_solve|]. intros r ->.
  apply (runs_bind _ _ _ (Outgoing ChallengeHandshake) _ [_] [_] (fun r => r = (session_id, last_response resp supported)));
    [by apply runs_request|]. intros r ->.
  by apply runs_conclude.
Qed.

Definition last_request (resp : ChallengeResponse) (supported : list string) : request_Session :=
  {| rqs_challenge_req := None; rqs_challenge_resp := Some resp;
     rqs_supported_encryptions := supported; rqs_identities := []; rqs_client_version := EmptyString |}.

Section Accepting.
Context (fuel : nat) (request_id request_id2 : Z) (session_id : SessionId) (raw : list Z).
Context (req : request_Session) (challenge_req : ChallengeRequest) (resp : ChallengeResponse).
Context (supported : list string) (ids : list NodeIdentity) (key : option PublicKey) (solution : list Z).
Context (Hreq : rqs_challenge_req req = Some challenge_req).
Context (Hsol : solve_challenge fuel (cq_challenge challenge_req) (cq_difficulty challenge_req)
                = Some (Ok solution)).
Context (Hrec : recover_identities_from_challenge raw (ic_challenge_difficulty config) (Some resp)
                  (Some (nv_id v)) = Ok (nv_id v, ids, key)).
Context (Hhd : (ni_node_id <$> head ids) = Some (nv_id v)).
Context (He : is_Some (match encryption_new feature_encryption feature_strict supported key session_crypto with
                       | Ok e => Some e | Err _ => None end)).

Definition two_responses : list (Packet * SocketAddr) :=
  [(Packet_response request_id session_id StatusOk
      (RsSession (prepare_challenge_response (ic_challenge_difficulty config) raw).1), addr);
   (Packet_response request_id2 session_id StatusOk
      (RsSession (last_response (solve solution crypto (session_pub_key session_crypto))
                    (supported_encryptions feature_encryption))), addr)].

Lemma handler_runs tmp w :
  ready (Incoming ConnectIntent) (wd_client w) -> held (Some tmp) (wd_init w) ->
  exists d w',
    init_session_handler feature_encryption feature_strict session_crypto config env fuel addr request_id
      session_id v req raw (Some (request_id2, last_request resp supported)) w = Done (Ok d) w' /\
    ready (Incoming InitReady) (wd_client w') /\ held (Some tmp) (wd_init w') /\
    wd_sent w' = wd_sent w ++ two_responses /\ answered ids supported key session_id d.
Proof.
  intros Hr Hh. unfold init_session_handler, task_bind at 1.
  destruct (runs_incoming ConnectIntent Initializing eq_refl (Some tmp) w Hr Hh) as
    ([] & w1 & -> & Hr1 & Hh1 & Hs1 & _). rewrite app_nil_r in Hs1. rewrite <- Hs1.
  pose proof (proj2 Hh1 tmp eq_refl) as (e & He' & _).
  unfold task_bind at 1, get_temporary_session. rewrite He'. cbn [fmap option_fmap option_map].
  cbn [prepare_challenge_response prepare_challenge].
  generalize dependent w1. intros w1 Hr1 Hh1 _ _. revert Hr1 Hh1. generalize (Some tmp). intros lease.
  revert lease w1.
  apply (runs_bind _ _ _ (Incoming Initializing) _ [_] [_] (fun _ => True)); [apply runs_send|]. intros _ _.
  apply (runs_bind _ _ _ (Incoming ChallengeHandshake) _ [] _ (fun _ => True)); [by apply runs_incoming|].
  intros _ _. apply (runs_bind _ _ _ (Incoming ChallengeHandshake) _ [] _ (fun _ => True)); [apply runs_await|].
  intros _ _. rewrite Hreq. by apply runs_accept.
Qed.

Lemma new_session_runs w :
  ready (Incoming ConnectIntent) (wd_client w) -> held None (wd_init w) ->
  (reserve_incoming (wd_init w) session_id addr).1 = true ->
  exists d w',
    new_session feature_encryption feature_strict session_crypto config env fuel request_id addr v req
      session_id raw (Some (request_id2, last_request resp supported)) w = Done (Ok d) w' /\
    ready (Incoming InitReady) (wd_client w') /\
    wd_sent w' = wd_sent w ++ two_responses /\ answered ids supported key session_id d.
Proof.
  intros Hr Hc Hres. unfold new_session.
  assert (exists s, reserve_incoming (wd_init w) session_id addr = (true, s) /\ held None s) as (s & -> & Hc').
  { destruct (reserve_incoming _ _ _) as [b s] eqn:Hs. cbn in Hres. subst b. exists s. split; [done|].
    unfold reserve_incoming in Hs. case_match_hyp Hs; [done|]. by injection Hs as <-. }
  destruct (runs_leased (fun _ => init_session_handler feature_encryption feature_strict session_crypto
      config env fuel addr request_id session_id v req raw
      (Some (request_id2, last_request resp supported))) (Incoming ConnectIntent) (Incoming InitReady)
      two_responses (answered ids supported key session_id)) with (w := with_init w s)
    as (d & w' & Hd & Hr' & Hs' & HQ); [|exact Hr|exact Hc'|].
  - intros tmp lease w1 Hr1 Hh1 ->. apply handler_runs; [exact Hr1|exact Hh1].
  - rewrite Hd. eexists d, _. split; [done|]. split; [exact Hr'|]. split; [exact Hs'|exact HQ].
Qed.
End Accepting.
End Runs.

(** ** Two parties *)

Section HonestHandshake.
Context `{HL : HashesLaws} `{EL : EthSignLaws} `{K : !KeyAgreement} `{KL : !KeyAgreementLaws} `{B : ExponentialBackoff}.
Context (feature_strict : bool).

(** A node that takes part in a handshake: its keys and configuration, the entry
    of the other one and its address, the challenge it generates, and where it
    starts from. *)
Record Party : Type := {
  py_provider : CryptoProvider;
  py_config : InitConfig;
  py_session_crypto : SessionCrypto;
  py_env : Environment;
  py_view : NodeView;
  py_remote : SocketAddr;
  py_raw : list Z;
  py_world : World }.

(** The keys of a party; the first is the one of its id. *)
Definition keys_of (p : Party) (crypto : list SecretKey) : Prop :=
  list_crypto (C := py_provider p) (py_config p) = Ok crypto /\
  (fun k => pk_address (public_of k)) <$> head crypto = Some (ic_node_id (py_config p)).

Definition identities_of (crypto : list SecretKey) : list NodeIdentity :=
  map (fun k => Identity_from (public_of k)) crypto.

(** Some 64-bit counter gives a solution of the challenge. *)
Definition solvable (challenge : list Z) (difficulty : Z) : Prop :=
  exists k, 0 <= k < 2 ^ 64 /\
    verify challenge difficulty (be_bytes 8 k ++ digest (be_bytes 8 k) challenge) = Ok true.

(** A party can take part in a handshake with another. *)
Record able (p other : Party) (crypto : list SecretKey) (st : ConnState) : Prop := {
  ab_keys : keys_of p crypto;
  ab_other : nv_id (py_view p) = ic_node_id (py_config other);
  ab_challenge : solvable (py_raw p) (ic_challenge_difficulty (py_config p));
  ab_undisturbed : undisturbed (py_env p) (py_view p) (py_remote p);
  ab_ready : ready (py_view p) st (wd_client (py_world p));
  ab_users : held (py_remote p) None (wd_init (py_world p)) }.

Lemma solvable_solved challenge difficulty :
  solvable challenge difficulty ->
  exists solution fuel0, verify challenge difficulty solution = Ok true /\
    forall fuel, (fuel0 <= fuel)%nat -> solve_challenge fuel challenge difficulty = Some (Ok solution).
Proof.
  intros (k & Hk & Hv). destruct (solve_challenge_total challenge difficulty) as ([s|e] & (f & Hf) & Hr).
  - exists s, f. split; [by destruct Hr|done].
  - destruct Hr as [_ Hr]. specialize (Hr k Hk). congruence.
Qed.

Lemma solve_recovered raw difficulty solution crypto spk id :
  verify raw difficulty solution = Ok true ->
  (fun k => pk_address (public_of k)) <$> head crypto = Some id ->
  recover_identities_from_challenge raw difficulty (Some (solve solution crypto spk)) (Some id)
  = Ok (id, identities_of crypto, Some spk).
Proof.
  intros Hv Hh. destruct crypto as [|k ks]; [done|]. injection Hh as <-.
  unfold recover_identities_from_challenge. by rewrite solve_response_accepted.
Qed.

Lemma cipher_chosen (own other : SessionCrypto) :
  encryption_new true feature_strict (supported_encryptions true) (Some (session_pub_key other)) own
  = Ok (Aes256GcmSivEncryption (secret_with own (session_pub_key other))).
Proof. unfold encryption_new. cbn. unfold enforce_encryption_policy. cbn. by rewrite andb_false_r. Qed.

End HonestHandshake.

(** ** Example *)

Section Witness.
Import ToyHandshake.

(** Node [k], which connects to or is connected by node [other]. *)
Definition toy_party (k other : Z) (incoming : bool) (raw : list Z) : Party :=
  {| py_provider := toy_provider k; py_config := toy_config k; py_session_crypto := toy_secret k;
     py_env := toy_env; py_view := toy_view other; py_remote := toy_address other; py_raw := raw;
     py_world := toy_world other incoming |}.

Lemma toy_undisturbed v addr : undisturbed toy_env v addr.
Proof. split; [done|]. split; [done|]. by intros n c s c' s' [= <- <-]. Qed.

Lemma toy_solvable : solvable [3; 4] 5 /\ solvable [4; 3] 5.
Proof. split; exists 0; (split; [done|vm_compute; reflexivity]). Qed.

End Witness.
