(* ===== verification/RelayHandshake.v ===== *)
(** A client and the relay server together: the handshake of [init_server_session]
    ([client/src/session/session_initializer.rs]) against the handlers of the server
    ([server/src/server/session.rs]).  What the client sends is what the server is
    given, and what the server answers is what the client is given. *)

From S2P Require Import Prelude Payload Proto Codec Challenge NodeInfo ServerState SessionManager.
From S2P Require Import SlotManager ServerCore IpChecker Handlers Server ToyServer.
From S2P Require Import SessionState DirectSession Encryption ClientForward NetworkView NetworkViewProps.
From S2P Require Import ClientSessions SessionInit HandshakeProps ConnectSession ConnectProps HonestHandshake.

(** ** The side of the client *)

Section Joining.
Context `{HH : Hashes} `{E : EthSign} `{K : !KeyAgreement} `{B : ExponentialBackoff} `{C : !CryptoProvider}.
Context (feature_encryption feature_strict : bool) (session_crypto : SessionCrypto).
Context (config : InitConfig) (env : Environment) (v : NodeView) (addr : SocketAddr).
Context (Hu : undisturbed env v addr) (Hv : nv_id v = NodeId_default).

(** A session with a relay is published: it is the one of its address, and leads
    to no node. *)
Definition published_relay (c c' : Client) (d : nat) (session_id : SessionId) : Prop :=
  publication_guard (cl_registry c) v = true /\
  session_at (cl_state c') d =
    Some {| ds_generation := generation (cl_registry c) v;
            ds_owner := {| nde_default_id := NodeId_default; nde_identities := [] |};
            ds_id := session_id; ds_remote := addr; ds_forwards := AllowedForwards_default |} /\
  ly_p2p_sessions (cl_state c') = <[addr := d]> (ly_p2p_sessions (cl_state c)) /\
  ly_nodes (cl_state c') = ly_nodes (cl_state c) /\ ly_routings (cl_state c') = ly_routings (cl_state c).

Abbreviation joined session_id := (fun d => exists c c', published_relay c c' d session_id).

Lemma runs_register_relay st session_id supported :
  is_over st = false ->
  runs v addr (register feature_encryption feature_strict session_crypto env
      {| sri_addr := addr; sri_id := session_id; sri_node_id := NodeId_default; sri_identities := [];
         sri_supported_encryptions := supported; sri_session_key := None |} v) st st []
    (joined session_id).
Proof.
  intros Hst. apply (runs_bind _ _ _ _ st st _ [] [] _ _ (runs_await _ _ _ Hu st)).
  intros _ _ lease w Hr Hh.
  assert (publication_guard (cl_registry (wd_client w)) v = true) as Hg.
  { destruct Hr as (Hc & Hs & _). unfold publication_guard. by rewrite Hc, Hs, Hst. }
  pose proof Hr as (_ & _ & Hsink). unfold register_session. rewrite Hg, Hsink. cbn [negb].
  set (c' := {| cl_registry := cl_registry (wd_client w);
                cl_state := (publish_session (cl_state (wd_client w))
                   (with_generation (DirectSession_new_relay NodeId_default session_id addr)
                      (generation (cl_registry (wd_client w)) v)) None).2 |}).
  exists (length (ly_sessions (cl_state (wd_client w)))), (with_client w c').
  split; [reflexivity|]. split; [exact Hr|]. split; [exact Hh|]. rewrite app_nil_r. split; [done|].
  exists (wd_client w), c'. split; [done|]. split; [|done]. unfold session_at. cbn.
  by rewrite lookup_app_r, Nat.sub_diag by lia.
Qed.

Lemma runs_conclude_relay raw tmp session_id response :
  runs v addr (conclude feature_encryption feature_strict session_crypto config env addr v false raw tmp
          session_id (session_id, response))
    (Outgoing ChallengeHandshake) (Outgoing InitReady)
    [(Packet_control session_id (CtResumeForwarding 0), addr)] (joined session_id).
Proof.
  unfold conclude. rewrite Hv.
  apply (runs_bind _ _ _ _ _ (Outgoing HandshakeResponse) _ [] _ (fun _ => True)); [by apply runs_outgoing|].
  intros _ _. rewrite bool_decide_eq_false_2 by tauto. cbn [recovered].
  apply (runs_bind _ _ _ _ _ (Outgoing ChallengeVerified) _ [] _ (fun _ => True)); [by apply runs_outgoing|].
  intros _ _. rewrite bool_decide_eq_false_2 by tauto. cbn [andb].
  eapply (runs_bind _ _ _ _ _ (Outgoing ChallengeVerified) _ [] _); [by apply runs_register_relay|]. intros d Hd.
  apply (runs_bind _ _ _ _ _ (Outgoing SessionRegistered) _ [] _ (fun _ => True)); [by apply runs_outgoing|].
  intros _ _.
  apply (runs_bind _ _ _ _ _ (Outgoing SessionRegistered) _ [_] [] (fun _ => True)); [by apply runs_send|].
  intros _ _.
  apply (runs_bind _ _ _ _ _ (Outgoing InitReady) _ [] [] (fun _ => True)); [by apply runs_outgoing|].
  intros _ _. by apply runs_ret.
Qed.

(** A party to the handshake: its keys and the identities they stand for. *)
Context (crypto : list SecretKey) (Hcrypto : list_crypto config = Ok crypto).

(** The first message to a relay does not ask for a challenge to be solved. *)
Definition relay_request : request_Session :=
  {| rqs_challenge_req := None; rqs_challenge_resp := None; rqs_supported_encryptions := [];
     rqs_identities := map (fun k => Identity_to_proto (Identity_from (public_of k))) crypto;
     rqs_client_version := ic_client_version config |}.

Lemma init_server_session_runs fuel raw ids session_id response1 response2 req solution w :
  ready v (Outgoing ConnectIntent) (wd_client w) -> held addr None (wd_init w) ->
  zlen session_id = SESSION_ID_SIZE -> rss_challenge_req response1 = Some req ->
  solve_challenge fuel (cq_challenge req) (cq_difficulty req) = Some (Ok solution) ->
  exists d w',
    init_server_session feature_encryption feature_strict session_crypto config env fuel addr v raw ids
      (Some (session_id, response1)) (Some (session_id, response2)) w = Done (Ok d) w' /\
    ready v (Outgoing InitReady) (wd_client w') /\
    wd_sent w' = wd_sent w ++
      [(session_request ids.1 [] relay_request, addr);
       (session_request ids.2 session_id
          (answer_request feature_encryption (solve solution crypto (session_pub_key session_crypto))),
        addr);
       (Packet_control session_id (CtResumeForwarding 0), addr)] /\
    joined session_id d.
Proof.
  intros Hr Hc Hsid Hreq Hsol. unfold init_server_session, init_session, task_bind at 1.
  destruct (runs_outgoing _ _ _ Hu (Outgoing ConnectIntent) Initializing eq_refl None w Hr Hc) as
    ([] & w1 & -> & Hr1 & Hc1 & Hs1 & _). rewrite app_nil_r in Hs1. rewrite <- Hs1.
  eapply runs_leased; [|done|done].
  intros tmp lease w2 Hr2 Hh2 _.
  unfold prepare_session_request. rewrite Hcrypto. cbn [prepare_challenge_request prepare_challenge result_bind].
  revert lease w2 Hr2 Hh2.
  apply (runs_bind _ _ _ _ _ (Outgoing Initializing) _ [] _ (fun x => x = (relay_request, raw)));
    [by apply runs_ret|]. intros x ->.
  apply (runs_bind _ _ _ _ _ (Outgoing Initializing) _ [_] [_; _] (fun r => r = (session_id, response1)));
    [by apply runs_request|]. intros r ->.
  apply (runs_bind _ _ _ _ _ (Outgoing ChallengeHandshake) _ [] _ (fun _ => True)); [by apply runs_outgoing|].
  intros _ _. cbn [fst snd]. unfold SessionId_try_from. rewrite Hsid. cbn [Z.eqb]. rewrite Hreq.
  eapply (runs_bind _ _ _ _ _ (Outgoing ChallengeHandshake) _ [] _); [by apply runs_solve|]. intros r ->.
  apply (runs_bind _ _ _ _ _ (Outgoing ChallengeHandshake) _ [_] [_] (fun r => r = (session_id, response2)));
    [by apply runs_request|]. intros r ->.
  by apply runs_conclude_relay.
Qed.
End Joining.

(** ** The side of the server *)

(** What is recovered for an expected id is recovered for any. *)
Lemma recover_any_id `{Hashes} `{EthSign} raw difficulty resp id r :
  recover_identities_from_challenge_with_proof raw difficulty resp (Some id) = Ok r ->
  recover_identities_from_challenge_with_proof raw difficulty resp None = Ok r.
Proof.
  unfold recover_identities_from_challenge_with_proof.
  destruct (ok_or resp _) as [resp'|]; [|done]. cbn [result_bind].
  destruct (verify raw difficulty _) as [[]|]; [|done..]. cbn [result_bind negb].
  destruct (ok_or (head _) _) as [sig|]; [|done]. cbn [result_bind].
  destruct (recover sig _) as [key|]; [|done]. cbn [result_bind]. by case_bool_decide.
Qed.

Section Serving.
Context `{HH : Hashes} `{EL : EthSignLaws} `{T : IpText} `{V : Semver} `{KL : KeccakLaws}.
Context `{!CacheOps SocketAddr (Z * bool)} `{!CacheOps SessionId Z}.
Context (session_hash : SessionId -> Z) (cf : ServerConfig).

(** The id and the challenge of a session of a client, made from the address and
    the time, and what is sent to ask for them. *)
Definition offered_id (env : Env) (src : SocketAddr) : SessionId := gen_new_challenge cf src (epoch env).

Definition offer (session_id : SessionId) : response_Session :=
  {| rss_challenge_req :=
       Some {| cq_version := cq_version (prepare_challenge (cf_difficulty cf) []).1;
               cq_caps := cq_caps (prepare_challenge (cf_difficulty cf) []).1;
               cq_kind := cq_kind (prepare_challenge (cf_difficulty cf) []).1;
               cq_difficulty := cf_difficulty cf; cq_challenge := session_challenge cf session_id |};
     rss_challenge_resp := None; rss_supported_encryptions := []; rss_identities := [] |}.

Lemma offered_id_len env src : zlen (offered_id env src) = SESSION_ID_SIZE.
Proof.
  unfold offered_id, gen_new_challenge, ztake. pose proof (keccak256_len (addr_octets (sa_ip src) ++ be_bytes 2 (sa_port src) ++
    cf_salt cf ++ ne_bytes 8 (cf_difficulty cf) ++ ne_bytes 8 (epoch env))) as Hl.
  unfold zlen in *. rewrite length_take. unfold SESSION_ID_SIZE. lia.
Qed.

Lemma first_request_served env src request_id req sv version :
  validate_client_version (rqs_client_version req) (cf_min_client_version cf) = Ok version ->
  serve session_hash cf env PtData src (KPacket (session_request request_id [] req)) sv =
    Ret (send_to src (DgPacket (Packet_response request_id (offered_id env src) StatusOk
           (RsSession (offer (offered_id env src))))) sv).
Proof. intros Hversion. unfold serve. cbn. by rewrite Hversion. Qed.

(** An id that was offered not more than two epochs ago is recognised. *)
Lemma check_offered_id env env1 src :
  0 <= epoch env1 -> epoch env1 <= epoch env <= epoch env1 + 2 ->
  check_session_id cf env (offered_id env1 src) src = Ret true.
Proof.
  intros Hpos Hle. unfold check_session_id, offered_id. cbn [check_epochs].
  assert (epoch env1 = epoch env - 0 \/ epoch env1 = epoch env - 1 \/ epoch env1 = epoch env - 2)
    as [He|[He|He]] by lia;
    repeat (rewrite (proj2 (Z.ltb_ge _ _)) by lia; case_bool_decide; [done|]; try congruence).
Qed.

(** The session a client gets: its address and what it proved. *)
Definition session_of_client (env : Env) (src : SocketAddr) (session_id : SessionId)
  (crypto : list SecretKey) (spk : PublicKey) (id : NodeId) (encryptions : list string) : Session :=
  {| s_session_id := session_id; s_peer := src; s_ts := ck_ts (clock_of cf env); s_node_id := id;
     s_keys := identities_of crypto; s_supported_encryptions := encryptions; s_addr_status := Unknown;
     s_session_key := Some (spk, proof_table (pk_bytes spk) crypto ∅) |}.

Lemma second_request_served env env1 src request_id fe crypto spk solution id sv :
  0 <= epoch env1 -> epoch env1 <= epoch env <= epoch env1 + 2 ->
  verify (session_challenge cf (offered_id env1 src)) (cf_difficulty cf) solution = Ok true ->
  (fun k => pk_address (public_of k)) <$> head crypto = Some id ->
  SessionManager.sm_inv session_hash (sv_sessions sv) ->
  (forall l s, Handlers.find_session session_hash (offered_id env1 src) sv = Some (l, s) -> s_node_id s = id) ->
  exists sv',
    serve session_hash cf env PtData src (KPacket (session_request request_id (offered_id env1 src)
      (answer_request fe (solve solution crypto spk)))) sv = Ret sv' /\
    sv_sent sv' = sv_sent sv ++ [(src, DgPacket (Packet_response request_id (offered_id env1 src) StatusOk
                                                  (RsSession response_Session_default)))] /\
    forall id', Handlers.find_session session_hash id' sv' =
      match Handlers.find_session session_hash (offered_id env1 src) sv with
      | None =>
          if decide (offered_id env1 src = id')
          then Some (sm_next (sv_sessions sv),
                     session_of_client env src (offered_id env1 src) crypto spk id (supported_encryptions fe))
          else Handlers.find_session session_hash id' sv
      | Some _ => Handlers.find_session session_hash id' sv
      end.
Proof.
  intros Hpos Hle Hverify Hid Hm Hold. pose proof (offered_id_len env1 src) as Hlen.
  pose proof (check_offered_id env env1 src Hpos Hle) as Hcheck. set (sid := offered_id env1 src) in *. unfold serve. cbn [dispatch session_request].
  assert (SessionId_from_wire sid = Some (Some sid)) as ->.
  { unfold SessionId_from_wire, SessionId_try_from. rewrite bool_decide_eq_false_2 by (intros Hn; by rewrite Hn in Hlen).
    by rewrite Hlen. }
  cbn [dispatch_request]. unfold session_handle. cbn [answer_request rqs_challenge_resp].
  destruct crypto as [|k ks]; [done|]. injection Hid as <-.
  rewrite (recover_any_id _ _ _ _ _ (solve_response_accepted _ _ solution k ks spk Hverify)).
  rewrite Hcheck. cbn [outcome_bind negb].
  cbn [rqs_supported_encryptions answer_request]. unfold Handlers.find_session in *.
  destruct (session session_hash (sv_sessions sv) sid) as [l|] eqn:Es.
  - destruct (session_placed _ _ _ _ Hm Es) as (s & Hg & _).
    assert (table session_hash (sv_sessions sv) sid = Some (l, s)) as Ht by by apply table_session.
    rewrite Ht. unfold SessionManager.new_session. unfold session in Es. rewrite Es, Hg.
    rewrite bool_decide_eq_false_2 by (intros Hn; apply Hn; by eapply Hold). by eexists.
  - rewrite (proj2 (table_None session_hash _ sid Hm)) by done.
    pose proof (table_new session_hash (sv_sessions sv) (clock_of cf env) sid src (pk_address (public_of k))
      (identities_of (k :: ks)) (supported_encryptions fe)
      (Some (spk, proof_table (pk_bytes spk) (k :: ks) ∅))) as Hnew.
    destruct (new_session_alloc session_hash (sv_sessions sv) (clock_of cf env) sid src
      (pk_address (public_of k)) (identities_of (k :: ks)) (supported_encryptions fe)
      (Some (spk, proof_table (pk_bytes spk) (k :: ks) ∅)) Es) as (s & Hal & _).
    fold (identities_of (k :: ks)). rewrite Hal. rewrite Hal in Hnew. eexists. split; [reflexivity|].
    split; [done|]. intros id'. by apply Hnew.
Qed.
End Serving.

(** ** Both sides *)

Section Together.
Context `{HL : HashesLaws} `{EL : EthSignLaws} `{K : !KeyAgreement} `{B : ExponentialBackoff}.
Context `{T : IpText} `{V : Semver} `{KL : KeccakLaws}.
Context `{!CacheOps SocketAddr (Z * bool)} `{!CacheOps SessionId Z}.
Context (session_hash : SessionId -> Z) (cf : ServerConfig).

(** A client that can join the server: its keys, the entry of the relay, other
    tasks that leave the handshake alone, and a version the server accepts. *)
Record joins (p : Party) (crypto : list SecretKey) : Prop := {
  jn_keys : keys_of p crypto;
  jn_relay : nv_id (py_view p) = NodeId_default;
  jn_undisturbed : undisturbed (py_env p) (py_view p) (py_remote p);
  jn_ready : ready (py_view p) (Outgoing ConnectIntent) (wd_client (py_world p));
  jn_users : held (py_remote p) None (wd_init (py_world p));
  jn_version : is_ok (validate_client_version (ic_client_version (py_config p)) (cf_min_client_version cf)) = true }.

(** C9: a client joins the relay.  Take a client whose other tasks leave the
    handshake alone, and a server that answers its two requests not more than two
    epochs apart and does anything else in between.  With enough steps for the
    challenge, the client sends two requests when it gets two responses, and the
    server sends these responses when it gets these requests.  Afterwards the
    client has published the session and, when the permit is dropped, is
    established in it.  If the id of the session was free, the server has a session
    under the same id for the address, the identities, the encryptions and the key
    of the client; if there was a session of the node under this id, which depends
    only on the address and the epoch, then the server keeps it as it was, and
    with it the key of that time.  All other sessions stay as they are. *)
Theorem relay_handshake (fe strict : bool) p crypto src env1 env2 sv1 sv2 ids :
  joins p crypto ->
  0 <= epoch env1 -> epoch env1 <= epoch env2 <= epoch env1 + 2 ->
  solvable (session_challenge cf (offered_id cf env1 src)) (cf_difficulty cf) ->
  SessionManager.sm_inv session_hash (sv_sessions sv2) ->
  (forall l s, Handlers.find_session session_hash (offered_id cf env1 src) sv2 = Some (l, s) ->
     s_node_id s = ic_node_id (py_config p)) ->
  let sid := offered_id cf env1 src in
  exists fuel0, forall fuel, (fuel0 <= fuel)%nat ->
  exists request1 response1 request2 response2 d w c c' sv1' sv2',
    init_server_session (C := py_provider p) fe strict (py_session_crypto p) (py_config p) (py_env p) fuel
      (py_remote p) (py_view p) (py_raw p) ids (Some (sid, response1)) (Some (sid, response2)) (py_world p)
      = Done (Ok d) w /\
    wd_sent w = wd_sent (py_world p) ++
      [(session_request ids.1 [] request1, py_remote p);
       (session_request ids.2 sid request2, py_remote p);
       (Packet_control sid (CtResumeForwarding 0), py_remote p)] /\
    serve session_hash cf env1 PtData src (KPacket (session_request ids.1 [] request1)) sv1 = Ret sv1' /\
    sv_sent sv1' = sv_sent sv1 ++
      [(src, DgPacket (Packet_response ids.1 sid StatusOk (RsSession response1)))] /\
    serve session_hash cf env2 PtData src (KPacket (session_request ids.2 sid request2)) sv2 = Ret sv2' /\
    sv_sent sv2' = sv_sent sv2 ++
      [(src, DgPacket (Packet_response ids.2 sid StatusOk (RsSession response2)))] /\
    published_relay (py_view p) (py_remote p) c c' d sid /\
    (exists reg, async_drop (cl_registry (wd_client w)) (result_permit (py_view p) (Ok d)) = Some reg /\
       NodeView_state reg (py_view p) = Established d) /\
    match Handlers.find_session session_hash sid sv2 with
    | None => exists l, Handlers.find_session session_hash sid sv2' =
        Some (l, session_of_client cf env2 src sid crypto (session_pub_key (py_session_crypto p))
                   (ic_node_id (py_config p)) (supported_encryptions fe))
    | Some kept => Handlers.find_session session_hash sid sv2' = Some kept
    end /\
    forall id, id <> sid ->
      Handlers.find_session session_hash id sv2' = Handlers.find_session session_hash id sv2.
Proof.
  intros [[Hkeys Hhead] Hrelay Hundist Hready Husers Hversion] Hpos Hle Hsolv Hm Hold sid.
  apply solvable_solved in Hsolv as (solution & fuel0 & Hverify & Hfuel).
  exists fuel0. intros fuel Hf. specialize (Hfuel fuel Hf).
  destruct (validate_client_version _ _) as [version|] eqn:Hval; [|done].
  destruct (init_server_session_runs (C := py_provider p) fe strict (py_session_crypto p) (py_config p)
    (py_env p) (py_view p) (py_remote p) Hundist Hrelay crypto Hkeys fuel (py_raw p) ids sid (offer cf sid)
    response_Session_default _ solution (py_world p) Hready Husers (offered_id_len cf env1 src) eq_refl Hfuel)
    as (d & w & Hrun & (Hc & Hs & _) & Hsent & c & c' & Hpub).
  destruct (second_request_served session_hash cf env2 env1 src ids.2 fe crypto
    (session_pub_key (py_session_crypto p)) solution (ic_node_id (py_config p)) sv2 Hpos Hle Hverify Hhead Hm Hold)
    as (sv2' & Hserve & Hsent2 & Htable).
  exists (relay_request (py_config p) crypto), (offer cf sid).
  eexists _, response_Session_default, d, w, c, c', _, sv2'.
  split; [exact Hrun|]. split; [exact Hsent|].
  split; [by apply (first_request_served session_hash cf env1 src ids.1 _ sv1 version)|].
  split; [done|]. split; [exact Hserve|]. split; [exact Hsent2|]. split; [exact Hpub|].
  split; [apply drop_established; [done|by rewrite Hs]|]. split.
  - rewrite Htable. fold sid. destruct (Handlers.find_session session_hash sid sv2) eqn:Ef; [done|].
    rewrite decide_True by done. eauto.
  - intros id Hid. rewrite Htable. fold sid.
    destruct (Handlers.find_session session_hash sid sv2); [done|]. by rewrite decide_False.
Qed.
End Together.

(** ** Example *)

Section Witness.
Import ToyHandshake ToyIp.

(** Node 11 joins an empty server from the address [toy_address 11]. *)
Definition joining_party : Party :=
  {| py_provider := toy_provider 11; py_config := HandshakeProps.ToyHandshake.toy_config 11;
     py_session_crypto := toy_secret 11; py_env := HandshakeProps.ToyHandshake.toy_env;
     py_view := toy_view 0; py_remote := toy_address 0; py_raw := [3; 4]; py_world := toy_world 0 false |}.

Definition join_hash (id : SessionId) : Z := default 0 (head id).

Lemma relay_handshake_witness :
  exists fuel0, forall fuel, (fuel0 <= fuel)%nat -> exists response1 response2 d w,
    init_server_session (C := toy_provider 11) true true (toy_secret 11)
      (HandshakeProps.ToyHandshake.toy_config 11) HandshakeProps.ToyHandshake.toy_env fuel
      (toy_address 0) (toy_view 0) [3; 4] (1, 2)
      (Some (offered_id ToyServer.toy_config (ToyServer.toy_env 1) (toy_address 11), response1))
      (Some (offered_id ToyServer.toy_config (ToyServer.toy_env 1) (toy_address 11), response2))
      (toy_world 0 false) = Done (Ok d) w.
Proof.
  destruct (relay_handshake join_hash ToyServer.toy_config true true joining_party [11] (toy_address 11)
    (ToyServer.toy_env 1) (ToyServer.toy_env 700) (Server_new 0) (Server_new 0) (1, 2)) as [fuel0 Hrun].
  - split; [done|done|apply toy_undisturbed|done|done|done].
  - vm_compute. discriminate.
  - vm_compute. split; discriminate.
  - exists 245. split; [done|]. vm_compute. reflexivity.
  - apply inv_new.
  - intros l s Hs. vm_compute in Hs. discriminate Hs.
  - exists fuel0. intros fuel Hf.
    destruct (Hrun fuel Hf) as (_ & r1 & _ & r2 & d & w & _ & _ & _ & _ & Hr & _).
    exists r1, r2, d, w. exact Hr.
Defined.
End Witness.
