(* ===== verification/RelayAgreement.v ===== *)
(** Two clients of one relay.  Each asks the server for the other, takes over what
    it is told ([client/src/session.rs], [crates/core/src/server_session.rs]) and
    negotiates the encryption ([client/src/encryption.rs]); then a message passes from
    one to the other. *)

From S2P Require Import Prelude Payload Proto Codec Challenge NodeInfo ServerState SessionManager.
From S2P Require Import SlotManager ServerCore IpChecker Handlers Server ToyServer ServerProps RelayProps DirectoryProps.
From S2P Require Import DirectSession Encryption ClientForward RelayDelivery HonestHandshake RelayHandshake.

(** ** What the server tells of a node is accepted *)

Section Description.
Context `{HH : Hashes} `{EL : EthSignLaws} `{T : IpText}.

Abbreviation address := (fun k => pk_address (public_of k)).

Lemma proof_table_other spk ks m n :
  n ∉ map address ks -> proof_table spk ks m !! n = m !! n.
Proof.
  revert m. induction ks as [|k ks IH]; intros m Hn; [done|]. simpl in *.
  rewrite IH by set_solver. apply lookup_insert_ne. set_solver.
Qed.

Lemma proof_table_lookup spk ks m k :
  NoDup (map address ks) -> k ∈ ks ->
  proof_table spk ks m !! address k = Some (sign (hash_session_key spk) k).
Proof.
  revert m. induction ks as [|x ks IH]; intros m Hnd Hk; [by apply not_elem_of_nil in Hk|].
  apply NoDup_cons in Hnd as [Hx Hnd]. apply elem_of_cons in Hk as [->|Hk]; simpl; [|by apply IH].
  rewrite proof_table_other by done. apply lookup_insert_eq.
Qed.

Lemma sign_not_nil m k : sign m k <> [].
Proof. unfold sign. by destruct (eth_sign k m) as [[v r] s]. Qed.

Lemma verify_signed spk k :
  verify_session_key spk (sign (hash_session_key spk) k) (Identity_from (public_of k)) = Ok tt.
Proof. unfold verify_session_key. rewrite recover_sign. simpl. by rewrite bool_decide_eq_true_2. Qed.

Lemma authenticate_signed spk ks acc :
  NoDup (map address ks) -> (forall k, k ∈ ks -> address k ∉ acc) ->
  authenticate spk (zip (identities_of ks) (map (sign (hash_session_key spk)) ks)) acc
    = Ok (acc ++ map address ks).
Proof.
  revert acc. induction ks as [|k ks IH]; intros acc Hnd Hacc; simpl in *; [by rewrite app_nil_r|].
  apply NoDup_cons in Hnd as [Hk Hnd]. rewrite bool_decide_eq_false_2 by apply sign_not_nil.
  rewrite verify_signed. cbn [map_err result_bind]. rewrite bool_decide_eq_false_2 by set_solver.
  unfold identities_of in IH. rewrite IH; [by rewrite <- app_assoc|done|].
  intros x Hx [Hin|Heq%list_elem_of_singleton]%elem_of_app; [set_solver|]. apply Hk. rewrite <- Heq.
  apply list_elem_of_In, in_map_iff. exists x. by rewrite <- list_elem_of_In.
Qed.

Lemma identities_accepted ks :
  mapM Identity_try_from (map Identity_to_proto (identities_of ks)) = Some (identities_of ks).
Proof.
  apply mapM_Some_2. induction ks as [|k ks IH]; constructor; [|done].
  unfold Identity_try_from. cbn. by rewrite pk_from_bytes, bool_decide_eq_true_2.
Qed.

Lemma proofs_of_table spk ks :
  NoDup (map address ks) ->
  map (fun i => default [] (proof_table spk ks ∅ !! ni_node_id i)) (identities_of ks) =
  map (sign (hash_session_key spk)) ks.
Proof.
  intros Hnd. unfold identities_of. rewrite map_map. apply map_ext_in. intros k Hk%list_elem_of_In. cbn.
  by rewrite (proof_table_lookup spk ks ∅ k).
Qed.

(** A session that a node got by proving its identities and its key. *)
Definition session_proved (crypto : list SecretKey) (spk : PublicKey) (encryptions : list string)
  (d : Session) : Prop :=
  s_keys d = identities_of crypto /\ s_supported_encryptions d = encryptions /\
  s_session_key d = Some (spk, proof_table (pk_bytes spk) crypto ∅).

(** The session of [relay_handshake] is one. *)
Lemma joined_proved `{Semver} (cf : ServerConfig) env src sid crypto spk id fe :
  session_proved crypto spk (supported_encryptions fe)
    (session_of_client cf env src sid crypto spk id (supported_encryptions fe)).
Proof. done. Qed.

(** What a client makes of the description of it. *)
Definition info_of (crypto : list SecretKey) (spk : PublicKey) (encryptions : list string) (slot : Z)
  (endpoints : list NodeEndpoint) : NodeInfo :=
  {| nf_identities := identities_of crypto; nf_authenticated := map address crypto; nf_slot := slot;
     nf_endpoints := endpoints; nf_supported_encryption := encryptions; nf_session_key := Some spk |}.

Lemma described_accepted info d crypto spk encryptions endpoints :
  describes info d -> session_proved crypto spk encryptions d ->
  crypto <> [] -> NoDup (map address crypto) -> pk_bytes spk <> [] ->
  mapM Endpoint_try_from (option_list (Session_endpoint d)) = Some endpoints ->
  NodeInfo_try_from info = Ok (info_of crypto spk encryptions (rn_slot info) endpoints).
Proof.
  intros (Hi & He & Hs & Hk & Hp & Hps) (Dk & De & Ds) Hne Hnd Hspk Hend.
  rewrite Dk in *. rewrite Ds in *. rewrite De in Hs. cbn [from_option fst snd] in *.
  rewrite proofs_of_table in Hps by done. unfold NodeInfo_try_from, node_session_key.
  rewrite Hi, identities_accepted, Hk, Hp, Hps, Hs, He, Hend. destruct crypto as [|k ks]; [done|].
  pose proof (proof_table_lookup (pk_bytes spk) (k :: ks) ∅ k Hnd ltac:(by left)) as Hown.
  apply NoDup_cons in Hnd as [Hk' Hnd].
  cbn [ok_or result_bind head identities_of map from_option ni_node_id Identity_from].
  cbn beta in Hown. rewrite Hown, bool_decide_eq_false_2 by done. cbn [default from_option id].
  rewrite !zlen_cons. unfold zlen. rewrite !length_map, Z.eqb_refl, andb_false_r.
  rewrite (bool_decide_eq_false_2 _ (sign_not_nil _ k)), verify_signed.
  cbn [map_err result_bind zip zip_with authenticate].
  rewrite (bool_decide_eq_false_2 _ (sign_not_nil _ k)), verify_signed.
  cbn [map_err result_bind ni_node_id Identity_from]. rewrite bool_decide_eq_true_2 by by left.
  fold (identities_of ks). rewrite authenticate_signed; [|done|].
  2: { intros x Hx Heq%list_elem_of_singleton. apply Hk'. rewrite <- Heq. apply list_elem_of_In, in_map_iff.
       exists x. by rewrite <- list_elem_of_In. }
  cbn [result_bind]. rewrite bool_decide_eq_true_2 by (apply elem_of_app; left; by left).
  cbn [negb]. by rewrite pk_from_bytes.
Qed.
End Description.

(** ** Two members *)

Section Agreement.
Context `{HH : Hashes} `{EL : EthSignLaws} `{T : IpText} `{V : Semver} `{Kc : Keccak}.
Context `{!CacheOps SocketAddr (Z * bool)} `{!CacheOps SessionId Z}.
Context `{PL : ProstKeyLaws Packet} `{A : AeadLaws} `{K : !KeyAgreement} `{KL : !KeyAgreementLaws}.
Context (session_hash : SessionId -> Z) (cf : ServerConfig) (strict : bool).

Abbreviation address := (fun k => pk_address (public_of k)).

(** A client of the server: its keys and the key pair of its sessions, its id and
    address, and its session with the server. *)
Record Member : Type := {
  mb_keys : list SecretKey;
  mb_crypto : SessionCrypto;
  mb_id : NodeId;
  mb_addr : SocketAddr;
  mb_direct : DirectSession }.

(** The server has a session of the client at its address, and the latest session of
    the node is as a handshake made it; if its address was checked, it is written in
    a form that can be read. *)
Record member (sv : Server) (m : Member) (d : Session) : Prop := {
  me_live : live_session sv (mb_id m) = Some d;
  me_found : exists l s, find_session_of session_hash (ds_id (mb_direct m)) (mb_addr m) sv = Some (l, s) /\
    s_node_id s = mb_id m;
  me_head : address <$> head (mb_keys m) = Some (mb_id m);
  me_proved : session_proved (mb_keys m) (session_pub_key (mb_crypto m)) (supported_encryptions true) d;
  me_endpoints : is_Some (mapM Endpoint_try_from (option_list (Session_endpoint d)));
  me_distinct : NoDup (map address (mb_keys m));
  me_key : pk_bytes (session_pub_key (mb_crypto m)) <> [];
  me_len : zlen (mb_id m) = 20;
  me_not_relay : mb_id m <> NodeId_default;
  me_session_id : zlen (s_session_id d) = SESSION_ID_SIZE /\ bytes_ok (s_session_id d);
  me_owner : nde_default_id (ds_owner (mb_direct m)) = NodeId_default;
  me_forwards : af_inv (ds_forwards (mb_direct m)) }.

(** What a client makes of the description of a node: the entry in the forwards of
    its session with the server, and the route. *)
Definition entry_from (info : NodeInfo) : NodeEntry :=
  {| nde_default_id := default NodeId_default (ni_node_id <$> head (nf_identities info));
     nde_identities := map ni_node_id (nf_identities info) |}.

Definition add_forward (d : DirectSession) (info : NodeInfo) : DirectSession :=
  {| ds_generation := ds_generation d; ds_owner := ds_owner d; ds_id := ds_id d; ds_remote := ds_remote d;
     ds_forwards := AllowedForwards_add (ds_forwards d) (entry_from info) (nf_slot info) |}.

Definition route_from (info : NodeInfo) (encryption : Encryption) (generation : Z) (route : nat) : NodeRouting :=
  {| nr_generation := generation; nr_node := entry_from info; nr_route := route;
     nr_encryption := encryption; nr_authenticated_identities := nf_authenticated info |}.

Lemma entry_of_member keys spk encryptions slot endpoints id :
  address <$> head keys = Some id ->
  let info := info_of keys spk encryptions slot endpoints in
  nde_default_id (entry_from info) = id /\ nde_default_id (entry_from info) ∈ nde_identities (entry_from info).
Proof. destruct keys as [|k ks]; [done|]. intros [= <-]. split; [done|]. by left. Qed.

(** A member asks for another one. *)
Lemma member_found env request_id sv a b da db :
  SlotManager.sm_inv (sv_slots sv) -> zlen (sm_slots (sv_slots sv)) < 2 ^ 32 ->
  member sv a da -> member sv b db ->
  exists info endpoints sv',
    node_handle session_hash cf env (mb_addr a) request_id (ds_id (mb_direct a)) (mb_id b) sv =
      (Some (Packet_response request_id (ds_id (mb_direct a)) StatusOk (RsNode info)), sv') /\
    NodeInfo_try_from info = Ok (info_of (mb_keys b) (session_pub_key (mb_crypto b))
                                   (supported_encryptions true) (rn_slot info) endpoints) /\
    keeps session_hash sv sv' /\ sv_slots sv' = (SlotManager_slot (sv_slots sv) (mb_id b)).2 /\
    SlotManager_node (sv_slots sv') (rn_slot info) = Some (mb_id b).
Proof.
  intros Hi Hlt Ha Hb. destruct (me_found _ _ _ Ha) as (l & s & Hl & _). destruct (me_endpoints _ _ _ Hb) as [es Hes].
  destruct (node_handle_spec session_hash cf env (mb_addr a) request_id (ds_id (mb_direct a)) (mb_id b)
    (mb_id b) sv l s db Hl) as (info & sv' & Hn & Hk & Hd & Hslot & Hsl); [|apply Hb|].
  { unfold NodeId_try_from. by rewrite (me_len _ _ _ Hb). }
  exists info, es, sv'. split; [done|]. split; [|split; [done|split; [done|]]].
  - eapply described_accepted; try apply Hb; try done.
    pose proof (me_head _ _ _ Hb). by destruct (mb_keys b).
  - rewrite Hsl, Hslot. eapply slot_node; [done|done|]. apply surjective_pairing.
Qed.

(** A member stays one while the server answers lookups. *)
Lemma member_keeps sv sv' m d :
  keeps session_hash sv sv' -> member sv m d -> exists d', member sv' m d' /\ same_description d' d.
Proof.
  intros Hk [Hl (l & s & Hf & Hs) ? Hp He ? ? ? ? Hid ? ?].
  destruct (keeps_live _ _ _ Hk _ _ Hl) as (d' & Hl' & Hsame).
  destruct (keeps_session _ _ _ Hk _ _ _ _ Hf) as (s' & Hf' & (_ & _ & Hs' & _)).
  exists d'. split; [|done]. destruct Hsame as (_ & Hi & _ & Hkeys & Hsup & Hkey & Hep).
  split; try done; unfold session_proved; rewrite ?Hi, ?Hkeys, ?Hsup, ?Hkey, ?Hep; try done.
  exists l, s'. split; [done|congruence].
Qed.

(** A client that added a member with the slot it was told reaches and recognises it. *)
Lemma member_told sv m other d d' slot endpoints :
  member sv m d -> member sv other d' ->
  SlotManager_node (sv_slots sv) FORWARD_SLOT_ID = Some NodeId_default ->
  SlotManager_node (sv_slots sv) slot = Some (mb_id other) ->
  let info := info_of (mb_keys other) (session_pub_key (mb_crypto other)) (supported_encryptions true)
                slot endpoints in
  reaches sv (add_forward (mb_direct m) info) (mb_id other) /\
  recognises sv (add_forward (mb_direct m) info) (mb_id other).
Proof.
  intros Hm Ho Hzero Hslot info.
  destruct (entry_of_member (mb_keys other) (session_pub_key (mb_crypto other)) (supported_encryptions true)
    slot endpoints (mb_id other) (me_head _ _ _ Ho)) as [Hdef Hin].
  pose proof (told_slot sv (mb_direct m) (entry_from info) slot (me_forwards _ _ _ Hm) Hin) as Htold.
  unfold info in Htold. rewrite Hdef in Htold. apply Htold; [|intros ->|done].
  - rewrite (me_owner _ _ _ Hm). intros Heq. by apply (me_not_relay _ _ _ Ho).
  - rewrite Hzero in Hslot. injection Hslot as Heq. by apply (me_not_relay _ _ _ Ho).
Qed.

(** What passes between two members that added each other. *)
Lemma members_deliver env sv a b da db slot_a slot_b es_a es_b key g r g' r' nodes resolve_slot from
  nonce p transport f :
  let nf m slot es := info_of (mb_keys m) (session_pub_key (mb_crypto m)) (supported_encryptions true) slot es in
  SlotManager.sm_inv (sv_slots sv) -> zlen (sm_slots (sv_slots sv)) < 2 ^ 32 ->
  SlotManager_node (sv_slots sv) FORWARD_SLOT_ID = Some NodeId_default ->
  member sv a da -> member sv b db ->
  SlotManager_node (sv_slots sv) slot_a = Some (mb_id a) ->
  SlotManager_node (sv_slots sv) slot_b = Some (mb_id b) ->
  nodes !! mb_id a = Some (route_from (nf a slot_a es_a) (Aes256GcmSivEncryption key) g' r') ->
  zlen nonce = NONCE_SIZE ->
  routing_send (route_from (nf b slot_b es_b) (Aes256GcmSivEncryption key) g r)
    (add_forward (mb_direct a) (nf b slot_b es_b)) nonce p transport = Some f ->
  Forward_wf f ->
  exists sent sv' received payload,
    datagram_encode (P := Packet) (KForward f) [] = Ok sent /\
    worker session_hash cf env PtData (mb_addr a) sent sv = Ret sv' /\
    (exists f' bytes, sv_sent sv' = sv_sent sv ++ [(s_peer db, DgForward f')] /\
       fw_session_id f' = s_session_id db /\
       datagram_encode (P := Packet) (KForward f') [] = Ok bytes /\
       datagram_decode (P := Packet) bytes = Ret (Ok (Some (KForward received)), [])) /\
    on_forward strict resolve_slot nodes received from (Some (add_forward (mb_direct b) (nf a slot_a es_a))) =
      Deliver {| fd_transport := match transport with Unreliable => Unreliable | _ => Reliable end;
                 fd_node_id := mb_id a;
                 fd_authenticated_identities := Some (map address (mb_keys a));
                 fd_payload := payload |} /\
    Payload_as_ref payload = Payload_as_ref p.
Proof.
  intros nf Hi Hlt Hzero Ha Hb Hsa Hsb Hnodes Hnonce Hsend Hwf.
  destruct (me_found _ _ _ Ha) as (l & s & Hfound & Hs).
  destruct (entry_of_member (mb_keys b) (session_pub_key (mb_crypto b)) (supported_encryptions true)
    slot_b es_b (mb_id b) (me_head _ _ _ Hb)) as [Hdef _].
  destruct (forward_through_relay session_hash cf strict env (mb_addr a) sv l s db
    (route_from (nf b slot_b es_b) (Aes256GcmSivEncryption key) g r)
    (add_forward (mb_direct a) (nf b slot_b es_b))
    (route_from (nf a slot_a es_a) (Aes256GcmSivEncryption key) g' r')
    (add_forward (mb_direct b) (nf a slot_a es_a)) nodes resolve_slot from nonce p transport f)
    as (sent & sv' & received & payload & Hx); try done.
  - unfold nr_default_id. cbn [nr_node route_from]. unfold nf. rewrite Hdef. apply Hb.
  - apply Hb.
  - apply Hb.
  - unfold nr_default_id. cbn [nr_node route_from]. unfold nf. rewrite Hdef.
    by apply (member_told sv a b da db).
  - rewrite Hs. by apply (member_told sv b a db da).
  - by rewrite Hs.
  - exists sent, sv', received, payload. rewrite Hs in Hx. exact Hx.
Qed.

(** C3: two clients of one relay reach each other.  Let the server have the sessions
    of two clients, as their handshakes made them.  Each asks the server for the
    other, and accepts the description it gets, with all identities and the session
    key proved.  Both then encrypt with the same key.  After each has added the
    other to the forwards of its session, the bytes one of them sends for a message
    make the server send exactly one datagram, to the latest session of the other;
    and the other, which gets these bytes, delivers the payload unchanged as one of
    the sender, authenticated with all identities of the sender. *)
Theorem relayed_message_delivered env1 env2 request_id1 request_id2 sv a b da db :
  SlotManager.sm_inv (sv_slots sv) -> zlen (sm_slots (sv_slots sv)) + 2 < 2 ^ 32 ->
  SlotManager_node (sv_slots sv) FORWARD_SLOT_ID = Some NodeId_default ->
  member sv a da -> member sv b db ->
  exists info_b info_a nf_b nf_a sv1 sv2 key,
    node_handle session_hash cf env1 (mb_addr a) request_id1 (ds_id (mb_direct a)) (mb_id b) sv =
      (Some (Packet_response request_id1 (ds_id (mb_direct a)) StatusOk (RsNode info_b)), sv1) /\
    node_handle session_hash cf env2 (mb_addr b) request_id2 (ds_id (mb_direct b)) (mb_id a) sv1 =
      (Some (Packet_response request_id2 (ds_id (mb_direct b)) StatusOk (RsNode info_a)), sv2) /\
    NodeInfo_try_from info_b = Ok nf_b /\ NodeInfo_try_from info_a = Ok nf_a /\
    encryption_new true strict (nf_supported_encryption nf_b) (nf_session_key nf_b) (mb_crypto a)
      = Ok (Aes256GcmSivEncryption key) /\
    encryption_new true strict (nf_supported_encryption nf_a) (nf_session_key nf_a) (mb_crypto b)
      = Ok (Aes256GcmSivEncryption key) /\
    forall env g r g' r' nodes resolve_slot from nonce p transport f,
      nodes !! mb_id a = Some (route_from nf_a (Aes256GcmSivEncryption key) g' r') ->
      zlen nonce = NONCE_SIZE ->
      routing_send (route_from nf_b (Aes256GcmSivEncryption key) g r) (add_forward (mb_direct a) nf_b)
        nonce p transport = Some f ->
      Forward_wf f ->
      exists sent sv3 received payload,
        datagram_encode (P := Packet) (KForward f) [] = Ok sent /\
        worker session_hash cf env PtData (mb_addr a) sent sv2 = Ret sv3 /\
        (exists f' bytes, sv_sent sv3 = sv_sent sv ++ [(s_peer db, DgForward f')] /\
           fw_session_id f' = s_session_id db /\
           datagram_encode (P := Packet) (KForward f') [] = Ok bytes /\
           datagram_decode (P := Packet) bytes = Ret (Ok (Some (KForward received)), [])) /\
        on_forward strict resolve_slot nodes received from (Some (add_forward (mb_direct b) nf_a)) =
          Deliver {| fd_transport := match transport with Unreliable => Unreliable | _ => Reliable end;
                     fd_node_id := mb_id a;
                     fd_authenticated_identities := Some (map address (mb_keys a));
                     fd_payload := payload |} /\
        Payload_as_ref payload = Payload_as_ref p.
Proof.
  intros Hi Hlt Hzero Ha Hb.
  destruct (member_found env1 request_id1 sv a b da db Hi ltac:(lia) Ha Hb)
    as (info_b & es_b & sv1 & Hask1 & Hnf_b & K1 & Hsl1 & Hslot_b).
  pose proof (slot_len (sv_slots sv) (mb_id b)) as Hl1. rewrite <- Hsl1 in Hl1.
  assert (SlotManager.sm_inv (sv_slots sv1)) as Hi1 by (rewrite Hsl1; apply slot_inv; [done|apply Hb|lia]).
  destruct (member_keeps _ _ _ _ K1 Ha) as (da1 & Ha1 & _), (member_keeps _ _ _ _ K1 Hb) as (db1 & Hb1 & Hsb1).
  destruct (member_found env2 request_id2 sv1 b a db1 da1 Hi1 ltac:(lia) Hb1 Ha1)
    as (info_a & es_a & sv2 & Hask2 & Hnf_a & K2 & Hsl2 & Hslot_a).
  destruct (member_keeps _ _ _ _ K2 Ha1) as (da2 & Ha2 & _), (member_keeps _ _ _ _ K2 Hb1) as (db2 & Hb2 & Hsb2).
  destruct (same_description_trans _ _ _ Hsb2 Hsb1) as (Hpeer & Hsid & _).
  pose proof (slot_len (sv_slots sv1) (mb_id a)) as Hl2. rewrite <- Hsl2 in Hl2.
  eexists info_b, info_a, _, _, sv1, sv2, (secret_with (mb_crypto a) (session_pub_key (mb_crypto b))).
  split; [exact Hask1|]. split; [exact Hask2|]. split; [exact Hnf_b|]. split; [exact Hnf_a|].
  split; [apply cipher_chosen|]. split; [by rewrite secret_shared; apply cipher_chosen|].
  intros env g r g' r' nodes resolve_slot from nonce p transport f Hnodes Hnonce Hsend Hwf.
  assert (SlotManager_node (sv_slots sv2) FORWARD_SLOT_ID = Some NodeId_default) as Hzero2
    by (rewrite Hsl2; apply slot_keeps; rewrite Hsl1; by apply slot_keeps).
  rewrite <- (keeps_sent _ _ _ K1), <- (keeps_sent _ _ _ K2), <- Hpeer, <- Hsid.
  eapply (members_deliver env sv2 a b da2 db2); try done.
  - rewrite Hsl2. apply slot_inv; [done|apply Ha|lia].
  - lia.
  - rewrite Hsl2. by apply slot_keeps.
Qed.
End Agreement.

(** ** Example *)

Section Witness.
Import RawProst ToyCrypto ToyIp ToySessions ToyServer ToyCipher.

(** Keys as in the raw codec, and packets that are never decoded. *)
#[local] Instance key_packets : Prost Packet := {
  encode_key := encode_key (P := list Z);
  decode_key := decode_key (P := list Z);
  encode_varint := encode_varint (P := list Z);
  msg_encode _ := [26];
  msg_decode _ := None }.

#[local] Instance key_packets_laws : ProstKeyLaws Packet.
Proof.
  split; [exact (encode_key_short (P := list Z))|exact (decode_key_short (P := list Z))|
    exact (encode_varint_last (P := list Z))|exact (encode_varint_more (P := list Z))].
Qed.

(** Client [k] has the key [k] and the session key [100 + k]; the server has the
    sessions of clients 1 and 2. *)
Definition toy_member (k : Z) : Member :=
  {| mb_keys := [k]; mb_crypto := 100 + k; mb_id := replicate 20 k; mb_addr := toy_peer k;
     mb_direct := {| ds_generation := 1;
                     ds_owner := {| nde_default_id := NodeId_default; nde_identities := [] |};
                     ds_id := replicate 16 k; ds_remote := toy_peer 9;
                     ds_forwards := AllowedForwards_default |} |}.

Definition toy_joined (k : Z) (m : SessionManager) : SessionManager :=
  link_sessions (new_session toy_slot m (toy_clock 1) (replicate 16 k) (toy_peer k) (replicate 20 k)
    (identities_of [k]) (supported_encryptions true)
    (Some (100 + k, proof_table (pk_bytes (100 + k)) [k] ∅))).2 (sm_next m).

Definition two_members : Server :=
  on_sessions (fun m => toy_joined 2 (toy_joined 1 m)) (Server_new 0).

Definition toy_session_of (k : Z) : Session :=
  {| s_session_id := replicate 16 k; s_peer := toy_peer k; s_ts := 1; s_node_id := replicate 20 k;
     s_keys := identities_of [k]; s_supported_encryptions := supported_encryptions true;
     s_addr_status := Unknown; s_session_key := Some (100 + k, proof_table (pk_bytes (100 + k)) [k] ∅) |}.

Lemma two_members_ok k : k = 1 \/ k = 2 ->
  member (K := toy_agreement) toy_slot two_members (toy_member k) (toy_session_of k).
Proof.
  intros Hk. split; [| |reflexivity|done|by eexists|apply NoDup_singleton|done|reflexivity| |split; [reflexivity|]|
    reflexivity|apply af_default_inv]; destruct Hk as [-> | ->].
  - vm_compute. reflexivity.
  - vm_compute. reflexivity.
  - exists 0, (toy_session_of 1). split; [vm_compute; reflexivity|reflexivity].
  - exists 1, (toy_session_of 2). split; [vm_compute; reflexivity|reflexivity].
  - discriminate.
  - discriminate.
  - apply (bool_decide_unpack _). vm_compute. exact I.
  - apply (bool_decide_unpack _). vm_compute. exact I.
Qed.

(** The description in the answer of the server. *)
Definition told_info (r : option Packet * Server) : option response_Node :=
  match r.1 with
  | Some {| pkt_kind := Some (PkResponse {| rs_kind := Some (RsNode info) |}) |} => Some info
  | _ => None
  end.

(** The encrypted message [[5; 6]] of client 1, for the slot that client 2 is given. *)
Definition relayed_packet : Forward :=
  {| fw_session_id := replicate 16 1; fw_slot := 1; fw_flags := 2;
     fw_payload := PVec (replicate 12 0 ++ [5; 6] ++ replicate 16 0) |}.

Lemma relayed_message_delivered_witness :
  exists sent sv sv' nf_a received payload,
    worker toy_slot toy_config (toy_env 3) PtData (toy_peer 1) sent sv = Ret sv' /\
    on_forward true (fun _ => None) {[ replicate 20 1 := route_from nf_a (Aes256GcmSivEncryption [203]) 1 0 ]}
      received (toy_peer 9) (Some (add_forward (mb_direct (toy_member 2)) nf_a)) =
      Deliver {| fd_transport := Reliable; fd_node_id := replicate 20 1;
                 fd_authenticated_identities := Some [replicate 20 1]; fd_payload := payload |} /\
    Payload_as_ref payload = [5; 6].
Proof.
  destruct (relayed_message_delivered (K := toy_agreement) toy_slot toy_config true (toy_env 1) (toy_env 2) 7 8
    two_members (toy_member 1) (toy_member 2) (toy_session_of 1) (toy_session_of 2))
    as (info_b & info_a & nf_b & nf_a & sv1 & sv2 & key & Hask & _ & Hb & _ & Henc & _ & Hgo).
  - apply SlotManager_new_inv.
  - vm_compute. reflexivity.
  - reflexivity.
  - apply two_members_ok. by left.
  - apply two_members_ok. by right.
  - apply (f_equal told_info) in Hask. vm_compute in Hask. injection Hask as <-. vm_compute in Hb. injection Hb as <-.
    vm_compute in Henc. injection Henc as <-.
    destruct (Hgo (toy_env 3) 1 0%nat 1 0%nat
      {[ replicate 20 1 := route_from nf_a (Aes256GcmSivEncryption [203]) 1 0 ]} (fun _ => None) (toy_peer 9)
      (replicate 12 0) (PVec [5; 6]) Reliable relayed_packet)
      as (sent & sv3 & received & payload & _ & Hw & _ & Hdel & Hpay).
    + apply lookup_singleton_eq.
    + reflexivity.
    + vm_compute. reflexivity.
    + unfold Forward_wf, in_width. simpl. repeat split; try lia; apply (bool_decide_unpack _); vm_compute; exact I.
    + exists sent, sv2, sv3, nf_a, received, payload. split; [exact Hw|]. split; [exact Hdel|exact Hpay].
Defined.
End Witness.
