(* ===== verification/FallbackCrypto.v ===== *)
(** The fallback provider of keys of [crates/core/src/crypto.rs], and that a node
    which uses it can take part in handshakes. *)

From S2P Require Import Prelude Proto Challenge NodeInfo Encryption SessionInit HonestHandshake.

Section Fallback.
Context `{E : EthSign}.

Record FallbackCrypto : Type := {
  fc_id : NodeId;
  fc_secret : SecretKey }.

(** [From<SecretKey>]. *)
Definition FallbackCrypto_from (secret : SecretKey) : FallbackCrypto :=
  {| fc_id := pk_address (public_of secret); fc_secret := secret |}.

Record FallbackCryptoProvider : Type := {
  fp_default_id : NodeId;
  fp_inner : gmap NodeId FallbackCrypto }.

Definition FallbackCryptoProvider_new (secret : SecretKey) : FallbackCryptoProvider :=
  let crypto := FallbackCrypto_from secret in
  {| fp_default_id := fc_id crypto; fp_inner := {[fc_id crypto := crypto]} |}.

Definition FallbackCryptoProvider_add (p : FallbackCryptoProvider) (secret : SecretKey)
  : FallbackCryptoProvider :=
  let crypto := FallbackCrypto_from secret in
  {| fp_default_id := fp_default_id p; fp_inner := <[fc_id crypto := crypto]> (fp_inner p) |}.

(** [aliases]: the other ids, in the order of the table. *)
Definition fallback_aliases (p : FallbackCryptoProvider) : list NodeId :=
  filter (fun id => id <> fp_default_id p) ((map_to_list (fp_inner p)).*1).

(** [get]. *)
Definition fallback_get (p : FallbackCryptoProvider) (node_id : NodeId) : option FallbackCrypto :=
  fp_inner p !! node_id.

(** The provider as the handshakes see it: keys sign with their secret. *)
Definition fallback_provider (p : FallbackCryptoProvider) : CryptoProvider :=
  {| crypto_get id := fc_secret <$> fallback_get p id;
     crypto_aliases := Some (fallback_aliases p) |}.

(** Every key is filed under its id, and the default key is there. *)
Record fallback_ok (p : FallbackCryptoProvider) : Prop := {
  fo_ids : forall id c, fp_inner p !! id = Some c -> c = FallbackCrypto_from (fc_secret c) /\ fc_id c = id;
  fo_default : is_Some (fp_inner p !! fp_default_id p) }.

Lemma fallback_new_ok secret : fallback_ok (FallbackCryptoProvider_new secret).
Proof.
  split; simpl.
  - by intros id c [<- <-]%lookup_singleton_Some.
  - rewrite lookup_singleton_eq. eauto.
Qed.

Lemma fallback_add_ok p secret : fallback_ok p -> fallback_ok (FallbackCryptoProvider_add p secret).
Proof.
  intros [Hi [c Hd]]. split; simpl.
  - intros id c' [[<- <-]|[_ ?]]%lookup_insert_Some; [done|by apply Hi].
  - destruct (decide (pk_address (public_of secret) = fp_default_id p)) as [->|?].
    + rewrite lookup_insert_eq. eauto.
    + rewrite lookup_insert_ne by done. eauto.
Qed.

Lemma fallback_adds_ok secrets : forall p, fallback_ok p ->
  fallback_ok (foldl FallbackCryptoProvider_add p secrets).
Proof. induction secrets as [|s l IH]; intros p Hp; [done|]. by apply IH, fallback_add_ok. Qed.
End Fallback.

(** A node with the fallback provider has the keys a handshake needs: the key of its
    id comes first, then those of its other ids, each once. *)
Lemma fallback_provider_config `{K : KeyAgreement} (p : FallbackCryptoProvider) (config : InitConfig) :
  fallback_ok p -> ic_node_id config = fp_default_id p ->
  exists keys, list_crypto (C := fallback_provider p) config = Ok keys /\
    (fun k => pk_address (public_of k)) <$> head keys = Some (ic_node_id config) /\
    NoDup (map (fun k => pk_address (public_of k)) keys) /\
    forall id, id ∈ map (fun k => pk_address (public_of k)) keys <-> is_Some (fp_inner p !! id).
Proof.
  intros [Hi [c Hd]] Hc. unfold list_crypto. simpl. unfold fallback_get. rewrite Hc, Hd. simpl.
  assert (Ha : forall l, (forall id, id ∈ l -> is_Some (fp_inner p !! id)) ->
    map (fun k => pk_address (public_of k)) (omap (fun id => fc_secret <$> fp_inner p !! id) l) = l).
  { induction l as [|id l IH]; intros Hl; [done|]. destruct (Hl id) as [c' Hc']; [by left|].
    cbn [omap list_omap]. rewrite Hc'. simpl. destruct (Hi _ _ Hc') as [Hf <-]. rewrite Hf at 2. simpl.
    f_equal. apply IH. intros id' ?. apply Hl. by right. }
  assert (Hall : forall id, id ∈ fallback_aliases p <-> id <> fp_default_id p /\ is_Some (fp_inner p !! id)).
  { intros id. unfold fallback_aliases. rewrite list_elem_of_filter. f_equiv. rewrite list_elem_of_fmap. split.
    - intros ([? c'] & -> & ?%elem_of_map_to_list). eauto.
    - intros [c' ?]. exists (id, c'). by rewrite elem_of_map_to_list. }
  destruct (Hi _ _ Hd) as [Hf Hid].
  assert (Hk : pk_address (public_of (fc_secret c)) = fp_default_id p).
  { rewrite Hf in Hid. exact Hid. }
  eexists. split; [reflexivity|]. simpl. rewrite Ha by (intros id ?; by apply Hall). rewrite Hk.
  split; [done|]. split.
  - constructor; [by intros [? _]%Hall|]. apply NoDup_filter, NoDup_fst_map_to_list.
  - intros id. rewrite elem_of_cons, Hall. split.
    + intros [->|[_ ?]]; eauto.
    + intros ?. destruct (decide (id = fp_default_id p)); auto.
Qed.
