(* ===== verification/Dispatch.v ===== *)
(** Waiting for responses and pausing: the [Dispatcher] of [client/src/dispatch.rs],
    the older one of [crates/core/src/dispatch.rs], and the [Actuator] of
    [crates/core/src/sync.rs].

    A oneshot channel is referred to by its place in memory.  Its receiver belongs
    to the future that waits, its sender to the table of the dispatcher. *)

From S2P Require Import Prelude Proto.

(** [Dispatched<T>]. *)
Record Dispatched (T : Type) : Type := {
  dd_session_id : list Z;
  dd_code : Z;
  dd_packet : T }.
Arguments Build_Dispatched {T}.
Arguments dd_session_id {T}.
Arguments dd_code {T}.
Arguments dd_packet {T}.

(** A oneshot channel: what was sent, and which ends are still there. *)
Record Channel : Type := {
  ch_value : option (Dispatched response_Kind);
  ch_sender : bool;
  ch_receiver : bool }.

Definition open_channel : Channel := {| ch_value := None; ch_sender := true; ch_receiver := true |}.
Definition drop_sender (c : Channel) : Channel :=
  {| ch_value := ch_value c; ch_sender := false; ch_receiver := ch_receiver c |}.
Definition close_receiver (c : Channel) : Channel :=
  {| ch_value := ch_value c; ch_sender := ch_sender c; ch_receiver := false |}.

(** [Sender::send] consumes the sender; the value is kept when the receiver is there. *)
Definition channel_send (v : Dispatched response_Kind) (c : Channel) : Channel :=
  {| ch_value := if ch_receiver c then Some v else ch_value c; ch_sender := false;
     ch_receiver := ch_receiver c |}.

(** [Dispatcher], with the channels it refers to; handlers of error codes are
    referred to by a number. *)
Record Dispatcher : Type := {
  dp_seen : Z;
  dp_ping : option Z;
  dp_responses : gmap Z nat;
  dp_error_handlers : gmap Z nat;
  dp_channels : list Channel }.

Definition Dispatcher_default (now : Z) : Dispatcher :=
  {| dp_seen := now; dp_ping := None; dp_responses := ∅; dp_error_handlers := ∅; dp_channels := [] |}.

Definition with_responses (d : Dispatcher) (m : gmap Z nat) (cs : list Channel) : Dispatcher :=
  {| dp_seen := dp_seen d; dp_ping := dp_ping d; dp_responses := m;
     dp_error_handlers := dp_error_handlers d; dp_channels := cs |}.

Definition update_seen (now : Z) (d : Dispatcher) : Dispatcher :=
  {| dp_seen := now; dp_ping := dp_ping d; dp_responses := dp_responses d;
     dp_error_handlers := dp_error_handlers d; dp_channels := dp_channels d |}.

Definition update_ping (ping : Z) (d : Dispatcher) : Dispatcher :=
  {| dp_seen := dp_seen d; dp_ping := Some ping; dp_responses := dp_responses d;
     dp_error_handlers := dp_error_handlers d; dp_channels := dp_channels d |}.

(** [handle_error]: puts a handler into the table. *)
Definition handle_error (code : Z) (handler : nat) (d : Dispatcher) : Dispatcher :=
  {| dp_seen := dp_seen d; dp_ping := dp_ping d; dp_responses := dp_responses d;
     dp_error_handlers := <[code := handler]> (dp_error_handlers d); dp_channels := dp_channels d |}.

(** [PendingResponse]. *)
Record PendingResponse : Type := { pr_request_id : Z; pr_receiver : nat }.

(** [response], up to the future it returns.  A sender that is replaced in the
    table is dropped. *)
Definition response (request_id : Z) (d : Dispatcher) : PendingResponse * Dispatcher :=
  let c := length (dp_channels d) in
  let channels :=
    match dp_responses d !! request_id with
    | Some old => alter drop_sender old (dp_channels d)
    | None => dp_channels d
    end in
  ({| pr_request_id := request_id; pr_receiver := c |},
   with_responses d (<[request_id := c]> (dp_responses d)) (channels ++ [open_channel])).

(** [Drop] of a [PendingResponse]; [is_canceled] asks for the receiver of the
    sender in the table.  A sender that is removed is dropped. *)
Definition drop_pending (p : PendingResponse) (d : Dispatcher) : Dispatcher :=
  let channels := alter close_receiver (pr_receiver p) (dp_channels d) in
  match dp_responses d !! pr_request_id p with
  | Some c =>
      if match channels !! c with Some ch => negb (ch_receiver ch) | None => false end
      then with_responses d (delete (pr_request_id p) (dp_responses d)) (alter drop_sender c channels)
      else with_responses d (dp_responses d) channels
  | None => with_responses d (dp_responses d) channels
  end.

(** What the future sees when it is polled: nothing yet, the response, or that the
    request was cancelled. *)
Inductive Polled : Type :=
| PollPending
| PollReady (v : Dispatched response_Kind)
| PollCancelled.

Definition poll_pending (d : Dispatcher) (c : nat) : Polled :=
  match dp_channels d !! c with
  | Some ch =>
      match ch_value ch with
      | Some v => PollReady v
      | None => if ch_sender ch then PollPending else PollCancelled
      end
  | None => PollCancelled
  end.

(** The result of the future: [try_into] gives the packet of the expected type. *)
Definition response_result {T} (try_into : response_Kind -> option T) (p : Polled)
  : option (result (Dispatched T) string) :=
  match p with
  | PollPending => None
  | PollCancelled => Some (Err "Request cancelled"%string)
  | PollReady v =>
      Some (if negb (dd_code v =? StatusCode_to_i32 StatusOk) then Err "Request failed"%string
            else match try_into (dd_packet v) with
                 | Some packet => Ok {| dd_session_id := dd_session_id v; dd_code := dd_code v;
                                        dd_packet := packet |}
                 | None => Err "Unexpected response type"%string
                 end)
  end.

(** [dispatch_response]: the handler of an error code it starts, if any. *)
Definition dispatch_response (request_id : Z) (session_id : list Z) (code : Z) (kind : response_Kind)
  (d : Dispatcher) : option nat * Dispatcher :=
  let v := {| dd_session_id := session_id; dd_code := code; dd_packet := kind |} in
  let d :=
    match dp_responses d !! request_id with
    | Some c => with_responses d (delete request_id (dp_responses d))
                  (alter (channel_send v) c (dp_channels d))
    | None => d
    end in
  (if code =? StatusCode_to_i32 StatusOk then None else dp_error_handlers d !! code, d).

(** The future of the dispatcher in [core] removes its id from the table when it is
    finished, and does nothing when it is dropped before: the receiver is gone then. *)
Definition core_finish (p : PendingResponse) (d : Dispatcher) : Dispatcher :=
  let channels := alter close_receiver (pr_receiver p) (dp_channels d) in
  with_responses d (delete (pr_request_id p) (dp_responses d))
    (match dp_responses d !! pr_request_id p with
     | Some c => alter drop_sender c channels
     | None => channels
     end).
Definition core_cancel (p : PendingResponse) (d : Dispatcher) : Dispatcher :=
  with_responses d (dp_responses d) (alter close_receiver (pr_receiver p) (dp_channels d)).

(** ** [Actuator] *)

(** The state is replaced when it is disabled; dropping the old one wakes who
    waits for it.  States are numbered. *)
Record Actuator : Type := { ac_enabled : bool; ac_state : nat }.

Definition Actuator_default : Actuator := {| ac_enabled := false; ac_state := 0 |}.

(** [next]: the state to wait for, when enabled. *)
Definition Actuator_next (a : Actuator) : option nat := if ac_enabled a then Some (ac_state a) else None.
Definition enable (a : Actuator) : Actuator :=
  if ac_enabled a then a else {| ac_enabled := true; ac_state := ac_state a |}.
Definition disable (a : Actuator) : Actuator :=
  if ac_enabled a then {| ac_enabled := false; ac_state := S (ac_state a) |} else a.

(** Whether the future of a state is ready. *)
Definition woken (a : Actuator) (state : nat) : bool := (state <? ac_state a)%nat.

(** ** Properties *)

(** A dispatcher and the futures that wait for responses. *)
Record Waits : Type := { wt_dispatcher : Dispatcher; wt_pending : list PendingResponse }.

Definition Waits_new (now : Z) : Waits :=
  {| wt_dispatcher := Dispatcher_default now; wt_pending := [] |}.

(** A request is made, a future is dropped (finished, out of time or cancelled), a
    response arrives, or the times and handlers are updated. *)
Inductive wait_step (w : Waits) : Waits -> Prop :=
| wait_ask id p d :
    response id (wt_dispatcher w) = (p, d) ->
    wait_step w {| wt_dispatcher := d; wt_pending := p :: wt_pending w |}
| wait_drop p l1 l2 :
    wt_pending w = l1 ++ p :: l2 ->
    wait_step w {| wt_dispatcher := drop_pending p (wt_dispatcher w); wt_pending := l1 ++ l2 |}
| wait_respond id session_id code kind h d :
    dispatch_response id session_id code kind (wt_dispatcher w) = (h, d) ->
    wait_step w {| wt_dispatcher := d; wt_pending := wt_pending w |}
| wait_seen now :
    wait_step w {| wt_dispatcher := update_seen now (wt_dispatcher w); wt_pending := wt_pending w |}
| wait_ping t :
    wait_step w {| wt_dispatcher := update_ping t (wt_dispatcher w); wt_pending := wt_pending w |}
| wait_handler code h :
    wait_step w {| wt_dispatcher := handle_error code h (wt_dispatcher w); wt_pending := wt_pending w |}.

(** The sender of a future is in the table, or has sent, or is gone. *)
Record waits_ok (d : Dispatcher) (l : list PendingResponse) : Prop := {
  wo_nodup : NoDup (pr_receiver <$> l);
  wo_table : forall id c, dp_responses d !! id = Some c ->
    {| pr_request_id := id; pr_receiver := c |} ∈ l /\ dp_channels d !! c = Some open_channel;
  wo_pending : forall p, p ∈ l -> exists ch, dp_channels d !! pr_receiver p = Some ch /\
    ch_receiver ch = true /\
    (ch_sender ch = true -> dp_responses d !! pr_request_id p = Some (pr_receiver p)) }.

Lemma waits_same d l p q : waits_ok d l -> p ∈ l -> q ∈ l -> pr_receiver p = pr_receiver q -> p = q.
Proof.
  intros Hok Hp Hq Heq. apply list_elem_of_lookup in Hp as [i Hi], Hq as [j Hj].
  assert (i = j) as ->; [|congruence].
  eapply (NoDup_lookup (pr_receiver <$> l)); [apply Hok|rewrite list_lookup_fmap, Hi; done|].
  rewrite list_lookup_fmap, Hj. cbn. by f_equal.
Qed.

(** A future waits exactly when its sender is in the table. *)
Lemma waits_poll d l p : waits_ok d l -> p ∈ l ->
  poll_pending d (pr_receiver p) = PollPending <->
  dp_responses d !! pr_request_id p = Some (pr_receiver p).
Proof.
  intros Hok Hp. destruct (wo_pending _ _ Hok p Hp) as (ch & Hch & Hr & Hs). unfold poll_pending.
  rewrite Hch. split.
  - destruct (ch_value ch); [done|]. destruct (ch_sender ch); [auto|done].
  - intros Ht. destruct (wo_table _ _ Hok _ _ Ht) as [_ Ho]. rewrite Hch in Ho. by injection Ho as ->.
Qed.

Lemma response_ok id d l p d' :
  waits_ok d l -> response id d = (p, d') ->
  waits_ok d' (p :: l) /\ poll_pending d' (pr_receiver p) = PollPending /\
  (forall q, q ∈ l -> poll_pending d' (pr_receiver q) =
     if bool_decide (dp_responses d !! id = Some (pr_receiver q)) then PollCancelled
     else poll_pending d (pr_receiver q)).
Proof.
  intros Hok. unfold response. set (c := length (dp_channels d)).
  set (channels := match dp_responses d !! id with Some old => _ | None => _ end). intros [= <- <-].
  assert (length channels = c) as Hlen.
  { unfold channels. destruct (_ !! id); [apply length_alter|done]. }
  assert (forall q, q ∈ l -> (pr_receiver q < c)%nat) as Hlt.
  { intros q Hq. destruct (wo_pending _ _ Hok q Hq) as (ch & Hch & _). by eapply lookup_lt_Some. }
  assert (forall q, q ∈ l -> (channels ++ [open_channel]) !! pr_receiver q
    = (if bool_decide (dp_responses d !! id = Some (pr_receiver q)) then drop_sender else (fun c => c))
      <$> dp_channels d !! pr_receiver q) as Hold.
  { intros q Hq. rewrite lookup_app_l by (rewrite Hlen; auto). unfold channels.
    destruct (dp_responses d !! id) as [old|].
    - case_bool_decide as Heq.
      + injection Heq as ->. apply list_lookup_alter_eq.
      + rewrite list_lookup_alter_ne by congruence. by destruct (_ !! _).
    - by destruct (_ !! pr_receiver q). }
  split; [split; cbn|split].
  - constructor; [|apply Hok]. rewrite list_elem_of_fmap. intros (q & Heq & Hq%Hlt). lia.
  - intros id' c' [[<- <-]|[Hne Hc]]%lookup_insert_Some.
    + split; [by left|]. rewrite lookup_app_r by lia. by rewrite Hlen, Nat.sub_diag.
    + destruct (wo_table _ _ Hok _ _ Hc) as [Hin Ho]. split; [by right|].
      pose proof (Hold _ Hin) as Hc'. cbn in Hc'. rewrite Hc', Ho, bool_decide_eq_false_2; [done|]. intros Hid.
      destruct (wo_table _ _ Hok _ _ Hid) as [Hin' _].
      pose proof (waits_same _ _ _ _ Hok Hin Hin' eq_refl) as [= ->]. done.
  - intros q [->|Hq]%elem_of_cons; cbn.
    + exists open_channel. rewrite lookup_app_r, Hlen, Nat.sub_diag by lia.
      split_and!; [done|done|]. intros _. apply lookup_insert_eq.
    + destruct (wo_pending _ _ Hok q Hq) as (ch & Hch & Hr & Hs). rewrite (Hold _ Hq), Hch. eexists.
      split; [done|]. case_bool_decide as Hb; cbn; [done|]. split; [done|]. intros Hse%Hs.
      rewrite lookup_insert_ne; [done|]. congruence.
  - unfold poll_pending. cbn. by rewrite lookup_app_r, Hlen, Nat.sub_diag by lia.
  - intros q Hq. unfold poll_pending. cbn. rewrite (Hold _ Hq).
    destruct (wo_pending _ _ Hok q Hq) as (ch & Hch & _). rewrite Hch. case_bool_decide as Hb; [|done]. cbn.
    destruct (wo_table _ _ Hok _ _ Hb) as [_ Ho]. rewrite Hch in Ho. by injection Ho as ->.
Qed.

Lemma waits_others d l1 p l2 q :
  waits_ok d (l1 ++ p :: l2) -> q ∈ l1 ++ l2 ->
  q ∈ l1 ++ p :: l2 /\ pr_receiver q <> pr_receiver p.
Proof.
  intros Hok Hq. split; [set_solver|]. intros Heq.
  pose proof (wo_nodup _ _ Hok) as Hn. rewrite fmap_app, fmap_cons in Hn.
  apply NoDup_app in Hn as (_ & Hd & [Hh _]%NoDup_cons). apply elem_of_app in Hq as [Hq|Hq].
  - apply (Hd (pr_receiver q)); [apply list_elem_of_fmap; eauto|]. rewrite Heq. by left.
  - apply Hh. rewrite <- Heq. apply list_elem_of_fmap. eauto.
Qed.

(** Dropping a future leaves the channels of the others alone ... *)
Lemma drop_pending_channels d l p c :
  waits_ok d l -> c <> pr_receiver p -> dp_channels (drop_pending p d) !! c = dp_channels d !! c.
Proof.
  intros Hok Hc. unfold drop_pending. destruct (dp_responses d !! pr_request_id p) as [c0|] eqn:Ht;
    [|cbn; by apply list_lookup_alter_ne].
  destruct (wo_table _ _ Hok _ _ Ht) as [_ Ho].
  destruct (decide (c0 = pr_receiver p)) as [->|Hne].
  - rewrite list_lookup_alter_eq, Ho. cbn. by rewrite !list_lookup_alter_ne by done.
  - rewrite list_lookup_alter_ne, Ho by done. cbn. by rewrite list_lookup_alter_ne.
Qed.

(** ... and takes exactly its own entry out of the table. *)
Lemma drop_pending_table d l p id c :
  waits_ok d l -> p ∈ l ->
  dp_responses (drop_pending p d) !! id = Some c <->
  dp_responses d !! id = Some c /\ c <> pr_receiver p.
Proof.
  intros Hok Hp.
  assert (forall id, dp_responses d !! id = Some (pr_receiver p) -> id = pr_request_id p) as Hown.
  { intros id' Hid'. destruct (wo_table _ _ Hok _ _ Hid') as [Hin _].
    by pose proof (waits_same _ _ _ _ Hok Hin Hp eq_refl) as <-. }
  unfold drop_pending. destruct (dp_responses d !! pr_request_id p) as [c0|] eqn:Ht; cbn.
  2:{ split; [|by intros []]. intros Hid. split; [done|]. intros ->. pose proof (Hown _ Hid). congruence. }
  destruct (wo_table _ _ Hok _ _ Ht) as [_ Ho].
  destruct (decide (c0 = pr_receiver p)) as [->|Hne].
  - rewrite list_lookup_alter_eq, Ho. cbn. rewrite lookup_delete_Some. split.
    + intros [Hne Hid]. split; [done|]. intros ->. by pose proof (Hown _ Hid).
    + intros [Hid Hne]. split; [|done]. congruence.
  - rewrite list_lookup_alter_ne, Ho by done. cbn. split; [|by intros []]. intros Hid. split; [done|].
    intros ->. pose proof (Hown _ Hid). congruence.
Qed.

Lemma drop_pending_ok d l1 p l2 :
  waits_ok d (l1 ++ p :: l2) ->
  waits_ok (drop_pending p d) (l1 ++ l2) /\
  (forall q, q ∈ l1 ++ l2 -> poll_pending (drop_pending p d) (pr_receiver q) = poll_pending d (pr_receiver q)).
Proof.
  intros Hok. assert (p ∈ l1 ++ p :: l2) as Hp by set_solver.
  split; [split|].
  - pose proof (wo_nodup _ _ Hok) as Hn. rewrite fmap_app, fmap_cons in Hn. rewrite fmap_app.
    apply NoDup_app in Hn as (Hn1 & Hd & [_ Hn2]%NoDup_cons). apply NoDup_app. split_and!; [done| |done].
    intros x Hx Hx2. apply (Hd x Hx). by right.
  - intros id c [Hid Hc]%(drop_pending_table d (l1 ++ p :: l2) p id c Hok Hp).
    destruct (wo_table _ _ Hok _ _ Hid) as [Hin Ho]. erewrite drop_pending_channels by done.
    split; [|done]. apply elem_of_app in Hin as [Hin|[<-|Hin]%elem_of_cons]; [set_solver|done|set_solver].
  - intros q [Hq Hne]%(waits_others d l1 p l2 q Hok).
    destruct (wo_pending _ _ Hok q Hq) as (ch & Hc & Hr & Hs).
    exists ch. erewrite drop_pending_channels by done. split_and!; [done|done|]. intros Hse%Hs.
    by apply (drop_pending_table d (l1 ++ p :: l2)).
  - intros q [Hq Hne]%(waits_others d l1 p l2 q Hok). unfold poll_pending. by erewrite drop_pending_channels.
Qed.

Lemma dispatch_response_ok id session_id code kind d l h d' :
  waits_ok d l -> dispatch_response id session_id code kind d = (h, d') ->
  waits_ok d' l /\
  (forall q, q ∈ l -> poll_pending d' (pr_receiver q) =
     if bool_decide (dp_responses d !! id = Some (pr_receiver q))
     then PollReady {| dd_session_id := session_id; dd_code := code; dd_packet := kind |}
     else poll_pending d (pr_receiver q)).
Proof.
  intros Hok. unfold dispatch_response. intros [= _ <-].
  destruct (dp_responses d !! id) as [c|] eqn:Hid.
  2:{ split; [done|]. intros q Hq. by rewrite bool_decide_eq_false_2. }
  destruct (wo_table _ _ Hok _ _ Hid) as [Hin Ho].
  split; [split; cbn|].
  - apply Hok.
  - intros id' c' [Hne Hid']%lookup_delete_Some. destruct (wo_table _ _ Hok _ _ Hid') as [Hin' Ho'].
    split; [done|]. rewrite list_lookup_alter_ne; [done|]. intros <-.
    pose proof (waits_same _ _ _ _ Hok Hin Hin' eq_refl) as [= <-]. done.
  - intros q Hq. destruct (wo_pending _ _ Hok q Hq) as (ch & Hc & Hr & Hs).
    destruct (decide (c = pr_receiver q)) as [->|Hne].
    + rewrite list_lookup_alter_eq, Hc. eexists. split; [done|]. done.
    + rewrite list_lookup_alter_ne by done. exists ch. split_and!; [done|done|]. intros Hse%Hs.
      rewrite lookup_delete_ne; [done|]. congruence.
  - intros q Hq. unfold poll_pending. cbn. case_bool_decide as Hb.
    + injection Hb as ->. by rewrite list_lookup_alter_eq, Ho.
    + by rewrite list_lookup_alter_ne by congruence.
Qed.

Lemma wait_step_ok w w' :
  waits_ok (wt_dispatcher w) (wt_pending w) -> wait_step w w' ->
  waits_ok (wt_dispatcher w') (wt_pending w').
Proof.
  intros Hok [id p d Hr|p l1 l2 Hl|id session_id code kind h d Hr|now|t|code h]; cbn.
  - exact (proj1 (response_ok _ _ _ _ _ Hok Hr)).
  - rewrite Hl in Hok. exact (proj1 (drop_pending_ok _ _ _ _ Hok)).
  - exact (proj1 (dispatch_response_ok _ _ _ _ _ _ _ _ Hok Hr)).
  - by destruct Hok.
  - by destruct Hok.
  - by destruct Hok.
Qed.

Lemma waits_reachable now w : rtc wait_step (Waits_new now) w -> waits_ok (wt_dispatcher w) (wt_pending w).
Proof.
  intros Hr. eapply (rtc_invariant wait_step (fun w => waits_ok (wt_dispatcher w) (wt_pending w)));
    [apply wait_step_ok| |exact Hr]. split; cbn; [constructor| |by intros p ?%elem_of_nil].
  intros id c Hc. by rewrite lookup_empty in Hc.
Qed.

(** C28: responses find the request they answer.  However requests are made,
    answered, cancelled and run out of time: a response with some id goes to the
    future that asked last with that id, if it still waits, and to no other, at
    most once; a future that is dropped disturbs no other one, also when it had
    used the same id; a request cancels exactly the earlier one with its id that
    still waits; and when no future is left the table is empty. *)
Theorem responses_matched now w : rtc wait_step (Waits_new now) w ->
  let d := wt_dispatcher w in
  (forall p id session_id code kind h d', p ∈ wt_pending w ->
     dispatch_response id session_id code kind d = (h, d') ->
     poll_pending d' (pr_receiver p) =
       if bool_decide (pr_request_id p = id) &&
          match poll_pending d (pr_receiver p) with PollPending => true | _ => false end
       then PollReady {| dd_session_id := session_id; dd_code := code; dd_packet := kind |}
       else poll_pending d (pr_receiver p)) /\
  (forall p q l1 l2, wt_pending w = l1 ++ p :: l2 -> q ∈ l1 ++ l2 ->
     poll_pending (drop_pending p d) (pr_receiver q) = poll_pending d (pr_receiver q)) /\
  (forall id p d' q, response id d = (p, d') -> q ∈ wt_pending w ->
     poll_pending d' (pr_receiver p) = PollPending /\
     poll_pending d' (pr_receiver q) =
       if bool_decide (pr_request_id q = id) &&
          match poll_pending d (pr_receiver q) with PollPending => true | _ => false end
       then PollCancelled
       else poll_pending d (pr_receiver q)) /\
  (forall p q, p ∈ wt_pending w -> q ∈ wt_pending w -> pr_request_id p = pr_request_id q ->
     poll_pending d (pr_receiver p) = PollPending ->
     poll_pending d (pr_receiver q) = PollPending -> p = q) /\
  (wt_pending w = [] -> dp_responses d = ∅).
Proof.
  intros Hok%waits_reachable d. fold d in Hok.
  assert (forall p id, p ∈ wt_pending w ->
    bool_decide (dp_responses d !! id = Some (pr_receiver p)) =
    bool_decide (pr_request_id p = id) &&
    match poll_pending d (pr_receiver p) with PollPending => true | _ => false end) as Hw.
  { intros p id Hp. pose proof (waits_poll _ _ _ Hok Hp) as Hpoll. case_bool_decide as Hid.
    - destruct (wo_table _ _ Hok _ _ Hid) as [Hin _].
      pose proof (f_equal pr_request_id (waits_same _ _ _ _ Hok Hin Hp eq_refl)) as Heq. cbn in Heq. subst id.
      rewrite bool_decide_eq_true_2 by done. by rewrite (proj2 Hpoll Hid).
    - case_bool_decide as Heq; [|done]. rewrite <- Heq in Hid. cbn. case_match_goal; [|done..].
      destruct Hid. by apply Hpoll. }
  split_and!.
  - intros p id session_id code kind h d' Hp Hd. rewrite <- (Hw p id Hp).
    by apply (proj2 (dispatch_response_ok _ _ _ _ _ _ _ _ Hok Hd)).
  - intros p q l1 l2 Hl Hq. rewrite Hl in Hok. by apply (proj2 (drop_pending_ok _ _ _ _ Hok)).
  - intros id p d' q Hr Hq. rewrite <- (Hw q id Hq). destruct (response_ok _ _ _ _ _ Hok Hr) as (_ & Hn & Ho).
    auto.
  - intros p q Hp Hq Hid Hpp Hpq. apply (waits_poll _ _ _ Hok) in Hpp, Hpq; [|done..].
    eapply waits_same; [done..|]. congruence.
  - intros Hnil. apply map_eq. intros id. rewrite lookup_empty. apply eq_None_not_Some. intros [c Hc].
    destruct (wo_table _ _ Hok _ _ Hc) as [Hin _]. rewrite Hnil in Hin. by apply elem_of_nil in Hin.
Qed.

(** The dispatcher of [core] keeps what nobody waits for: after a request that was
    cancelled its entry stays in the table. *)
Lemma core_cancel_leaks id d p d' :
  response id d = (p, d') ->
  dp_responses (core_cancel p d') !! id = Some (pr_receiver p).
Proof. intros [= <- <-]. apply lookup_insert_eq. Qed.

(** And there a future that finishes late takes the entry of a newer one with the
    same id away, whose request is then cancelled. *)
Lemma core_finish_cancels id d p1 d1 p2 d2 :
  response id d = (p1, d1) -> response id d1 = (p2, d2) ->
  dp_responses (core_finish p1 d2) !! id = None /\
  poll_pending (core_finish p1 d2) (pr_receiver p2) = PollCancelled.
Proof.
  intros [= <- <-]. unfold response. cbn. rewrite lookup_insert_eq. intros [= <- <-].
  unfold core_finish, poll_pending. cbn. rewrite lookup_insert_eq, lookup_delete_eq. split; [done|].
  rewrite list_lookup_alter_eq, list_lookup_alter_ne.
  - rewrite !lookup_app_r, !length_alter, !length_app by (rewrite ?length_alter, ?length_app; lia).
    by rewrite Nat.sub_diag.
  - rewrite length_app. case_match_goal; rewrite ?length_alter; cbn; lia.
Qed.

(** [Actuator]: who waits is woken by the next [disable] and by nothing else, and
    nobody starts to wait while it is disabled. *)
Inductive ActuatorOp : Type := OpEnable | OpDisable.
Definition actuate (a : Actuator) (op : ActuatorOp) : Actuator :=
  match op with OpEnable => enable a | OpDisable => disable a end.

Lemma actuator_wakes a state ops :
  Actuator_next a = Some state ->
  woken (foldl actuate a ops) state = existsb (fun op => match op with OpDisable => true | _ => false end) ops.
Proof.
  unfold Actuator_next. destruct a as [e n]. cbn. destruct e; [|done]. intros [= ->].
  assert (forall ops e m, (state < m)%nat -> woken (foldl actuate {| ac_enabled := e; ac_state := m |} ops) state = true)
    as Hlate.
  { clear ops. intros ops. induction ops as [|[] ops IH]; intros e m Hm; cbn; [by apply Nat.ltb_lt| |];
      unfold enable, disable; cbn; destruct e; apply IH; lia. }
  induction ops as [|[] ops IH]; cbn; [apply Nat.ltb_irrefl|exact IH|]. apply Hlate. lia.
Qed.

(** ** Example *)

Definition pending_example : PendingResponse := {| pr_request_id := 7; pr_receiver := 0 |}.
Definition waits_example : Waits :=
  {| wt_dispatcher := (response 7 (Dispatcher_default 0)).2; wt_pending := [pending_example] |}.

Lemma responses_matched_witness :
  poll_pending (dispatch_response 7 [1] 200 RsPong (wt_dispatcher waits_example)).2
    (pr_receiver pending_example)
  = PollReady {| dd_session_id := [1]; dd_code := 200; dd_packet := RsPong |}.
Proof.
  assert (rtc wait_step (Waits_new 0) waits_example) as Hr.
  { apply rtc_once. by apply (wait_ask (Waits_new 0) 7 pending_example). }
  destruct (responses_matched 0 waits_example Hr) as (Hrespond & _).
  rewrite (Hrespond pending_example 7 [1] 200 RsPong
    (dispatch_response 7 [1] 200 RsPong (wt_dispatcher waits_example)).1
    (dispatch_response 7 [1] 200 RsPong (wt_dispatcher waits_example)).2); [reflexivity| |reflexivity].
  by left.
Defined.
