(* ===== verification/Requests.v ===== *)
(** [client/src/raw_session.rs], [RawSession::request] (and the same function of
    [core/src/session.rs]): a request is sent repeatedly while its response is
    awaited, until the time for the request is over.

    The two futures of [select!] are polled one after the other, in an order that
    is chosen anew each time.  A poll is given the time, the state of the sink and
    the dispatcher through which a response arrives.  Time is counted in
    nanoseconds. *)

From S2P Require Import Prelude Proto Dispatch.

Definition RETRIES : Z := 4.

(** The state of the sink when [send] is polled: not ready, taken, or failed. *)
Inductive SinkPoll : Type :=
| SinkPending
| SinkSent
| SinkError (e : string).

(** The future [retry_send]: sending a copy, or asleep until the next one. *)
Inductive RetrySend : Type :=
| Sending
| Sleeping (wake : Z).

(** A request that waits: the packet and the times at which copies of it were
    taken by the sink, and the pending response with the end of its time. *)
Record RequestFuture : Type := {
  rf_packet : Packet;
  rf_timeout : Z;
  rf_retry : RetrySend;
  rf_copies : list (Z * Packet);
  rf_pending : PendingResponse;
  rf_deadline : Z }.

(** What a poll finds. *)
Record RequestPoll : Type := {
  pl_now : Z;
  pl_send_first : bool;
  pl_sink : SinkPoll;
  pl_dispatcher : Dispatcher }.

Section Request.
Context {T : Type} (try_into : response_Kind -> option T).

(** The request up to the first wait: the response is registered. *)
Definition request_start (now : Z) (request : Request) (session_id : list Z) (timeout : Z)
  (d : Dispatcher) : RequestFuture * Dispatcher :=
  let '(pending, d) := response (rq_request_id request) d in
  ({| rf_packet := {| pkt_session_id := session_id; pkt_kind := Some (PkRequest request) |};
      rf_timeout := timeout; rf_retry := Sending; rf_copies := []; rf_pending := pending;
      rf_deadline := now + timeout |}, d).

Definition with_retry (f : RequestFuture) (retry : RetrySend) (copies : list (Z * Packet))
  : RequestFuture :=
  {| rf_packet := rf_packet f; rf_timeout := rf_timeout f; rf_retry := retry; rf_copies := copies;
     rf_pending := rf_pending f; rf_deadline := rf_deadline f |}.

Definition retry_due (now : Z) (r : RetrySend) : bool :=
  match r with Sending => true | Sleeping wake => wake <=? now end.

(** A poll of [retry_send]: it ends only with an error of the sink. *)
Definition poll_retry (p : RequestPoll) (f : RequestFuture) : RequestFuture * option string :=
  if retry_due (pl_now p) (rf_retry f) then
    match pl_sink p with
    | SinkPending => (with_retry f Sending (rf_copies f), None)
    | SinkSent =>
        (with_retry f (Sleeping (pl_now p + rf_timeout f / RETRIES))
           (rf_copies f ++ [(pl_now p, rf_packet f)]), None)
    | SinkError e => (f, Some e)
    end
  else (f, None).

(** A poll of the response: [timeout] asks for the response before the time. *)
Definition poll_response (p : RequestPoll) (f : RequestFuture)
  : option (result (Dispatched T) string) :=
  match response_result try_into (poll_pending (pl_dispatcher p) (pr_receiver (rf_pending f))) with
  | Some r => Some r
  | None => if rf_deadline f <=? pl_now p then Some (Err "Request timed out"%string) else None
  end.

(** A poll of [select!]. *)
Definition poll_request (p : RequestPoll) (f : RequestFuture)
  : RequestFuture * option (result (Dispatched T) string) :=
  if pl_send_first p then
    match poll_retry p f with
    | (f, Some e) => (f, Some (Err e))
    | (f, None) => (f, poll_response p f)
    end
  else
    match poll_response p f with
    | Some r => (f, Some r)
    | None => let '(f, e) := poll_retry p f in (f, Err <$> e)
    end.

(** Polls until the request is over. *)
Fixpoint run_request (ps : list RequestPoll) (f : RequestFuture)
  : RequestFuture * option (result (Dispatched T) string) :=
  match ps with
  | [] => (f, None)
  | p :: ps =>
      match poll_request p f with
      | (f, None) => run_request ps f
      | done => done
      end
  end.

(** ** Copies *)

(** The polls come in the order of time. *)
Fixpoint polls_from (t : Z) (ps : list RequestPoll) : Prop :=
  match ps with
  | [] => True
  | p :: ps => t <= pl_now p /\ polls_from (pl_now p) ps
  end.

(** Copies are sent at least [gap] apart, none later than [now]. *)
Definition spaced (start gap now : Z) (copies : list (Z * Packet)) : Prop :=
  forall i t p, copies !! i = Some (t, p) -> start + Z.of_nat i * gap <= t <= now.

(** A request that still waits at [now]. *)
Record request_waits (start now : Z) (f : RequestFuture) : Prop := {
  wa_start : start <= now;
  wa_deadline : rf_deadline f = start + rf_timeout f;
  wa_copies : spaced start (rf_timeout f / RETRIES) now (rf_copies f);
  wa_same : Forall (fun c => c.2 = rf_packet f) (rf_copies f);
  wa_next : match rf_retry f with
            | Sending => start + zlen (rf_copies f) * (rf_timeout f / RETRIES) <= now
            | Sleeping wake => start + zlen (rf_copies f) * (rf_timeout f / RETRIES) <= wake
            end }.

Lemma spaced_snoc start gap now copies t p :
  spaced start gap now copies -> now <= t -> start + zlen copies * gap <= t ->
  spaced start gap t (copies ++ [(t, p)]).
Proof.
  intros Hs Ht Hz i t' p' Hi. apply lookup_snoc_Some in Hi as [Hi|[-> [= -> ->]]].
  - apply Hs in Hi. lia.
  - unfold zlen in Hz. lia.
Qed.

Lemma poll_retry_waits start now p f f' :
  request_waits start now f -> now <= pl_now p -> 0 <= rf_timeout f -> poll_retry p f = (f', None) ->
  request_waits start (pl_now p) f' /\ rf_pending f' = rf_pending f /\ rf_timeout f' = rf_timeout f /\
  rf_packet f' = rf_packet f.
Proof.
  intros [H1 H2 H3 H4 H5] Hn Ht Hp. unfold poll_retry in Hp.
  assert (0 <= rf_timeout f / RETRIES) by (apply Z.div_pos; unfold RETRIES; lia).
  assert (forall g, spaced start g now (rf_copies f) -> spaced start g (pl_now p) (rf_copies f)) as Hmono
    by (intros g Hg i t q Hi; specialize (Hg i t q Hi); lia).
  destruct (retry_due (pl_now p) (rf_retry f)) eqn:Ed.
  2: { injection Hp as <-. destruct (rf_retry f) eqn:Er; [done|].
       split_and!; try done. constructor; auto; [lia|]. by rewrite Er. }
  assert (start + zlen (rf_copies f) * (rf_timeout f / RETRIES) <= pl_now p) as Hdue
    by (destruct (rf_retry f); simpl in Ed; b2p; lia).
  destruct (pl_sink p); simplify_eq; split_and!; try done; constructor; simpl; auto; try lia.
  - by eapply spaced_snoc.
  - apply Forall_app. auto.
  - rewrite zlen_app. change (zlen [_]) with 1. lia.
Qed.

(** ** Outcomes *)

Definition answered (c : nat) (p : RequestPoll) : option (result (Dispatched T) string) :=
  response_result try_into (poll_pending (pl_dispatcher p) c).

(** A poll that leaves the request waiting: no response, and time is left. *)
Definition idle_poll (c : nat) (deadline : Z) (p : RequestPoll) : Prop :=
  pl_now p < deadline /\ answered c p = None.

(** A poll that ends it: with the response, at the end of the time without one, or
    with an error of the sink. *)
Definition final_poll (c : nat) (deadline : Z) (p : RequestPoll) (r : result (Dispatched T) string)
  : Prop :=
  answered c p = Some r \/
  (answered c p = None /\ deadline <= pl_now p /\ r = Err "Request timed out"%string) \/
  (exists e, pl_sink p = SinkError e /\ r = Err e).

Lemma poll_response_final p f r :
  poll_response p f = Some r -> final_poll (pr_receiver (rf_pending f)) (rf_deadline f) p r.
Proof.
  unfold poll_response, final_poll, answered. intros Hr.
  destruct (response_result _ _); simplify_eq; [by left|]. case_match_hyp Hr; simplify_eq. b2p. auto.
Qed.

Lemma poll_response_idle p f :
  poll_response p f = None -> idle_poll (pr_receiver (rf_pending f)) (rf_deadline f) p.
Proof.
  unfold poll_response, idle_poll, answered. intros Hr.
  destruct (response_result _ _); simplify_eq. case_match_hyp Hr; simplify_eq. b2p. auto.
Qed.

Lemma poll_retry_error p f f' e :
  poll_retry p f = (f', Some e) -> f' = f /\ pl_sink p = SinkError e.
Proof. unfold poll_retry. intros Hr. by repeat case_match_hyp Hr; simplify_eq. Qed.

(** What a poll does to a request that waits. *)
Lemma poll_request_spec start now p f f' r :
  request_waits start now f -> now <= pl_now p -> 0 <= rf_timeout f ->
  poll_request p f = (f', r) ->
  let c := pr_receiver (rf_pending f) in
  rf_pending f' = rf_pending f /\ rf_timeout f' = rf_timeout f /\ rf_packet f' = rf_packet f /\
  (exists t, request_waits start t f') /\ zlen (rf_copies f') <= zlen (rf_copies f) + 1 /\
  match r with
  | None => request_waits start (pl_now p) f' /\ idle_poll c (rf_deadline f) p
  | Some r => final_poll c (rf_deadline f) p r
  end.
Proof.
  intros Hw Hn Ht Hp c. unfold poll_request in Hp.
  assert (forall f1, poll_retry p f = (f1, None) -> zlen (rf_copies f1) <= zlen (rf_copies f) + 1) as Hc.
  { intros f1. unfold poll_retry.
    destruct (retry_due _ _), (pl_sink p); intros [= <-]; simpl; rewrite ?zlen_app;
      try change (zlen [_]) with 1; lia. }
  destruct (poll_retry p f) as [f1 [e|]] eqn:Er.
  { apply poll_retry_error in Er as [-> Hs]. destruct (pl_send_first p).
    - simplify_eq. split_and!; [done..|by eauto|lia|]. right. right. by exists e.
    - destruct (poll_response p f) eqn:Ep; simplify_eq; split_and!; try done; try lia; eauto.
      + by apply poll_response_final.
      + right. right. by exists e. }
  destruct (poll_retry_waits _ _ _ _ _ Hw Hn Ht Er) as (Hw1 & Hp1 & Ht1 & Hk1). specialize (Hc _ eq_refl).
  assert (rf_deadline f1 = rf_deadline f) as Hd
    by (rewrite (wa_deadline _ _ _ Hw1), (wa_deadline _ _ _ Hw); congruence).
  assert (poll_response p f1 = poll_response p f) as Heq by (unfold poll_response; by rewrite Hp1, Hd).
  destruct (pl_send_first p); [rewrite Heq in Hp|]; destruct (poll_response p f) eqn:Ep; simplify_eq/=;
    split_and!; try done; try lia; eauto using poll_response_final; by apply poll_response_idle.
Qed.

(** While time is left no more than four copies were sent. *)
Lemma waiting_copies start now f :
  request_waits start now f -> 0 < rf_timeout f -> rf_timeout f mod RETRIES = 0 ->
  now < rf_deadline f -> zlen (rf_copies f) <= 4.
Proof.
  intros [_ Hd Hs _ _] Ht Hm Hn. destruct (decide (zlen (rf_copies f) <= 4)) as [|Hgt]; [done|].
  assert (4 < length (rf_copies f))%nat as Hl by (unfold zlen in Hgt; lia).
  destruct (lookup_lt_is_Some_2 (rf_copies f) 4 Hl) as [[t q] Hq]. apply Hs in Hq.
  unfold RETRIES in *. assert (rf_timeout f = 4 * (rf_timeout f / 4)) by dlia. lia.
Qed.

Lemma run_request_spec start ps : forall now f f' r,
  request_waits start now f -> polls_from now ps -> 0 < rf_timeout f -> rf_timeout f mod RETRIES = 0 ->
  zlen (rf_copies f) <= 4 -> run_request ps f = (f', r) ->
  let c := pr_receiver (rf_pending f) in
  rf_packet f' = rf_packet f /\ rf_timeout f' = rf_timeout f /\
  (exists t, request_waits start t f') /\ zlen (rf_copies f') <= 5 /\
  match r with
  | None => Forall (idle_poll c (rf_deadline f)) ps
  | Some r => exists ps1 p ps2, ps = ps1 ++ p :: ps2 /\ Forall (idle_poll c (rf_deadline f)) ps1 /\
      final_poll c (rf_deadline f) p r
  end.
Proof.
  induction ps as [|p ps IH]; intros now f f' r Hw Hps Ht Hm Hc Hr; simpl in Hr.
  { simplify_eq. split_and!; [done|done|by eauto|lia|apply List.Forall_nil]. }
  destruct Hps as [Hn Hps]. destruct (poll_request p f) as [f1 r1] eqn:Ep.
  destruct (poll_request_spec _ _ _ _ _ _ Hw Hn ltac:(lia) Ep) as (Hp1 & Ht1 & Hk1 & [t1 Hw1] & Hc1 & Ho).
  assert (rf_deadline f1 = rf_deadline f) as Hd
    by (rewrite (wa_deadline _ _ _ Hw1), (wa_deadline _ _ _ Hw); congruence).
  destruct r1 as [r1|].
  - simplify_eq. split_and!; [done|done|by eauto|lia|]. exists [], p, ps. split_and!; [done|constructor|done].
  - destruct Ho as [Hw2 Hi]. rewrite <- Ht1 in Ht, Hm. rewrite <- Hd, <- Hp1 in Hi.
    destruct (IH _ _ _ _ Hw2 Hps Ht Hm (waiting_copies _ _ _ Hw2 Ht Hm (proj1 Hi)) Hr)
      as (Hk & Hto & Hw' & Hc' & Hout).
    rewrite <- Hp1, <- Hd, <- Hk1, <- Ht1. split_and!; [done|done|done|done|].
    destruct r as [r|]; [|by constructor]. destruct Hout as (ps1 & q & ps2 & -> & Hf & Hl).
    exists (p :: ps1), q, ps2. split_and!; [done|by constructor|done].
Qed.

End Request.

(** ** Example *)

Section Witness.

(** A ping whose response arrives after the second copy. *)
Definition example_ping : Request := {| rq_request_id := 7; rq_kind := Some RqPing |}.
Definition asked : RequestFuture * Dispatcher :=
  request_start 0 example_ping [1; 2] 2000 (Dispatcher_default 0).
Definition responded : Dispatcher := (dispatch_response 7 [1; 2] 200 RsPong asked.2).2.
Definition example_poll (now : Z) (d : Dispatcher) : RequestPoll :=
  {| pl_now := now; pl_send_first := true; pl_sink := SinkSent; pl_dispatcher := d |}.
Definition example_polls : list RequestPoll :=
  [example_poll 0 asked.2; example_poll 300 asked.2; example_poll 510 asked.2;
   example_poll 600 responded].

End Witness.
