(* ===== verification/ClientDispatch.v ===== *)
(** How the client handles packets from the network: the loop of
    [client/src/dispatch.rs] and the handlers of [client/src/session.rs] it calls.

    A handler decides at once what to do and may leave a future for the executor;
    these futures are the [Spawned] values. *)

From S2P Require Import Prelude Payload Proto Codec Challenge NodeInfo SessionState DirectSession.
From S2P Require Import Encryption ClientForward NetworkView ClientSessions SessionInit Dispatch.

Section ClientDispatch.
Context `{EthSign} `{B : ExponentialBackoff}.

(** The client as packets find it: the registry and the tables, the initializer
    once the client is started, the requests seen, the dispatchers of temporary
    sessions and of sessions, and the pauses of sessions. *)
Record ClientNet : Type := {
  cn_client : Client;
  cn_init : option SessionInitializerState;
  cn_processed : list ReqFingerprint;
  cn_tmp_dispatchers : list Dispatcher;
  cn_dispatchers : list Dispatcher;
  cn_pauses : list Actuator }.

Definition with_cn_init (net : ClientNet) (i : option SessionInitializerState) : ClientNet :=
  {| cn_client := cn_client net; cn_init := i; cn_processed := cn_processed net;
     cn_tmp_dispatchers := cn_tmp_dispatchers net; cn_dispatchers := cn_dispatchers net;
     cn_pauses := cn_pauses net |}.
Definition with_processed (net : ClientNet) (l : list ReqFingerprint) : ClientNet :=
  {| cn_client := cn_client net; cn_init := cn_init net; cn_processed := l;
     cn_tmp_dispatchers := cn_tmp_dispatchers net; cn_dispatchers := cn_dispatchers net;
     cn_pauses := cn_pauses net |}.
Definition with_dispatchers (net : ClientNet) (tmp ds : list Dispatcher) : ClientNet :=
  {| cn_client := cn_client net; cn_init := cn_init net; cn_processed := cn_processed net;
     cn_tmp_dispatchers := tmp; cn_dispatchers := ds; cn_pauses := cn_pauses net |}.
Definition with_pauses (net : ClientNet) (l : list Actuator) : ClientNet :=
  {| cn_client := cn_client net; cn_init := cn_init net; cn_processed := cn_processed net;
     cn_tmp_dispatchers := cn_tmp_dispatchers net; cn_dispatchers := cn_dispatchers net;
     cn_pauses := l |}.

(** The raw session a packet belongs to: that of a session or a temporary one. *)
Inductive RawRef : Type := SessionRaw (d : nat) | TemporaryRaw (raw : nat).

Inductive Spawned : Type :=
| SpawnPing (session_id : list Z) (request_id : Z) (from : SocketAddr)
| SpawnSession (a : IncomingAdmission) (session_id : list Z) (request_id : Z) (from : SocketAddr)
    (request : request_Session)
| SpawnReverse (session_id : list Z) (from : SocketAddr) (node_id : list Z) (endpoints : list Endpoint)
| SpawnPause (from : SocketAddr)
| SpawnResume (from : SocketAddr)
| SpawnDisconnected (session_id : list Z) (from : SocketAddr) (by_ : disconnected_By)
| SpawnForward (forward : Forward) (from : SocketAddr) (session : option nat)
| SpawnErrorHandler (handler : nat).

(** [Handler::dispatcher] and [Handler::session] of the session layer. *)
Definition handler_dispatcher (net : ClientNet) (from : SocketAddr) : option nat :=
  match cn_init net with Some protocol => get_temporary_session protocol from | None => None end.
Definition handler_session (net : ClientNet) (from : SocketAddr) : option nat :=
  ly_p2p_sessions (cl_state (cn_client net)) !! from.

Definition raw_of (net : ClientNet) (from : SocketAddr) : option RawRef :=
  match handler_session net from with
  | Some d => Some (SessionRaw d)
  | None => TemporaryRaw <$> handler_dispatcher net from
  end.

Definition at_dispatcher (net : ClientNet) (r : RawRef) (f : Dispatcher -> Dispatcher) : ClientNet :=
  match r with
  | SessionRaw d => with_dispatchers net (cn_tmp_dispatchers net) (alter f d (cn_dispatchers net))
  | TemporaryRaw raw => with_dispatchers net (alter f raw (cn_tmp_dispatchers net)) (cn_dispatchers net)
  end.
Definition dispatcher_at (net : ClientNet) (r : RawRef) : option Dispatcher :=
  match r with
  | SessionRaw d => cn_dispatchers net !! d
  | TemporaryRaw raw => cn_tmp_dispatchers net !! raw
  end.

(** [on_control]. *)
Definition on_control (session_id : list Z) (control : option control_Kind) (from : SocketAddr)
  : list Spawned :=
  match control with
  | Some (CtReverseConnection node_id endpoints) => [SpawnReverse session_id from node_id endpoints]
  | Some (CtPauseForwarding _) => [SpawnPause from]
  | Some (CtResumeForwarding _) => [SpawnResume from]
  | Some (CtDisconnected (Some by_)) => [SpawnDisconnected session_id from by_]
  | _ => []
  end.

(** [on_request]. *)
Definition on_request (session_id : list Z) (request : Request) (from : SocketAddr) (net : ClientNet)
  : list Spawned * ClientNet :=
  match rq_kind request with
  | None => ([], net)
  | Some kind =>
      match SessionId_from_wire session_id with
      | None => ([], net)
      | Some parsed_id =>
          let request_id := rq_request_id request in
          if is_request_duplicate (cn_processed net) (from, parsed_id, request_id) then ([], net)
          else
          let net := with_processed net
                       (record_duplicate (cn_processed net) (from, parsed_id, request_id)) in
          match kind with
          | RqPing => ([SpawnPing session_id request_id from], net)
          | RqSession request =>
              match cn_init net with
              | None => ([], net)
              | Some protocol =>
                  match parsed_id with
                  | Some id =>
                      let '(_, protocol) := try_continue_session protocol id request_id from request in
                      ([], with_cn_init net (Some protocol))
                  | None =>
                      match admit_incoming protocol from with
                      | (Some admission, protocol) =>
                          ([SpawnSession admission session_id request_id from request],
                           with_cn_init net (Some protocol))
                      | (None, protocol) => ([], with_cn_init net (Some protocol))
                      end
                  end
              end
          | _ => ([], net)
          end
      end
  end.

(** The session id of a session. *)
Definition session_id_of (net : ClientNet) (d : nat) : option SessionId :=
  ds_id <$> session_at (cl_state (cn_client net)) d.

(** One turn of the loop of [dispatch]. *)
Definition dispatch_packet (now : Z) (packet : PacketKind Packet) (from : SocketAddr) (net : ClientNet)
  : list Spawned * ClientNet :=
  let session := handler_session net from in
  let foreign :=
    match session with
    | Some d => is_protocol_packet packet &&
                bool_decide (session_id_of net d <> Some (PacketKind_session_id packet))
    | None => false
    end in
  if foreign then ([], net)
  else
    let raw := raw_of net from in
    let net := match raw with Some r => at_dispatcher net r (update_seen now) | None => net end in
    match packet with
    | KPacket {| pkt_session_id := session_id; pkt_kind := Some kind |} =>
        match kind with
        | PkControl control => (on_control session_id control from, net)
        | PkRequest request => on_request session_id request from net
        | PkResponse response =>
            match rs_kind response, raw with
            | Some kind, Some r =>
                let f d := dispatch_response (rs_request_id response) session_id (rs_code response) kind d in
                (match dispatcher_at net r with
                 | Some d => match (f d).1 with Some h => [SpawnErrorHandler h] | None => [] end
                 | None => []
                 end, at_dispatcher net r (fun d => (f d).2))
            | _, _ => ([], net)
            end
        end
    | KForward forward => ([SpawnForward forward from session], net)
    | _ => ([], net)
    end.

(** What the futures do that pause and resume, and the answer to a ping. *)
Definition run_pause (net : ClientNet) (from : SocketAddr) : ClientNet :=
  match handler_session net from with
  | Some d => with_pauses net (alter enable d (cn_pauses net))
  | None => net
  end.
Definition run_resume (net : ClientNet) (from : SocketAddr) : ClientNet :=
  match handler_session net from with
  | Some d => with_pauses net (alter disable d (cn_pauses net))
  | None => net
  end.
Definition on_ping (session_id : list Z) (request_id : Z) : Packet :=
  Packet_response request_id session_id StatusOk RsPong.

(** [filter_own_addresses]. *)
Definition filter_own_addresses (s : SessionLayerState) (endpoints : list SocketAddr) : list SocketAddr :=
  filter (fun a => Some a <> ly_bind_addr s /\ Some a <> ly_public_addr s) endpoints.

(** ** Properties *)

(** The requests among the spawned futures. *)
Definition spawned_request (s : Spawned) : option (list Z * Z) :=
  match s with
  | SpawnPing session_id request_id _ | SpawnSession _ session_id request_id _ _ =>
      Some (session_id, request_id)
  | _ => None
  end.

Lemma at_dispatcher_other net r f :
  cn_client (at_dispatcher net r f) = cn_client net /\ cn_init (at_dispatcher net r f) = cn_init net /\
  cn_processed (at_dispatcher net r f) = cn_processed net /\ cn_pauses (at_dispatcher net r f) = cn_pauses net /\
  (forall r', r' <> r -> dispatcher_at (at_dispatcher net r f) r' = dispatcher_at net r').
Proof.
  destruct r; cbn; (split_and!; [done..|]); intros [] Hne; cbn; try done;
    apply list_lookup_alter_ne; congruence.
Qed.

Lemma is_request_duplicate_spec l r : is_request_duplicate l r = bool_decide (r ∈ l).
Proof.
  unfold is_request_duplicate. apply eq_true_iff_eq. rewrite existsb_exists, bool_decide_eq_true. split.
  - intros (x & Hx & E%bool_decide_eq_true). subst x. by apply list_elem_of_In.
  - intros Hr. exists r. split; [by apply list_elem_of_In|]. by apply bool_decide_eq_true.
Qed.

Lemma record_duplicate_in l r : r ∈ record_duplicate l r.
Proof.
  unfold record_duplicate, REQ_DEDUPLICATE_BUF_SIZE. destruct (Z.ltb_spec 32 (zlen (l ++ [r]))) as [Hl|]; [|set_solver].
  destruct l as [|x l]; [by unfold zlen in Hl|]. cbn. set_solver.
Qed.

Ltac nothing_spawned :=
  (split_and!; [done|done|done|done|by intros ? ?%elem_of_nil|by intros ????? ?%elem_of_nil|]).

(** What a request does besides being recorded. *)
Lemma on_request_spec session_id request from net acts net' :
  on_request session_id request from net = (acts, net') ->
  cn_client net' = cn_client net /\ cn_tmp_dispatchers net' = cn_tmp_dispatchers net /\
  cn_dispatchers net' = cn_dispatchers net /\ cn_pauses net' = cn_pauses net /\
  (forall s, s ∈ acts -> exists parsed,
     SessionId_from_wire session_id = Some parsed /\ is_Some (rq_kind request) /\
     spawned_request s = Some (session_id, rq_request_id request) /\
     (from, parsed, rq_request_id request) ∉ cn_processed net) /\
  (forall a session_id' request_id from' req, SpawnSession a session_id' request_id from' req ∈ acts ->
     session_id' = [] /\ from' = from /\
     exists i i', cn_init net = Some i /\ cn_init net' = Some i' /\
       admit_incoming i from = (Some a, i')) /\
  (forall parsed, SessionId_from_wire session_id = Some parsed -> is_Some (rq_kind request) ->
     (from, parsed, rq_request_id request) ∈ cn_processed net').
Proof.
  unfold on_request. destruct (rq_kind request) as [kind|] eqn:Hk; [|intros [= <- <-]; nothing_spawned; by intros ? _ []].
  destruct (SessionId_from_wire session_id) as [parsed|] eqn:Hp; [|intros [= <- <-]; by nothing_spawned].
  rewrite is_request_duplicate_spec. case_bool_decide as Hd.
  { intros [= <- <-]. nothing_spawned. by intros ? [= <-]. }
  pose proof (record_duplicate_in (cn_processed net) (from, parsed, rq_request_id request)) as Hin.
  destruct kind as [req|endpoints|node key|slot key|count key|node|];
    try (intros [= <- <-]; nothing_spawned; by intros ? [= <-]).
  - cbn [cn_init with_processed]. destruct (cn_init net) as [i|] eqn:Hi;
      [|intros [= <- <-]; nothing_spawned; by intros ? [= <-]].
    destruct parsed as [id|].
    { destruct (try_continue_session _ _ _ _ _) as [r i']. intros [= <- <-]. nothing_spawned.
      by intros ? [= <-]. }
    assert (session_id = []) as ->.
    { unfold SessionId_from_wire in Hp. case_bool_decide; [done|]. by destruct (SessionId_try_from _). }
    destruct (admit_incoming i from) as [[a|] i'] eqn:Ha; intros [= <- <-].
    + split_and!; try done.
      * intros s ->%list_elem_of_singleton. eauto.
      * intros a' s' r' f' q' [= -> -> -> -> ->]%list_elem_of_singleton. cbn. eauto 10.
      * by intros ? [= <-].
    + nothing_spawned. by intros ? [= <-].
  - intros [= <- <-]. split_and!; try done.
    + intros s ->%list_elem_of_singleton. eauto.
    + by intros a' s' r' f' q' ?%list_elem_of_singleton.
    + by intros ? [= <-].
Qed.
(** The part of [dispatch_packet] behind the check of the session id. *)
Definition foreign (packet : PacketKind Packet) (from : SocketAddr) (net : ClientNet) : bool :=
  match handler_session net from with
  | Some d => is_protocol_packet packet &&
              bool_decide (session_id_of net d <> Some (PacketKind_session_id packet))
  | None => false
  end.

Definition seen (now : Z) (from : SocketAddr) (net : ClientNet) : ClientNet :=
  match raw_of net from with Some r => at_dispatcher net r (update_seen now) | None => net end.

Lemma seen_spec now from net :
  cn_client (seen now from net) = cn_client net /\ cn_init (seen now from net) = cn_init net /\
  cn_processed (seen now from net) = cn_processed net /\ cn_pauses (seen now from net) = cn_pauses net /\
  (forall r, raw_of net from <> Some r -> dispatcher_at (seen now from net) r = dispatcher_at net r).
Proof.
  unfold seen. destruct (raw_of net from) as [r|]; [|done].
  destruct (at_dispatcher_other net r (update_seen now)) as (? & ? & ? & ? & Hr).
  split_and!; try done. intros r' Hne. apply Hr. congruence.
Qed.

(** A packet that passes is a request, or spawns no request and leaves the lists of
    requests and handshakes alone. *)
Lemma dispatch_packet_cases now packet from net acts net' :
  dispatch_packet now packet from net = (acts, net') ->
  foreign packet from net = true /\ acts = [] /\ net' = net \/
  foreign packet from net = false /\
  ((exists session_id request,
      packet = KPacket {| pkt_session_id := session_id; pkt_kind := Some (PkRequest request) |} /\
      on_request session_id request from (seen now from net) = (acts, net')) \/
   (forall s, s ∈ acts -> spawned_request s = None) /\
   (forall session_id request, packet <> KPacket {| pkt_session_id := session_id;
                                                    pkt_kind := Some (PkRequest request) |}) /\
   cn_client net' = cn_client net /\ cn_init net' = cn_init net /\ cn_processed net' = cn_processed net /\
   cn_pauses net' = cn_pauses net /\
   (forall r, raw_of net from <> Some r -> dispatcher_at net' r = dispatcher_at net r)).
Proof.
  unfold dispatch_packet. fold (foreign packet from net).
  destruct (foreign packet from net); [intros [= <- <-]; by left|]. intros Hd. right. split; [done|].
  fold (seen now from net) in Hd. pose proof (seen_spec now from net) as (Hc & Hi & Hp & Hpa & Hr).
  assert (forall f r, raw_of net from = Some r ->
    cn_client (at_dispatcher (seen now from net) r f) = cn_client net /\
    cn_init (at_dispatcher (seen now from net) r f) = cn_init net /\
    cn_processed (at_dispatcher (seen now from net) r f) = cn_processed net /\
    cn_pauses (at_dispatcher (seen now from net) r f) = cn_pauses net /\
    (forall r', raw_of net from <> Some r' ->
       dispatcher_at (at_dispatcher (seen now from net) r f) r' = dispatcher_at net r')) as Hat.
  { intros f r Hraw. destruct (at_dispatcher_other (seen now from net) r f) as (-> & -> & -> & -> & Ho).
    split_and!; try done. intros r' Hne. rewrite Ho by congruence. by apply Hr. }
  destruct packet as [[session_id [[request|resp|control]|]]|f|b].
  2:{ right. destruct (rs_kind resp) as [kind|]; [|by injection Hd as <- <-; split_and!; try done; intros ? ?%elem_of_nil].
      destruct (raw_of net from) as [r|] eqn:Hraw; [|by injection Hd as <- <-; split_and!; try done; intros ? ?%elem_of_nil].
      injection Hd as <- <-. split; [|split; [done|by apply Hat]].
      intros s. repeat case_match_goal; first [by intros ?%elem_of_nil|by intros ->%list_elem_of_singleton]. }
  2:{ right. injection Hd as <- <-. split; [|done]. intros s. unfold on_control.
      repeat case_match_goal; first [by intros ?%elem_of_nil|by intros ->%list_elem_of_singleton]. }
  - left. eauto.
  - right. injection Hd as <- <-. split_and!; try done. by intros ? ?%elem_of_nil.
  - right. injection Hd as <- <-. split_and!; try done. by intros s ->%list_elem_of_singleton.
  - right. injection Hd as <- <-. split_and!; try done. by intros ? ?%elem_of_nil.
Qed.
(** C33: packets are filtered before they are handled.  Handling a packet changes
    neither the registry nor the tables, only the dispatcher of the session, or the
    temporary session, at its address.  A protocol packet for another session than
    the one at its address is ignored altogether.  A ping or a request for a
    session is handled only when it was not seen before, and is remembered; the
    same packet again starts nothing.  A handshake is started only when it was
    admitted, from an address at which no session is open. *)
Theorem client_dispatch_filters now packet from net acts net' :
  dispatch_packet now packet from net = (acts, net') ->
  (cn_client net' = cn_client net /\ cn_pauses net' = cn_pauses net /\
   (forall r, raw_of net from <> Some r -> dispatcher_at net' r = dispatcher_at net r)) /\
  (forall d, handler_session net from = Some d -> is_protocol_packet packet = true ->
     session_id_of net d <> Some (PacketKind_session_id packet) -> acts = [] /\ net' = net) /\
  (forall s session_id request_id, s ∈ acts -> spawned_request s = Some (session_id, request_id) ->
     exists parsed, SessionId_from_wire session_id = Some parsed /\
       ((from, parsed, request_id) ∉ cn_processed net) /\ (from, parsed, request_id) ∈ cn_processed net') /\
  (forall a session_id request_id from' req, SpawnSession a session_id request_id from' req ∈ acts ->
     session_id = [] /\ from' = from /\
     ((forall d, session_id_of net d <> Some []) -> handler_session net from = None) /\
     exists i i', cn_init net = Some i /\ cn_init net' = Some i' /\ admit_incoming i from = (Some a, i')) /\
  (forall now2 acts2 net2, dispatch_packet now2 packet from net' = (acts2, net2) ->
     forall s, s ∈ acts2 -> spawned_request s = None).
Proof.
  intros [(Hf & -> & ->)|[Hf [(session_id & request & -> & Hreq)|(Hs & Hp & Hc & Hi & Hpr & Hpa & Hr)]]]%dispatch_packet_cases.
  - split_and!; try done; [by intros ? ? ? ?%elem_of_nil|by intros ? ? ? ? ? ?%elem_of_nil|].
    intros now2 acts2 net2 [(_ & -> & _)|[Hf' _]]%dispatch_packet_cases s; [by intros ?%elem_of_nil|congruence].
  - pose proof (seen_spec now from net) as (Sc & Si & Sp & Spa & Sr).
    apply on_request_spec in Hreq as (Hc & Ht & Hd & Hpa & Hacts & Hses & Hrec).
    split; [split; [congruence|split; [congruence|]]|split; [|split; [|split]]].
    + intros r Hne. rewrite <- Sr by done. destruct r; cbn; congruence.
    + intros d Hd' Hpk Hne. unfold foreign in Hf. rewrite Hd', Hpk, bool_decide_eq_true_2 in Hf by done. done.
    + intros s sid rid Hs Hreq. destruct (Hacts s Hs) as (parsed & Hw & Hk & Hr & Hnew).
      rewrite Hr in Hreq. injection Hreq as <- <-. rewrite Sp in Hnew. exists parsed. auto.
    + intros a sid rid from' req Hs. destruct (Hses _ _ _ _ _ Hs) as (-> & -> & i & i' & Hi1 & Hi2 & Ha).
      destruct (Hacts _ Hs) as (parsed & Hw & _ & [= <- _] & _).
      split_and!; [done|done| |rewrite <- Si; eauto].
      intros Hids. unfold foreign in Hf. destruct (handler_session net from) as [d|]; [|done].
      cbn in Hf. apply bool_decide_eq_false in Hf. by destruct Hf.
    + intros now2 acts2 net2 [(_ & -> & _)|[_ [(sid & req & [= <- <-] & Hreq)|(Hs & _)]]]%dispatch_packet_cases s Hin;
        [by apply elem_of_nil in Hin| |by apply Hs].
      apply on_request_spec in Hreq as (_ & _ & _ & _ & Hacts2 & _).
      destruct (Hacts2 s Hin) as (parsed & Hw & Hk & _ & Hnew).
      pose proof (seen_spec now2 from net') as (_ & _ & Sp2 & _). rewrite Sp2 in Hnew. destruct Hnew.
      by apply Hrec.
  - split_and!; try done.
    + intros d Hd' Hpk Hne. unfold foreign in Hf. rewrite Hd', Hpk, bool_decide_eq_true_2 in Hf by done. done.
    + intros s sid rid Hin Hsp. rewrite (Hs s Hin) in Hsp. done.
    + intros a sid rid from' req Hin%Hs. done.
    + intros now2 acts2 net2 [(_ & -> & _)|[_ [(sid & req & -> & _)|(Hs2 & _)]]]%dispatch_packet_cases s Hin;
        [by apply elem_of_nil in Hin| |by apply Hs2]. by destruct (Hp sid req).
Qed.
End ClientDispatch.

(** ** Example *)

Section Witness.
Import ToyCrypto ToyBackoff.

(** A client without sessions gets a request for one. *)
Definition net_example : ClientNet :=
  {| cn_client := {| cl_registry := NetworkView_new;
                     cl_state := {| ly_public_addr := None; ly_bind_addr := None; ly_sink := true;
                                    ly_nodes := ∅; ly_p2p_sessions := ∅; ly_p2p_nodes := ∅;
                                    ly_sync_backoff := ∅; ly_refresh_backoff := ∅;
                                    ly_sessions := []; ly_routings := [] |} |};
     cn_init := Some SessionInitializerState_default; cn_processed := [];
     cn_tmp_dispatchers := []; cn_dispatchers := []; cn_pauses := [] |}.
Definition hello_example : PacketKind Packet :=
  KPacket {| pkt_session_id := [];
             pkt_kind := Some (PkRequest
               {| rq_request_id := 7;
                  rq_kind := Some (RqSession
                    {| rqs_challenge_req := None; rqs_challenge_resp := None;
                       rqs_supported_encryptions := []; rqs_identities := [];
                       rqs_client_version := EmptyString |}) |}) |}.
Definition hello_from : SocketAddr := {| sa_ip := IpV4 1; sa_port := 1 |}.

Lemma client_dispatch_filters_witness :
  let first := dispatch_packet 0 hello_example hello_from net_example in
  length first.1 = 1%nat /\
  forall s, s ∈ (dispatch_packet 1 hello_example hello_from first.2).1 -> spawned_request s = None.
Proof.
  intros first. split; [reflexivity|].
  destruct (client_dispatch_filters 0 hello_example hello_from net_example first.1 first.2 eq_refl)
    as (_ & _ & _ & _ & Hagain).
  exact (Hagain 1 _ _ (surjective_pairing _)).
Defined.
End Witness.
