(* ===== verification/SessionEntry.v ===== *)
(** [client/src/session.rs]: the entry points through which sessions come about:
    [session], [dispatch_session] and [on_reverse_connection], with the lookup of a
    node at the relay server.

    Each of them takes a permit for a node, runs the attempt to connect under it and
    gives the permit up with the result; a permit that was taken is returned with
    it, and is dropped by a task of its own. *)

From S2P Require Import Prelude Payload Proto Challenge NodeInfo SessionState DirectSession Encryption.
From S2P Require Import ClientForward NetworkView ClientSessions SessionInit ConnectSession Dispatch ClientDispatch.

Notation "'do!' x := t 'in' k" := (task_bind t (fun x => k))
  (at level 10, x name, t at level 100, k at level 200).

Section SessionEntry.
Context `{Hs : Hashes} `{K : KeyAgreement} `{B : ExponentialBackoff} `{C : !CryptoProvider} `{T : IpText}.
Context (feature_encryption feature_strict : bool) (session_crypto : SessionCrypto).
Context (config : InitConfig) (env : Environment).
Context (capacity : nat) (upgrade : nat -> bool) (now node_info_ttl : Z).
Context (fuel : nat).
(** The task that gives the session with the relay server. *)
Context (server : Task nat).

(** ** Routes and nodes that are known *)

Definition get_node_routing (c : Client) (node_id : NodeId) : option nat :=
  ly_nodes (cl_state c) !! node_id.

(** The wait for a session that is registered to be established. *)
Definition await_connected (node_id : NodeId) : Task unit := fun w =>
  match get_entry (cl_registry (wd_client w)) node_id with
  | None => Done (Err (SeInternal "Entry for Node not found, despite it should exits.")) w
  | Some entry =>
      let a := awaiting_notifier (cl_registry (wd_client w)) entry in
      (do! _ := await_others env in fun w =>
       match await_for_finish upgrade capacity (cl_registry (wd_client w)) a with
       | (Some (Ok _), _, _) => Done (Ok tt) w
       | (Some (Err e), _, _) => Done (Err e) w
       | (None, _, _) => Unfinished
       end) w
  end.

(** [raw.request(packet)] through a session, given the answer. *)
Definition raw_request {A} (d : nat) (kind : request_Kind) (request_id : Z) (answer : option A) : Task A :=
  fun w =>
  match session_at (cl_state (wd_client w)) d with
  | None => Done (Err (SeNetwork "Request failed")) w
  | Some session =>
      (do! _ := (fun w => Done (Ok tt)
           (with_sent w {| pkt_session_id := ds_id session;
                           pkt_kind := Some (PkRequest {| rq_request_id := request_id;
                                                          rq_kind := Some kind |}) |}
              (ds_remote session))) in
       do! _ := await_others env in
       match answer with
       | Some response => task_ret response
       | None => task_err (SeNetwork "Request failed")
       end) w
  end.

(** [raw.find_node(node_id)], [raw.find_slot(slot)] and [raw.neighbours(count, public_key)]. *)
Definition find_node (d : nat) (node_id : NodeId) (request_id : Z) (answer : option response_Node)
  : Task response_Node := raw_request d (RqNode node_id true) request_id answer.
Definition find_slot (d : nat) (slot : Z) (request_id : Z) (answer : option response_Node)
  : Task response_Node := raw_request d (RqSlot slot true) request_id answer.
Definition raw_neighbours (d : nat) (count : Z) (public_key : bool) (request_id : Z)
  (answer : option (list response_Node)) : Task (list response_Node) :=
  raw_request d (RqNeighbours count public_key) request_id answer.

(** What is known of a node, asked from the server if it may be outdated. *)
Definition query_node_info (node_id : NodeId) (request_id : Z) (answer : option response_Node)
  : Task NodeInfo :=
  do! known := (do! _ := await_others env in fun w =>
                let reg := cl_registry (wd_client w) in
                Done (Ok match get_entry reg node_id with
                         | Some entry =>
                             match NodeView_info node_info_ttl now reg entry with
                             | UpToDate _ info => Some info
                             | UpdateRecommended _ _ => None
                             end
                         | None => None
                         end) w) in
  match known with
  | Some info => task_ret info
  | None =>
      do! d := server in
      do! node := find_node d node_id request_id answer in
      match NodeInfo_try_from node with
      | Err _ => task_err (SeInternal "Failed to convert NodeInfo")
      | Ok info =>
          do! _ := await_others env in fun w =>
          match update_entry now (cl_registry (wd_client w)) info with
          | Panic => Panicked
          | Ret (Ok _, reg) =>
              Done (Ok info) (with_client w {| cl_registry := reg; cl_state := cl_state (wd_client w) |})
          | Ret (Err _, reg) =>
              Done (Err (SeInternal "NetworkView update failed"))
                (with_client w {| cl_registry := reg; cl_state := cl_state (wd_client w) |})
          end
      end
  end.

(** ** Attempts under a permit *)

(** How a call ends: with the result of an attempt and its permit, with what another
    attempt gave, without an attempt, because another one goes on, or with a message
    handed over to a handshake. *)
Inductive Outcome : Type :=
| Attempted (p : SessionPermit) (r : result nat SessionError)
| Waited (r : result nat SessionError)
| Refused (e : SessionError)
| Ongoing
| Continued.

(** [permit.collect_results(permit.run_abortable(..).await)]. *)
Definition under_permit (p : SessionPermit) (abort : AbortHandle) (t : Task nat) : Task Outcome :=
  do! r := attempt (run_abortable env p abort t) in
  task_ret (Attempted (collect_results p r) r).

(** The part of [session_filtered_connection_methods] up to the end of the attempt,
    for a node that has no route. *)
Definition open_session (node_id : NodeId) (request_ids : Z * Z) (answer : option response_Node)
  (abort : AbortHandle) (answers : SocketAddr -> Answers) (accepted : bool)
  (dont_use : list ConnectionMethod) : Task Outcome :=
  do! info := attempt (query_node_info node_id request_ids.1 answer) in
  match info with
  | Err _ => task_ret (Refused (SeNotFound "Error querying node"))
  | Ok info =>
      match nf_identities info with
      | [] => task_ret (Refused (SeUnexpected "No default id from relay response"))
      | default :: _ =>
          let remote_id := ni_node_id default in
          if bool_decide (remote_id = ic_node_id config)
          then task_ret (Refused (SeBadRequest "Remote id belongs to this node."))
          else
            do! addrs := (fun w => Done (Ok (filter_own_addresses (cl_state (wd_client w))
                                               (map ne_address (nf_endpoints info)))) w) in
            do! lock := lock_node env now false remote_id addrs in
            match lock with
            | Permit p =>
                under_permit p abort
                  (resolve feature_encryption feature_strict session_crypto config env capacity upgrade
                     now node_info_ttl fuel server (sp_registry p) remote_id answers request_ids.2
                     accepted dont_use)
            | Wait a =>
                do! _ := await_others env in fun w =>
                match await_for_finish upgrade capacity (cl_registry (wd_client w)) a with
                | (Some r, _, _) => Done (Ok (Waited r)) w
                | (None, _, _) => Unfinished
                end
            end
      end
  end.

(** [session_filtered_connection_methods]: the route to the node. *)
Definition session_filtered_connection_methods (node_id : NodeId) (request_ids : Z * Z)
  (answer : option response_Node) (abort : AbortHandle) (answers : SocketAddr -> Answers)
  (accepted : bool) (dont_use : list ConnectionMethod) : Task nat := fun w =>
  match get_node_routing (wd_client w) node_id with
  | Some routing => (do! _ := await_connected node_id in task_ret routing) w
  | None =>
      (do! r := open_session node_id request_ids answer abort answers accepted dont_use in
       match r with
       | Refused e => task_err e
       | Attempted _ (Err _) | Waited (Err _) | Ongoing | Continued => task_err (SeGeneric "Session")
       | Attempted _ (Ok _) | Waited (Ok _) =>
           do! _ := await_others env in fun w =>
           match get_node_routing (wd_client w) node_id with
           | Some routing => Done (Ok routing) w
           | None => Done (Err (SeInternal "Session closed immediately after establishing.")) w
           end
       end) w
  end.

(** ** Attempts of other nodes *)

(** [on_reverse_connection]: a node asks to be connected to. *)
Definition on_reverse_connection (node_id : list Z) (endpoints : list Endpoint) (abort : AbortHandle)
  (answers : SocketAddr -> Answers) (request_id : Z) (accepted : bool) : Task Outcome :=
  match NodeId_try_from node_id with
  | None => task_err (SeBadRequest "ReverseConnection with invalid NodeId")
  | Some node_id =>
      match endpoints with
      | [] => task_err (SeBadRequest "ReverseConnection with no endpoints")
      | _ =>
          do! addrs := (fun w => Done (Ok (filter_own_addresses (cl_state (wd_client w))
                                             (map ne_address (omap Endpoint_try_from endpoints)))) w) in
          do! lock := lock_node env now false node_id addrs in
          match lock with
          | Permit p =>
              under_permit p abort
                (resolve feature_encryption feature_strict session_crypto config env capacity upgrade
                   now node_info_ttl fuel server (sp_registry p) node_id answers request_id accepted
                   [MethodReverse; MethodRelay])
          | Wait _ => task_ret Ongoing
          end
      end
  end.

(** [dispatch_session] for a message that starts a handshake, given the generated
    session id, the random challenge and the message that follows. *)
Definition dispatch_new_session (request_id : Z) (from : SocketAddr) (request : request_Session)
  (abort : AbortHandle) (session_id : SessionId) (raw : list Z) (message : option (Z * request_Session))
  : Task Outcome :=
  match recover_default_node_id request with
  | Err _ => task_err (SeProtocol (RecoverId "Default id"))
  | Ok remote_id =>
      do! lock := lock_node env now true remote_id [from] in
      match lock with
      | Permit p =>
          under_permit p abort
            (new_session feature_encryption feature_strict session_crypto config env fuel request_id from
               (sp_registry p) request session_id raw message)
      | Wait _ => task_ret Ongoing
      end
  end.

Definition dispatch_session (id : list Z) (request_id : Z) (from : SocketAddr) (request : request_Session)
  (abort : AbortHandle) (session_id : SessionId) (raw : list Z) (message : option (Z * request_Session))
  : Task Outcome :=
  match id with
  | [] => dispatch_new_session request_id from request abort session_id raw message
  | _ =>
      match SessionId_try_from id with
      | None => task_err (SeProtocol (InvalidSessionId id))
      | Some id => fun w =>
          match try_continue_session (wd_init w) id request_id from request with
          | (Ok _, s) => Done (Ok Continued) (with_init w s)
          | (Err e, s) => Done (Err e) (with_init w s)
          end
      end
  end.
End SessionEntry.
