(* ===== verification/SessionEntryProps.v ===== *)
(** The entry points of the session layer settle the nodes they take a permit for:
    whoever asks for a session, and whatever comes of it, the node ends up
    established in the session that is returned, or retired with the error. *)

From S2P Require Import Prelude Payload Proto Challenge NodeInfo SessionState DirectSession Encryption.
From S2P Require Import ClientForward NetworkView NetworkViewProps ClientSessions SessionInit ConnectSession.
From S2P Require Import ConnectProps Dispatch ClientDispatch SessionEntry.

Section SessionEntryProps.
Context `{HH : Hashes} `{K : KeyAgreement} `{B : ExponentialBackoff} `{C : !CryptoProvider} `{T : IpText}.
Context (feature_encryption feature_strict : bool) (session_crypto : SessionCrypto).
Context (config : InitConfig) (env : Environment).
Context (capacity : nat) (upgrade : nat -> bool) (now node_info_ttl : Z) (fuel : nat).
Context (server : Task nat).

(** How many generations of nodes a task may use up while another one waits. *)
Context (spent : Z).

(** The registry is in order, with some generations left. *)
Definition sound (left : Z) (w : World) : Prop :=
  view_inv (cl_registry (wd_client w)) /\ rg_next_generation (cl_registry (wd_client w)) + left < 2 ^ 64.

(** Other tasks, and the one for the relay server, leave it in order. *)
Definition others_sound : Prop :=
  0 <= spent /\
  forall n c s c' s', ev_others env n (c, s) = (c', s') -> view_inv (cl_registry c) ->
    view_inv (cl_registry c') /\
    rg_next_generation (cl_registry c') <= rg_next_generation (cl_registry c) + spent.
Definition task_sound {A} (t : Task A) : Prop :=
  forall left, ends t (sound (left + spent)) (fun _ => sound left) (fun _ => True).

Context (Hothers : others_sound) (Hserver : task_sound server).

Lemma sound_less left less w : sound left w -> less <= left -> sound less w.
Proof. intros []. split; [done|lia]. Qed.

Lemma ends_others : task_sound (await_others env).
Proof.
  intros left w [Hw Hn]. unfold await_others. destruct (ev_interrupt env (wd_time w)); [done|].
  destruct (ev_others env (wd_time w) (wd_client w, wd_init w)) as [c s] eqn:Ho.
  destruct (proj2 Hothers _ _ _ _ _ Ho Hw). split; cbn; [done|lia].
Qed.

(** ** Locks *)

(** The state a lock leaves the node in. *)
Definition locked_state (incoming : bool) : ConnState :=
  if incoming then Incoming ConnectIntent else Outgoing ConnectIntent.

Lemma ends_lock incoming node_id addrs :
  ends (lock_node env now incoming node_id addrs) (sound (1 + spent))
    (fun lock w =>
       match lock with
       | Permit p => sp_reverse p = false -> in_state (sp_registry p) (eq (locked_state incoming)) w
       | Wait _ => True
       end) (fun _ => True).
Proof.
  eapply ends_bind; [apply ends_others|]. intros _ w [Hw Hb].
  destruct (view_inv_guard now (cl_registry (wd_client w)) node_id addrs Hw Hb) as [Hw1 [Hnone _]].
  cbv zeta.
  destruct (guard now _ node_id addrs) as [v reg]. cbn [fst snd] in *.
  destruct (lock_session (subscribe reg v) reg v incoming) as [[p|a] reg'] eqn:Hl; [|done].
  intros Hrev. destruct (lock_permit_eq _ _ _ _ _ _ Hnone Hl) as (c & s & Hc & Hr & _ & Hs & _ & Hp & Hcells & _).
  rewrite Hrev in *. assert (rg_cells reg' !! nv_cell v = Some (push_notification s
    (set_epoch (set_view_state c (with_state (nc_state c) s)) (rg_next_generation reg)))) as Hc'.
  { by rewrite Hcells, list_lookup_alter_eq, Hc. }
  rewrite Hp. unfold in_state, is_current, generation. cbn.
  rewrite (cell_lookup reg' {| nv_id := nv_id v; nv_cell := nv_cell v;
    nv_expected_generation := Some (rg_next_generation reg) |} _ Hc'). cbn. rewrite Hr, Z.eqb_refl.
  split; [done|]. by rewrite Hs.
Qed.

(** ** Attempts under a permit *)

(** What the drop of a permit with its result does to the node. *)
Definition settles (v : NodeView) (r : result nat SessionError) (p : SessionPermit) (w : World) : Prop :=
  let log reg := nc_notified (cell reg v) in
  exists reg, async_drop (cl_registry (wd_client w)) p = Some reg /\
    match r with
    | Ok d => NodeView_state reg v = Established d
    | Err e => NodeView_state reg v = Closed /\
               log reg = log (cl_registry (wd_client w)) ++ [FailedEstablish e; Closed]
    end.

Definition settled_outcome (o : Outcome) (w : World) : Prop :=
  match o with
  | Attempted p r =>
      sp_result p = Some r /\
      (sp_reverse p = false -> calm env (sp_registry p) -> calm_task (sp_registry p) server ->
       settles (sp_registry p) r p w)
  | _ => True
  end.

Lemma register_abortable_in v P abort w : in_state v P w ->
  in_state v P (with_client w {| cl_registry := register_abortable (cl_registry (wd_client w)) v abort;
                                 cl_state := cl_state (wd_client w) |}).
Proof.
  intros [Hc HP]. unfold in_state, register_abortable. cbn. destruct (_ && _); [|done].
  pose proof (current_cell _ _ Hc) as (x & Hx & Ex & _).
  unfold is_current, generation in *. rewrite Ex in *.
  erewrite (cell_lookup (update_cell _ v _) v); [|by rewrite update_cell_lookup, decide_True, Hx].
  done.
Qed.

Lemma ends_under_permit p abort t st (Q : nat -> ConnState -> Prop) (R : ConnState -> Prop) :
  (calm env (sp_registry p) -> calm_task (sp_registry p) server ->
   ends t (in_state (sp_registry p) (eq st)) (fun d => in_state (sp_registry p) (Q d))
     (in_state (sp_registry p) R)) ->
  is_reverse st = false -> R st ->
  (forall d s, Q d s -> allowed s (Established d) = true) ->
  (forall e s, R s -> allowed s (FailedEstablish e) = true) ->
  ends (under_permit env p abort t)
    (fun w => sp_reverse p = false -> in_state (sp_registry p) (eq st) w) settled_outcome (fun _ => True).
Proof.
  intros Ht Hst HRst HQ HR w Hw. unfold under_permit, task_bind, attempt.
  destruct (run_abortable env p abort t w) as [r w1| |] eqn:Hrun; try done.
  split; [done|]. cbn [collect_results sp_reverse sp_registry]. intros Hrev Hcalm Hserv.
  assert (ends (run_abortable env p abort t) (in_state (sp_registry p) (eq st))
    (fun d => in_state (sp_registry p) (Q d)) (in_state (sp_registry p) R)) as He.
  { unfold run_abortable. eapply (ends_bind _ _ _ (fun _ => in_state (sp_registry p) (eq st))); [|intros ?; by apply Ht].
    eapply ends_bind; [eapply ends_weaken;
      [apply (ends_await env _ Hcalm (eq st)), steady_other; by intros s <-|done|done|
       intros w0 [Hc Hs]; split; [done|by rewrite <- Hs]]|].
    intros _ w0 Hw0. by apply register_abortable_in. }
  specialize (He w (Hw Hrev)). rewrite Hrun in He. unfold settles.
  replace (collect_results p r) with (result_permit (sp_registry p) r)
    by (unfold result_permit, collect_results; by rewrite Hrev).
  destruct r as [d|e]; destruct He as [Hc Hs].
  - apply drop_established; [done|]. by apply HQ.
  - destruct (drop_failed (sp_registry p) (wd_client w1) e Hc (HR e _ Hs)) as (reg & Hd & Hcur & Hlog).
    exists reg. split_and!; [done| |done]. unfold NodeView_state. by rewrite Hcur.
Qed.

(** ** Handshakes of other nodes *)

Definition incoming (s : ConnState) : Prop := match s with Incoming _ => True | _ => False end.

Lemma incoming_steady : steady incoming.
Proof. apply steady_other. by intros []. Qed.

Section Incoming.
Context (v : NodeView) (Hcalm : calm env v).

Lemma ends_step_in s :
  ends (step_incoming env v s) (in_state v incoming) (fun _ => in_state v (eq (Incoming s))) (in_state v incoming).
Proof.
  eapply ends_bind; [apply (ends_await env v Hcalm), incoming_steady|]. intros _ w [Hc Hs].
  unfold NodeView_transition_incoming, transition_with. rewrite Hc. cbn [negb].
  unfold transition_incoming, transition.
  destruct (vs_state (nc_state (cell (cl_registry (wd_client w)) v))) as [| i| | | | | | |] eqn:Es; try done.
  destruct (allowed _ _); [|split; [done|by rewrite Es]].
  destruct (change_state_in v (wd_client w) (Incoming s) Hc) as (? & ? & _). by split.
Qed.

Lemma ends_step_in' s :
  ends (step_incoming env v s) (in_state v incoming) (fun _ => in_state v incoming) (in_state v incoming).
Proof.
  eapply ends_weaken; [apply ends_step_in|done| |done]. intros ? w [Hc Hs]. split; [done|by rewrite <- Hs].
Qed.

Lemma ends_send_incoming packet to :
  ends (send env packet to) (in_state v incoming) (fun _ => in_state v incoming) (in_state v incoming).
Proof. apply (ends_send_in env v Hcalm), incoming_steady. Qed.

Lemma ends_accept with_ raw session_id challenge_req request_id message :
  ends (accept_answer feature_encryption feature_strict session_crypto config env fuel with_ v raw session_id
          challenge_req request_id message)
    (in_state v incoming) (fun _ => in_state v (eq (Incoming InitReady))) (in_state v incoming).
Proof.
  unfold accept_answer. eapply ends_bind; [apply ends_step_in'|]. intros ?.
  destruct (recover_identities_from_challenge _ _ _ _) as [[[node_id identities] key]|]; [|apply ends_err].
  eapply (ends_bind _ _ _ (fun _ => in_state v incoming)).
  { destruct challenge_req; [|apply ends_ret]. apply (ends_solve _ _ _ _ v Hcalm), incoming_steady. }
  intros solved. eapply ends_bind; [apply ends_step_in'|]. intros ?.
  eapply ends_bind; [apply (ends_register _ _ _ _ v Hcalm), incoming_steady|]. intros session.
  eapply ends_bind; [apply ends_step_in'|]. intros ?.
  eapply ends_bind; [apply ends_send_incoming|]. intros ?.
  eapply ends_bind; [apply (ends_await env v Hcalm), incoming_steady|]. intros ?.
  eapply ends_bind; [apply ends_step_in|]. intros ?. apply ends_ret.
Qed.

Lemma ends_handler with_ request_id session_id req raw message :
  ends (init_session_handler feature_encryption feature_strict session_crypto config env fuel with_ request_id
          session_id v req raw message)
    (in_state v incoming) (fun _ => in_state v (eq (Incoming InitReady))) (in_state v incoming).
Proof.
  unfold init_session_handler. eapply ends_bind; [apply ends_step_in'|]. intros ?.
  eapply (ends_bind _ _ _ (fun _ => in_state v incoming)).
  { intros w Hw. by destruct (get_temporary_session _ _). }
  intros ?. destruct (prepare_challenge_response _ _) as [packet raw_challenge].
  eapply ends_bind; [apply ends_send_incoming|]. intros ?.
  eapply ends_bind; [apply ends_step_in'|]. intros ?.
  eapply ends_bind; [apply (ends_await env v Hcalm), incoming_steady|]. intros ?.
  destruct message as [[id message]|]; [apply ends_accept|apply ends_err].
Qed.

Lemma ends_new_session request_id with_ req session_id raw message :
  ends (new_session feature_encryption feature_strict session_crypto config env fuel request_id with_ v req
          session_id raw message)
    (in_state v incoming) (fun _ => in_state v (eq (Incoming InitReady))) (in_state v incoming).
Proof.
  intros w Hw. unfold new_session. destruct (reserve_incoming _ _ _) as [[] s]; [|done].
  pose proof (ends_leased v with_ (fun _ => init_session_handler feature_encryption feature_strict
    session_crypto config env fuel with_ request_id session_id v req raw message) incoming
    (eq (Incoming InitReady)) incoming (fun _ => ends_handler _ _ _ _ _ _) (with_init w s) Hw) as He.
  by destruct (leased _ _ _) as [[d|e] w1| |].
Qed.
End Incoming.

(** ** The entry points *)

(** The calls that may take a permit. *)
Inductive entry_point : Task Outcome -> Prop :=
| entry_session node_id request_ids answer abort answers accepted dont_use :
    entry_point (open_session feature_encryption feature_strict session_crypto config env capacity upgrade now
      node_info_ttl fuel server node_id request_ids answer abort answers accepted dont_use)
| entry_reverse node_id endpoints abort answers request_id accepted :
    entry_point (on_reverse_connection feature_encryption feature_strict session_crypto config env capacity
      upgrade now node_info_ttl fuel server node_id endpoints abort answers request_id accepted)
| entry_dispatch id request_id from request abort session_id raw message :
    entry_point (dispatch_session feature_encryption feature_strict session_crypto config env now fuel id
      request_id from request abort session_id raw message).

(** ** The lookup of a node *)

Lemma ends_find_node d node_id request_id answer : task_sound (find_node env d node_id request_id answer).
Proof.
  intros left w Hw. unfold find_node, raw_request. destruct (session_at _ _) as [session|]; [|done].
  refine (ends_bind _ _ (sound (left + spent)) (fun _ => sound (left + spent)) (fun _ => sound left)
    (fun _ => True) _ _ w Hw); [by intros w1|]. intros ?.
  eapply ends_bind; [apply ends_others|]. intros ?. destruct answer; by intros w1.
Qed.

Lemma update_info_next reg v info : rg_next_generation (update_info reg v info).2 = rg_next_generation reg.
Proof. unfold update_info. by repeat case_match_goal. Qed.

Lemma update_entry_next reg info r reg' :
  view_inv reg -> bounded reg -> update_entry now reg info = Ret (r, reg') ->
  rg_next_generation reg' <= rg_next_generation reg + 1.
Proof.
  intros Hw Hb. unfold update_entry. destruct (omap _ _); cbn [outcome_bind].
  - destruct (NodeInfo_default_node_id info); cbn [outcome_bind]; [|done].
    intros [= _ <-]. rewrite update_info_next. apply Z.eq_le_incl, (next_generation_eq _ Hw Hb).
  - destruct (forallb _ _); cbn [outcome_bind]; intros [= _ <-]; [rewrite update_info_next; cbn|]; lia.
Qed.

Lemma ends_query node_id request_id answer left :
  0 <= left ->
  ends (query_node_info env now node_info_ttl server node_id request_id answer)
    (sound (left + 1 + spent + spent + spent + spent)) (fun _ => sound left) (fun _ => True).
Proof.
  intros Hleft. pose proof (proj1 Hothers). unfold query_node_info.
  eapply (ends_bind _ _ _ (fun _ => sound (left + 1 + spent + spent + spent))).
  { eapply ends_bind; [apply ends_others|]. by intros ? w Hw. }
  intros [info|].
  { intros w Hw. eapply sound_less; [exact Hw|lia]. }
  eapply ends_bind; [apply Hserver|]. intros d. eapply ends_bind; [apply ends_find_node|]. intros node.
  destruct (NodeInfo_try_from node) as [info|]; [|by intros w _].
  eapply ends_bind; [apply ends_others|]. intros _ w [Hw Hn].
  assert (bounded (cl_registry (wd_client w))) as Hb by (unfold bounded; lia).
  destruct (update_entry now _ info) as [[[]  reg]|] eqn:Hu; try done.
  pose proof (update_entry_next _ _ _ _ Hw Hb Hu). pose proof (tm_inv _ _ (tame_update_entry _ _ _ _ _ Hw Hb Hu) Hw).
  split; cbn; [done|lia].
Qed.

(** ** Calls *)

Lemma incoming_failed e s : incoming s -> allowed s (FailedEstablish e) = true.
Proof. destruct s as [i|i| | | | | | |]; try done; intros _; by destruct i. Qed.

Lemma ends_attempted_out p abort node_id answers request_id accepted dont_use :
  ends (under_permit env p abort
          (resolve feature_encryption feature_strict session_crypto config env capacity upgrade now
             node_info_ttl fuel server (sp_registry p) node_id answers request_id accepted dont_use))
    (fun w => sp_reverse p = false -> in_state (sp_registry p) (eq (locked_state false)) w)
    settled_outcome (fun _ => True).
Proof.
  apply (ends_under_permit p abort _ (locked_state false) connected connecting); try done.
  - intros Hcalm Hserv. by apply ends_resolve.
  - intros d s. apply connected_established.
  - intros e s. apply connecting_failed.
Qed.

Lemma ends_attempted_in p abort request_id from request session_id raw message :
  ends (under_permit env p abort
          (new_session feature_encryption feature_strict session_crypto config env fuel request_id from
             (sp_registry p) request session_id raw message))
    (fun w => sp_reverse p = false -> in_state (sp_registry p) (eq (locked_state true)) w)
    settled_outcome (fun _ => True).
Proof.
  apply (ends_under_permit p abort _ (locked_state true) (fun _ => eq (Incoming InitReady)) incoming); try done.
  - intros Hcalm _. eapply ends_weaken; [by apply ends_new_session| |done|done].
    intros w [Hc Hs]. split; [done|by rewrite <- Hs].
  - by intros d s <-.
  - apply incoming_failed.
Qed.

Lemma ends_entry_point t : entry_point t ->
  ends t (sound (2 + 5 * spent)) settled_outcome (fun _ => True).
Proof.
  intros [node_id request_ids answer abort answers accepted dont_use
         |node_id endpoints abort answers request_id accepted
         |id request_id from request abort session_id raw message]; pose proof (proj1 Hothers).
  - eapply ends_bind.
    { eapply ends_attempt, ends_weaken; [apply (ends_query _ _ _ (1 + spent)); lia| |done|done].
      intros w Hw. eapply sound_less; [exact Hw|lia]. }
    intros [info|]; [|by intros w _].
    destruct (nf_identities info) as [|default ?]; [by intros w _|].
    cbv zeta. destruct (bool_decide _); [by intros w _|].
    eapply (ends_bind _ _ _ (fun _ => sound (1 + spent))); [by intros w Hw|]. intros addrs.
    eapply ends_bind; [apply ends_lock|]. intros [p|a]; [apply ends_attempted_out|].
    intros w _. unfold task_bind. destruct (await_others env w) as [[u|] w1| |]; try done.
    by destruct (await_for_finish _ _ _ _) as [[[r|] ?] ?].
  - unfold on_reverse_connection. destruct (NodeId_try_from node_id); [|by intros w _].
    destruct endpoints; [by intros w _|].
    eapply (ends_bind _ _ _ (fun _ => sound (1 + spent))).
    { intros w Hw. eapply sound_less; [exact Hw|lia]. }
    intros addrs. eapply ends_bind; [apply ends_lock|].
    intros [p|a]; [apply ends_attempted_out|by intros w _].
  - destruct id as [|byte id].
    { unfold dispatch_session, dispatch_new_session. destruct (recover_default_node_id request); [|by intros w _].
      eapply ends_bind.
      { eapply ends_weaken; [apply (ends_lock true)| |done|done]. intros w Hw. eapply sound_less; [exact Hw|lia]. }
      intros [p|wait]; [apply ends_attempted_in|by intros w _]. }
    unfold dispatch_session. destruct (SessionId_try_from _); [|by intros w _].
    intros w _. by destruct (try_continue_session _ _ _ _ _) as [[] ?].
Qed.

End SessionEntryProps.

(** ** Example *)

From S2P Require Import HandshakeProps.

Section Witness.
Import ToyHandshake.

(** There is no relay server. *)
Definition no_server : Task nat := task_err (SeNetwork "Request failed").

(** Node 12 asks node 11 to connect to its address. *)
#[local] Instance toy_text : IpText :=
  {| ip_to_string _ := EmptyString; ip_from_str _ := Some (IpV4 12);
     sock_from_str _ := Some (toy_address 12) |}.
Definition answers12 (addr : SocketAddr) : Answers :=
  {| an_raw := [3; 4]; an_request_ids := (1, 2);
     an_answer1 := Some (toy_session_id, toy_response1); an_answer2 := Some (toy_session_id, toy_response2) |}.
Definition idle_world : World :=
  {| wd_client := {| cl_registry := NetworkView_new; cl_state := cl_state (wd_client (toy_world 12 false)) |};
     wd_init := SessionInitializerState_default; wd_sent := []; wd_time := 0 |}.
Definition reverse_call : Task Outcome :=
  on_reverse_connection (C := toy_provider 11) true true (toy_secret 11) (toy_config 11) toy_env 16
    (fun _ => true) 0 60 10 no_server (toy_id 12)
    [{| ep_protocol := 0; ep_address := "12"; ep_port := 1 |}] 7 answers12 3 true.

Lemma left_alone_refl v c : left_alone v c c.
Proof. intros Hc. split; [done|]. exists []. rewrite app_nil_r. split; [done|constructor]. Qed.

Lemma idle_sound : sound 2 idle_world.
Proof. split; [|done]. by split. Qed.

End Witness.
