(* ===== verification/EncryptionSync.v ===== *)
(** [client/src/session.rs] and [client/src/routing_session.rs]: the handler of
    forward packets as a task, the senders that are given to callers, and how two
    nodes come to use the same key again after one of them has changed its own.

    Metrics are left out; a pause of forwarding only delays what is sent. *)

From S2P Require Import Prelude Payload Proto Challenge NodeInfo SessionState DirectSession Encryption.
From S2P Require Import ClientForward NetworkView ClientSessions SessionInit ConnectSession Dispatch ClientDispatch.
From S2P Require Import SessionEntry.

Notation "'do!' x := t 'in' k" := (task_bind t (fun x => k))
  (at level 10, x name, t at level 100, k at level 200).

Section EncryptionSync.
Context `{Hs : Hashes} `{K : KeyAgreement} `{B : ExponentialBackoff} `{T : IpText} `{A : Aead}.
Context (feature_encryption feature_strict : bool) (session_crypto : SessionCrypto).
Context (env : Environment).
Context (upgrade : nat -> bool) (now node_info_ttl : Z).
Context (server : Task nat).

Definition on_state (w : World) (f : SessionLayerState -> SessionLayerState) : World :=
  with_client w {| cl_registry := cl_registry (wd_client w); cl_state := f (cl_state (wd_client w)) |}.

(** ** Refreshing the key of a node *)

(** The lookup of a node at the relay server, given the answer. *)
Definition lookup_node (node_id : NodeId) (request_id : Z) (answer : option response_Node) : Task NodeInfo :=
  do! d := server in
  do! node := find_node env d node_id request_id answer in
  match NodeInfo_try_from node with
  | Ok info => task_ret info
  | Err _ => task_err (SeInternal "Failed to verify refreshed Node")
  end.

(** [refresh_node_encryption]: whether the key has changed. *)
Definition refresh_node_encryption (node_id : NodeId) (request_id : Z) (answer : option response_Node)
  : Task bool :=
  do! start := (do! _ := await_others env in fun w =>
                match begin_refresh (wd_client w) node_id with
                | Err e => Done (Err (SeInternal e)) w
                | Ok (owner, original) =>
                    let info := just_get (NodeView_info node_info_ttl now (cl_registry (wd_client w)) owner) in
                    Done (Ok (owner, original, nf_session_key info)) w
                end) in
  let '(owner, original, previous) := start in
  do! info := lookup_node node_id request_id answer in
  do! _ := (do! _ := await_others env in fun w =>
            match publish_encryption_refresh feature_encryption feature_strict session_crypto upgrade now
                    (wd_client w) node_id owner original info with
            | (Ok _, c) => Done (Ok tt) (with_client w c)
            | (Err e, c) => Done (Err (SeInternal e)) (with_client w c)
            end) in
  task_ret (negb (bool_decide (pk_bytes <$> previous = pk_bytes <$> nf_session_key info))).

(** [NodeRouting::send_encryption_sync]: the notification and where it goes. *)
Definition send_encryption_sync (s : SessionLayerState) (r : nat) : option (Forward * SocketAddr) :=
  match routing_at s r with
  | None => None
  | Some routing =>
      if upgrade (nr_route routing) then
        match session_at s (nr_route routing) with
        | None => None
        | Some direct =>
            (fun forward => (forward, ds_remote direct)) <$>
              send_with_flags direct (nr_default_id routing) Payload_default Unreliable false true
        end
      else None
  end.

(** [handle_encryption_failure]: the notification it sends. *)
Definition handle_encryption_failure (node_id : NodeId) (request_id : Z) (answer : option response_Node)
  : Task (option (Forward * SocketAddr)) := fun w =>
  let '(due, s) := encryption_sync_notification_due (cl_state (wd_client w)) node_id now in
  let w := on_state w (fun _ => s) in
  if negb due then Done (Ok None) w
  else
    (do! _ := attempt (refresh_node_encryption node_id request_id answer) in fun w =>
     match get_node_routing (wd_client w) node_id with
     | Some r => Done (Ok (send_encryption_sync (cl_state (wd_client w)) r)) w
     | None => Done (Ok None) w
     end) w.

Definition handle_encryption_sync (node_id : NodeId) (request_id : Z) (answer : option response_Node)
  : Task unit := fun w =>
  let '(due, s) := encryption_sync_refresh_due (cl_state (wd_client w)) node_id now in
  let w := on_state w (fun _ => s) in
  if negb due then Done (Ok tt) w
  else
    (do! changed := attempt (refresh_node_encryption node_id request_id answer) in fun w =>
     match changed with
     | Ok true => Done (Ok tt) (on_state w (fun s => record_encryption_sync_key_change s node_id))
     | _ => Done (Ok tt) w
     end) w.

(** ** Senders *)

(** [RoutingSender]: the node as the caller named it, and the place of a routing. *)
Record RoutingSender : Type := { rs_target : NodeId; rs_node_routing : option nat }.

Definition RoutingSender_empty (target : NodeId) : RoutingSender :=
  {| rs_target := target; rs_node_routing := None |}.
Definition from_node_routing (node : NodeId) (r : nat) : RoutingSender :=
  {| rs_target := node; rs_node_routing := Some r |}.

(** [self.node_routing.upgrade()]: a routing lives as long as it is in the table. *)
Definition upgrade_routing (s : SessionLayerState) (r : option nat) : option NodeRouting :=
  match r with
  | Some r => if existsb (fun kv => (kv.2 =? r)%nat) (map_to_list (ly_nodes s)) then routing_at s r else None
  | None => None
  end.

(** [NodeRouting::send]: the packet and where it goes. *)
Definition NodeRouting_send (s : SessionLayerState) (routing : NodeRouting) (nonce : list Z)
  (packet : Payload) (transport : TransportType) : result (Forward * SocketAddr) SessionError :=
  match (if upgrade (nr_route routing) then session_at s (nr_route routing) else None) with
  | None => Err (SeUnexpected "Routing session closed unexpectedly.")
  | Some direct =>
      match routing_send routing direct nonce packet transport with
      | Some forward => Ok (forward, ds_remote direct)
      | None => Err (SeNetwork "Sending packet to p2p routing session")
      end
  end.

(** [RoutingSender::send] and [RoutingSender::connect], given the task that opens a
    session with the target. *)
Definition RoutingSender_send (session : NodeId -> Task nat) (sender : RoutingSender) (nonce : list Z)
  (packet : Payload) (transport : TransportType) : Task (Forward * SocketAddr * RoutingSender) := fun w =>
  match upgrade_routing (cl_state (wd_client w)) (rs_node_routing sender) with
  | Some routing =>
      match NodeRouting_send (cl_state (wd_client w)) routing nonce packet transport with
      | Ok sent => Done (Ok (sent, sender)) w
      | Err e => Done (Err e) w
      end
  | None =>
      (do! r := session (rs_target sender) in fun w =>
       match upgrade_routing (cl_state (wd_client w)) (Some r) with
       | None => Done (Err (SeUnexpected "Routing session closed unexpectedly.")) w
       | Some routing =>
           match NodeRouting_send (cl_state (wd_client w)) routing nonce packet transport with
           | Ok sent => Done (Ok (sent, from_node_routing (rs_target sender) r)) w
           | Err e => Done (Err e) w
           end
       end) w
  end.

Definition RoutingSender_connect (session : NodeId -> Task nat) (sender : RoutingSender) : Task RoutingSender :=
  do! r := session (rs_target sender) in task_ret (from_node_routing (rs_target sender) r).

(** [RoutingSender::route], [session_id] and [session_type]. *)
Definition RoutingSender_session (s : SessionLayerState) (sender : RoutingSender)
  : option (NodeRouting * DirectSession) :=
  match upgrade_routing s (rs_node_routing sender) with
  | Some routing =>
      if upgrade (nr_route routing) then (fun direct => (routing, direct)) <$> session_at s (nr_route routing)
      else None
  | None => None
  end.
Definition RoutingSender_route (s : SessionLayerState) (sender : RoutingSender) : option NodeId :=
  (fun x => nde_default_id (ds_owner x.2)) <$> RoutingSender_session s sender.
Definition RoutingSender_session_id (s : SessionLayerState) (sender : RoutingSender) : option SessionId :=
  (fun x => ds_id x.2) <$> RoutingSender_session s sender.

Inductive SessionType : Type := P2P | Relay.
Definition session_type (s : SessionLayerState) (sender : RoutingSender) : option SessionType :=
  (fun x => if bool_decide (nr_default_id x.1 = nde_default_id (ds_owner x.2)) then P2P else Relay)
    <$> RoutingSender_session s sender.

(** ** Forward packets *)

(** The routings by the ids of their nodes. *)
Definition routing_table (s : SessionLayerState) : gmap NodeId NodeRouting :=
  omap (routing_at s) (ly_nodes s).

(** What a packet leads to. *)
Inductive ForwardEffect : Type :=
| Delivered (packet : Forwarded)
| Notified (notification : option (Forward * SocketAddr))
| Synchronised
| Disconnecting
| Dropped.

(** [raw.find_slot(slot)] and the session with the node of an unknown slot. *)
Definition resolve_slot (session : NodeId -> Task nat) (slot request_id : Z) (answer : option response_Node)
  : Task NodeId :=
  do! d := server in
  do! node := find_slot env d slot request_id answer in
  match head (rn_identities node) ≫= Identity_try_from with
  | None => task_err (SeInternal "Identity")
  | Some ident => do! _ := session (ni_node_id ident) in task_ret (ni_node_id ident)
  end.

(** The sender of a packet. *)
Definition sender_of (session : NodeId -> Task nat) (direct : DirectSession) (slot request_id : Z)
  (answer : option response_Node) : Task NodeId :=
  match forward_sender (fun _ => None) direct slot with
  | Some sender => task_ret sender
  | None => resolve_slot session slot request_id answer
  end.

(** The future of [on_forward], given the session at the address the packet came
    from, the task that opens a relayed session, and the answers of the server. *)
Definition forward_task (session : NodeId -> Task nat) (forward : Forward) (from : SocketAddr)
  (d : option nat) (slot_query node_query : Z * option response_Node) : Task ForwardEffect := fun w =>
  match d ≫= session_at (cl_state (wd_client w)) with
  | None =>
      if negb (ly_sink (cl_state (wd_client w))) then Done (Ok Dropped) w
      else Done (Ok Disconnecting)
        (with_sent w (Packet_control (fw_session_id forward)
                        (CtDisconnected (Some (BySessionId (fw_session_id forward))))) from)
  | Some direct =>
      (do! sender := sender_of session direct (fw_slot forward) slot_query.1 slot_query.2 in fun w =>
       match on_forward feature_strict (fun _ => Some sender) (routing_table (cl_state (wd_client w))) forward
               from (Some direct) with
       | HandleSync sender =>
           (do! _ := handle_encryption_sync sender node_query.1 node_query.2 in task_ret Synchronised) w
       | DecryptionFailed sender =>
           (do! n := handle_encryption_failure sender node_query.1 node_query.2 in task_ret (Notified n)) w
       | Deliver packet =>
           Done (Ok (Delivered packet))
             (match fd_authenticated_identities packet with
              | Some _ => on_state w (fun s => record_successful_decryption s sender)
              | None => w
              end)
       | _ => Done (Ok Dropped) w
       end) w
  end.
End EncryptionSync.
