(* ===== verification/EncryptionSyncProps.v ===== *)
(** Two nodes of which one has changed its key come to understand each other again:
    what [EncryptionSync] does after a packet that cannot be decrypted, or when the
    other node asks for it, makes the next packets of the node readable. *)

From S2P Require Import Prelude Payload Proto Challenge NodeInfo SessionState DirectSession Encryption.
From S2P Require Import ClientForward NetworkView ClientSessions SessionInit ConnectSession Dispatch ClientDispatch.
From S2P Require Import SessionEntry EncryptionSync.

Section EncryptionSyncProps.
Context `{Hs : Hashes} `{K : KeyAgreement} `{B : ExponentialBackoff} `{T : IpText} `{A : Aead}.
Context (strict : bool) (a : SessionCrypto) (env : Environment).
Context (upgrade : nat -> bool) (now node_info_ttl : Z).
Context (server : Task nat) (session : NodeId -> Task nat).

(** What a refresh of a node finds: its entry in the registry, its routing, and the
    open session that is the route, with information that names the same node. *)
Record refreshable (c : Client) (node_id : NodeId) (info : NodeInfo)
  (entry : NodeView) (original : nat) (orig : NodeRouting) (direct : DirectSession) : Prop := {
  rf_entry : get_entry (cl_registry c) node_id = Some entry;
  rf_open : publication_guard (cl_registry c) (snapshot (cl_registry c) entry) = true;
  rf_nodes : ly_nodes (cl_state c) !! node_id = Some original;
  rf_routing : routing_at (cl_state c) original = Some orig;
  rf_generation : nr_generation orig = generation (cl_registry c) (snapshot (cl_registry c) entry);
  rf_upgrade : upgrade (nr_route orig) = true;
  rf_direct : session_at (cl_state c) (nr_route orig) = Some direct;
  rf_physical : ly_p2p_sessions (cl_state c) !! ds_remote direct = Some (nr_route orig);
  rf_forwards : af_inv (ds_forwards direct);
  rf_default : ni_node_id <$> head (nf_identities info) = Some (nr_default_id orig);
  rf_listed : node_id ∈ map ni_node_id (nf_identities info);
  rf_owner : nv_id entry ∈ map ni_node_id (nf_identities info);
  rf_ids : conflicts (nv_cell entry) (rg_by_node_id (cl_registry c))
             (map ni_node_id (nf_identities info)) = false;
  rf_addrs : conflicts (nv_cell entry) (rg_by_addr (cl_registry c))
               (map ne_address (nf_endpoints info)) = false }.

(** A node is understood: packets that it encrypts with its key are decrypted. *)
Record understood (s : SessionLayerState) (node_id : NodeId) (info : NodeInfo) (key : list Z) : Prop := {
  un_routing : exists r routing,
    ly_nodes s !! node_id = Some r /\ routing_at s r = Some routing /\
    nr_encryption routing = Aes256GcmSivEncryption key /\
    nr_authenticated_identities routing = nf_authenticated info /\
    ni_node_id <$> head (nf_identities info) = Some (nr_default_id routing) /\
    upgrade (nr_route routing) = true /\
    exists direct, session_at s (nr_route routing) = Some direct /\
      (nde_default_id (ds_owner direct) = nr_default_id routing \/
       get_slot (ds_forwards direct) (nr_default_id routing) = Some (nf_slot info)) }.

Lemma publish_routing_at s routing ids id :
  id ∈ ids ->
  ly_nodes (publish_routing s routing ids) !! id = Some (length (ly_routings s)) /\
  routing_at (publish_routing s routing ids) (length (ly_routings s)) = Some routing.
Proof.
  intros Hid. unfold publish_routing, routing_at. cbn. rewrite foldl_insert_lookup, decide_True by done.
  split; [done|]. by rewrite lookup_app_r, Nat.sub_diag.
Qed.

Lemma existsb_elem `{EqDecision X} (x : X) l : x ∈ l -> existsb (fun y => bool_decide (y = x)) l = true.
Proof.
  intros Hx. apply existsb_exists. exists x. split; [by apply list_elem_of_In|by apply bool_decide_eq_true_2].
Qed.

Lemma publish_understood c node_id info entry original orig direct key :
  refreshable c node_id info entry original orig direct ->
  nf_session_key info = Some key ->
  existsb (fun enc => String.eqb enc Aes256GcmSiv_name) (nf_supported_encryption info) = true ->
  exists c', publish_encryption_refresh true strict a upgrade now c node_id
      (snapshot (cl_registry c) entry) original info = (Ok tt, c') /\
    understood (cl_state c') node_id info (secret_with a key).
Proof.
  intros [] Hkey Haes. unfold publish_encryption_refresh.
  destruct (nf_identities info) as [|default rest] eqn:Ei; [done|]. injection rf_default0 as Hdef.
  rewrite rf_routing0, rf_upgrade0, Hkey. rewrite (bool_decide_eq_true_2 _ Hdef). cbn [negb].
  unfold encryption_new. rewrite Haes. unfold enforce_encryption_policy. cbn [encryption_flag negb].
  rewrite andb_false_r. unfold commit_refresh. rewrite rf_open0. cbn [negb nv_id nv_cell snapshot].
  rewrite Ei, (existsb_elem _ _ rf_owner0), rf_ids0, rf_addrs0. cbn [negb].
  unfold is_physical. rewrite rf_direct0, (bool_decide_eq_true_2 _ rf_nodes0).
  rewrite (bool_decide_eq_true_2 _ rf_physical0). cbn [negb orb].
  set (ids := map ni_node_id (default :: rest)) in *.
  set (node := {| nde_default_id := ni_node_id default; nde_identities := ids |}).
  set (s1 := if bool_decide (nde_default_id (ds_owner direct) = _) then _ else _).
  set (refreshed := {| nr_generation := _ |}).
  eexists. split; [reflexivity|]. constructor. cbn [cl_state].
  destruct (publish_routing_at s1 refreshed ids node_id rf_listed0) as [Hn Hr].
  exists (length (ly_routings s1)), refreshed. split_and!; [done|done|done|done| |done|].
  { by rewrite Ei. }
  unfold s1. cbn [nr_route refreshed nr_default_id nr_node nde_default_id].
  case_bool_decide as Hown; [exists direct; split; [done|by left]|].
  eexists. split.
  - unfold session_at, publish_routing, update_forwards in *. cbn. by rewrite list_lookup_alter_eq, rf_direct0.
  - right. cbn [ds_forwards]. by apply (allowed_forwards_consistent _ node (nf_slot info) rf_forwards0); left.
Qed.

(** ** A client that is left alone *)

(** No other task interferes, and there is a session with the relay server. *)
Definition left_in_peace : Prop :=
  (forall n x, ev_others env n x = x) /\ (forall n, ev_interrupt env n = None).
Context (relay : nat).
Definition has_relay : Prop := forall w, server w = Done (Ok relay) w.
Context (Hpeace : left_in_peace) (Hrelay : has_relay).

Definition tick (w : World) : World :=
  {| wd_client := wd_client w; wd_init := wd_init w; wd_sent := wd_sent w; wd_time := S (wd_time w) |}.

Lemma await_peace w : await_others env w = Done (Ok tt) (tick w).
Proof. unfold await_others. by rewrite (proj2 Hpeace), (proj1 Hpeace). Qed.

(** The information the server gives about a node that uses a key. *)
Definition announces (node : response_Node) (info : NodeInfo) (key : PublicKey) : Prop :=
  NodeInfo_try_from node = Ok info /\ nf_session_key info = Some key /\
  existsb (fun enc => String.eqb enc Aes256GcmSiv_name) (nf_supported_encryption info) = true.

Lemma refresh_understood w node_id info entry original orig direct key request_id node :
  refreshable (wd_client w) node_id info entry original orig direct ->
  is_Some (session_at (cl_state (wd_client w)) relay) -> announces node info key ->
  exists changed w',
    refresh_node_encryption true strict a env upgrade now node_info_ttl server node_id request_id
      (Some node) w = Done (Ok changed) w' /\
    understood (cl_state (wd_client w')) node_id info (secret_with a key).
Proof.
  intros Hr [srv Hsrv] (Htry & Hkey & Haes).
  unfold refresh_node_encryption, lookup_node, find_node, raw_request, begin_refresh.
  unfold task_bind. rewrite await_peace. cbn [wd_client tick].
  rewrite (rf_entry _ _ _ _ _ _ _ Hr), (rf_nodes _ _ _ _ _ _ _ Hr). unfold routing_of.
  rewrite (rf_routing _ _ _ _ _ _ _ Hr), (rf_generation _ _ _ _ _ _ _ Hr), Z.eqb_refl.
  rewrite Hrelay. cbn [wd_client tick]. rewrite Hsrv. rewrite await_peace. cbn [task_ret].
  rewrite Htry. cbn [task_ret]. rewrite await_peace. cbn [wd_client tick with_sent].
  destruct (publish_understood _ _ _ _ _ _ _ _ Hr Hkey Haes) as (c' & -> & Hu). eauto.
Qed.

Abbreviation receive := (forward_task true strict a env upgrade now node_info_ttl server session).

(** What the node with secret [b] encrypts for this one is delivered as its packet. *)
Definition hears (node_id : NodeId) (info : NodeInfo) (b : SessionCrypto) (w : World) : Prop :=
  forall eb nonce p q f from d direct slot_query node_query,
  encryption_new true strict (supported_encryptions true) (Some (session_pub_key a)) b = Ok eb ->
  zlen nonce = NONCE_SIZE -> encrypt eb nonce p = Ok q ->
  session_at (cl_state (wd_client w)) d = Some direct ->
  forward_sender (fun _ => None) direct (fw_slot f) = Some node_id ->
  is_encrypted f = true -> is_encryption_sync f = false ->
  Payload_as_ref (fw_payload f) = Payload_as_ref q ->
  exists payload w', receive f from (Some d) slot_query node_query w =
      Done (Ok (Delivered {| fd_transport := if is_reliable f then Reliable else Unreliable;
                             fd_node_id := node_id;
                             fd_authenticated_identities := Some (nf_authenticated info);
                             fd_payload := payload |})) w' /\
    Payload_as_ref payload = Payload_as_ref p.

(** What is sent to the node goes out through its routing, and the node decrypts it. *)
Definition heard (node_id : NodeId) (b : SessionCrypto) (w : World) : Prop :=
  forall eb nonce p q transport,
  encryption_new true strict (supported_encryptions true) (Some (session_pub_key a)) b = Ok eb ->
  zlen nonce = NONCE_SIZE -> encrypt eb nonce p = Ok q ->
  exists r routing forward to payload,
    get_node_routing (wd_client w) node_id = Some r /\
    upgrade_routing (cl_state (wd_client w)) (Some r) = Some routing /\
    NodeRouting_send upgrade (cl_state (wd_client w)) routing nonce p transport = Ok (forward, to) /\
    is_encrypted forward = true /\ is_encryption_sync forward = false /\
    decrypt eb (fw_payload forward) = Ok payload /\ Payload_as_ref payload = Payload_as_ref p.

Definition restored (node_id : NodeId) (info : NodeInfo) (b : SessionCrypto) (w : World) : Prop :=
  hears node_id info b w /\ heard node_id b w.

Lemma routing_table_lookup s id r routing :
  ly_nodes s !! id = Some r -> routing_at s r = Some routing -> routing_table s !! id = Some routing.
Proof. intros Hn Hr. unfold routing_table. by rewrite lookup_omap, Hn. Qed.

Lemma forward_sender_known f direct slot sender :
  forward_sender (fun _ => None) direct slot = Some sender -> forward_sender f direct slot = Some sender.
Proof. unfold forward_sender. destruct (is_direct_message slot); [done|]. by destruct (get_by_slot _ _). Qed.

(** A packet of a node that is known goes straight to the decision. *)
Lemma receive_known f from d direct slot_query node_query w sender :
  session_at (cl_state (wd_client w)) d = Some direct ->
  forward_sender (fun _ => None) direct (fw_slot f) = Some sender ->
  receive f from (Some d) slot_query node_query w =
  match on_forward strict (fun _ => Some sender) (routing_table (cl_state (wd_client w))) f from (Some direct) with
  | HandleSync sender =>
      (task_bind (handle_encryption_sync true strict a env upgrade now node_info_ttl server sender
         node_query.1 node_query.2) (fun _ => task_ret Synchronised)) w
  | DecryptionFailed sender =>
      (task_bind (handle_encryption_failure true strict a env upgrade now node_info_ttl server sender
         node_query.1 node_query.2) (fun n => task_ret (Notified n))) w
  | Deliver packet =>
      Done (Ok (Delivered packet))
        (match fd_authenticated_identities packet with
         | Some _ => on_state w (fun s => record_successful_decryption s sender)
         | None => w
         end)
  | _ => Done (Ok Dropped) w
  end.
Proof.
  intros Hd Hsend. unfold forward_task. cbn [mbind option_bind]. rewrite Hd.
  unfold sender_of, task_bind at 1. rewrite Hsend. done.
Qed.

(** The encryption the other node uses. *)
Lemma encryption_of_peer `{!KeyAgreementLaws} b eb :
  encryption_new true strict (supported_encryptions true) (Some (session_pub_key a)) b = Ok eb ->
  eb = Aes256GcmSivEncryption (secret_with a (session_pub_key b)).
Proof.
  unfold encryption_new, enforce_encryption_policy. cbn. rewrite andb_false_r, (secret_shared a b). congruence.
Qed.

Lemma understood_hears `{!AeadLaws} `{!KeyAgreementLaws} node_id info b w :
  understood (cl_state (wd_client w)) node_id info (secret_with a (session_pub_key b)) ->
  hears node_id info b w.
Proof.
  intros [(r & routing & Hn & Hr & He & Hi & _)] eb nonce p q f from d direct sq nq Heb Hnonce Hq Hd Hsend
    Henc Hsync Hp.
  rewrite (receive_known f from d direct sq nq w node_id Hd Hsend). unfold on_forward.
  rewrite (forward_sender_known _ _ _ _ Hsend), Henc, Hsync.
  rewrite (routing_table_lookup _ _ _ _ Hn Hr), He. cbn [encryption_flag negb].
  rewrite (encryption_of_peer _ _ Heb) in Hq.
  destruct (decrypt_encrypt _ nonce p q _ Hnonce Hq Hp) as (p' & -> & Hp' & _).
  rewrite Hi. eauto.
Qed.

Lemma understood_heard `{!AeadLaws} `{!KeyAgreementLaws} node_id info b w :
  understood (cl_state (wd_client w)) node_id info (secret_with a (session_pub_key b)) ->
  heard node_id b w.
Proof.
  intros [(r & routing & Hn & Hr & He & _ & _ & Hup & direct & Hd & Hslot)] eb nonce p q transport Heb Hnonce Hq.
  pose proof (encryption_of_peer _ _ Heb) as ->.
  assert (exists forward, send_with_flags direct (nr_default_id routing) q transport true false = Some forward)
    as [forward Hf].
  { unfold send_with_flags. destruct Hslot as [->|Hslot]; [rewrite bool_decide_eq_true_2 by done|
      rewrite Hslot; case_bool_decide]; by eexists. }
  destruct (flags_of_send _ _ _ _ _ _ Hf) as (F1 & F2 & _ & F4).
  destruct (decrypt_encrypt _ nonce p q q Hnonce Hq eq_refl) as (p' & Hdec & Hp & _).
  exists r, routing, forward, (ds_remote direct), p'. split_and!; [done| | |done|done|by rewrite F4|done].
  - unfold upgrade_routing. rewrite (proj2 (existsb_exists _ _)); [done|].
    exists (node_id, r). split; [by apply list_elem_of_In, elem_of_map_to_list|apply Nat.eqb_refl].
  - unfold NodeRouting_send. rewrite Hup, Hd. unfold routing_send. rewrite He, Hq. cbn [encryption_flag].
    by rewrite Hf.
Qed.

Lemma understood_restored `{!AeadLaws} `{!KeyAgreementLaws} node_id info b w :
  understood (cl_state (wd_client w)) node_id info (secret_with a (session_pub_key b)) ->
  restored node_id info b w.
Proof. split; [by apply understood_hears|by eapply understood_heard]. Qed.

(** A packet that asks the other node to refresh its key. *)
Definition is_sync_request (f : Forward) : bool :=
  is_encryption_sync f && negb (is_encrypted f) && Payload_is_empty (fw_payload f).

Lemma understood_notifies s node_id info key r :
  understood s node_id info key -> ly_nodes s !! node_id = Some r ->
  exists n to, send_encryption_sync upgrade s r = Some (n, to) /\ is_sync_request n = true.
Proof.
  intros [(r' & routing & Hn & Hr & _ & _ & _ & Hup & direct & Hd & Hslot)] Hn'. simplify_eq.
  unfold send_encryption_sync. rewrite Hr, Hup, Hd. unfold send_with_flags.
  destruct Hslot as [->|Hslot]; [rewrite bool_decide_eq_true_2 by done|rewrite Hslot; case_bool_decide];
    cbn; eauto.
Qed.

Lemma failure_handled w node_id info entry original orig direct key request_id node :
  refreshable (wd_client w) node_id info entry original orig direct ->
  is_Some (session_at (cl_state (wd_client w)) relay) -> announces node info key ->
  (encryption_sync_notification_due (cl_state (wd_client w)) node_id now).1 = true ->
  exists n to w',
    handle_encryption_failure true strict a env upgrade now node_info_ttl server node_id request_id
      (Some node) w = Done (Ok (Some (n, to))) w' /\ is_sync_request n = true /\
    understood (cl_state (wd_client w')) node_id info (secret_with a key).
Proof.
  intros Hr Hsrv Ha Hdue. unfold handle_encryption_failure, encryption_sync_notification_due in *.
  destruct (record_failure _ now) as [due e]. cbn in Hdue. subst due. cbn [negb].
  set (w1 := on_state w _).
  assert (refreshable (wd_client w1) node_id info entry original orig direct) as Hr1 by (by destruct Hr).
  destruct (refresh_understood w1 _ _ _ _ _ _ _ request_id node Hr1 Hsrv Ha) as (changed & w' & Hrun & Hu).
  unfold task_bind, attempt. rewrite Hrun. unfold get_node_routing.
  pose proof Hu as [(r & _ & Hn & _)]. rewrite Hn.
  destruct (understood_notifies _ _ _ _ _ Hu Hn) as (n & to & -> & Hsync). eauto 10.
Qed.

Lemma sync_handled w node_id info entry original orig direct key request_id node :
  refreshable (wd_client w) node_id info entry original orig direct ->
  is_Some (session_at (cl_state (wd_client w)) relay) -> announces node info key ->
  (encryption_sync_refresh_due (cl_state (wd_client w)) node_id now).1 = true ->
  exists w',
    handle_encryption_sync true strict a env upgrade now node_info_ttl server node_id request_id
      (Some node) w = Done (Ok tt) w' /\
    understood (cl_state (wd_client w')) node_id info (secret_with a key).
Proof.
  intros Hr Hsrv Ha Hdue. unfold handle_encryption_sync, encryption_sync_refresh_due in *.
  destruct (record_failure _ now) as [due e]. cbn in Hdue. subst due. cbn [negb].
  set (w1 := on_state w _).
  assert (refreshable (wd_client w1) node_id info entry original orig direct) as Hr1 by (by destruct Hr).
  destruct (refresh_understood w1 _ _ _ _ _ _ _ request_id node Hr1 Hsrv Ha) as (changed & w' & Hrun & Hu).
  unfold task_bind, attempt. rewrite Hrun. destruct changed; eexists; (split; [reflexivity|]); [|done].
  by destruct Hu.
Qed.

(** C24: nodes come to understand each other again.  Suppose a node uses a new key that
    the relay server announces, the route to it is open, and no other task interferes.
    When a packet of the node cannot be decrypted and a notification is due, the
    client takes the new key over and asks the node to refresh its own; when the node
    asks for it and a refresh is due, the client takes the new key over too.
    Afterwards everything that the node encrypts with its key is delivered, with the
    identities that were proved for that key, and everything that is sent to the node
    goes out in a form that it decrypts. *)
Theorem resync_restores_delivery `{!AeadLaws} `{!KeyAgreementLaws}
  w node_id info entry original orig direct b node request_id f from d via slot_query :
  refreshable (wd_client w) node_id info entry original orig direct ->
  is_Some (session_at (cl_state (wd_client w)) relay) -> announces node info (session_pub_key b) ->
  session_at (cl_state (wd_client w)) d = Some via ->
  forward_sender (fun _ => None) via (fw_slot f) = Some node_id ->
  (is_encrypted f = true -> is_encryption_sync f = false ->
   encryption_flag (nr_encryption orig) = true ->
   (exists e, decrypt (nr_encryption orig) (fw_payload f) = Err e) ->
   (encryption_sync_notification_due (cl_state (wd_client w)) node_id now).1 = true ->
   exists n to w', receive f from (Some d) slot_query (request_id, Some node) w
       = Done (Ok (Notified (Some (n, to)))) w' /\
     is_sync_request n = true /\ restored node_id info b w') /\
  (is_sync_request f = true ->
   (encryption_sync_refresh_due (cl_state (wd_client w)) node_id now).1 = true ->
   exists w', receive f from (Some d) slot_query (request_id, Some node) w = Done (Ok Synchronised) w' /\
     restored node_id info b w').
Proof.
  intros Hr Hsrv Ha Hd Hsend.
  rewrite (receive_known f from d via slot_query _ w node_id Hd Hsend). unfold on_forward.
  rewrite (forward_sender_known _ _ _ _ Hsend). split.
  - intros Henc Hsync Hflag [e He] Hdue. rewrite Henc, Hsync.
    rewrite (routing_table_lookup _ _ _ _ (rf_nodes _ _ _ _ _ _ _ Hr) (rf_routing _ _ _ _ _ _ _ Hr)).
    rewrite Hflag, He. cbn [negb fst snd]. unfold task_bind.
    destruct (failure_handled w _ _ _ _ _ _ _ request_id node Hr Hsrv Ha Hdue)
      as (n & to & w' & -> & Hn & Hu). eauto 10 using understood_restored.
  - intros Hf Hdue. unfold is_sync_request in Hf. apply andb_true_iff in Hf as [[Hs1 Hs2]%andb_true_iff Hs3].
    rewrite Hs1, Hs3. destruct (is_encrypted f); [done|]. cbn [orb negb fst snd]. unfold task_bind.
    destruct (sync_handled w _ _ _ _ _ _ _ request_id node Hr Hsrv Ha Hdue) as (w' & -> & Hu).
    eauto using understood_restored.
Qed.
End EncryptionSyncProps.

(** ** Example *)

From S2P Require Import HandshakeProps.

Section Witness.
Import ToyHandshake.

(** A cipher that checks its key, and addresses that are not printed. *)
Definition tag_of (k : list Z) : list Z := replicate 16 (foldl Z.add 0 k).
#[local] Instance keyed_aead : Aead := {
  aead_encrypt k n p := Some (p ++ tag_of k);
  aead_decrypt k n c :=
    if bool_decide (zdrop (zlen c - 16) c = tag_of k) then Some (ztake (zlen c - 16) c) else None }.
#[local] Instance keyed_aead_laws : AeadLaws.
Proof.
  assert (forall p k, zlen (p ++ tag_of k) - 16 = zlen p) as Hlen
    by (intros p k; rewrite zlen_app; change (zlen (tag_of k)) with 16; lia).
  split; intros k n p c [= <-].
  - rewrite zlen_app. done.
  - cbn [aead_decrypt keyed_aead]. rewrite Hlen, zdrop_app_exact, ztake_app_exact by done.
    by rewrite bool_decide_eq_true_2.
Qed.
#[local] Instance silent_text : IpText :=
  {| ip_to_string _ := EmptyString; ip_from_str _ := None; sock_from_str _ := None |}.

(** Node 11 after its handshake with node 12, which then changes its key to 213. *)
Definition met_world : World :=
  match toy_run with Done _ w => w | _ => toy_world 12 false end.
Definition changed_node : response_Node :=
  {| rn_identities := [{| id_public_key := [12]; id_node_id := toy_id 12 |}];
     rn_endpoints := []; rn_seen_ts := 0; rn_slot := 3; rn_supported_encryptions := supported_encryptions true;
     rn_session_pub_key := [213];
     rn_session_key_proof := sign (hash_session_key [213]) 12;
     rn_session_key_proofs := [] |}.
Definition met_info : NodeInfo :=
  match NodeInfo_try_from changed_node with Ok i => i | Err _ => NodeViewState_info (nc_state (cell NetworkView_new (toy_view 12))) end.
Definition met_state : SessionLayerState := cl_state (wd_client met_world).
Definition met_entry : NodeView := default (toy_view 12) (get_entry (cl_registry (wd_client met_world)) (toy_id 12)).
Definition unreadable : Forward :=
  set_encrypted (Forward_new toy_session_id FORWARD_SLOT_ID (PVec (replicate 12 0 ++ [1; 2; 3] ++ tag_of [324]))).
Definition met_routing : NodeRouting :=
  {| nr_generation := 2; nr_node := {| nde_default_id := toy_id 12; nde_identities := [toy_id 12] |};
     nr_route := 0; nr_encryption := Aes256GcmSivEncryption [223];
     nr_authenticated_identities := [toy_id 12] |}.
Definition met_direct : DirectSession :=
  {| ds_generation := 2; ds_owner := {| nde_default_id := toy_id 12; nde_identities := [toy_id 12] |};
     ds_id := toy_session_id; ds_remote := toy_address 12; ds_forwards := AllowedForwards_default |}.

Lemma met_refreshable :
  refreshable (fun _ => true) (wd_client met_world) (toy_id 12) met_info met_entry 0 met_routing met_direct.
Proof.
  split; try (vm_compute; reflexivity); [apply af_default_inv| |];
    (vm_compute; apply list_elem_of_singleton; reflexivity).
Qed.

Lemma resync_restores_delivery_witness :
  exists n to w', forward_task true true (toy_secret 11) toy_env (fun _ => true) 0 60
      (task_ret 0%nat) (fun _ => task_err (SeNetwork "Request failed")) unreadable (toy_address 12) (Some 0%nat)
      (1, None) (2, Some changed_node) met_world = Done (Ok (Notified (Some (n, to)))) w' /\
    is_sync_request n = true.
Proof.
  assert (session_at met_state 0 = Some met_direct) as Hd by (vm_compute; reflexivity).
  assert (announces changed_node met_info 213) as Ha by (split_and!; vm_compute; reflexivity).
  assert (forward_sender (fun _ => None) met_direct (fw_slot unreadable) = Some (toy_id 12)) as Hsend
    by (vm_compute; reflexivity).
  assert (is_encrypted unreadable = true /\ is_encryption_sync unreadable = false) as [He Hn]
    by (vm_compute; by split).
  assert (exists e, decrypt (nr_encryption met_routing) (fw_payload unreadable) = Err e) as Hdec
    by (eexists; vm_compute; reflexivity).
  assert ((encryption_sync_notification_due met_state (toy_id 12) 0).1 = true) as Hdue by (vm_compute; reflexivity).
  destruct (resync_restores_delivery true (toy_secret 11) toy_env (fun _ => true) 0 60
    (task_ret 0%nat) (fun _ => task_err (SeNetwork "Request failed")) 0%nat
    (conj (fun _ _ => eq_refl) (fun _ => eq_refl)) (fun _ => eq_refl) met_world (toy_id 12) met_info met_entry 0
    met_routing met_direct 213 changed_node 2 unreadable (toy_address 12) 0%nat met_direct (1, None)
    met_refreshable (ex_intro _ _ Hd) Ha Hd Hsend) as [Hf _].
  destruct (Hf He Hn eq_refl Hdec Hdue) as (n & to & w' & Hrun & Hsync & _).
  exists n, to, w'. split; [exact Hrun|exact Hsync].
Defined.
End Witness.
