(* ===== verification/Housekeeping.v ===== *)
(** What the client does in the background: pings and the expiration of sessions
    ([session/expire.rs], [raw_session.rs]), the session with the relay server that is
    kept up ([session/keep_alive.rs]), and the shutdown of the session layer
    ([session.rs]).

    Times are numbers of one clock.  What other tasks do while one of these waits is
    an argument. *)

From S2P Require Import Prelude Payload Proto Codec Challenge NodeInfo SessionState DirectSession.
From S2P Require Import Encryption ClientForward NetworkView ClientSessions SessionInit ConnectSession Dispatch.
From S2P Require Import ClientDispatch.

Notation "'do!' x := t 'in' k" := (task_bind t (fun x => k))
  (at level 10, x name, t at level 100, k at level 200).

Section Housekeeping.
Context `{EthSign} `{B : ExponentialBackoff}.

(** ** Pings *)

(** A ping that is over: when it was sent, when it ended, and whether it was answered. *)
Record PingResult : Type := { pg_sent : Z; pg_ended : Z; pg_answered : bool }.

(** [RawSession::ping], after the request: the time it took, or the time since the
    other side was seen. *)
Definition finish_ping (r : PingResult) (d : Dispatcher) : Dispatcher :=
  update_ping (if pg_answered r then pg_ended r - pg_sent r else pg_ended r - dp_seen d) d.

(** [RawSession::keep_alive]: whether pings are sent, *)
Definition keep_alive_due (expiration now : Z) (d : Dispatcher) : bool := dp_seen d + expiration <? now.

(** the delays of the pings, in milliseconds, *)
Definition keep_alive_delays : list Z := map (fun i => 200 * i) [0; 1; 2].

(** and their results, in the order in which they end: the first answer ends them all. *)
Fixpoint select_pings (results : list PingResult) (d : Dispatcher) : Dispatcher :=
  match results with
  | [] => d
  | r :: results =>
      let d := finish_ping r d in
      if pg_answered r then d else select_pings results d
  end.

(** ** Expiration *)

Definition with_cn_client (net : ClientNet) (c : Client) : ClientNet :=
  {| cn_client := c; cn_init := cn_init net; cn_processed := cn_processed net;
     cn_tmp_dispatchers := cn_tmp_dispatchers net; cn_dispatchers := cn_dispatchers net;
     cn_pauses := cn_pauses net |}.

(** [SessionLayer::sessions]. *)
Definition sessions (net : ClientNet) : list nat :=
  map snd (map_to_list (ly_p2p_sessions (cl_state (cn_client net)))).

Definition last_seen (net : ClientNet) (d : nat) : Z :=
  match cn_dispatchers net !! d with Some x => dp_seen x | None => 0 end.

(** What the other tasks do at the n-th point where the round waits. *)
Context (others : nat -> ClientNet -> ClientNet).

(** [close_sessions]. *)
Fixpoint close_sessions (n : nat) (expired : list nat) (net : ClientNet) : ClientNet :=
  match expired with
  | [] => net
  | d :: expired =>
      close_sessions (S n) expired (others n (with_cn_client net (close_session (cn_client net) d)))
  end.

(** A round of [track_sessions_expiration]: the sessions it pings and those it closes,
    the time of the next round, and the client afterwards. *)
Record Round : Type := {
  rd_pinged : list nat;
  rd_expired : list nat;
  rd_next : Z;
  rd_net : ClientNet }.

(** The client when the pings of the round are over. *)
Definition after_pings (expiration now : Z) (results : nat -> list PingResult) (net : ClientNet)
  : list nat * ClientNet :=
  let due d := match cn_dispatchers net !! d with
               | Some x => keep_alive_due expiration now x
               | None => false
               end in
  let pinged := List.filter due (sessions net) in
  (pinged, foldl (fun net d => at_dispatcher net (SessionRaw d) (select_pings (results d))) (others 0 net) pinged).

Definition expire_round (expiration now : Z) (results : nat -> list PingResult) (net : ClientNet) : Round :=
  let listed := sessions net in
  let '(pinged, net) := after_pings expiration now results net in
  let seen := map (last_seen net) listed in
  let expired := omap (fun x => if x.2 + expiration <? now then Some x.1 else None) (zip listed seen) in
  let first_to_expiring :=
    match seen with [] => now | t :: seen => foldl Z.min t seen end + expiration in
  {| rd_pinged := pinged; rd_expired := expired; rd_next := first_to_expiring;
     rd_net := close_sessions 1 expired net |}.

(** [Client::ping_sessions]: the times of the pings are taken down. *)
Definition ping_sessions (results : nat -> PingResult) (net : ClientNet) : ClientNet :=
  foldl (fun net d => at_dispatcher net (SessionRaw d) (finish_ping (results d))) (others 0 net) (sessions net).

(** ** Shutdown *)

Definition closed_sink (s : SessionLayerState) : SessionLayerState :=
  {| ly_public_addr := ly_public_addr s; ly_bind_addr := ly_bind_addr s; ly_sink := false;
     ly_nodes := ly_nodes s; ly_p2p_sessions := ly_p2p_sessions s; ly_p2p_nodes := ly_p2p_nodes s;
     ly_sync_backoff := ly_sync_backoff s; ly_refresh_backoff := ly_refresh_backoff s;
     ly_sessions := ly_sessions s; ly_routings := ly_routings s |}.

(** [SessionLayer::shutdown]; the sessions are closed one after the other. *)
Definition session_layer_shutdown (net : ClientNet) : ClientNet :=
  let net := with_cn_init net None in
  let c := foldl unregister_session (cn_client net) (sessions net) in
  with_cn_client net {| cl_registry := cl_registry c; cl_state := closed_sink (cl_state c) |}.

(** ** The session with the relay server *)

Context (env : Environment) (server : Task nat) (capacity : nat).

(** [ServerSessionAnchor::establish_server_session]: tries until it succeeds. *)
Fixpoint establish_server_session (fuel : nat) : Task nat := fun w =>
  match fuel with
  | O => Unfinished
  | S fuel =>
      match server w with
      | Done (Ok d) w => Done (Ok d) w
      | Done (Err _) w => (do! _ := await_others env in establish_server_session fuel) w
      | Panicked => Panicked
      | Unfinished => Unfinished
      end
  end.

(** One turn of [keep_alive_server_session]: whether the session ended, or was gone
    before it could be watched. *)
Definition keep_alive_turn (fuel : nat) : Task bool :=
  do! _ := establish_server_session fuel in fun w =>
  match get_entry (cl_registry (wd_client w)) NodeId_default with
  | None => Done (Ok false) w
  | Some entry =>
      let a := awaiting_notifier (cl_registry (wd_client w)) entry in
      (do! _ := await_others env in fun w =>
       match await_for_closed_or_failed capacity (cl_registry (wd_client w)) a with
       | (Some _, _, _) => Done (Ok true) w
       | (None, _, _) => Unfinished
       end) w
  end.
End Housekeeping.
