(* ===== verification/HousekeepingProps.v ===== *)
(** Expiration of sessions: a session whose other side is silent is closed, and in
    time; one that answers is not. *)

From S2P Require Import Prelude Payload Proto Codec Challenge NodeInfo SessionState DirectSession.
From S2P Require Import Encryption ClientForward NetworkView ClientSessions ClientSessionsProps SessionInit.
From S2P Require Import ConnectSession Dispatch ClientDispatch Housekeeping.

Section HousekeepingProps.
Context `{EthSign} `{B : ExponentialBackoff}.

(** ** Times *)

Lemma foldl_min_le l : forall t x, x = t \/ x ∈ l -> foldl Z.min t l <= x.
Proof.
  induction l as [|y l IH]; intros t x; cbn; [intros [->|Hx]; [lia|by apply not_elem_of_nil in Hx]|].
  intros [->|[->|Hx]%elem_of_cons].
  - etransitivity; [by apply IH; left|lia].
  - etransitivity; [by apply IH; left|lia].
  - by apply IH; right.
Qed.

Lemma foldl_min_elem l : forall t, foldl Z.min t l = t \/ foldl Z.min t l ∈ l.
Proof.
  induction l as [|y l IH]; intros t; cbn; [by left|].
  destruct (IH (Z.min t y)) as [E|Hin]; [|by right; right]. rewrite E.
  destruct (Z.min_spec t y) as [[_ ->]|[_ ->]]; [by left|right; apply list_elem_of_here].
Qed.

Section Round.
Context (others : nat -> ClientNet -> ClientNet) (expiration now : Z) (results : nat -> list PingResult).
Context (net : ClientNet).

Abbreviation round := (expire_round others expiration now results net).
Abbreviation waited := (after_pings others expiration now results net).2.

Lemma expired_iff d :
  d ∈ rd_expired round <-> d ∈ sessions net /\ last_seen waited d + expiration < now.
Proof.
  unfold expire_round. destruct (after_pings _ _ _ _ _) as [pinged w]. cbn.
  induction (sessions net) as [|x l IH]; cbn.
  { split; [by intros ?%not_elem_of_nil|by intros [?%not_elem_of_nil _]]. }
  rewrite elem_of_cons. destruct (Z.ltb_spec (last_seen w x + expiration) now).
  - rewrite elem_of_cons, IH. naive_solver.
  - rewrite IH. split; [naive_solver|]. intros [[->|?] ?]; [lia|done].
Qed.

(** The next round comes before any of the sessions expires. *)
Lemma next_round_le d : d ∈ sessions net -> rd_next round <= last_seen waited d + expiration.
Proof.
  intros Hd. unfold expire_round. destruct (after_pings _ _ _ _ _) as [pinged w]. cbn.
  apply (list_elem_of_fmap_2 (last_seen w)) in Hd.
  change (last_seen w <$> sessions net) with (map (last_seen w) (sessions net)) in Hd.
  destruct (map (last_seen w) (sessions net)) as [|t seen]; [by apply not_elem_of_nil in Hd|].
  apply elem_of_cons in Hd. pose proof (foldl_min_le seen t _ Hd). lia.
Qed.

(** It never waits longer than the expiration, from a time that is past. *)
Lemma next_round_bound bound :
  now <= bound -> (forall d, d ∈ sessions net -> last_seen waited d <= bound) ->
  rd_next round <= bound + expiration.
Proof.
  intros Hnow Hb. unfold expire_round. destruct (after_pings _ _ _ _ _) as [pinged w]. cbn in *.
  destruct (map (last_seen w) (sessions net)) as [|t seen] eqn:E; [lia|].
  assert (forall x, x ∈ t :: seen -> x <= bound) as Hx.
  { rewrite <- E. intros x (d & -> & Hd)%list_elem_of_fmap. by apply Hb. }
  destruct (foldl_min_elem seen t) as [->|Hin].
  - specialize (Hx t (list_elem_of_here _ _)). lia.
  - specialize (Hx _ (list_elem_of_further _ _ _ Hin)). lia.
Qed.
End Round.

(** ** Closing *)

(** The sessions of the table are those of their addresses. *)
Definition keyed (s : SessionLayerState) : Prop :=
  forall a d, ly_p2p_sessions s !! a = Some d -> exists x, session_at s d = Some x /\ ds_remote x = a.

Lemma retire_owner_sessions w o : ly_sessions (cl_state (retire_owner w o)) = ly_sessions (cl_state w).
Proof.
  unfold retire_owner. destruct (get_entry _ _); [|done]. destruct (_ =? _); [|done].
  by destruct (remove_generation _ _) as [[|] view].
Qed.

Lemma retire_owners_sessions os : forall w,
  ly_sessions (cl_state (foldl retire_owner w os)) = ly_sessions (cl_state w).
Proof. induction os as [|o os IH]; intros w; cbn; [done|]. by rewrite IH, retire_owner_sessions. Qed.

(** Taking one session out of the table. *)
Definition without (d : nat) (s s' : SessionLayerState) : Prop :=
  ly_sessions s' = ly_sessions s /\
  forall a d', ly_p2p_sessions s' !! a = Some d' <-> ly_p2p_sessions s !! a = Some d' /\ d' <> d.

Lemma unregister_session_without w d : without d (cl_state w) (cl_state (unregister_session w d)).
Proof.
  unfold unregister_session.
  destruct (retire_owners_keep (session_owners (cl_state w) d) w) as (_ & E2 & _).
  pose proof (retire_owners_sessions (session_owners (cl_state w) d) w) as E1.
  unfold forget_session. split; cbn; [done|]. intros a d'. rewrite retain_not_lookup, E2.
  by rewrite Nat.eqb_neq.
Qed.

Lemma close_session_without w d :
  keyed (cl_state w) -> without d (cl_state w) (cl_state (close_session w d)).
Proof.
  intros Hk.
  assert ((forall a, ly_p2p_sessions (cl_state w) !! a <> Some d) -> without d (cl_state w) (cl_state w)) as Hsame.
  { intros Hno. split; [done|]. intros a d'. split; [|by intros []]. intros Hd. split; [done|].
    intros ->. by apply (Hno a). }
  unfold close_session. destruct (session_at (cl_state w) d) as [x|] eqn:Ex.
  2:{ apply Hsame. intros a (y & Hy & _)%Hk. congruence. }
  destruct (ly_p2p_sessions (cl_state w) !! ds_remote x) as [current|] eqn:Ec.
  - destruct (current =? d)%nat eqn:E; cbn [negb].
    + match goal with |- without _ _ (cl_state (unregister_session ?w1 d)) =>
        assert (cl_state w1 = cl_state w) as <- by (repeat case_match_goal; done) end.
      apply unregister_session_without.
    + apply Hsame. intros a Ha. destruct (Hk _ _ Ha) as (y & Hy & <-). simplify_eq. by apply Nat.eqb_neq in E.
  - match goal with |- without _ _ (cl_state (unregister_session ?w1 d)) =>
      assert (cl_state w1 = cl_state w) as <- by (repeat case_match_goal; done) end.
    apply unregister_session_without.
Qed.

Lemma without_keyed d s s' : without d s s' -> keyed s -> keyed s'.
Proof.
  intros [E Hp] Hk a d' [Hd _]%Hp. destruct (Hk _ _ Hd) as (x & Hx & Hr). exists x.
  unfold session_at in *. by rewrite E.
Qed.

(** Closing takes exactly the expired sessions out. *)
Lemma close_sessions_still others expired :
  (forall n x, (0 < n)%nat -> others n x = x) -> forall n net, (0 < n)%nat ->
  keyed (cl_state (cn_client net)) ->
  forall a d, ly_p2p_sessions (cl_state (cn_client (close_sessions others n expired net))) !! a = Some d <->
    ly_p2p_sessions (cl_state (cn_client net)) !! a = Some d /\ d ∉ expired.
Proof.
  intros Hq. induction expired as [|x expired IH]; intros n net Hn Hk a d; cbn.
  { split; [|by intros []]. intros Hd. split; [done|]. apply not_elem_of_nil. }
  pose proof (close_session_without (cn_client net) x Hk) as Hw.
  rewrite (Hq n) by done. rewrite IH; [|lia|eapply without_keyed; [exact Hw|done]]. cbn.
  rewrite (proj2 Hw), not_elem_of_cons. tauto.
Qed.

(** ** Rounds *)

(** The rounds of [track_sessions_expiration], each with what the other tasks do and
    how its pings end; the client may change arbitrarily between them. *)
Record Rounds : Type := {
  rs_start : nat -> Z;
  rs_end : nat -> Z;
  rs_net : nat -> ClientNet;
  rs_others : nat -> nat -> ClientNet -> ClientNet;
  rs_results : nat -> nat -> list PingResult }.

Section Rounds.
Context (expiration : Z) (r : Rounds).

Definition round_at (k : nat) : Round :=
  expire_round (rs_others r k) expiration (rs_start r k) (rs_results r k) (rs_net r k).
Definition seen_at (k : nat) : nat -> Z :=
  last_seen (after_pings (rs_others r k) expiration (rs_start r k) (rs_results r k) (rs_net r k)).2.

(** A round takes some time, but at most [delay]; it sees no packets of the future;
    the next one starts when it is over and the time it names has come. *)
Record timed (delay : Z) : Prop := {
  tm_takes k : rs_start r k < rs_end r k <= rs_start r k + delay;
  tm_seen k d : d ∈ sessions (rs_net r k) -> seen_at k d <= rs_end r k;
  tm_next k : rs_start r (S k) = Z.max (rs_end r k) (rd_next (round_at k)) }.

(** A session with which nothing is heard after time [t], which is past the start of
    the [first] round; it is there until it is closed. *)
Record silent (first : nat) (d : nat) (t : Z) : Prop := {
  sl_start : rs_start r first <= t;
  sl_seen k : (first < k)%nat -> seen_at k d = t;
  sl_listed k : (first < k)%nat -> (forall j, (first < j < k)%nat -> d ∉ rd_expired (round_at j)) ->
    d ∈ sessions (rs_net r k) }.

Lemma starts_grow delay k n : timed delay -> rs_start r k + Z.of_nat n <= rs_start r (k + n).
Proof.
  intros Ht. induction n as [|n IH]; [rewrite Nat.add_0_r; lia|]. rewrite Nat.add_succ_r, (tm_next _ Ht).
  pose proof (tm_takes _ Ht (k + n)). lia.
Qed.

(** The first round that starts after some time. *)
Lemma first_after delay first t :
  timed delay -> rs_start r first <= t ->
  exists j, (first <= j)%nat /\ t < rs_start r (S j) /\ forall i, (first <= i <= j)%nat -> rs_start r i <= t.
Proof.
  intros Ht Hs.
  assert (t < rs_start r (first + Z.to_nat (t - rs_start r first + 1))) as Hlate
    by (pose proof (starts_grow _ first (Z.to_nat (t - rs_start r first + 1)) Ht); lia).
  revert Hlate. generalize (Z.to_nat (t - rs_start r first + 1)) as n.
  induction n as [|n IH]; intros Hlate; [rewrite Nat.add_0_r in Hlate; lia|].
  destruct (Z.lt_ge_cases t (rs_start r (first + n))) as [Hlt|Hge]; [by apply IH|].
  exists (first + n)%nat. rewrite Nat.add_succ_r in Hlate. split_and!; [lia|done|].
  intros i Hi. pose proof (starts_grow delay i (first + n - i) Ht) as Hg.
  replace (i + (first + n - i))%nat with (first + n)%nat in Hg by lia. lia.
Qed.

(** C25: silent sessions expire, and only they.  A round of the expiration closes
    exactly the sessions from which nothing was heard for the time of expiration
    before it started, not even an answer to its pings; if nothing else happens while
    it closes them, exactly these are gone from the table.  Rounds come in time: when
    a session falls silent, a round closes it that starts before the time of
    expiration and the longest duration of a round have passed. *)
Theorem silent_sessions_expire delay :
  0 <= expiration -> timed delay ->
  (forall k d, d ∈ rd_expired (round_at k) <->
     d ∈ sessions (rs_net r k) /\ seen_at k d + expiration < rs_start r k) /\
  (forall k a d, (forall n x, (0 < n)%nat -> rs_others r k n x = x) ->
     let waited := (after_pings (rs_others r k) expiration (rs_start r k) (rs_results r k) (rs_net r k)).2 in
     keyed (cl_state (cn_client waited)) ->
     ly_p2p_sessions (cl_state (cn_client (rd_net (round_at k)))) !! a = Some d <->
     ly_p2p_sessions (cl_state (cn_client waited)) !! a = Some d /\ d ∉ rd_expired (round_at k)) /\
  (forall first d t, silent first d t ->
     exists k, (first < k)%nat /\ d ∈ rd_expired (round_at k) /\
       t + expiration < rs_start r k <= t + expiration + delay).
Proof.
  intros Hexp Ht. assert (forall k d, d ∈ rd_expired (round_at k) <->
     d ∈ sessions (rs_net r k) /\ seen_at k d + expiration < rs_start r k) as Hiff
    by (intros; apply expired_iff).
  split_and!; [done| |].
  - intros k a d Hq waited Hk. unfold round_at, expire_round. subst waited.
    destruct (after_pings _ _ _ _ _) as [pinged w]. cbn in *. apply close_sessions_still; [done|lia|done].
  - intros first d t [Hstart Hseen Hlisted].
    destruct (first_after delay first (t + expiration) Ht ltac:(lia)) as (j & Hj & Hlate & Hearly).
    exists (S j). assert (d ∈ sessions (rs_net r (S j))) as Hd.
    { apply Hlisted; [lia|]. intros i Hi [_ Hx]%Hiff. rewrite Hseen in Hx by lia.
      specialize (Hearly i ltac:(lia)). lia. }
    split_and!; [lia|apply Hiff; split; [done|rewrite Hseen by lia; lia]|done|].
    rewrite (tm_next _ Ht). pose proof (tm_takes _ Ht j). pose proof (Hearly j ltac:(lia)).
    apply Z.max_lub; [lia|]. destruct (decide (j = first)) as [->|Hne].
    + pose proof (next_round_bound (rs_others r first) expiration (rs_start r first) (rs_results r first)
        (rs_net r first) (rs_end r first) ltac:(lia) (tm_seen _ Ht first)). unfold round_at. lia.
    + assert (d ∈ sessions (rs_net r j)) as Hdj.
      { apply Hlisted; [lia|]. intros i Hi [_ Hx]%Hiff. rewrite Hseen in Hx by lia.
        specialize (Hearly i ltac:(lia)). lia. }
      pose proof (next_round_le (rs_others r j) expiration (rs_start r j) (rs_results r j) (rs_net r j) d Hdj) as Hn.
      change (last_seen _ d) with (seen_at j d) in Hn. rewrite Hseen in Hn by lia. unfold round_at. lia.
Qed.
End Rounds.
End HousekeepingProps.

(** ** Example *)

Section Witness.
Import ToyCrypto ToyBackoff.

(** One session, with which nothing is heard after time 5; rounds take a unit of time. *)
Definition lonely_addr : SocketAddr := {| sa_ip := IpV4 7; sa_port := 1 |}.
Definition lonely_net : ClientNet :=
  {| cn_client :=
       {| cl_registry := NetworkView_new;
          cl_state := {| ly_public_addr := None; ly_bind_addr := None; ly_sink := true; ly_nodes := ∅;
                         ly_p2p_sessions := {[lonely_addr := 0%nat]}; ly_p2p_nodes := ∅; ly_sync_backoff := ∅;
                         ly_refresh_backoff := ∅;
                         ly_sessions := [DirectSession_new_relay NodeId_default [] lonely_addr];
                         ly_routings := [] |} |};
     cn_init := None; cn_processed := []; cn_tmp_dispatchers := [];
     cn_dispatchers := [Dispatcher_default 5]; cn_pauses := [] |}.
Definition lonely_start (k : nat) : Z := match k with O => 5 | S k => 15 + Z.of_nat k end.
Definition lonely_rounds : Rounds :=
  {| rs_start := lonely_start; rs_end k := lonely_start k + 1; rs_net _ := lonely_net;
     rs_others _ _ net := net; rs_results _ _ := [] |}.

Lemma lonely_waited now :
  (after_pings (fun _ net => net) 10 now (fun _ => []) lonely_net).2 = lonely_net.
Proof.
  unfold after_pings. change (sessions lonely_net) with [0%nat]. cbn [List.filter].
  by destruct (match cn_dispatchers lonely_net !! 0%nat with Some _ => _ | None => _ end).
Qed.

Lemma lonely_timed : timed 10 lonely_rounds 1.
Proof.
  split.
  - intros k. cbn. lia.
  - intros k d Hd. change (d ∈ [0%nat]) in Hd. apply list_elem_of_singleton in Hd as ->. unfold seen_at. cbn [rs_others rs_start rs_results rs_net rs_end lonely_rounds].
    rewrite lonely_waited. destruct k; cbn -[Z.of_nat]; lia.
  - intros k. unfold round_at, expire_round. cbn [rs_others rs_start rs_results rs_net rs_end lonely_rounds].
    pose proof (lonely_waited (lonely_start k)) as Hw. destruct (after_pings _ _ _ _ _) as [pinged w].
    cbn in Hw. subst w. change (sessions lonely_net) with [0%nat]. destruct k; cbn -[Z.of_nat Z.max]; lia.
Qed.

Lemma lonely_silent : silent 10 lonely_rounds 0 0 5.
Proof.
  split; [done| |].
  - intros k _. unfold seen_at. cbn [rs_others rs_start rs_results rs_net lonely_rounds].
    by rewrite lonely_waited.
  - intros k _ _. change (sessions (rs_net lonely_rounds k)) with [0%nat]. apply list_elem_of_here.
Qed.

Lemma silent_sessions_expire_witness :
  exists k, (0 < k)%nat /\ 0%nat ∈ rd_expired (round_at 10 lonely_rounds k) /\
    5 + 10 < rs_start lonely_rounds k <= 5 + 10 + 1.
Proof.
  destruct (silent_sessions_expire 10 lonely_rounds 1 ltac:(lia) lonely_timed) as (_ & _ & Ht).
  exact (Ht 0%nat 0%nat 5 lonely_silent).
Defined.
End Witness.
