(* ===== verification/UdpStream.v ===== *)
(** [crates/core/src/udp_stream.rs] and the packet budget of
    [client/src/config.rs]: the largest packet of the virtual network, and the
    stream and sink of packets over a UDP socket.

    The value of the environment variable is an argument; the socket is the
    sequence of the results of its [recv_from]. *)

From S2P Require Import Prelude Payload Proto Codec Challenge NodeInfo DirectSession Encryption ClientForward.
From Stdlib Require Import Ascii.

(** ** Packet sizes *)

Definition DEFAULT_MTU : Z := 1500.
Definition ETHERNET_HDR_SIZE : Z := 14.
Definition IP6_HDR_SIZE : Z := 40.
Definition UDP_HDR_SIZE : Z := 20.
Definition NETWORK_HEADERS_SIZE : Z := ETHERNET_HDR_SIZE + IP6_HDR_SIZE + UDP_HDR_SIZE.
Definition MAX_TAG_SIZE : Z := 5.

Definition to_digit (c : ascii) : option Z :=
  let n := Z.of_nat (nat_of_ascii c) in
  if (48 <=? n) && (n <=? 57) then Some (n - 48) else None.

(** The digits of [str::parse::<usize>], after [acc]. *)
Fixpoint parse_digits (s : string) (acc : Z) : option Z :=
  match s with
  | EmptyString => Some acc
  | String c s =>
      match to_digit c with
      | Some d => if acc * 10 + d <? 2 ^ 64 then parse_digits s (acc * 10 + d) else None
      | None => None
      end
  end.

(** [str::parse::<usize>]: digits after an optional plus. *)
Definition parse_usize (s : string) : option Z :=
  match s with
  | EmptyString => None
  | String "+"%char EmptyString => None
  | String "+"%char s => parse_digits s 0
  | s => parse_digits s 0
  end.

Definition normalize_mtu (mtu : Z) : Z :=
  let minimum := NETWORK_HEADERS_SIZE + 1 in
  if mtu <? minimum then DEFAULT_MTU else mtu.

(** [resolve_mtu] for a value of [YA_NET_MTU]. *)
Definition resolve_mtu (var : option string) : Z :=
  normalize_mtu (default DEFAULT_MTU (var ≫= parse_usize)).

Inductive MtuError : Type :=
| OverheadTooLarge (overhead : Z)
| MtuBelow (mtu minimum : Z).

Definition max_payload_size (mtu overhead : Z) : result Z MtuError :=
  match checked_add 64 NETWORK_HEADERS_SIZE overhead with
  | None => Err (OverheadTooLarge overhead)
  | Some total_overhead =>
      match checked_add 64 total_overhead 1 with
      | None => Err (OverheadTooLarge overhead)
      | Some minimum =>
          if mtu <? minimum then Err (MtuBelow mtu minimum) else Ok (mtu - total_overhead)
      end
  end.

Definition resolve_max_payload_overhead_size (var : option string) (overhead : Z)
  : result Z MtuError :=
  max_payload_size (resolve_mtu var) overhead.

Definition resolve_max_payload_size (var : option string) : result Z MtuError :=
  resolve_max_payload_overhead_size var 0.

(** [stack_config.max_transmission_unit] as [build_config] sets it. *)
Definition stack_mtu (feature_encryption : bool) (var : option string) : result Z MtuError :=
  resolve_max_payload_overhead_size var
    (MAX_TAG_SIZE + Forward_header_size + MAX_CIPHERTEXT_EXPANSION feature_encryption).

(** ** The socket *)

Section Udp.
Context {P : Type} `{Prost P}.

(** A result of [recv_from] with the time it was taken; [None] is an error. *)
Definition Received : Type := option (list Z * SocketAddr * Z).

(** One turn of [udp_stream]: the loop that waits for a packet; [None] when the
    events end first.  A datagram is cut to the size of the buffer. *)
Fixpoint udp_stream_next (events : list Received)
  : outcome (option (PacketKind P * SocketAddr * Z * list Received)) :=
  match events with
  | [] => Ret None
  | None :: events => udp_stream_next events
  | Some (data, addr, timestamp) :: events =>
      let! (r, _) := datagram_decode (ztake MAX_PACKET_SIZE data) in
      match r with
      | Ok (Some item) => Ret (Some (item, addr, timestamp, events))
      | Ok None => udp_stream_next events
      | Err _ => udp_stream_next events
      end
  end.

(** The first [n] items of the stream. *)
Fixpoint udp_stream (n : nat) (events : list Received)
  : outcome (list (PacketKind P * SocketAddr * Z)) :=
  match n with
  | O => Ret []
  | S n =>
      let! next := udp_stream_next events in
      match next with
      | None => Ret []
      | Some (item, events) => let! items := udp_stream n events in Ret (item :: items)
      end
  end.

(** The datagrams [udp_sink] hands to [send_to], and whether it warns that one
    is over the soft maximum.  The buffer is cleared for each packet. *)
Fixpoint udp_sink_loop (max_size : Z) (packets : list (PacketKind P * SocketAddr))
  : list (list Z * SocketAddr * bool) :=
  match packets with
  | [] => []
  | (packet, target) :: packets =>
      match datagram_encode packet [] with
      | Err _ => udp_sink_loop max_size packets
      | Ok buf => (buf, target, max_size <? zlen buf) :: udp_sink_loop max_size packets
      end
  end.

Definition udp_sink (var : option string) (packets : list (PacketKind P * SocketAddr))
  : outcome (list (list Z * SocketAddr * bool)) :=
  match resolve_max_payload_size var with
  | Ok max_size => Ret (udp_sink_loop max_size packets)
  | Err _ => Panic
  end.
End Udp.

(** ** Sizes fit *)

Lemma parse_digits_bound s acc n :
  0 <= acc < 2 ^ 64 -> parse_digits s acc = Some n -> 0 <= n < 2 ^ 64.
Proof.
  revert acc. induction s as [|c s IH]; intros acc Ha; cbn [parse_digits]; [by intros [= <-]|].
  destruct (to_digit c) as [d|] eqn:Ed; [|done].
  assert (0 <= d).
  { revert Ed. unfold to_digit. case_match_goal; [|done]. intros [= <-]. b2p. lia. }
  destruct (Z.ltb_spec (acc * 10 + d) (2 ^ 64)); [|done]. apply IH. lia.
Qed.

Lemma resolve_mtu_min var : NETWORK_HEADERS_SIZE + 1 <= resolve_mtu var.
Proof.
  unfold resolve_mtu, normalize_mtu.
  destruct (Z.ltb_spec (default DEFAULT_MTU (var ≫= parse_usize)) (NETWORK_HEADERS_SIZE + 1)); [|done].
  by vm_compute.
Qed.

Lemma max_payload_size_small mtu overhead :
  0 <= overhead < 2 ^ 32 ->
  max_payload_size mtu overhead =
    if mtu <? NETWORK_HEADERS_SIZE + overhead + 1
    then Err (MtuBelow mtu (NETWORK_HEADERS_SIZE + overhead + 1))
    else Ok (mtu - (NETWORK_HEADERS_SIZE + overhead)).
Proof.
  intros Ho. change (2 ^ 32) with 4294967296 in Ho. unfold max_payload_size, checked_add.
  change (2 ^ 64) with 18446744073709551616. change NETWORK_HEADERS_SIZE with 74.
  by rewrite !(proj2 (Z.ltb_lt _ 18446744073709551616)) by lia.
Qed.

Lemma resolve_max_payload_size_ok var :
  resolve_max_payload_size var = Ok (resolve_mtu var - NETWORK_HEADERS_SIZE).
Proof.
  unfold resolve_max_payload_size, resolve_max_payload_overhead_size.
  pose proof (resolve_mtu_min var). rewrite max_payload_size_small by lia.
  by rewrite (proj2 (Z.ltb_ge _ _)) by lia.
Qed.

(** The size of a packet after [encrypt] with what [encryption_new] chose. *)
Lemma encrypt_expansion `{AeadLaws} `{EthSign} `{!KeyAgreement} fe strict supported key crypto e nonce p q :
  encryption_new fe strict supported key crypto = Ok e -> zlen nonce = NONCE_SIZE ->
  encrypt e nonce p = Ok q ->
  Payload_len q <= Payload_len p + MAX_CIPHERTEXT_EXPANSION fe.
Proof.
  intros Hnew Hn He. destruct (decrypt_encrypt e nonce p q q Hn He eq_refl) as (_ & _ & _ & ->).
  assert (encryption_flag e = true -> fe = true) as Hf.
  { intros Hf. destruct fe; [done|]. revert Hnew. unfold encryption_new, enforce_encryption_policy.
    case_match_goal; [done|]. by intros [= <-]. }
  unfold MAX_CIPHERTEXT_EXPANSION.
  destruct (encryption_flag e); [rewrite Hf by done; lia|]. destruct fe; [|lia].
  assert (0 <= AES_256_GCM_SIV_CIPHERTEXT_EXPANSION) by by vm_compute. lia.
Qed.

(** Whatever its flags, a forward packet of a session is its header and payload. *)
Lemma send_with_flags_size `{ProstLaws P} d target p transport enc sync f :
  zlen (ds_id d) = SESSION_ID_SIZE -> send_with_flags d target p transport enc sync = Some f ->
  zlen (Forward_encode (P := P) f []) = Forward_header_size + Payload_len p.
Proof.
  intros Hid. unfold send_with_flags. destruct (if bool_decide _ then _ else _); [|done].
  intros [= <-]. rewrite zlen_Forward_encode; by destruct transport, enc, sync.
Qed.

(** The packet budget.  The soft maximum of the sink always exists, whatever
    the environment says, and is at least one byte; the client can be configured
    exactly when the MTU leaves room for the headers, the tag, the forward
    header and the ciphertext expansion; and then every packet of the virtual
    network that fits its transmission unit is sent, encrypted or not, directly
    or through a relay, as a datagram within that maximum. *)
Theorem stack_mtu_fits `{ProstLaws P} `{AeadLaws} `{EthSign} `{KA : !KeyAgreement}
  (fe strict : bool) (var : option string) (supported : list string) (key : option PublicKey)
  (crypto : SessionCrypto) :
  exists max, resolve_max_payload_size var = Ok max /\ 1 <= max /\
    max + NETWORK_HEADERS_SIZE = resolve_mtu var /\
    (is_ok (stack_mtu fe var) = true <->
      NETWORK_HEADERS_SIZE + MAX_TAG_SIZE + Forward_header_size + MAX_CIPHERTEXT_EXPANSION fe
        < resolve_mtu var) /\
    forall mtu routing direct nonce packet transport f,
      stack_mtu fe var = Ok mtu ->
      encryption_new fe strict supported key crypto = Ok (nr_encryption routing) ->
      zlen nonce = NONCE_SIZE -> zlen (ds_id direct) = SESSION_ID_SIZE ->
      Payload_len packet <= mtu ->
      routing_send routing direct nonce packet transport = Some f ->
      1 <= mtu /\
      exists buf, datagram_encode (P := P) (KForward f) [] = Ok buf /\ zlen buf <= max.
Proof.
  eexists. split; [apply resolve_max_payload_size_ok|]. pose proof (resolve_mtu_min var).
  split; [lia|]. split; [lia|].
  assert (0 <= MAX_CIPHERTEXT_EXPANSION fe <= 28) by by destruct fe; vm_compute.
  unfold stack_mtu, resolve_max_payload_overhead_size.
  rewrite max_payload_size_small by (unfold MAX_TAG_SIZE, Forward_header_size, KEY_SIZE, SESSION_ID_SIZE; lia).
  split.
  - destruct (Z.ltb_spec (resolve_mtu var) (NETWORK_HEADERS_SIZE +
      (MAX_TAG_SIZE + Forward_header_size + MAX_CIPHERTEXT_EXPANSION fe) + 1)); simpl; split;
      first [done | lia].
  - intros mtu routing direct nonce packet transport f Hm Hnew Hn Hid Hl Hs.
    destruct (Z.ltb_spec (resolve_mtu var) (NETWORK_HEADERS_SIZE +
      (MAX_TAG_SIZE + Forward_header_size + MAX_CIPHERTEXT_EXPANSION fe) + 1)); [done|].
    injection Hm as <-. split; [lia|]. eexists. split; [done|]. revert Hs. unfold routing_send.
    destruct (encrypt _ nonce packet) as [q|] eqn:Eq; [|done].
    intros Hs%(send_with_flags_size (P := P)); [|done].
    pose proof (encrypt_expansion _ _ _ _ _ _ _ _ _ Hnew Hn Eq).
    assert (0 <= MAX_TAG_SIZE) by done. lia.
Qed.

(** ** Packets over the network *)

Section Transport.
Context {P : Type} `{ProstLaws P}.

(** What the codec can carry in one datagram, and what it becomes. *)
Definition sendable (item : PacketKind P) : Prop :=
  match item with
  | KForward f => Forward_wf f /\ zlen (Forward_encode f []) <= MAX_PACKET_SIZE
  | KPacket p => bytes_ok (msg_encode p) /\ 0 < zlen (msg_encode p) <= MAX_PACKET_SIZE
  | KForwardCtd _ => False
  end.

Definition as_received (item : PacketKind P) : PacketKind P :=
  match item with KForward f => KForward (Forward_received f) | item => item end.

(** An event the stream has to skip: an error of the socket, or a datagram that
    is not a packet. *)
Definition noise (e : Received) : Prop :=
  match e with
  | None => True
  | Some (data, _, _) =>
      bytes_ok data /\
      forall item rest, datagram_decode (P := P) (ztake MAX_PACKET_SIZE data) <> Ret (Ok (Some item), rest)
  end.

(** The datagrams sent arrive in order, among noise. *)
Inductive arrivals : list (list Z * SocketAddr * bool) -> list Received -> Prop :=
| arrivals_nil : arrivals [] []
| arrivals_noise sent e events : noise e -> arrivals sent events -> arrivals sent (e :: events)
| arrivals_sent buf target w from time sent events :
    arrivals sent events ->
    arrivals ((buf, target, w) :: sent) (Some (buf, from, time) :: events).

Lemma udp_stream_next_noise e events :
  noise e -> udp_stream_next (P := P) (e :: events) = udp_stream_next events.
Proof.
  destruct e as [[[data addr] time]|]; [|done]. intros [Hok Hno]. cbn [udp_stream_next].
  destruct (datagram_decode_returns (P := P) (ztake MAX_PACKET_SIZE data)) as (r & rest & Hd);
    [by apply Forall_take|].
  rewrite Hd. cbn [outcome_bind]. destruct r as [[item|]|]; [|done..]. by destruct (Hno item rest).
Qed.

Lemma udp_stream_next_sendable item buf from time events :
  sendable item -> datagram_encode item [] = Ok buf ->
  udp_stream_next (Some (buf, from, time) :: events) =
    Ret (Some (as_received item, from, time, events)).
Proof.
  intros Hs He. cbn [udp_stream_next]. destruct item as [p|f|b]; simplify_eq/=.
  - destruct Hs as [Hok Hl]. rewrite ztake_all by lia.
    rewrite datagram_decode_packet; [done|done|]. intros E. rewrite E in Hl. by destruct Hl.
  - destruct Hs as [Hwf Hl]. rewrite ztake_all by lia. by rewrite datagram_decode_forward.
Qed.

Lemma sink_arrivals max ps events n :
  Forall (fun p => sendable p.1) ps -> arrivals (udp_sink_loop max ps) events ->
  (length events <= n)%nat ->
  exists items, udp_stream n events = Ret items /\
    map (fun i => i.1.1) items = map (fun p => as_received p.1) ps.
Proof.
  intros Hps Ha. remember (udp_sink_loop max ps) as sent eqn:Es. revert n ps Hps Es.
  induction Ha as [|sent e events He Ha IH|buf target w from time sent events Ha IH]; intros n ps Hps Es Hn.
  - exists []. split; [by destruct n|]. destruct ps as [|[item target] ps]; [done|].
    apply Forall_cons_1 in Hps as [Hs _]. by destruct item.
  - destruct n as [|n]; [simpl in Hn; lia|]. cbn [udp_stream]. rewrite udp_stream_next_noise by done.
    apply (IH (S n) ps Hps Es). simpl in Hn. lia.
  - destruct ps as [|[item target'] ps]; [done|]. apply Forall_cons_1 in Hps as [Hs Hps].
    cbn [fst] in Hs. destruct n as [|n]; [simpl in Hn; lia|]. cbn [udp_sink_loop] in Es.
    destruct (datagram_encode item []) as [buf'|] eqn:Ee; [|by destruct item].
    simplify_eq. destruct (IH n ps Hps eq_refl) as (items & Hi & Hm); [simpl in Hn; lia|].
    cbn [udp_stream]. rewrite (udp_stream_next_sendable item) by done. cbn [outcome_bind].
    rewrite Hi. eexists. split; [done|]. simpl. by rewrite Hm.
Qed.

(** Packets given to the sink come out of the stream at the other end, in
    order and once each, whatever malformed datagrams and socket errors arrive
    in between; the sink never panics on the size limit. *)
Theorem udp_transport_delivers (var : option string) (ps : list (PacketKind P * SocketAddr))
  (events : list Received) (n : nat) :
  Forall (fun p => sendable p.1) ps ->
  exists sent, udp_sink var ps = Ret sent /\
    (arrivals sent events -> (length events <= n)%nat ->
     exists items, udp_stream n events = Ret items /\
       map (fun i => i.1.1) items = map (fun p => as_received p.1) ps).
Proof.
  intros Hps. unfold udp_sink. rewrite resolve_max_payload_size_ok. eexists. split; [done|].
  by apply sink_arrivals.
Qed.
End Transport.

(** ** Examples *)

Section Witness.
Import RawProst ToyCrypto ToyCipher.

Lemma stack_mtu_fits_witness :
  exists mtu, stack_mtu true (Some "131"%string) = Ok mtu /\ mtu = 1 /\ 1 <= mtu /\
    exists buf, datagram_encode (P := list Z) (KForward
      {| fw_session_id := replicate 16 3; fw_slot := 0; fw_flags := 2;
         fw_payload := PVec (replicate 12 0 ++ [7] ++ replicate 16 0) |}) [] = Ok buf /\
      zlen buf <= 57.
Proof.
  exists 1. split; [vm_compute; reflexivity|]. split; [reflexivity|].
  destruct (stack_mtu_fits (P := list Z) (KA := toy_agreement) true true (Some "131"%string) (supported_encryptions true)
    (Some 5) 4) as (max & Hmax & _ & _ & _ & Hfit).
  vm_compute in Hmax. injection Hmax as <-.
  apply (Hfit 1 (toy_routing [2]) (toy_session [2]) (replicate 12 0) (PVec [7]) Reliable); try reflexivity.
Defined.

Lemma udp_transport_delivers_witness :
  exists sent, udp_sink (P := list Z) None
      [(KForward sample_forward, {| sa_ip := IpV4 1; sa_port := 1 |})] = Ret sent /\
    exists items, udp_stream (P := list Z) 3
        [None; Some ([200], {| sa_ip := IpV4 9; sa_port := 9 |}, 1);
         Some (Forward_encode (P := list Z) sample_forward [],
               {| sa_ip := IpV4 2; sa_port := 2 |}, 5)] = Ret items /\
      map (fun i => i.1.1) items = [KForward (Forward_received sample_forward)].
Proof.
  destruct (udp_transport_delivers (P := list Z) None
    [(KForward sample_forward, {| sa_ip := IpV4 1; sa_port := 1 |})]
    [None; Some ([200], {| sa_ip := IpV4 9; sa_port := 9 |}, 1);
     Some (Forward_encode (P := list Z) sample_forward [],
           {| sa_ip := IpV4 2; sa_port := 2 |}, 5)] 3) as (sent & Hs & Hd).
  - constructor; [|constructor]. split; [|by vm_compute]. unfold Forward_wf, in_width. simpl.
    repeat split; try lia; apply (bool_decide_unpack _); vm_compute; exact I.
  - exists sent. split; [exact Hs|]. vm_compute in Hs. injection Hs as <-. apply Hd; [|simpl; lia].
    apply arrivals_noise; [exact I|]. apply arrivals_noise.
    + split; [apply (bool_decide_unpack _); vm_compute; exact I|]. intros item rest Hd'.
      vm_compute in Hd'. discriminate Hd'.
    + apply (arrivals_sent (P := list Z)), arrivals_nil.
Defined.
End Witness.
