(* ===== verification/Ports.v ===== *)
(** [crates/stack/src/port.rs] and [protocol.rs]: the allocator of local ports of
    the virtual network stack.

    The random start of the search is an argument. *)

From S2P Require Import Prelude.

(** IP sub-protocol identifiers. *)
Inductive Protocol : Type :=
| HopByHop | Icmp | Igmp | Tcp | Egp | Igp | Udp | Rdp | Dccp | Ipv6Tun | Sdrp | Ipv6Route
| Ipv6Frag | Ipv6Icmp | Ipv6NoNxt | Ipv6Opts | Ipcv | IpIp | IpComp | Smp | Sctp | Ethernet
| NoProtocol.

(** The discriminants; the last one has none and follows its predecessor. *)
Definition Protocol_to_u8 (p : Protocol) : Z :=
  match p with
  | HopByHop => 0 | Icmp => 1 | Igmp => 2 | Tcp => 6 | Egp => 8 | Igp => 9 | Udp => 17
  | Rdp => 27 | Dccp => 33 | Ipv6Tun => 41 | Sdrp => 42 | Ipv6Route => 43 | Ipv6Frag => 44
  | Ipv6Icmp => 58 | Ipv6NoNxt => 59 | Ipv6Opts => 60 | Ipcv => 71 | IpIp => 94
  | IpComp => 108 | Smp => 121 | Sctp => 132 | Ethernet => 143 | NoProtocol => 144
  end.

Definition all_protocols : list Protocol :=
  [HopByHop; Icmp; Igmp; Tcp; Egp; Igp; Udp; Rdp; Dccp; Ipv6Tun; Sdrp; Ipv6Route; Ipv6Frag;
   Ipv6Icmp; Ipv6NoNxt; Ipv6Opts; Ipcv; IpIp; IpComp; Smp; Sctp; Ethernet; NoProtocol].

(** [TryFrom<u8>], through the derived [FromPrimitive]. *)
Definition Protocol_try_from (value : Z) : result Protocol Z :=
  ok_or (find (fun p => Protocol_to_u8 p =? value) all_protocols) value.

Lemma Protocol_try_from_to_u8 p : Protocol_try_from (Protocol_to_u8 p) = Ok p.
Proof. by destruct p. Qed.

#[export] Instance Protocol_eq_dec : EqDecision Protocol.
Proof. solve_decision. Defined.

#[export] Program Instance Protocol_countable : Countable Protocol :=
  inj_countable Protocol_to_u8 (fun z => res_ok (Protocol_try_from z)) _.
Next Obligation. by intros []. Qed.

(** ** The allocator *)

Abbreviation Allocator := (gmap Protocol (gset Z)).

Definition RANGE_START : Z := 1000.
Definition RANGE_END : Z := 65535.
Definition RANGE_LEN : Z := RANGE_END - RANGE_START + 1.

(** [entry(protocol).or_default()]. *)
Definition entry (a : Allocator) (protocol : Protocol) : gset Z := default ∅ (a !! protocol).

(** The port after [port] in the search. *)
Definition next_candidate (port : Z) : Z := Z.max RANGE_START (wrap 16 (port + 1)).

(** The [while] loop of [next], with [num] attempts left. *)
Fixpoint search_port (num : nat) (taken : gset Z) (port : Z) : option Z :=
  match num with
  | O => None
  | S num =>
      if bool_decide (port ∈ taken) then search_port num taken (next_candidate port)
      else Some port
  end.

Definition next (a : Allocator) (protocol : Protocol) (sample : Z) : option Z * Allocator :=
  let taken := entry a protocol in
  match search_port (Z.to_nat RANGE_LEN) taken sample with
  | Some port => (Some port, <[protocol := {[port]} ∪ taken]> a)
  | None => (None, <[protocol := taken]> a)
  end.

Definition reserve (a : Allocator) (protocol : Protocol) (port : Z) : bool * Allocator :=
  let taken := entry a protocol in
  if bool_decide (port ∈ taken) then (false, <[protocol := taken]> a)
  else (true, <[protocol := {[port]} ∪ taken]> a).

Definition free (a : Allocator) (protocol : Protocol) (port : Z) : Allocator :=
  <[protocol := entry a protocol ∖ {[port]}]> a.

(** ** The search *)

(** The [k]-th port the search looks at. *)
Definition candidate (sample : Z) (k : Z) : Z := RANGE_START + (sample - RANGE_START + k) mod RANGE_LEN.

Lemma next_candidate_step s k :
  0 <= k -> next_candidate (candidate s k) = candidate s (k + 1).
Proof.
  intros Hk. unfold next_candidate, candidate, RANGE_LEN, RANGE_END, RANGE_START, wrap.
  change (2 ^ 16) with 65536. dlia.
Qed.

Lemma search_port_spec n taken s k :
  0 <= k ->
  match search_port n taken (candidate s k) with
  | Some p => (p ∉ taken) /\ exists j, k <= j < k + Z.of_nat n /\ p = candidate s j
  | None => forall j, k <= j < k + Z.of_nat n -> candidate s j ∈ taken
  end.
Proof.
  revert k. induction n as [|n IH]; intros k Hk; cbn [search_port]; [intros j ?; lia|].
  case_bool_decide as Ht; [|split; [done|exists k; split; [lia|done]]].
  rewrite next_candidate_step by done. specialize (IH (k + 1) ltac:(lia)).
  destruct (search_port n taken (candidate s (k + 1))) as [p|].
  - destruct IH as (? & j & ? & ->). split; [done|]. exists j. split; [lia|done].
  - intros j ?. destruct (decide (j = k)) as [->|]; [done|]. apply IH. lia.
Qed.

(** Every port of the range is looked at once in a full turn. *)
Lemma candidate_covers s p :
  RANGE_START <= p <= RANGE_END -> exists j, 0 <= j < 0 + RANGE_LEN /\ candidate s j = p.
Proof.
  unfold candidate. intros Hp. exists ((p - s) mod RANGE_LEN). split.
  { pose proof (Z.mod_pos_bound (p - s) RANGE_LEN ltac:(done)). lia. }
  rewrite Z.add_mod_idemp_r by done.
  replace (s - RANGE_START + (p - s)) with (p - RANGE_START) by lia.
  rewrite Z.mod_small; [lia|]. unfold RANGE_LEN. lia.
Qed.

Lemma candidate_0 s : RANGE_START <= s <= RANGE_END -> candidate s 0 = s.
Proof.
  intros. unfold candidate. rewrite Z.add_0_r, Z.mod_small; [lia|]. unfold RANGE_LEN. lia.
Qed.

Lemma candidate_range s j : RANGE_START <= candidate s j <= RANGE_END.
Proof.
  unfold candidate. pose proof (Z.mod_pos_bound (s - RANGE_START + j) RANGE_LEN ltac:(done)).
  unfold RANGE_LEN in *. lia.
Qed.

Lemma entry_insert a p q t :
  entry (<[p := t]> a) q = if decide (q = p) then t else entry a q.
Proof.
  unfold entry. destruct (decide (q = p)) as [->|Hne].
  - by rewrite lookup_insert_eq.
  - by rewrite lookup_insert_ne.
Qed.

(** ** Properties *)

(** [next] hands out a port of the dynamic range that was free for the
    protocol, whatever the random start of the search, takes it, and leaves the
    other protocols alone; it fails exactly when every port of the range is
    taken, and then takes nothing.  A port given back with [free] can be
    reserved again, and a taken one cannot. *)
Theorem ports_allocated_once (a : Allocator) (protocol : Protocol) (sample : Z) :
  RANGE_START <= sample <= RANGE_END ->
  (forall p, RANGE_START <= p <= RANGE_END -> p ∉ entry a protocol ->
     is_some (next a protocol sample).1 = true) /\
  match next a protocol sample with
  | (Some port, a') =>
      RANGE_START <= port <= RANGE_END /\ (port ∉ entry a protocol) /\
      (forall q, entry a' q = if decide (q = protocol) then {[port]} ∪ entry a q else entry a q) /\
      (reserve a' protocol port).1 = false /\
      (reserve (free a' protocol port) protocol port).1 = true /\
      (forall q, entry (free a' protocol port) q = entry a q)
  | (None, a') =>
      (forall p, RANGE_START <= p <= RANGE_END -> p ∈ entry a protocol) /\
      (forall q, entry a' q = entry a q)
  end.
Proof.
  intros Hs. pose proof (search_port_spec (Z.to_nat RANGE_LEN) (entry a protocol) sample 0
    ltac:(lia)) as H.
  rewrite candidate_0 in H by done. unfold next, reserve, free.
  destruct (search_port _ _ _) as [port|].
  - destruct H as (Hfree & j & _ & ->). split; [done|].
    split; [apply candidate_range|]. split; [done|]. split_and!.
    + intros q. rewrite entry_insert. by case_decide; subst.
    + rewrite entry_insert, decide_True by done. by rewrite bool_decide_true by set_solver.
    + rewrite !entry_insert, !decide_True by done. by rewrite bool_decide_false by set_solver.
    + intros q. rewrite !entry_insert. case_decide; [subst|done].
      rewrite decide_True by done. set_solver.
  - rewrite Z2Nat.id in H by done.
    assert (forall p, RANGE_START <= p <= RANGE_END -> p ∈ entry a protocol) as Hall.
    { intros p (j & Hj & <-)%(candidate_covers sample). auto. }
    split; [intros p Hp Hn; by destruct Hn; apply Hall|]. split; [done|].
    intros q. rewrite entry_insert. by case_decide; subst.
Qed.

Lemma ports_allocated_once_witness :
  is_some (next {[ Tcp := {[ 65535; 1000 ]} ]} Tcp 65535).1 = true /\
  next {[ Tcp := {[ 65535; 1000 ]} ]} Tcp 65535 =
    (Some 1001, {[ Tcp := {[ 1001; 65535; 1000 ]} ]}).
Proof.
  split; [|vm_compute; reflexivity].
  refine (proj1 (ports_allocated_once {[ Tcp := {[ 65535; 1000 ]} ]} Tcp 65535 _) 4000 _ _).
  - by vm_compute.
  - by vm_compute.
  - by apply (bool_decide_unpack _); vm_compute.
Defined.
