(* ===== verification/StackMetrics.v ===== *)
(** [crates/stack/src/metrics.rs]: the moving averages over the traffic of the
    virtual network.

    The code is generic in the type of numbers; so are the definitions, over the
    operations its trait bounds name ([Num]).  The theorems are about types with
    exact arithmetic ([NumLaws]); they do not speak about the rounding of [f32].
    Instants and durations are counted in nanoseconds. *)

From Stdlib Require Import Ring Ring_theory QArith Qcanon.
From S2P Require Import Prelude.

(** ** Numbers *)

(** [Zero], [One], [Add], [Sub], [Mul], [Div<f32>] by two, and the comparisons. *)
Class Num (V : Type) : Type := {
  zero : V;
  one : V;
  add : V -> V -> V;
  sub : V -> V -> V;
  mul : V -> V -> V;
  half : V -> V;
  lt : V -> V -> bool;
  eqb : V -> V -> bool }.

(** Exact arithmetic: a commutative ring with a correct test for equality. *)
Class NumLaws (V : Type) `{Num V} : Prop := {
  num_ring : ring_theory zero one add mul sub (fun x => sub zero x) eq;
  eqb_eq x y : eqb x y = true <-> x = y }.

(** [trait Average]. *)
Class Average (A V : Type) : Type := {
  avg_push : A -> V -> A;
  avg_value : A -> V }.

Section Metrics.
Context {V : Type} `{Num V}.

(** ** Exponentially weighted moving average *)

Record Ewma : Type := { ew_value : option V; ew_alpha : V; ew_one_min_alpha : V }.

(** [Ewma::new]: a factor outside of the unit interval is refused. *)
Definition Ewma_new (alpha : V) : result Ewma V :=
  if lt alpha zero || lt one alpha then Err alpha
  else Ok {| ew_value := None; ew_alpha := alpha; ew_one_min_alpha := sub one alpha |}.

Definition Ewma_push (e : Ewma) (value : V) : Ewma :=
  let new_value :=
    match ew_value e with
    | Some v => add (mul (ew_alpha e) value) (mul (ew_one_min_alpha e) v)
    | None => value
    end in
  {| ew_value := Some new_value; ew_alpha := ew_alpha e; ew_one_min_alpha := ew_one_min_alpha e |}.

Definition Ewma_value (e : Ewma) : V := default zero (ew_value e).

#[export] Instance Ewma_average : Average Ewma V := {
  avg_push := Ewma_push;
  avg_value := Ewma_value }.

(** [Add for Ewma]: the mean of the values that are there. *)
Definition Ewma_add (self rhs : Ewma) : Ewma :=
  {| ew_value :=
       match ew_value self, ew_value rhs with
       | Some val1, Some val2 => Some (half (add val1 val2))
       | Some val1, None => Some val1
       | None, Some val2 => Some val2
       | None, None => None
       end;
     ew_alpha := ew_alpha self; ew_one_min_alpha := ew_one_min_alpha self |}.

(** ** Time windows *)

Record TimeWindow (A : Type) : Type := {
  tw_size : Z;
  tw_updated : Z;
  tw_acc : V;
  tw_total : V;
  tw_average : A }.
Arguments tw_size {A} _.
Arguments tw_updated {A} _.
Arguments tw_acc {A} _.
Arguments tw_total {A} _.
Arguments tw_average {A} _.

Section Window.
Context {A : Type} `{!Average A V}.

(** [start.checked_sub(size).unwrap()]; the least instant is the platform's. *)
Definition TimeWindow_new (instant_min start size : Z) (average : A) : outcome (TimeWindow A) :=
  if start - size <? instant_min then Panic
  else Ret {| tw_size := size; tw_updated := start - size; tw_acc := zero; tw_total := zero;
              tw_average := average |}.

Definition TimeWindow_sum (w : TimeWindow A) : V := tw_total w.

Definition push_value (w : TimeWindow A) (value : V) (time : Z) : TimeWindow A :=
  {| tw_size := tw_size w; tw_updated := time; tw_acc := tw_acc w;
     tw_total := add (tw_total w) value; tw_average := avg_push (tw_average w) value |}.

Definition set_acc (w : TimeWindow A) (acc : V) : TimeWindow A :=
  {| tw_size := tw_size w; tw_updated := tw_updated w; tw_acc := acc;
     tw_total := tw_total w; tw_average := tw_average w |}.

Definition MILLI : Z := 1000000.

(** The quotient [(ms + size_ms / 2.) / size_ms] in double precision, converted
    to [usize]: below 2^51 milliseconds the result has the integer part of the
    exact quotient, and a quotient by zero is infinite or not a number. *)
Definition cycles (ms size_ms : Z) : Z :=
  if size_ms =? 0 then (if ms =? 0 then 0 else u64_max)
  else Z.min u64_max ((2 * ms + size_ms) / (2 * size_ms)).

(** The number of periods without values that [advance] accounts for. *)
Definition missed (w : TimeWindow A) (time : Z) : Z :=
  saturating_sub (cycles ((time - tw_updated w) / MILLI) (tw_size w / MILLI)) 1.

Definition advance (w : TimeWindow A) (time : Z) : TimeWindow A :=
  if time <=? tw_updated w then w
  else
    let samples := missed w time in
    if samples =? 0 then w
    else
      let w :=
        if negb (eqb (tw_acc w) zero)
        then push_value (set_acc w zero) (tw_acc w) (tw_updated w) else w in
      Nat.iter (Z.to_nat samples) (fun w => push_value w zero (tw_updated w + tw_size w)) w.

(** [average], which brings the window up to date. *)
Definition TimeWindow_average (w : TimeWindow A) (time : Z) : V * TimeWindow A :=
  let w := advance w time in (avg_value (tw_average w), w).

Definition TimeWindow_push (w : TimeWindow A) (value : V) (time : Z) : TimeWindow A :=
  if saturating_sub time (tw_updated w) <? tw_size w then set_acc w (add (tw_acc w) value)
  else
    let w := advance w time in
    push_value (set_acc w zero) (add value (tw_acc w)) time.

(** [Add for TimeWindow]; [avg_add] is the addition of the averages. *)
Definition TimeWindow_add (avg_add : A -> A -> A) (self rhs : TimeWindow A) : TimeWindow A :=
  let timestamp := Z.max (tw_updated self) (tw_updated rhs) in
  let self := advance self timestamp in
  let rhs := advance rhs timestamp in
  {| tw_size := tw_size self; tw_updated := timestamp;
     tw_acc := add (tw_acc self) (tw_acc rhs); tw_total := add (tw_total self) (tw_total rhs);
     tw_average := avg_add (tw_average self) (tw_average rhs) |}.
End Window.

(** ** Metrics of a channel *)

Record Metrics : Type := {
  mt_short : TimeWindow Ewma;
  mt_mid : TimeWindow Ewma;
  mt_long : TimeWindow Ewma }.

Definition SAMPLE_FREQ : Z := 1000 * MILLI.

(** [Metrics::new] at the instant [now]. *)
Definition Metrics_new (instant_min now : Z) (short_alpha mid_alpha long_alpha : V)
  : outcome (result Metrics V) :=
  match Ewma_new short_alpha with
  | Err e => Ret (Err e)
  | Ok short =>
      let! short := TimeWindow_new instant_min now SAMPLE_FREQ short in
      match Ewma_new mid_alpha with
      | Err e => Ret (Err e)
      | Ok mid =>
          let! mid := TimeWindow_new instant_min now SAMPLE_FREQ mid in
          match Ewma_new long_alpha with
          | Err e => Ret (Err e)
          | Ok long =>
              let! long := TimeWindow_new instant_min now SAMPLE_FREQ long in
              Ret (Ok {| mt_short := short; mt_mid := mid; mt_long := long |})
          end
      end
  end.

Definition Metrics_push (m : Metrics) (value : V) (now : Z) : Metrics :=
  {| mt_short := TimeWindow_push (mt_short m) value now;
     mt_mid := TimeWindow_push (mt_mid m) value now;
     mt_long := TimeWindow_push (mt_long m) value now |}.

Definition Metrics_add (self rhs : Metrics) : Metrics :=
  {| mt_short := TimeWindow_add Ewma_add (mt_short self) (mt_short rhs);
     mt_mid := TimeWindow_add Ewma_add (mt_mid self) (mt_mid rhs);
     mt_long := TimeWindow_add Ewma_add (mt_long self) (mt_long rhs) |}.

Record ChannelMetrics : Type := { cm_tx : Metrics; cm_rx : Metrics }.

Definition ChannelMetrics_add (self rhs : ChannelMetrics) : ChannelMetrics :=
  {| cm_tx := Metrics_add (cm_tx self) (cm_tx rhs); cm_rx := Metrics_add (cm_rx self) (cm_rx rhs) |}.
End Metrics.

Arguments Ewma V : clear implicits.
Arguments TimeWindow V A : clear implicits.
Arguments tw_size {V A} _.
Arguments tw_updated {V A} _.
Arguments tw_acc {V A} _.
Arguments tw_total {V A} _.
Arguments tw_average {V A} _.
Arguments Metrics V : clear implicits.
Arguments ChannelMetrics V : clear implicits.

(** ** The reference *)

Section Reference.
Context {V : Type} `{NumLaws V}.
Add Ring num_ring : num_ring.

Definition vsum (l : list V) : V := foldr add zero l.

Definition power (x : V) (n : nat) : V := Nat.iter n (mul x) one.

(** The weights of [n] samples, the newest first: each sample counts by the
    factor [alpha] of what the newer ones leave, the oldest by all that is left. *)
Definition weights (alpha : V) (n : nat) : list V :=
  match n with
  | O => []
  | S k => map (fun i => mul alpha (power (sub one alpha) i)) (seq 0 k) ++ [power (sub one alpha) k]
  end.

(** The weighted mean of samples given in the order of their arrival. *)
Definition weighted_mean (alpha : V) (samples : list V) : V :=
  vsum (zip_with mul (weights alpha (length samples)) (rev samples)).

Lemma vsum_app l1 l2 : vsum (l1 ++ l2) = add (vsum l1) (vsum l2).
Proof. induction l1 as [|x l1 IH]; simpl; [ring|]. rewrite IH. ring. Qed.

Lemma vsum_scale c l : vsum (map (mul c) l) = mul c (vsum l).
Proof. induction l as [|x l IH]; simpl; [ring|]. rewrite IH. ring. Qed.

Lemma power_S x n : power x (S n) = mul x (power x n).
Proof. reflexivity. Qed.

(** One more sample takes its share, and scales the other weights. *)
Lemma weights_S alpha n :
  weights alpha (S (S n)) = alpha :: map (mul (sub one alpha)) (weights alpha (S n)).
Proof.
  unfold weights. rewrite map_app, map_map. simpl map at 1. cbn [map app seq].
  f_equal; [unfold power; simpl; ring|].
  f_equal. rewrite <- seq_shift, map_map. apply map_ext. intros i. rewrite power_S. ring.
Qed.

Lemma weights_total alpha n : vsum (weights alpha (S n)) = one.
Proof.
  induction n as [|n IH]; [unfold weights, power; simpl; ring|].
  rewrite weights_S. cbn [vsum foldr]. fold (vsum (map (mul (sub one alpha)) (weights alpha (S n)))).
  rewrite vsum_scale, IH. ring.
Qed.

Lemma zip_with_scale c (l1 l2 : list V) :
  zip_with mul (map (mul c) l1) l2 = map (mul c) (zip_with mul l1 l2).
Proof.
  revert l2. induction l1 as [|x l1 IH]; intros [|y l2]; try done. simpl. rewrite IH. f_equal. ring.
Qed.

Lemma weighted_mean_snoc alpha x samples y :
  weighted_mean alpha ((y :: samples) ++ [x]) =
  add (mul alpha x) (mul (sub one alpha) (weighted_mean alpha (y :: samples))).
Proof.
  unfold weighted_mean. rewrite length_app, rev_app_distr. cbn [length].
  replace (S (length samples) + 1)%nat with (S (S (length samples))) by lia.
  rewrite weights_S. cbn [rev app zip_with vsum foldr].
  fold (vsum (zip_with mul (map (mul (sub one alpha)) (weights alpha (S (length samples))))
    (rev samples ++ [y]))).
  by rewrite zip_with_scale, vsum_scale.
Qed.

(** The average that was pushed the samples holds their weighted mean. *)
Definition averages (alpha : V) (samples : list V) (e : Ewma V) : Prop :=
  ew_alpha e = alpha /\ ew_one_min_alpha e = sub one alpha /\
  ew_value e = match samples with [] => None | _ => Some (weighted_mean alpha samples) end.

Lemma averages_push alpha samples e x :
  averages alpha samples e -> averages alpha (samples ++ [x]) (Ewma_push e x).
Proof.
  intros (Ha & Hb & Hv). unfold averages, Ewma_push. rewrite Ha, Hb, Hv. split_and!; try done. simpl.
  destruct samples as [|y samples]; [|by rewrite weighted_mean_snoc].
  f_equal. unfold weighted_mean, weights, power. simpl. ring.
Qed.

(** What a window has counted: samples in its average and its total, and in
    [acc] what belongs to the current period. *)
Definition counts (alpha : V) (samples pushed : list V) (w : TimeWindow V (Ewma V)) : Prop :=
  averages alpha samples (tw_average w) /\ tw_total w = vsum samples /\
  add (tw_total w) (tw_acc w) = vsum pushed.

Lemma counts_acc alpha samples pushed w v :
  counts alpha samples pushed w -> counts alpha samples (pushed ++ [v]) (set_acc w (add (tw_acc w) v)).
Proof.
  intros (Ha & Ht & Hp). split_and!; [done|done|]. simpl. rewrite vsum_app, <- Hp. cbn. ring.
Qed.

(** A sample that takes the accumulated values, and further ones. *)
Lemma counts_flush alpha samples pushed w v t :
  counts alpha samples pushed w ->
  counts alpha (samples ++ [add v (tw_acc w)]) (pushed ++ [v])
    (push_value (set_acc w zero) (add v (tw_acc w)) t).
Proof.
  intros (Ha & Ht & Hp). split_and!; simpl.
  - by apply averages_push.
  - rewrite vsum_app, Ht. cbn. ring.
  - rewrite vsum_app, <- Hp. cbn. ring.
Qed.

Lemma counts_empty alpha samples pushed w t :
  counts alpha samples pushed w -> counts alpha (samples ++ [zero]) pushed (push_value w zero t).
Proof.
  intros (Ha & Ht & Hp). split_and!; simpl.
  - by apply averages_push.
  - rewrite vsum_app, Ht. cbn. ring.
  - rewrite <- Hp. ring.
Qed.

Lemma counts_advance alpha samples pushed w t :
  counts alpha samples pushed w -> exists samples', counts alpha samples' pushed (advance w t).
Proof.
  intros Hc. unfold advance. repeat (case_match; [by eauto|]).
  assert (exists samples', counts alpha samples' pushed
    (if negb (eqb (tw_acc w) zero) then push_value (set_acc w zero) (tw_acc w) (tw_updated w) else w))
    as (s1 & Hs1).
  { case_match; [|by eauto]. pose proof (counts_flush _ _ _ _ zero (tw_updated w) Hc) as Hf.
    destruct Hf as (Ha & Ht & Hp). exists (samples ++ [add zero (tw_acc w)]).
    assert (add zero (tw_acc w) = tw_acc w) as Hz by ring. rewrite Hz in *.
    split_and!; [done|done|]. rewrite Hp, vsum_app. cbn. ring. }
  revert Hs1.
  generalize (if negb (eqb (tw_acc w) zero) then push_value (set_acc w zero) (tw_acc w) (tw_updated w) else w).
  induction (Z.to_nat (missed w t)) as [|n IH]; intros w1 Hs1; [by eauto|].
  destruct (IH w1 Hs1) as [s2 Hs2]. eexists. simpl. by apply counts_empty.
Qed.

(** ** Time *)

(** Periods are whole milliseconds. *)
Definition whole_ms (size : Z) : Prop := 0 < size /\ size mod MILLI = 0.

Lemma advance_size (w : TimeWindow V (Ewma V)) t : tw_size (advance w t) = tw_size w.
Proof.
  unfold advance. repeat (case_match; [done|]).
  induction (Z.to_nat _) as [|n IH]; [by case_match|done].
Qed.

Lemma advance_updated (w : TimeWindow V (Ewma V)) t :
  tw_updated (advance w t) =
  if t <=? tw_updated w then tw_updated w else tw_updated w + missed w t * tw_size w.
Proof.
  unfold advance. case_match; [done|]. case_match eqn:Em; [b2p; rewrite Em; lia|].
  assert (0 <= missed w t) as Hm by (unfold missed, saturating_sub; lia).
  rewrite <- (Z2Nat.id (missed w t)) at 2 by done.
  set (w1 := if negb _ then _ else w).
  assert (tw_updated w1 = tw_updated w /\ tw_size w1 = tw_size w) as [Hu Hs]
    by (unfold w1; by case_match).
  assert (forall n, tw_size (Nat.iter n (fun w => push_value w zero (tw_updated w + tw_size w)) w1)
    = tw_size w) as Hsz by (intros n; induction n; [done|by simpl]).
  induction (Z.to_nat (missed w t)) as [|n IH]; [simpl; lia|].
  rewrite Nat2Z.inj_succ. simpl. rewrite IH, Hsz. lia.
Qed.

(** The periods accounted for are over, and at most one and a half are left. *)
Lemma missed_bounds (w : TimeWindow V (Ewma V)) t :
  whole_ms (tw_size w) -> tw_updated w < t <= tw_updated w + 2 ^ 51 * MILLI ->
  tw_updated w + missed w t * tw_size w <= t /\
  2 * ((t - (tw_updated w + missed w t * tw_size w)) / MILLI) < 3 * (tw_size w / MILLI).
Proof.
  intros [Hp Hd] Ht. unfold missed, cycles, saturating_sub, MILLI, u64_max in *.
  set (s := tw_size w / 1000000) in *. assert (tw_size w = 1000000 * s) as Hs by (unfold s; dlia).
  set (e := t - tw_updated w) in *. set (ms := e / 1000000) in *.
  assert (1000000 * ms <= e < 1000000 * ms + 1000000) as Hms by (unfold ms; dlia).
  assert ((s =? 0) = false) as -> by (apply Z.eqb_neq; lia).
  set (q := (2 * ms + s) / (2 * s)) in *.
  assert (2 * s * q <= 2 * ms + s < 2 * s * q + 2 * s) as Hq.
  { unfold q. pose proof (Z.div_mod (2 * ms + s) (2 * s)).
    pose proof (Z.mod_pos_bound (2 * ms + s) (2 * s)). lia. }
  assert (0 <= q <= 2 ^ 52) as Hq0 by nia.
  rewrite (Z.min_r _ q) by lia.
  assert ((t - (tw_updated w + Z.max 0 (q - 1) * tw_size w)) / 1000000 = ms - Z.max 0 (q - 1) * s) as ->.
  { replace (t - (tw_updated w + Z.max 0 (q - 1) * tw_size w))
      with (e + - (Z.max 0 (q - 1) * s) * 1000000) by lia.
    rewrite Z.div_add by lia. fold ms. lia. }
  rewrite Hs. destruct (Z.max_spec 0 (q - 1)) as [[? ->]|[? ->]]; nia.
Qed.

(** Reading a window a second time at the same instant changes nothing. *)
Lemma advance_again (w : TimeWindow V (Ewma V)) t :
  whole_ms (tw_size w) -> t <= tw_updated w + 2 ^ 51 * MILLI ->
  advance (advance w t) t = advance w t.
Proof.
  intros Hw Ht. destruct (Z.leb_spec t (tw_updated w)) as [Hle|Hlt].
  { unfold advance at 2 3. rewrite (proj2 (Z.leb_le _ _) Hle). unfold advance.
    by rewrite (proj2 (Z.leb_le _ _) Hle). }
  pose proof (missed_bounds w t Hw (conj Hlt Ht)) as [Hm1 Hm2].
  unfold advance at 1. case_match; [done|]. case_match eqn:Em; [done|]. exfalso. b2p. apply Em.
  unfold missed, saturating_sub. rewrite advance_size, advance_updated.
  rewrite (proj2 (Z.leb_gt _ _) Hlt). destruct Hw as [Hp Hd]. unfold cycles.
  unfold MILLI in *. set (s := tw_size w / 1000000) in *.
  assert (0 < s) as Hs by (unfold s; dlia). rewrite (proj2 (Z.eqb_neq s 0)) by lia.
  set (ms := (t - _) / 1000000) in *.
  assert ((2 * ms + s) / (2 * s) < 2) by (apply Z.div_lt_upper_bound; lia). lia.
Qed.

Lemma advance_not_after (w : TimeWindow V (Ewma V)) t :
  whole_ms (tw_size w) -> tw_updated w <= t <= tw_updated w + 2 ^ 51 * MILLI ->
  tw_updated w <= tw_updated (advance w t) <= t.
Proof.
  intros Hw Ht. rewrite advance_updated. case_match; [lia|]. b2p.
  destruct (missed_bounds w t Hw) as [Hm _]; [lia|]. destruct Hw as [Hp _].
  assert (0 <= missed w t) by (unfold missed, saturating_sub; lia). nia.
Qed.

(** ** Runs of a window *)

Inductive WindowOp : Type :=
| WPush (value : V) (time : Z)
| WAverage (time : Z).

Definition op_time (op : WindowOp) : Z := match op with WPush _ t | WAverage t => t end.
Definition op_values (op : WindowOp) : list V := match op with WPush v _ => [v] | WAverage _ => [] end.

Definition run_window_op (w : TimeWindow V (Ewma V)) (op : WindowOp) : TimeWindow V (Ewma V) :=
  match op with
  | WPush v t => TimeWindow_push w v t
  | WAverage t => (TimeWindow_average w t).2
  end.

(** The operations come in the order of their times, from [t0] to [t1]. *)
Fixpoint in_order (t0 : Z) (ops : list WindowOp) (t1 : Z) : Prop :=
  match ops with
  | [] => t0 <= t1
  | op :: ops => t0 <= op_time op /\ in_order (op_time op) ops t1
  end.

Lemma in_order_le t0 ops t1 : in_order t0 ops t1 -> t0 <= t1.
Proof. revert t0. induction ops as [|op ops IH]; intros t0; simpl; [done|]. intros [? ?%IH]. lia. Qed.

Lemma run_op_counts alpha samples pushed w op :
  counts alpha samples pushed w ->
  exists samples', counts alpha samples' (pushed ++ op_values op) (run_window_op w op).
Proof.
  intros Hc. destruct op as [v t|t]; simpl.
  - unfold TimeWindow_push. case_match; [eexists; by apply counts_acc|].
    destruct (counts_advance _ _ _ _ t Hc) as [s' Hs']. eexists. by apply counts_flush.
  - rewrite app_nil_r. by eapply counts_advance.
Qed.

Lemma run_op_time (w : TimeWindow V (Ewma V)) op t0 :
  whole_ms (tw_size w) -> tw_updated w <= t0 <= op_time op -> op_time op <= tw_updated w + 2 ^ 51 * MILLI ->
  tw_size (run_window_op w op) = tw_size w /\
  tw_updated w <= tw_updated (run_window_op w op) <= op_time op.
Proof.
  intros Hw Ht Hb. destruct op as [v t|t]; simpl in *.
  - unfold TimeWindow_push. case_match; simpl; [lia|]. rewrite advance_size. lia.
  - rewrite advance_size. split; [done|]. apply advance_not_after; [done|lia].
Qed.

Lemma run_counts alpha ops : forall samples pushed w t0 t1,
  whole_ms (tw_size w) -> tw_updated w <= t0 -> in_order t0 ops t1 ->
  t1 <= tw_updated w + 2 ^ 51 * MILLI -> counts alpha samples pushed w ->
  let w' := foldl run_window_op w ops in
  tw_size w' = tw_size w /\ tw_updated w <= tw_updated w' <= t1 /\
  exists samples', counts alpha samples' (pushed ++ concat (map op_values ops)) w'.
Proof.
  induction ops as [|op ops IH]; intros samples pushed w t0 t1 Hw Hu Ho Hb Hc.
  { simpl in *. rewrite app_nil_r. split_and!; [done|lia..|by eauto]. }
  destruct Ho as [Ht Ho]. pose proof (in_order_le _ _ _ Ho).
  destruct (run_op_time w op t0 Hw) as [Hsz Hup]; [lia..|].
  destruct (run_op_counts _ _ _ _ op Hc) as [s1 Hc1].
  destruct (IH s1 (pushed ++ op_values op) (run_window_op w op) (op_time op) t1)
    as (Hs & Hup' & s2 & Hc2); try done; [by rewrite Hsz|lia..|].
  simpl. rewrite app_assoc. split_and!; [congruence|lia..|by eauto].
Qed.

End Reference.

(** ** Sums of metrics *)

Section Sums.
Context {V : Type} `{NumLaws V}.
Add Ring num_ring_sums : num_ring.

Definition counted (w : TimeWindow V (Ewma V)) : V := add (tw_total w) (tw_acc w).

Lemma counted_push_value (w : TimeWindow V (Ewma V)) v t :
  counted (push_value w v t) = add (counted w) v.
Proof. unfold counted. simpl. ring. Qed.

Lemma advance_counted (w : TimeWindow V (Ewma V)) t : counted (advance w t) = counted w.
Proof.
  unfold advance. repeat (case_match; [done|]).
  set (w1 := if negb _ then _ else w).
  assert (counted w1 = counted w) as <-.
  { unfold w1. case_match; [|done]. rewrite counted_push_value. unfold counted. simpl. ring. }
  induction (Z.to_nat _) as [|n IH]; [done|]. simpl. rewrite counted_push_value, IH. ring.
Qed.

(** The sum of two metrics has counted what the two have. *)
Theorem metrics_add_counts (a b : Metrics V) :
  counted (mt_short (Metrics_add a b)) = add (counted (mt_short a)) (counted (mt_short b)) /\
  counted (mt_mid (Metrics_add a b)) = add (counted (mt_mid a)) (counted (mt_mid b)) /\
  counted (mt_long (Metrics_add a b)) = add (counted (mt_long a)) (counted (mt_long b)).
Proof.
  assert (forall x y : TimeWindow V (Ewma V),
    counted (TimeWindow_add Ewma_add x y) = add (counted x) (counted y)) as Hadd.
  { intros x y. rewrite <- (advance_counted x (Z.max (tw_updated x) (tw_updated y))).
    rewrite <- (advance_counted y (Z.max (tw_updated x) (tw_updated y))).
    unfold counted. simpl. ring. }
  split_and!; apply Hadd.
Qed.
End Sums.

(** ** Rational numbers *)

#[export] Instance Qc_num : Num Qc := {
  zero := 0%Qc; one := 1%Qc; add := Qcplus; sub := Qcminus; mul := Qcmult;
  half x := Qcdiv x (1 + 1)%Qc; lt x y := negb (Qle_bool y x); eqb := Qc_eq_bool }.

#[export] Instance Qc_num_laws : NumLaws Qc.
Proof.
  split.
  - split; simpl; intros; ring.
  - intros x y. split; [apply Qc_eq_bool_correct|]. intros ->. simpl.
    unfold Qc_eq_bool. destruct (Qcanon.Qc_eq_dec y y) as [_|Hn]; [reflexivity|by destruct Hn].
Qed.

Section Witness.

Definition example_alpha : Qc := Q2Qc (1 # 5).

Definition example_window : TimeWindow Qc (Ewma Qc) :=
  {| tw_size := SAMPLE_FREQ; tw_updated := 9 * SAMPLE_FREQ; tw_acc := zero; tw_total := zero;
     tw_average := {| ew_value := None; ew_alpha := example_alpha;
                      ew_one_min_alpha := sub one example_alpha |} |}.

(** Two values in the first second, one in the fourth, and a reading. *)
Definition example_ops : list (WindowOp (V := Qc)) :=
  [WPush (Q2Qc (10 # 1)) (10 * SAMPLE_FREQ); WPush (Q2Qc (20 # 1)) (10 * SAMPLE_FREQ + 5);
   WPush (Q2Qc (30 # 1)) (14 * SAMPLE_FREQ); WAverage (15 * SAMPLE_FREQ)].

End Witness.
