(* ===== verification/StackSocket.v ===== *)
(** [crates/stack/src/socket.rs] and [connection.rs]: the descriptions of sockets
    and connections of the virtual network stack, and the sizes of their buffers.

    Addresses and endpoints are those of the smoltcp library, as data. *)

From S2P Require Import Prelude Ports.

(** [smoltcp::wire::IpAddress] by its bytes, and [IpEndpoint]. *)
Inductive IpAddress : Type :=
| AddrV4 (bytes : list Z)
| AddrV6 (bytes : list Z).

Record IpEndpoint : Type := { ie_addr : IpAddress; ie_port : Z }.

(** [smoltcp::socket::icmp::Endpoint]. *)
Inductive IcmpEndpoint : Type :=
| IcmpUnspecified
| IcmpUdp (addr : option IpAddress) (port : Z)
| IcmpIdent (ident : Z).

(** Socket endpoint kind. *)
Inductive SocketEndpoint : Type :=
| EpIp (e : IpEndpoint)
| EpIcmp (e : IcmpEndpoint)
| EpOther.

#[export] Instance IpAddress_eq_dec : EqDecision IpAddress.
Proof. solve_decision. Defined.

#[export] Instance IpEndpoint_eq_dec : EqDecision IpEndpoint.
Proof. solve_decision. Defined.

#[export] Instance IcmpEndpoint_eq_dec : EqDecision IcmpEndpoint.
Proof. solve_decision. Defined.

#[export] Instance SocketEndpoint_eq_dec : EqDecision SocketEndpoint.
Proof. solve_decision. Defined.

#[export] Program Instance IpAddress_countable : Countable IpAddress :=
  inj_countable
    (fun a => match a with AddrV4 b => inl b | AddrV6 b => inr b end)
    (fun x => Some match x with inl b => AddrV4 b | inr b => AddrV6 b end) _.
Next Obligation. by intros []. Qed.

#[export] Program Instance IpEndpoint_countable : Countable IpEndpoint :=
  inj_countable (fun e => (ie_addr e, ie_port e))
    (fun x => Some {| ie_addr := x.1; ie_port := x.2 |}) _.
Next Obligation. by intros []. Qed.

(** Socket quintuplet. *)
Record SocketDesc : Type := {
  sdc_protocol : Protocol;
  sdc_local : SocketEndpoint;
  sdc_remote : SocketEndpoint }.

#[export] Instance SocketDesc_eq_dec : EqDecision SocketDesc.
Proof. solve_decision. Defined.

(** [smoltcp::socket::tcp::State]. *)
Inductive TcpSocketState : Type :=
| StClosed | StListen | StSynSent | StSynReceived | StEstablished | StFinWait1 | StFinWait2
| StCloseWait | StClosing | StLastAck | StTimeWait.

#[export] Instance TcpSocketState_eq_dec : EqDecision TcpSocketState.
Proof. solve_decision. Defined.

(** [GetSocketError] of [patch_smoltcp.rs]. *)
Inductive GetSocketError : Type := SocketNotFound | SocketWrongType.

(** [Error], as far as sockets and packets raise it. *)
Inductive StackError : Type :=
| PacketMalformed (msg : string)
| ProtocolNotSupported
| EndpointInvalid (e : SocketEndpoint)
| ConnectionTimeout
| ConnectionError
| NetEmpty
| Cancelled
| SocketClosed (state : TcpSocketState)
| InvalidSocket (handle : Z) (source : GetSocketError)
| StackOther (msg : string).

Definition ip_endpoint (e : SocketEndpoint) : result IpEndpoint StackError :=
  match e with
  | EpIp endpoint => Ok endpoint
  | other => Err (EndpointInvalid other)
  end.

(** ** Connections *)

(** [ConnectionMeta]: a socket whose ends are both IP endpoints. *)
Record ConnectionMeta : Type := {
  cm_protocol : Protocol;
  cm_local : IpEndpoint;
  cm_remote : IpEndpoint }.

#[export] Instance ConnectionMeta_eq_dec : EqDecision ConnectionMeta.
Proof. solve_decision. Defined.

#[export] Program Instance ConnectionMeta_countable : Countable ConnectionMeta :=
  inj_countable (fun m => (cm_protocol m, cm_local m, cm_remote m))
    (fun x => Some {| cm_protocol := x.1.1; cm_local := x.1.2; cm_remote := x.2 |}) _.
Next Obligation. by intros []. Qed.

(** A socket handle is an index into the socket set of smoltcp. *)
Abbreviation SocketHandle := Z (only parsing).

(** [Connection] of [connection.rs]. *)
Record Connection : Type := { cn_handle : SocketHandle; cn_meta : ConnectionMeta }.

Definition unspecified_endpoint : IpEndpoint := {| ie_addr := AddrV4 [0; 0; 0; 0]; ie_port := 0 |}.

Definition ConnectionMeta_unspecified (protocol : Protocol) : ConnectionMeta :=
  {| cm_protocol := protocol; cm_local := unspecified_endpoint; cm_remote := unspecified_endpoint |}.

Definition SocketDesc_from (c : ConnectionMeta) : SocketDesc :=
  {| sdc_protocol := cm_protocol c; sdc_local := EpIp (cm_local c); sdc_remote := EpIp (cm_remote c) |}.

Definition ConnectionMeta_try_from (desc : SocketDesc) : result ConnectionMeta StackError :=
  let? local := ip_endpoint (sdc_local desc) in
  let? remote := ip_endpoint (sdc_remote desc) in
  Ok {| cm_protocol := sdc_protocol desc; cm_local := local; cm_remote := remote |}.

(** [SocketEndpoint::is_specified], over the tests of smoltcp for a listening
    endpoint made from an IP endpoint and for an ICMP endpoint. *)
Definition SocketEndpoint_is_specified
  (listen_is_specified : IpEndpoint -> bool) (icmp_is_specified : IcmpEndpoint -> bool)
  (e : SocketEndpoint) : bool :=
  match e with
  | EpIp ip => listen_is_specified ip
  | EpIcmp icmp => icmp_is_specified icmp
  | EpOther => false
  end.

(** ** Buffer sizes *)

Record Memory : Type := { mem_min : Z; mem_default : Z; mem_max : Z }.

Definition Memory_new (min default max : Z) : result Memory StackError :=
  if (default <? min) || (max <? default) then Err (StackOther "Invalid memory bounds")
  else Ok {| mem_min := min; mem_default := default; mem_max := max |}.

Definition Memory_set_min (m : Memory) (min : Z) : result Memory StackError :=
  if mem_default m <? min then Err (StackOther "Invalid min memory bound")
  else Ok {| mem_min := min; mem_default := mem_default m; mem_max := mem_max m |}.

Definition Memory_set_default (m : Memory) (default : Z) : result Memory StackError :=
  if (default <? mem_min m) || (mem_max m <? default)
  then Err (StackOther "Invalid default memory size")
  else Ok {| mem_min := mem_min m; mem_default := default; mem_max := mem_max m |}.

Definition Memory_set_max (m : Memory) (max : Z) : result Memory StackError :=
  if max <? mem_default m then Err (StackOther "Invalid max memory bound")
  else Ok {| mem_min := mem_min m; mem_default := mem_default m; mem_max := max |}.

(** [expect]: an error is a panic. *)
Definition expect {A E} (r : result A E) : outcome A :=
  match r with Ok a => Ret a | Err _ => Panic end.

Definition default_tcp_rx : outcome Memory := expect (Memory_new (4 * 1024) (128 * 1024) (4 * 1024 * 1024)).
Definition default_tcp_tx : outcome Memory := expect (Memory_new (4 * 1024) (16 * 1024) (128 * 1024)).
Definition default_udp_rx : outcome Memory := expect (Memory_new (10 * 1024) (128 * 1024) (128 * 1024)).
Definition default_udp_tx : outcome Memory := expect (Memory_new (10 * 1024) (128 * 1024) (128 * 1024)).
Definition default_raw_rx : outcome Memory := expect (Memory_new (4 * 1024) (128 * 1024) (128 * 1024)).
Definition default_raw_tx : outcome Memory := expect (Memory_new (4 * 1024) (16 * 1024) (16 * 1024)).

(** A description made from a connection is a connection again. *)
Lemma ConnectionMeta_roundtrip c : ConnectionMeta_try_from (SocketDesc_from c) = Ok c.
Proof. by destruct c. Qed.

(** The calls of the setters; a call that fails leaves the sizes as they were. *)
Inductive MemoryCall : Type :=
| SetMin (n : Z)
| SetDefault (n : Z)
| SetMax (n : Z).

Definition memory_call (c : MemoryCall) (m : Memory) : result Memory StackError :=
  match c with
  | SetMin n => Memory_set_min m n
  | SetDefault n => Memory_set_default m n
  | SetMax n => Memory_set_max m n
  end.

Definition memory_calls (m : Memory) (cs : list MemoryCall) : Memory :=
  fold_left (fun m c => match memory_call c m with Ok m' => m' | Err _ => m end) cs m.

(** The sizes are ordered. *)
Definition memory_ok (m : Memory) : Prop := mem_min m <= mem_default m <= mem_max m.

(** The field a call asks for. *)
Definition requested (c : MemoryCall) (m : Memory) : Memory :=
  match c with
  | SetMin n => {| mem_min := n; mem_default := mem_default m; mem_max := mem_max m |}
  | SetDefault n => {| mem_min := mem_min m; mem_default := n; mem_max := mem_max m |}
  | SetMax n => {| mem_min := mem_min m; mem_default := mem_default m; mem_max := n |}
  end.

Lemma memory_call_exact c m : memory_ok m ->
  forall m', memory_call c m = Ok m' <-> m' = requested c m /\ memory_ok (requested c m).
Proof.
  unfold memory_ok. intros Hm m'.
  destruct c; cbn [memory_call requested mem_min mem_default mem_max];
    unfold Memory_set_min, Memory_set_default, Memory_set_max;
    case_match_goal; b2p; (split; [intros [=]; subst; split_and!; (done || simpl; lia) | intros [-> ?]; simpl in *; (done || lia)]).
Qed.

(** The buffer sizes of a socket stay ordered.  A size that is constructed is
    ordered, so are the six defaults, none of which panics; a setter accepts
    exactly the values that keep the order, and sets just them; and the order
    holds after any sequence of calls, whichever of them failed. *)
Theorem memory_bounds_kept :
  (forall min default max m, Memory_new min default max = Ok m <->
     m = {| mem_min := min; mem_default := default; mem_max := max |} /\ memory_ok m) /\
  Forall (fun d => exists m, d = Ret m /\ memory_ok m)
    [default_tcp_rx; default_tcp_tx; default_udp_rx; default_udp_tx; default_raw_rx; default_raw_tx] /\
  (forall c m, memory_ok m -> forall m',
     memory_call c m = Ok m' <-> m' = requested c m /\ memory_ok (requested c m)) /\
  (forall cs m, memory_ok m -> memory_ok (memory_calls m cs)).
Proof.
  split_and!.
  - intros mn d mx m. unfold Memory_new, memory_ok. case_match_goal; b2p.
    + split; [done|]. intros [-> ?]; simpl in *; lia.
    + split; [intros [= <-]; split; [done|simpl; lia]|by intros [-> _]].
  - repeat constructor; eexists; (split; [vm_compute; reflexivity|by split]).
  - exact memory_call_exact.
  - induction cs as [|c cs IH]; intros m Hm; simpl; [done|]. apply IH.
    destruct (memory_call c m) eqn:E; [|done]. by apply memory_call_exact in E as [-> ?].
Qed.
