(* ===== verification/StackPacket.v ===== *)
(** [crates/stack/src/packet.rs]: the parsers of the frames and packets that leave
    the virtual network stack, and [EgressEvent] of [network.rs], which finds out
    from them where a packet goes.

    A packet is checked by its [peek] function and then taken apart by its
    [packet] function, which slices without checks; a slice out of range is a
    [Panic]. *)

From S2P Require Import Prelude Ports StackSocket.

(** ** Fields *)

(** [Field]: a range of bytes; [BitField]: a range of bits within a byte, counted
    from the most significant one. *)
Record Field : Type := { f_start : Z; f_end : Z }.
Record BitField : Type := { bf_byte : Z; bf_start : Z; bf_end : Z }.

Definition get_slice (data : list Z) (f : Field) : outcome (list Z) := slice (f_start f) (f_end f) data.

(** [Range::len]. *)
Definition field_len (f : Field) : Z := Z.max 0 (f_end f - f_start f).
Definition bit_len (f : BitField) : Z := Z.max 0 (bf_end f - bf_start f).

(** The shifts of a [u8]: by 8 or more they panic. *)
Definition shl8 (x n : Z) : outcome Z := if (0 <=? n) && (n <? 8) then Ret (wrap 8 (Z.shiftl x n)) else Panic.
Definition shr8 (x n : Z) : outcome Z := if (0 <=? n) && (n <? 8) then Ret (Z.shiftr x n) else Panic.

Definition get_bit_field (data : list Z) (f : BitField) : outcome Z :=
  let! b := index (bf_byte f) data in
  let! x := shl8 b (bf_start f) in
  shr8 x (8 - bit_len f).

Definition set_bit_field (data : list Z) (f : BitField) (value : Z) : outcome (list Z) :=
  let! m := shl8 255 (8 - bit_len f) in
  let! mask := shr8 m (bf_start f) in
  let! b := index (bf_byte f) data in
  let! v := shl8 value (8 - bit_len f) in
  let! v := shr8 v (bf_start f) in
  Ret (<[Z.to_nat (bf_byte f) := Z.lor (Z.land b (Z.lxor mask 255)) v]> data).

Definition read_bit_field (data : list Z) (f : BitField) : outcome (option Z) :=
  if (bf_byte f <=? zlen data) && (bit_len f <=? 8)
  then let! v := get_bit_field data f in Ret (Some v)
  else Ret None.

Definition write_bit_field (data : list Z) (f : BitField) (value : Z) : outcome (bool * list Z) :=
  if (bf_byte f <=? zlen data) && (bit_len f <=? 8)
  then let! data := set_bit_field data f value in Ret (true, data)
  else Ret (false, data).

(** [copy_from_slice] into a field, which panics when the lengths differ. *)
Definition copy_to (data : list Z) (f : Field) (value : list Z) : outcome (list Z) :=
  let! old := get_slice data f in
  if zlen old =? zlen value
  then Ret (ztake (f_start f) data ++ value ++ zdrop (f_end f) data)
  else Panic.

Definition write_field (data : list Z) (f : Field) (value : list Z) : outcome (bool * list Z) :=
  if (zlen value =? field_len f) && (f_end f <=? zlen data)
  then let! data := copy_to data f value in Ret (true, data)
  else Ret (false, data).

(** [ntoh_u16], [ntoh_u32] and [ntoh_u64] for [n] bytes. *)
Definition ntoh (n : Z) (data : list Z) : option Z :=
  if zlen data =? n then Some (be_value data) else None.

Definition unwrap {A} (o : option A) : outcome A :=
  match o with Some a => Ret a | None => Panic end.

Definition ip_hton (ip : IpAddress) : list Z :=
  match ip with AddrV4 b => b | AddrV6 b => b end.

Definition ip_ntoh (data : list Z) : option IpAddress :=
  if zlen data =? 4 then Some (AddrV4 data)
  else if zlen data =? 16 then Some (AddrV6 data)
  else None.

(** ** ICMPv6 *)

Inductive IcmpV6Message : Type :=
| NdpRouterSolicitation
| NdpRouterAdvertisement
| NdpNeighborSolicitation (dst_address : list Z)
| NdpNeighborAdvertisement
| NdpRedirect
| IcmpV6Other.

Record IcmpV6Packet : Type := { icmp_type : Z; icmp_message : IcmpV6Message }.

Definition IcmpV6_MIN_HEADER_SIZE : Z := 4.

Definition NdpNeighborSolicitation_TARGET_ADDRESS : Field := {| f_start := 4; f_end := 20 |}.

Definition IcmpV6_dst_address (p : IcmpV6Packet) : option (list Z) :=
  match icmp_message p with
  | NdpNeighborSolicitation dst_address => Some dst_address
  | _ => None
  end.

Definition IcmpV6_peek (data : list Z) : outcome (result unit StackError) :=
  if zlen data <? IcmpV6_MIN_HEADER_SIZE then Ret (Err (PacketMalformed "ICMPv6: packet too short"))
  else
    let! type_ := index 0 data in
    if type_ =? 135 then
      if zlen data <? IcmpV6_MIN_HEADER_SIZE + 16
      then Ret (Err (PacketMalformed "ICMPv6: payload too short"))
      else Ret (Ok tt)
    else
      if zlen data <? IcmpV6_MIN_HEADER_SIZE
      then Ret (Err (PacketMalformed "ICMPv6: payload too short"))
      else Ret (Ok tt).

Definition IcmpV6_packet (data : list Z) : outcome IcmpV6Packet :=
  let! type_ := index 0 data in
  let! payload := slice_from 4 data in
  let! message :=
    if type_ =? 133 then Ret NdpRouterSolicitation
    else if type_ =? 134 then Ret NdpRouterAdvertisement
    else if type_ =? 135 then
      let! dst := get_slice payload NdpNeighborSolicitation_TARGET_ADDRESS in
      Ret (NdpNeighborSolicitation dst)
    else if type_ =? 136 then Ret NdpNeighborAdvertisement
    else if type_ =? 137 then Ret NdpRedirect
    else Ret IcmpV6Other in
  Ret {| icmp_type := type_; icmp_message := message |}.

(** ** IPv4 *)

Record IpV4Packet : Type := {
  v4_src_address : list Z;
  v4_dst_address : list Z;
  v4_protocol : Z;
  v4_payload : list Z;
  v4_payload_off : Z }.

Definition IpV4_MIN_HEADER_LEN : Z := 20.
Definition IpV4_IHL : BitField := {| bf_byte := 0; bf_start := 4; bf_end := 8 |}.
Definition IpV4_TOTAL_LEN : Field := {| f_start := 2; f_end := 4 |}.
Definition IpV4_SRC_ADDR : Field := {| f_start := 12; f_end := 16 |}.
Definition IpV4_DST_ADDR : Field := {| f_start := 16; f_end := 20 |}.

Definition IpV4_read_header_len (data : list Z) : outcome Z :=
  let! ihl := get_bit_field data IpV4_IHL in
  Ret (if 5 <=? ihl then 4 * ihl else IpV4_MIN_HEADER_LEN).

Definition IpV4_peek (data : list Z) : outcome (result unit StackError) :=
  if zlen data <? IpV4_MIN_HEADER_LEN then Ret (Err (PacketMalformed "IPv4: header too short"))
  else
    let! f := get_slice data IpV4_TOTAL_LEN in
    let! len := unwrap (ntoh 2 f) in
    let! payload_off := IpV4_read_header_len data in
    if len <? payload_off then Ret (Err (PacketMalformed "IPv4: payload too short"))
    else Ret (Ok tt).

Definition IpV4_packet (data : list Z) : outcome IpV4Packet :=
  let! payload_off := IpV4_read_header_len data in
  let! src := get_slice data IpV4_SRC_ADDR in
  let! dst := get_slice data IpV4_DST_ADDR in
  let! protocol := index 9 data in
  let! payload := slice_from payload_off data in
  Ret {| v4_src_address := src; v4_dst_address := dst; v4_protocol := protocol;
         v4_payload := payload; v4_payload_off := payload_off |}.

(** ** IPv6 *)

Inductive IpV6NextHeader : Type :=
| NextIcmpV6 (p : IcmpV6Packet)
| NextOther.

Record IpV6Packet : Type := {
  v6_src_address : list Z;
  v6_dst_address : list Z;
  v6_protocol : Z;
  v6_payload : list Z;
  v6_next_header : IpV6NextHeader }.

Definition IpV6_MIN_HEADER_LEN : Z := 40.
Definition IpV6_PAYLOAD_LEN : Field := {| f_start := 4; f_end := 6 |}.
Definition IpV6_SRC_ADDR : Field := {| f_start := 8; f_end := 24 |}.
Definition IpV6_DST_ADDR : Field := {| f_start := 24; f_end := 40 |}.

Definition inferred_dst_address (p : IpV6Packet) : list Z :=
  match v6_next_header p with
  | NextIcmpV6 icmp => default (v6_dst_address p) (IcmpV6_dst_address icmp)
  | NextOther => v6_dst_address p
  end.

Definition IpV6_peek (data : list Z) : outcome (result unit StackError) :=
  if zlen data <? IpV6_MIN_HEADER_LEN then Ret (Err (PacketMalformed "IPv6: header too short"))
  else
    let! f := get_slice data IpV6_PAYLOAD_LEN in
    let! n := unwrap (ntoh 2 f) in
    let len := IpV6_MIN_HEADER_LEN + n in
    if zlen data <? len then Ret (Err (PacketMalformed "IPv6: payload too short"))
    else if len =? IpV6_MIN_HEADER_LEN then Ret (Err ProtocolNotSupported)
    else
      let! protocol := index 6 data in
      if protocol =? 58 then
        let! payload := slice_from 40 data in
        let* _ := IcmpV6_peek payload in
        Ret (Ok tt)
      else Ret (Ok tt).

Definition IpV6_packet (data : list Z) : outcome IpV6Packet :=
  let! payload := slice_from 40 data in
  let! protocol := index 6 data in
  let! next_header :=
    if protocol =? 58 then let! p := IcmpV6_packet payload in Ret (NextIcmpV6 p)
    else Ret NextOther in
  let! src := get_slice data IpV6_SRC_ADDR in
  let! dst := get_slice data IpV6_DST_ADDR in
  Ret {| v6_src_address := src; v6_dst_address := dst; v6_protocol := protocol;
         v6_payload := payload; v6_next_header := next_header |}.

(** ** TCP and UDP *)

Record TcpPacket : Type := {
  tcp_src_port : list Z;
  tcp_dst_port : list Z;
  tcp_payload_off : Z;
  tcp_payload_size : Z }.

Definition Tcp_SRC_PORT : Field := {| f_start := 0; f_end := 2 |}.
Definition Tcp_DST_PORT : Field := {| f_start := 2; f_end := 4 |}.
Definition Tcp_DATA_OFF : BitField := {| bf_byte := 12; bf_start := 0; bf_end := 4 |}.

Definition Tcp_peek (data : list Z) : outcome (result unit StackError) :=
  if zlen data <? 20 then Ret (Err (PacketMalformed "TCP: packet too short"))
  else
    let! payload_off := get_bit_field data Tcp_DATA_OFF in
    if zlen data <? payload_off then Ret (Err (PacketMalformed "TCP: packet too short"))
    else Ret (Ok tt).

Definition Tcp_packet (data : list Z) : outcome TcpPacket :=
  let! payload_off := get_bit_field data Tcp_DATA_OFF in
  let! src := get_slice data Tcp_SRC_PORT in
  let! dst := get_slice data Tcp_DST_PORT in
  Ret {| tcp_src_port := src; tcp_dst_port := dst; tcp_payload_off := payload_off;
         tcp_payload_size := saturating_sub (zlen data) payload_off |}.

Record UdpPacket : Type := {
  udp_src_port : list Z;
  udp_dst_port : list Z;
  udp_payload_size : Z }.

Definition Udp_LEN : Field := {| f_start := 4; f_end := 6 |}.

Definition Udp_peek (data : list Z) : outcome (result unit StackError) :=
  if zlen data <? 8 then Ret (Err (PacketMalformed "UDP: packet too short"))
  else
    let! f := get_slice data Udp_LEN in
    let! len := unwrap (ntoh 2 f) in
    if zlen data <? len then Ret (Err (PacketMalformed "UDP: packet too short"))
    else Ret (Ok tt).

Definition Udp_packet (data : list Z) : outcome UdpPacket :=
  let! src := get_slice data Tcp_SRC_PORT in
  let! dst := get_slice data Tcp_DST_PORT in
  Ret {| udp_src_port := src; udp_dst_port := dst;
         udp_payload_size := saturating_sub (zlen data) 8 |}.

(** ** IP packets *)

Inductive IpPacket : Type :=
| PacketV4 (ip : IpV4Packet)
| PacketV6 (ip : IpV6Packet).

Definition IpPacket_protocol (p : IpPacket) : Z :=
  match p with PacketV4 ip => v4_protocol ip | PacketV6 ip => v6_protocol ip end.

Definition IpPacket_src_address (p : IpPacket) : list Z :=
  match p with PacketV4 ip => v4_src_address ip | PacketV6 ip => v6_src_address ip end.

Definition IpPacket_dst_address (p : IpPacket) : list Z :=
  match p with PacketV4 ip => v4_dst_address ip | PacketV6 ip => inferred_dst_address ip end.

Definition IpPacket_payload (p : IpPacket) : list Z :=
  match p with PacketV4 ip => v4_payload ip | PacketV6 ip => v6_payload ip end.

Definition IpPacket_payload_off (p : IpPacket) : Z :=
  match p with PacketV4 ip => v4_payload_off ip | PacketV6 _ => 40 end.

Definition to_tcp (p : IpPacket) : outcome (option TcpPacket) :=
  if IpPacket_protocol p =? 6
  then let! t := Tcp_packet (IpPacket_payload p) in Ret (Some t)
  else Ret None.

Definition is_broadcast (p : IpPacket) : outcome bool :=
  match p with
  | PacketV4 ip =>
      let! a := slice 0 4 (v4_dst_address ip) in Ret (bool_decide (a = [255; 255; 255; 255]))
  | PacketV6 _ => Ret false
  end.

Definition is_multicast (p : IpPacket) : outcome bool :=
  match p with
  | PacketV4 ip => let! b := index 0 (v4_dst_address ip) in Ret (Z.land b 240 =? 224)
  | PacketV6 ip => let! b := index 0 (v6_dst_address ip) in Ret (b =? 255)
  end.

Definition IpPacket_peek (data : list Z) : outcome (result unit StackError) :=
  let! b := index 0 data in
  let version := Z.shiftr b 4 in
  if version =? 4 then IpV4_peek data
  else if version =? 6 then IpV6_peek data
  else Ret (Err (PacketMalformed "IP: invalid version")).

Definition IpPacket_packet (data : list Z) : outcome IpPacket :=
  let! b := index 0 data in
  if Z.shiftr b 4 =? 4 then let! ip := IpV4_packet data in Ret (PacketV4 ip)
  else let! ip := IpV6_packet data in Ret (PacketV6 ip).

(** ** ARP and Ethernet *)

Definition Arp_TPA : Field := {| f_start := 24; f_end := 28 |}.

Definition Arp_peek (data : list Z) : outcome (result unit StackError) :=
  if zlen data <? 28 then Ret (Err (PacketMalformed "ARP: packet too short")) else Ret (Ok tt).

(** [ArpPacket::get_field] and [ArpPacketMut::set_field]. *)
Definition Arp_get_field (inner : list Z) (f : Field) : outcome (list Z) := get_slice inner f.

Definition Arp_set_field (inner : list Z) (f : Field) (value : list Z) : outcome (list Z) :=
  let! value := slice 0 (f_end f) value in
  copy_to inner f value.

Inductive EtherType : Type := EtherIp | EtherArp.

Inductive EtherFrame : Type :=
| FrameIp (data : list Z)
| FrameArp (data : list Z).

Definition ETHERNET_HDR_LEN : Z := 14.
Definition ETHER_TYPE : Field := {| f_start := 12; f_end := 14 |}.

Definition Ether_peek_type (data : list Z) : outcome (result EtherType StackError) :=
  if zlen data <? ETHERNET_HDR_LEN then Ret (Err (PacketMalformed "Ethernet: frame too short"))
  else
    let! proto := get_slice data ETHER_TYPE in
    let! payload := slice_from ETHERNET_HDR_LEN data in
    if bool_decide (proto = [8; 0]) || bool_decide (proto = [134; 221]) then
      let* _ := IpPacket_peek payload in Ret (Ok EtherIp)
    else if bool_decide (proto = [8; 6]) then
      let* _ := Arp_peek payload in Ret (Ok EtherArp)
    else Ret (Err ProtocolNotSupported).

Definition Ether_peek_payload (data : list Z) : outcome (result (list Z) StackError) :=
  if zlen data <? ETHERNET_HDR_LEN then Ret (Err (PacketMalformed "Ethernet: frame too short"))
  else let! p := slice_from 14 data in Ret (Ok p).

(** [EtherFrame::try_from]. *)
Definition Ether_try_from (data : list Z) : outcome (result EtherFrame StackError) :=
  let* t := Ether_peek_type data in
  match t with
  | EtherIp => Ret (Ok (FrameIp data))
  | EtherArp => Ret (Ok (FrameArp data))
  end.

Definition Ether_bytes (f : EtherFrame) : list Z :=
  match f with FrameIp b => b | FrameArp b => b end.

Definition Ether_payload (f : EtherFrame) : outcome (list Z) := slice_from 14 (Ether_bytes f).

(** ** Egress events ([network.rs]) *)

Record EgressEvent : Type := {
  eg_remote : list Z;
  eg_payload : list Z;
  eg_desc : option (SocketDesc * Z) }.

(** The ports and the size of the data of a TCP or UDP packet. *)
Definition payload_ports (protocol : Protocol) (data : list Z) : outcome (option (Z * Z * Z)) :=
  match protocol with
  | Tcp =>
      let! ok := Tcp_peek data in
      match ok with
      | Err _ => Ret None
      | Ok _ =>
          let! tcp := Tcp_packet data in
          let! src := unwrap (ntoh 2 (tcp_src_port tcp)) in
          let! dst := unwrap (ntoh 2 (tcp_dst_port tcp)) in
          Ret (Some (src, dst, tcp_payload_size tcp))
      end
  | Udp =>
      let! ok := Udp_peek data in
      match ok with
      | Err _ => Ret None
      | Ok _ =>
          let! udp := Udp_packet data in
          let! src := unwrap (ntoh 2 (udp_src_port udp)) in
          let! dst := unwrap (ntoh 2 (udp_dst_port udp)) in
          Ret (Some (src, dst, udp_payload_size udp))
      end
  | _ => Ret None
  end.

Definition payload_desc (packet : IpPacket) : outcome (option (SocketDesc * Z)) :=
  match Protocol_try_from (IpPacket_protocol packet) with
  | Err _ => Ret None
  | Ok protocol =>
      let! ports := payload_ports protocol (IpPacket_payload packet) in
      match ports with
      | None => Ret None
      | Some (local_port, remote_port, size) =>
          Ret (local_ip ← ip_ntoh (IpPacket_src_address packet);
               remote_ip ← ip_ntoh (IpPacket_dst_address packet);
               Some ({| sdc_protocol := protocol;
                        sdc_local := EpIp {| ie_addr := local_ip; ie_port := local_port |};
                        sdc_remote := EpIp {| ie_addr := remote_ip; ie_port := remote_port |} |}, size))
      end
  end.

Definition from_ip_packet (data : list Z) : outcome (result EgressEvent StackError) :=
  let* _ := IpPacket_peek data in
  let! packet := IpPacket_packet data in
  let remote := IpPacket_dst_address packet in
  let! desc := payload_desc packet in
  Ret (Ok {| eg_remote := remote; eg_payload := data; eg_desc := desc |}).

Definition from_eth_frame (data : list Z) : outcome (result EgressEvent StackError) :=
  let* frame := Ether_try_from data in
  match frame with
  | FrameIp _ =>
      let! payload := Ether_payload frame in
      let* _ := IpPacket_peek payload in
      let! packet := IpPacket_packet payload in
      let remote := IpPacket_dst_address packet in
      let! desc := payload_desc packet in
      Ret (Ok {| eg_remote := remote; eg_payload := Ether_bytes frame; eg_desc := desc |})
  | FrameArp _ =>
      let! payload := Ether_payload frame in
      let! remote := Arp_get_field payload Arp_TPA in
      Ret (Ok {| eg_remote := remote; eg_payload := Ether_bytes frame; eg_desc := None |})
  end.

(** ** Reading fields *)

(** The byte at a position that is in range. *)
Definition byte_at (data : list Z) (i : Z) : Z := nth (Z.to_nat i) data 0.

Lemma index_byte data i : 0 <= i < zlen data -> index i data = Ret (byte_at data i).
Proof.
  intros Hi. destruct (index_ok i data Hi) as (x & -> & Hx). f_equal. unfold byte_at.
  by rewrite (nth_lookup_Some _ _ _ x Hx).
Qed.

Lemma byte_at_ok data i : bytes_ok data -> is_byte (byte_at data i).
Proof.
  intros Hok. unfold byte_at. destruct (le_lt_dec (length data) (Z.to_nat i)).
  - rewrite nth_overflow by done. done.
  - apply (proj1 (Forall_forall _ _) Hok). apply list_elem_of_In, nth_In. lia.
Qed.

Lemma get_bit_field_ok data f :
  0 <= bf_byte f < zlen data -> 0 <= bf_start f < 8 -> 1 <= bf_end f - bf_start f <= 8 ->
  get_bit_field data f =
    Ret (byte_at data (bf_byte f) * 2 ^ bf_start f mod 256 / 2 ^ (8 - (bf_end f - bf_start f))).
Proof.
  intros Hb Hs Hl. unfold get_bit_field. rewrite index_byte by done. cbn [outcome_bind].
  assert (bit_len f = bf_end f - bf_start f) as -> by (unfold bit_len; lia).
  unfold shl8, shr8. rewrite (proj2 (Z.leb_le 0 (bf_start f))), (proj2 (Z.ltb_lt _ 8)) by lia.
  cbn [andb outcome_bind]. rewrite (proj2 (Z.leb_le 0 _)), (proj2 (Z.ltb_lt _ 8)) by lia. cbn [andb].
  rewrite Z.shiftl_mul_pow2, Z.shiftr_div_pow2 by lia. done.
Qed.

Lemma get_slice_ok data f :
  0 <= f_start f <= f_end f -> f_end f <= zlen data ->
  get_slice data f = Ret (ztake (f_end f - f_start f) (zdrop (f_start f) data)).
Proof. intros. unfold get_slice. apply slice_ok. lia. Qed.

(** A 16-bit field in network order. *)
Definition u16_at (data : list Z) (i : Z) : Z := be_value (ztake 2 (zdrop i data)).

Lemma read_u16 data f :
  f_end f = f_start f + 2 -> 0 <= f_start f -> f_end f <= zlen data ->
  outcome_bind (get_slice data f) (fun b => unwrap (ntoh 2 b)) = Ret (u16_at data (f_start f)).
Proof.
  intros He Hs Hl. rewrite get_slice_ok by lia. cbn [outcome_bind]. unfold ntoh, u16_at.
  replace (f_end f - f_start f) with 2 by lia.
  rewrite zlen_ztake, zlen_zdrop by lia. by rewrite (proj2 (Z.eqb_eq _ _)) by lia.
Qed.

Lemma outcome_bind_assoc {A B C} (m : outcome A) (f : A -> outcome B) (g : B -> outcome C) :
  outcome_bind m (fun a => outcome_bind (f a) g) = outcome_bind (outcome_bind m f) g.
Proof. by destruct m. Qed.

(** The length of the header of an IPv4 packet with first byte [b]. *)
Definition header_len (b : Z) : Z := if 5 <=? b mod 16 then 4 * (b mod 16) else 20.

Lemma header_len_bounds b : 20 <= header_len b <= 60.
Proof. unfold header_len. destruct (Z.leb_spec 5 (b mod 16)); [|lia]. dlia. Qed.

Lemma read_header_len_ok data :
  bytes_ok data -> 0 < zlen data -> IpV4_read_header_len data = Ret (header_len (byte_at data 0)).
Proof.
  intros Hok Hl. unfold IpV4_read_header_len. rewrite get_bit_field_ok by (cbn; lia). cbn.
  change (2 ^ (8 - (8 - 4))) with 16. change (2 ^ 4) with 16.
  pose proof (byte_at_ok data 0 Hok) as Hb. unfold is_byte in Hb.
  replace (byte_at data 0 * 16 mod 256 / 16) with (byte_at data 0 mod 16) by dlia.
  done.
Qed.

(** ** When the parsers panic *)

Lemma Tcp_peek_ok data : bytes_ok data ->
  Tcp_peek data =
    if zlen data <? 20 then Ret (Err (PacketMalformed "TCP: packet too short")) else Ret (Ok tt).
Proof.
  intros Hok. unfold Tcp_peek. destruct (Z.ltb_spec (zlen data) 20); [done|].
  rewrite get_bit_field_ok by (cbn; lia). cbn. pose proof (byte_at_ok data 12 Hok) as Hb.
  change (2 ^ (8 - (4 - 0))) with 16. change (2 ^ 0) with 1.
  unfold is_byte in Hb. rewrite (proj2 (Z.ltb_ge _ _)) by dlia. done.
Qed.

Lemma Tcp_packet_ok data : bytes_ok data -> 20 <= zlen data ->
  Tcp_packet data =
    Ret {| tcp_src_port := ztake 2 data; tcp_dst_port := ztake 2 (zdrop 2 data);
           tcp_payload_off := byte_at data 12 / 16;
           tcp_payload_size := zlen data - byte_at data 12 / 16 |}.
Proof.
  intros Hok Hl. unfold Tcp_packet. rewrite get_bit_field_ok by (cbn; lia).
  rewrite !get_slice_ok by (cbn; lia). cbn. pose proof (byte_at_ok data 12 Hok) as Hb.
  change (2 ^ (8 - (4 - 0))) with 16. change (2 ^ 0) with 1.
  unfold is_byte in Hb. rewrite Z.mul_1_r, Z.mod_small by lia.
  unfold saturating_sub. rewrite Z.max_r by dlia. done.
Qed.

(** The source and destination port of a segment. *)
Lemma ports_of data : 4 <= zlen data ->
  ntoh 2 (ztake 2 data) = Some (u16_at data 0) /\
  ntoh 2 (ztake 2 (zdrop 2 data)) = Some (u16_at data 2).
Proof.
  intros Hl. unfold ntoh, u16_at. rewrite zdrop_0, !zlen_ztake, zlen_zdrop by lia.
  by rewrite !(proj2 (Z.eqb_eq _ _)) by lia.
Qed.

Lemma payload_ports_ok protocol data : bytes_ok data ->
  exists r, payload_ports protocol data = Ret r /\
    (protocol = Tcp -> 20 <= zlen data ->
       r = Some (u16_at data 0, u16_at data 2, zlen data - byte_at data 12 / 16)).
Proof.
  intros Hok. unfold payload_ports. destruct protocol; try by eexists.
  - rewrite Tcp_peek_ok by done. destruct (Z.ltb_spec (zlen data) 20).
    { eexists. split; [done|]. lia. }
    cbn [outcome_bind]. rewrite Tcp_packet_ok by done. cbn. destruct (ports_of data) as [-> ->]; [lia|].
    by eexists.
  - unfold Udp_peek. destruct (Z.ltb_spec (zlen data) 8); [by eexists|].
    rewrite outcome_bind_assoc, read_u16 by (cbn; lia). cbn.
    destruct (_ <? _); cbn; [by eexists|]. unfold Udp_packet.
    rewrite !get_slice_ok by (cbn; lia). cbn. destruct (ports_of data) as [Hs Hd]; [lia|].
    change (2 - 0) with 2. change (4 - 2) with 2. rewrite zdrop_0, Hs, Hd. by eexists.
Qed.

Lemma payload_desc_returns packet :
  bytes_ok (IpPacket_payload packet) -> exists d, payload_desc packet = Ret d.
Proof.
  intros Hok. unfold payload_desc. destruct (Protocol_try_from _) as [protocol|]; [|by eexists].
  destruct (payload_ports_ok protocol _ Hok) as (r & -> & _). cbn.
  destruct r as [[[? ?] ?]|]; by eexists.
Qed.

Lemma bytes_ok_drop n data : bytes_ok data -> bytes_ok (zdrop n data).
Proof. apply Forall_drop. Qed.

Lemma byte_at_zdrop data n i : 0 <= n -> 0 <= i -> byte_at (zdrop n data) i = byte_at data (n + i).
Proof.
  intros. unfold byte_at, zdrop. rewrite !nth_lookup, lookup_drop. do 2 f_equal. lia.
Qed.

Lemma IpV4_peek_ok data : bytes_ok data -> 20 <= zlen data ->
  IpV4_peek data =
    if u16_at data 2 <? header_len (byte_at data 0)
    then Ret (Err (PacketMalformed "IPv4: payload too short")) else Ret (Ok tt).
Proof.
  intros Hok Hl. unfold IpV4_peek, IpV4_MIN_HEADER_LEN. rewrite (proj2 (Z.ltb_ge _ _)) by done.
  rewrite outcome_bind_assoc, read_u16 by (cbn; lia). cbn [outcome_bind].
  by rewrite read_header_len_ok by (done || lia).
Qed.

Lemma IpV4_packet_ok data : bytes_ok data -> 20 <= zlen data ->
  IpV4_packet data =
    if header_len (byte_at data 0) <=? zlen data then
      Ret {| v4_src_address := ztake 4 (zdrop 12 data); v4_dst_address := ztake 4 (zdrop 16 data);
             v4_protocol := byte_at data 9; v4_payload := zdrop (header_len (byte_at data 0)) data;
             v4_payload_off := header_len (byte_at data 0) |}
    else Panic.
Proof.
  intros Hok Hl. unfold IpV4_packet. rewrite read_header_len_ok by (done || lia).
  rewrite !get_slice_ok by (cbn; lia). rewrite index_byte by lia. cbn [outcome_bind].
  pose proof (header_len_bounds (byte_at data 0)).
  destruct (Z.leb_spec (header_len (byte_at data 0)) (zlen data)).
  - by rewrite slice_from_ok by lia.
  - by rewrite slice_from_panic by lia.
Qed.

Lemma IcmpV6_peek_ok data : bytes_ok data -> 4 <= zlen data ->
  IcmpV6_peek data =
    if (byte_at data 0 =? 135) && (zlen data <? 20)
    then Ret (Err (PacketMalformed "ICMPv6: payload too short")) else Ret (Ok tt).
Proof.
  intros Hok Hl. unfold IcmpV6_peek, IcmpV6_MIN_HEADER_SIZE. rewrite (proj2 (Z.ltb_ge _ _)) by done.
  rewrite index_byte by lia. cbn [outcome_bind]. change (4 + 16) with 20.
  destruct (byte_at data 0 =? 135); [done|]. by rewrite andb_false_l.
Qed.

Lemma IcmpV6_packet_ok data : bytes_ok data -> 4 <= zlen data ->
  (IcmpV6_packet data = Panic <-> byte_at data 0 = 135 /\ zlen data < 24) /\
  (byte_at data 0 <> 135 ->
   exists p, IcmpV6_packet data = Ret p /\ IcmpV6_dst_address p = None).
Proof.
  intros Hok Hl. unfold IcmpV6_packet. rewrite index_byte by lia. rewrite slice_from_ok by lia.
  cbn [outcome_bind].
  destruct (Z.eqb_spec (byte_at data 0) 133); [split; [split; [done|lia]|by eexists]|].
  destruct (Z.eqb_spec (byte_at data 0) 134); [split; [split; [done|lia]|by eexists]|].
  destruct (Z.eqb_spec (byte_at data 0) 135) as [E|].
  - split; [|done]. unfold get_slice, slice. cbn [f_start f_end NdpNeighborSolicitation_TARGET_ADDRESS].
    rewrite zlen_zdrop by lia. change (4 <=? 20) with true. cbn [andb].
    destruct (Z.leb_spec 20 (Z.max 0 (zlen data - 4))); cbn; split; try done; lia.
  - split; [split; [|lia]|]; repeat (destruct (_ =? _); cbn); try done; by eexists.
Qed.

(** An IPv6 packet that is accepted, but for its ICMPv6 part. *)
Definition v6_accepted (data : list Z) : bool :=
  (40 <=? zlen data) && (40 + u16_at data 4 <=? zlen data) && negb (u16_at data 4 =? 0).

Lemma IpV6_peek_ok data : bytes_ok data ->
  exists r, IpV6_peek data = Ret r /\
    (r = Ok tt <-> v6_accepted data = true /\
       (byte_at data 6 = 58 -> 44 <= zlen data /\ (byte_at data 40 = 135 -> 60 <= zlen data))).
Proof.
  intros Hok. unfold IpV6_peek, v6_accepted, IpV6_MIN_HEADER_LEN.
  destruct (Z.ltb_spec (zlen data) 40), (Z.leb_spec 40 (zlen data)); try lia; cbn [andb].
  { eexists. split; [done|]. split; [done|]. by intros []. }
  rewrite outcome_bind_assoc, read_u16 by (cbn; lia). cbn [outcome_bind f_start IpV6_PAYLOAD_LEN].
  destruct (Z.ltb_spec (zlen data) (40 + u16_at data 4)), (Z.leb_spec (40 + u16_at data 4) (zlen data));
    try lia; cbn [andb].
  { eexists. split; [done|]. split; [done|]. by intros []. }
  destruct (Z.eqb_spec (40 + u16_at data 4) 40), (Z.eqb_spec (u16_at data 4) 0); try lia; cbn [negb].
  { eexists. split; [done|]. split; [done|]. by intros []. }
  rewrite index_byte by lia. cbn [outcome_bind].
  destruct (Z.eqb_spec (byte_at data 6) 58) as [E|]; [|eexists; split; [done|]; split; [done|by intros _]].
  rewrite slice_from_ok by lia. cbn [outcome_bind].
  pose proof (byte_at_zdrop data 40 0 ltac:(lia) ltac:(lia)) as Hb. rewrite Z.add_0_r in Hb.
  destruct (Z.ltb_spec (zlen data) 44).
  { unfold IcmpV6_peek, IcmpV6_MIN_HEADER_SIZE. rewrite zlen_zdrop, (proj2 (Z.ltb_lt _ _)) by lia.
    eexists. split; [done|]. split; [done|]. intros [_ Hc]. destruct (Hc E). lia. }
  rewrite IcmpV6_peek_ok; [|by apply bytes_ok_drop|rewrite zlen_zdrop; lia].
  rewrite Hb, zlen_zdrop by lia.
  destruct (Z.eqb_spec (byte_at data 40) 135), (Z.ltb_spec (Z.max 0 (zlen data - 40)) 20); cbn;
    eexists; (split; [done|]); split; try done; try lia; try (intros [_ Hc]; destruct (Hc E); lia).
Qed.

Lemma IpV6_packet_ok data : bytes_ok data -> 40 <= zlen data ->
  (byte_at data 6 <> 58 ->
     IpV6_packet data =
       Ret {| v6_src_address := ztake 16 (zdrop 8 data); v6_dst_address := ztake 16 (zdrop 24 data);
              v6_protocol := byte_at data 6; v6_payload := zdrop 40 data;
              v6_next_header := NextOther |}) /\
  (byte_at data 6 = 58 -> 44 <= zlen data ->
     (IpV6_packet data = Panic <-> byte_at data 40 = 135 /\ zlen data < 64) /\
     forall p, IpV6_packet data = Ret p -> v6_payload p = zdrop 40 data).
Proof.
  intros Hok Hl. unfold IpV6_packet. rewrite slice_from_ok, index_byte by lia. cbn [outcome_bind]. split.
  - intros Hne. rewrite (proj2 (Z.eqb_neq _ _)) by done. cbn [outcome_bind].
    by rewrite !get_slice_ok by (cbn; lia).
  - intros -> Hl'. rewrite Z.eqb_refl. rewrite !get_slice_ok by (cbn; lia).
    destruct (IcmpV6_packet_ok (zdrop 40 data)) as [Hp _];
      [by apply bytes_ok_drop|rewrite zlen_zdrop; lia|].
    rewrite byte_at_zdrop, zlen_zdrop in Hp by lia. change (40 + 0) with 40 in Hp.
    destruct (IcmpV6_packet (zdrop 40 data)) as [p|]; cbn; split.
    + split; [done|]. intros [? ?]. assert (Ret p = Panic) by (apply Hp; lia). done.
    + by intros p' [= <-].
    + split; [|done]. intros _. destruct (proj1 Hp eq_refl). lia.
    + done.
Qed.

Lemma from_ip_packet_v4 data : bytes_ok data -> byte_at data 0 / 16 = 4 -> 0 < zlen data ->
  from_ip_packet data = Panic <->
  20 <= zlen data < header_len (byte_at data 0) /\ header_len (byte_at data 0) <= u16_at data 2.
Proof.
  intros Hok Hv Hl. unfold from_ip_packet, IpPacket_peek, IpPacket_packet.
  rewrite index_byte by lia. cbn [outcome_bind]. rewrite Z.shiftr_div_pow2 by lia.
  change (2 ^ 4) with 16. rewrite Hv. cbn [Z.eqb Pos.eqb].
  destruct (Z.ltb_spec (zlen data) 20).
  { unfold IpV4_peek, IpV4_MIN_HEADER_LEN. rewrite (proj2 (Z.ltb_lt _ _)) by lia. cbn. split; [done|lia]. }
  rewrite IpV4_peek_ok, IpV4_packet_ok by done.
  destruct (Z.ltb_spec (u16_at data 2) (header_len (byte_at data 0))); cbn; [split; [done|lia]|].
  destruct (Z.leb_spec (header_len (byte_at data 0)) (zlen data)); cbn; [|split; [lia|done]].
  split; [|lia]. destruct (payload_desc_returns (PacketV4
    {| v4_src_address := ztake 4 (zdrop 12 data); v4_dst_address := ztake 4 (zdrop 16 data);
       v4_protocol := byte_at data 9; v4_payload := zdrop (header_len (byte_at data 0)) data;
       v4_payload_off := header_len (byte_at data 0) |})) as [d ->]; [by apply bytes_ok_drop|done].
Qed.

Lemma from_ip_packet_v6 data : bytes_ok data -> byte_at data 0 / 16 = 6 -> 0 < zlen data ->
  from_ip_packet data = Panic <->
  v6_accepted data = true /\ byte_at data 6 = 58 /\ byte_at data 40 = 135 /\ 60 <= zlen data < 64.
Proof.
  intros Hok Hv Hl. unfold from_ip_packet, IpPacket_peek, IpPacket_packet.
  rewrite index_byte by lia. cbn [outcome_bind]. rewrite Z.shiftr_div_pow2 by lia.
  change (2 ^ 4) with 16. rewrite Hv. cbn [Z.eqb Pos.eqb].
  destruct (IpV6_peek_ok data Hok) as (r & -> & Hr). destruct r as [[]|e]; cbn [try_bind].
  2: { split; [done|]. intros (Ha & H58 & H135 & Hb). assert (Err e = Ok tt) by (apply Hr; naive_solver lia).
       done. }
  destruct (proj1 Hr eq_refl) as [Ha Hc]. assert (40 <= zlen data) as H40.
  { unfold v6_accepted in Ha. b2p. lia. }
  destruct (IpV6_packet_ok data Hok H40) as [Hother Hicmp].
  destruct (decide (byte_at data 6 = 58)) as [E|E].
  - destruct (Hc E) as [H44 H60]. destruct (Hicmp E H44) as [Hp Hpl].
    destruct (IpV6_packet data) as [p|]; cbn.
    + destruct (payload_desc_returns (PacketV6 p)) as [d ->].
      { cbn. rewrite (Hpl p) by done. by apply bytes_ok_drop. }
      split; [done|]. intros (_ & _ & ? & ?). assert (Ret p = Panic) by (apply Hp; lia). done.
    + split; [|done]. intros _. destruct (proj1 Hp eq_refl) as [H135 ?]. specialize (H60 H135).
      split_and!; (done || lia).
  - rewrite Hother by done. cbn [outcome_bind].
    match goal with |- context [payload_desc ?p] => destruct (payload_desc_returns p) as [d ->] end.
    { by apply bytes_ok_drop. }
    split; [done|]. by intros (_ & ? & _).
Qed.

(** ** Properties *)

(** C36: when looking at an outgoing packet panics.  [from_ip_packet] returns an
    event or an error on all bytes except: no bytes at all; an IPv4 packet that
    announces a header beyond its end; and an ICMPv6 neighbour solicitation of
    less than the 24 bytes that the target address needs, since only 20 are
    checked for. *)
Theorem egress_panics_exactly (data : list Z) :
  bytes_ok data ->
  (from_ip_packet data = Panic <->
    data = [] \/
    (byte_at data 0 / 16 = 4 /\ 20 <= zlen data < header_len (byte_at data 0) /\
     header_len (byte_at data 0) <= u16_at data 2) \/
    (byte_at data 0 / 16 = 6 /\ v6_accepted data = true /\ byte_at data 6 = 58 /\
     byte_at data 40 = 135 /\ 60 <= zlen data < 64)).
Proof.
  intros Hok. destruct data as [|b r]; [by split; [left|]|].
  assert (0 < zlen (b :: r)) as Hl by (rewrite zlen_cons; pose proof (zlen_nonneg r); lia).
  set (data := b :: r) in *. clearbody data.
  destruct (decide (byte_at data 0 / 16 = 4)) as [E4|E4].
  { rewrite from_ip_packet_v4 by done. split; [naive_solver|].
    intros [->|[?|[? _]]]; [by vm_compute in Hl|naive_solver|congruence]. }
  destruct (decide (byte_at data 0 / 16 = 6)) as [E6|E6].
  { rewrite from_ip_packet_v6 by done. split; [naive_solver|].
    intros [->|[[? _]|?]]; [by vm_compute in Hl|congruence|naive_solver]. }
  unfold from_ip_packet, IpPacket_peek. rewrite index_byte by lia. cbn [outcome_bind].
  rewrite Z.shiftr_div_pow2 by lia. change (2 ^ 4) with 16.
  rewrite !(proj2 (Z.eqb_neq _ _)) by done. cbn. split; [done|].
  intros [->|[[? _]|[? _]]]; [by vm_compute in Hl|done|done].
Qed.

(** The event of a TCP segment in an IPv6 packet: destination and ports. *)
Definition tcp6_event (packet : list Z) (payload : list Z) : EgressEvent :=
  {| eg_remote := ztake 16 (zdrop 24 packet); eg_payload := payload;
     eg_desc := Some
       ({| sdc_protocol := Tcp;
           sdc_local := EpIp {| ie_addr := AddrV6 (ztake 16 (zdrop 8 packet));
                                ie_port := u16_at packet 40 |};
           sdc_remote := EpIp {| ie_addr := AddrV6 (ztake 16 (zdrop 24 packet));
                                 ie_port := u16_at packet 42 |} |},
        zlen packet - 40 - byte_at packet 52 / 16) |}.

Lemma ip_ntoh_16 a : zlen a = 16 -> ip_ntoh a = Some (AddrV6 a).
Proof. intros E. unfold ip_ntoh. by rewrite E. Qed.

Lemma u16_at_zdrop data n i : 0 <= n -> 0 <= i -> u16_at (zdrop n data) i = u16_at data (n + i).
Proof. intros. unfold u16_at. by rewrite zdrop_zdrop. Qed.

(** The checks and the parts of such a packet. *)
Lemma tcp6_parts data :
  bytes_ok data -> byte_at data 0 / 16 = 6 -> v6_accepted data = true ->
  byte_at data 6 = 6 -> 60 <= zlen data ->
  IpPacket_peek data = Ret (Ok tt) /\
  exists packet, IpPacket_packet data = Ret packet /\
    IpPacket_dst_address packet = ztake 16 (zdrop 24 data) /\
    payload_desc packet = Ret (eg_desc (tcp6_event data [])).
Proof.
  intros Hok Hv Ha H6 Hl. unfold IpPacket_peek, IpPacket_packet.
  rewrite index_byte by lia. cbn [outcome_bind]. rewrite Z.shiftr_div_pow2 by lia.
  change (2 ^ 4) with 16. rewrite Hv. cbn [Z.eqb Pos.eqb]. split.
  { destruct (IpV6_peek_ok data Hok) as (r & -> & Hr). f_equal. apply Hr. split; [done|]. lia. }
  rewrite (proj1 (IpV6_packet_ok data Hok ltac:(lia))) by lia. cbn [outcome_bind].
  eexists. split; [done|]. split; [done|].
  unfold payload_desc. cbn [IpPacket_protocol v6_protocol IpPacket_payload v6_payload].
  rewrite H6. change (Protocol_try_from 6) with (@Ok Protocol Z Tcp).
  destruct (payload_ports_ok Tcp (zdrop 40 data)) as (r & -> & Hr); [by apply bytes_ok_drop|].
  rewrite Hr by (done || rewrite zlen_zdrop; lia). cbn [outcome_bind].
  cbn [IpPacket_src_address IpPacket_dst_address v6_src_address inferred_dst_address v6_next_header v6_dst_address].
  rewrite !ip_ntoh_16 by (rewrite zlen_ztake, zlen_zdrop by lia; lia).
  rewrite !u16_at_zdrop, byte_at_zdrop, zlen_zdrop by lia. cbn. do 4 f_equal. lia.
Qed.

(** A packet of the virtual network is sent where its header says.  A TCP
    segment in an accepted IPv6 packet, alone or in an Ethernet frame with any
    addresses, becomes an event with exactly these bytes, the destination address
    of the header as remote end, and the addresses and ports of both ends.  The
    recorded size takes the data offset of the segment, which counts 32-bit
    words, as a number of bytes. *)
Theorem egress_event_correct (data mac : list Z) :
  bytes_ok data -> byte_at data 0 / 16 = 6 -> v6_accepted data = true ->
  byte_at data 6 = 6 -> 60 <= zlen data -> zlen mac = 12 ->
  from_ip_packet data = Ret (Ok (tcp6_event data data)) /\
  from_eth_frame (mac ++ [134; 221] ++ data) =
    Ret (Ok (tcp6_event data (mac ++ [134; 221] ++ data))).
Proof.
  intros Hok Hv Ha H6 Hl Hm.
  destruct (tcp6_parts data Hok Hv Ha H6 Hl) as (Hpeek & packet & Hpk & Hdst & Hdesc). split.
  { unfold from_ip_packet. rewrite Hpeek. cbn [try_bind]. rewrite Hpk. cbn [outcome_bind].
    by rewrite Hdesc, Hdst. }
  set (frame := mac ++ [134; 221] ++ data).
  assert (zlen frame = 14 + zlen data) as Hlen
    by (unfold frame; rewrite !zlen_app, Hm; change (zlen [134; 221]) with 2; lia).
  assert (slice_from 14 frame = Ret data) as Hpay.
  { rewrite slice_from_ok by lia. f_equal. unfold frame. rewrite app_assoc.
    apply zdrop_app_exact. by rewrite zlen_app, Hm. }
  assert (get_slice frame ETHER_TYPE = Ret [134; 221]) as Hty.
  { rewrite get_slice_ok by (cbn; lia). cbn [f_start f_end ETHER_TYPE]. f_equal. unfold frame.
    rewrite zdrop_app_exact by done. done. }
  unfold from_eth_frame, Ether_try_from, Ether_peek_type, ETHERNET_HDR_LEN.
  rewrite (proj2 (Z.ltb_ge _ _)) by lia. rewrite Hty, Hpay. cbn [outcome_bind].
  change (bool_decide ([134; 221] = [8; 0]) || bool_decide ([134; 221] = [134; 221])) with true.
  cbv iota. rewrite Hpeek. cbn [try_bind]. unfold Ether_payload, Ether_bytes. rewrite Hpay.
  cbn [outcome_bind]. rewrite Hpeek. cbn [try_bind]. rewrite Hpk. cbn [outcome_bind].
  by rewrite Hdesc, Hdst.
Qed.

(** *** Bit fields *)

(** A bit field that lies within a byte of the data. *)
Definition bit_field_fits (data : list Z) (f : BitField) : Prop :=
  0 <= bf_byte f < zlen data /\ 0 <= bf_start f /\ bf_start f < bf_end f <= 8.

(** The new value of the byte, as [set_bit_field] computes it. *)
Definition set_bits (b start len value : Z) : Z :=
  Z.lor (Z.land b (Z.lxor (Z.shiftr (wrap 8 (Z.shiftl 255 (8 - len))) start) 255))
        (Z.shiftr (wrap 8 (Z.shiftl value (8 - len))) start).

Lemma set_bits_testbit b start len value i :
  is_byte b -> 0 <= start -> 1 <= len -> start + len <= 8 -> 0 <= i ->
  Z.testbit (set_bits b start len value) i =
    if (8 - start - len <=? i) && (i <? 8 - start)
    then Z.testbit value (i - (8 - start - len)) else Z.testbit b i.
Proof.
  intros Hb Hs Hl Hsl Hi. unfold set_bits, wrap.
  assert (forall j, 8 <= j -> Z.testbit b j = false) as Hhigh.
  { intros j Hj. rewrite <- (Z.mod_small b (2 ^ 8)) by (unfold is_byte in Hb; lia).
    by rewrite Z.mod_pow2_bits_high by lia. }
  assert (forall j, Z.testbit 255 j = (0 <=? j) && (j <? 8)) as H255.
  { intros j. destruct (Z.leb_spec 0 j) as [Hj|Hj]; [|by rewrite Z.testbit_neg_r].
    change 255 with (Z.ones 8). destruct (Z.ltb_spec j 8).
    - by rewrite Z.ones_spec_low by lia.
    - by rewrite Z.ones_spec_high by lia. }
  rewrite Z.lor_spec, Z.land_spec, Z.lxor_spec, !Z.shiftr_spec by lia.
  destruct (Z.leb_spec (8 - start - len) i), (Z.ltb_spec i (8 - start)); cbn [andb].
  - rewrite !Z.mod_pow2_bits_low, !Z.shiftl_spec, !H255 by lia.
    rewrite !(proj2 (Z.leb_le _ _)), !(proj2 (Z.ltb_lt _ _)) by lia. cbn.
    rewrite andb_false_r. cbn. f_equal. lia.
  - rewrite !Z.mod_pow2_bits_high, H255 by lia. rewrite orb_false_r. cbn [xorb].
    destruct (Z.ltb_spec i 8).
    + rewrite (proj2 (Z.leb_le _ _)) by lia. by rewrite andb_true_r.
    + rewrite andb_false_r, Hhigh by lia. done.
  - rewrite !Z.mod_pow2_bits_low, !Z.shiftl_spec, !H255 by lia.
    rewrite (proj2 (Z.leb_gt 0 (i + start - (8 - len)))), (Z.testbit_neg_r value) by lia. cbn.
    rewrite (proj2 (Z.leb_le 0 i)), (proj2 (Z.ltb_lt i 8)) by lia. cbn. by rewrite andb_true_r, orb_false_r.
  - lia.
Qed.

(** The value of a bit field of the byte [b]. *)
Definition bits_of (b start len : Z) : Z := b * 2 ^ start mod 256 / 2 ^ (8 - len).

Lemma bits_of_testbit b start len i :
  0 <= start -> 1 <= len -> start + len <= 8 -> 0 <= i ->
  Z.testbit (bits_of b start len) i = (i <? len) && Z.testbit b (i + (8 - start - len)).
Proof.
  intros Hs Hl Hsl Hi. unfold bits_of. change 256 with (2 ^ 8).
  rewrite <- Z.shiftr_div_pow2, Z.shiftr_spec by lia. destruct (Z.ltb_spec i len); cbn [andb].
  - rewrite Z.mod_pow2_bits_low, <- Z.shiftl_mul_pow2, Z.shiftl_spec by lia. f_equal. lia.
  - by rewrite Z.mod_pow2_bits_high by lia.
Qed.

Lemma get_bit_field_bits data f : bit_field_fits data f ->
  get_bit_field data f = Ret (bits_of (byte_at data (bf_byte f)) (bf_start f) (bf_end f - bf_start f)).
Proof. intros (? & ? & ?). rewrite get_bit_field_ok by lia. done. Qed.

Lemma set_bit_field_bits data f value : bit_field_fits data f ->
  set_bit_field data f value =
    Ret (<[Z.to_nat (bf_byte f) :=
            set_bits (byte_at data (bf_byte f)) (bf_start f) (bf_end f - bf_start f) value]> data).
Proof.
  intros (Hb & Hs & He). unfold set_bit_field.
  assert (bit_len f = bf_end f - bf_start f) as -> by (unfold bit_len; lia).
  unfold shl8, shr8. rewrite !(proj2 (Z.leb_le 0 _)), !(proj2 (Z.ltb_lt _ 8)) by lia.
  cbn [andb outcome_bind]. by rewrite index_byte.
Qed.

Lemma byte_at_insert data i j b : 0 <= i < zlen data -> 0 <= j ->
  byte_at (<[Z.to_nat i := b]> data) j = if decide (i = j) then b else byte_at data j.
Proof.
  intros Hi Hj. unfold byte_at, zlen in *. rewrite !nth_lookup. destruct (decide (i = j)) as [->|].
  - by rewrite list_lookup_insert_eq by lia.
  - by rewrite list_lookup_insert_ne by lia.
Qed.

(** bit fields.  Writing a value into a bit field of a byte succeeds when the
    field lies within the data; it is read back as the low bits of the value, as
    many as the field has, and every other bit field that does not overlap it
    keeps its value.  Fields are counted from the most significant bit. *)
Theorem bit_field_roundtrip (data : list Z) (f : BitField) (value : Z) :
  bytes_ok data -> is_byte value -> bit_field_fits data f ->
  exists data', set_bit_field data f value = Ret data' /\ zlen data' = zlen data /\
    get_bit_field data' f = Ret (value mod 2 ^ (bf_end f - bf_start f)) /\
    forall g, bit_field_fits data g ->
      bf_byte g <> bf_byte f \/ bf_end g <= bf_start f \/ bf_end f <= bf_start g ->
      get_bit_field data' g = get_bit_field data g.
Proof.
  intros Hok Hv Hf. rewrite set_bit_field_bits by done. eexists. split; [done|].
  split; [unfold zlen; by rewrite length_insert|]. pose proof Hf as (Hb & Hs & He).
  assert (forall g, bit_field_fits data g -> bit_field_fits (<[Z.to_nat (bf_byte f) := set_bits
    (byte_at data (bf_byte f)) (bf_start f) (bf_end f - bf_start f) value]> data) g) as Hfit.
  { intros g (? & ?). split; [|done]. unfold zlen in *. by rewrite length_insert. }
  pose proof (byte_at_ok data (bf_byte f) Hok) as Hby. split.
  - rewrite get_bit_field_bits by auto. rewrite byte_at_insert, decide_True by (done || lia). f_equal.
    apply Z.bits_inj'. intros i Hi. rewrite bits_of_testbit by lia. destruct (Z.ltb_spec i (bf_end f - bf_start f)).
    + cbn [andb]. rewrite set_bits_testbit, Z.mod_pow2_bits_low by (done || lia).
      rewrite (proj2 (Z.leb_le _ _)), (proj2 (Z.ltb_lt _ _)) by lia. cbn. f_equal. lia.
    + by rewrite Z.mod_pow2_bits_high by lia.
  - intros g Hg Hdis. pose proof Hg as (Hgb & Hgs & Hge). rewrite !get_bit_field_bits by auto.
    rewrite byte_at_insert by (done || lia). case_decide as E; [|done]. rewrite <- E. f_equal.
    apply Z.bits_inj'. intros i Hi. rewrite !bits_of_testbit by lia.
    destruct (Z.ltb_spec i (bf_end g - bf_start g)); [|done]. cbn [andb].
    rewrite set_bits_testbit by (done || lia).
    destruct (Z.leb_spec (8 - bf_start f - (bf_end f - bf_start f)) (i + (8 - bf_start g - (bf_end g - bf_start g)))),
      (Z.ltb_spec (i + (8 - bf_start g - (bf_end g - bf_start g))) (8 - bf_start f)); try done. lia.
Qed.

(** ** Examples *)

(** A segment from port 1 of [7;...] to port 258 of [9;...], with 4 bytes of data. *)
Definition sample_tcp6 : list Z :=
  [96; 0; 0; 0; 0; 24; 6; 64] ++ replicate 16 7 ++ replicate 16 9 ++
  [0; 1; 1; 2; 0; 0; 0; 0; 0; 0; 0; 0; 80; 16; 0; 0; 0; 0; 0; 0] ++ [1; 2; 3; 4].

Lemma egress_panics_exactly_witness :
  from_ip_packet (79 :: 0 :: 1 :: replicate 20 0) = Panic.
Proof.
  apply (egress_panics_exactly (79 :: 0 :: 1 :: replicate 20 0)).
  - apply (bool_decide_unpack _). vm_compute. exact I.
  - right. left. split; [reflexivity|]. vm_compute. repeat split; discriminate.
Defined.

Lemma egress_event_correct_witness :
  from_eth_frame (replicate 12 5 ++ [134; 221] ++ sample_tcp6) =
    Ret (Ok (tcp6_event sample_tcp6 (replicate 12 5 ++ [134; 221] ++ sample_tcp6))) /\
  eg_remote (tcp6_event sample_tcp6 []) = replicate 16 9.
Proof.
  split; [|reflexivity].
  apply (egress_event_correct sample_tcp6 (replicate 12 5)); try reflexivity.
  - apply (bool_decide_unpack _). vm_compute. exact I.
  - vm_compute. discriminate.
Defined.

Lemma bit_field_roundtrip_witness :
  exists data', set_bit_field [255; 170] {| bf_byte := 1; bf_start := 2; bf_end := 5 |} 21 = Ret data' /\
    get_bit_field data' {| bf_byte := 1; bf_start := 2; bf_end := 5 |} = Ret 5.
Proof.
  destruct (bit_field_roundtrip [255; 170] {| bf_byte := 1; bf_start := 2; bf_end := 5 |} 21)
    as (data' & Hs & _ & Hg & _).
  - apply (bool_decide_unpack _). vm_compute. exact I.
  - split; [lia|reflexivity].
  - vm_compute. repeat split; discriminate.
  - exists data'. split; [exact Hs|exact Hg].
Defined.
