(* ===== verification/StackNetwork.v ===== *)
(** [crates/stack/src/network.rs], [stack.rs], [connection.rs], [interface.rs],
    [device.rs] and the sockets of [socket.rs]: the virtual network over the sockets
    of the smoltcp library.

    The library is an interface: [SmolSockets] are its sockets, [SmolIface] its
    socket set and the processing of packets; their laws are what its documentation
    says.  Metrics, captures and wakers are left out. *)

From S2P Require Import Prelude Ports StackSocket StackPacket.

(** ** The library *)

(** Sockets, and the operations the stack calls.  An operation that can fail gives
    [None]; receiving takes what it returns out of the socket. *)
Class SmolSockets : Type := {
  Interface : Type;
  TcpSocket : Type;
  UdpSocket : Type;
  IcmpSocket : Type;
  RawSocket : Type;
  listen_is_specified : IpEndpoint -> bool;
  icmp_is_specified : IcmpEndpoint -> bool;
  (** the addresses of the interface *)
  ip_addrs : Interface -> list IpAddress;
  tcp_new : Z -> Z -> TcpSocket;
  tcp_set_defaults : TcpSocket -> TcpSocket;
  tcp_listen : IpEndpoint -> TcpSocket -> option TcpSocket;
  tcp_connect : Interface -> IpEndpoint -> IpEndpoint -> TcpSocket -> option TcpSocket;
  tcp_state : TcpSocket -> TcpSocketState;
  tcp_local_endpoint : TcpSocket -> option IpEndpoint;
  tcp_remote_endpoint : TcpSocket -> option IpEndpoint;
  tcp_is_open : TcpSocket -> bool;
  tcp_can_send : TcpSocket -> bool;
  tcp_can_recv : TcpSocket -> bool;
  tcp_recv_queue : TcpSocket -> nat;
  tcp_recv : TcpSocket -> option (list Z * TcpSocket);
  tcp_send_slice : list Z -> TcpSocket -> option (Z * TcpSocket);
  tcp_close : TcpSocket -> TcpSocket;
  tcp_abort : TcpSocket -> TcpSocket;
  udp_new : Z -> Z -> UdpSocket;
  udp_bind : IpEndpoint -> UdpSocket -> option UdpSocket;
  udp_endpoint : UdpSocket -> option IpAddress * Z;
  udp_is_open : UdpSocket -> bool;
  udp_can_recv : UdpSocket -> bool;
  udp_recv_queue : UdpSocket -> nat;
  (** the only error is [Exhausted] *)
  udp_recv : UdpSocket -> option (list Z * IpEndpoint * UdpSocket);
  udp_send_slice : list Z -> IpEndpoint -> UdpSocket -> option UdpSocket;
  icmp_new : Z -> Z -> IcmpSocket;
  icmp_bind : IcmpEndpoint -> IcmpSocket -> option IcmpSocket;
  icmp_is_open : IcmpSocket -> bool;
  icmp_can_recv : IcmpSocket -> bool;
  icmp_recv_queue : IcmpSocket -> nat;
  icmp_recv : IcmpSocket -> option (list Z * IpAddress * IcmpSocket);
  icmp_send_slice : list Z -> IpAddress -> IcmpSocket -> option IcmpSocket;
  raw_new : bool -> Protocol -> Z -> Z -> RawSocket;
  raw_can_recv : RawSocket -> bool;
  raw_recv_queue : RawSocket -> nat;
  raw_recv : RawSocket -> option (list Z * RawSocket);
  raw_send_slice : list Z -> RawSocket -> option RawSocket }.

(** [smoltcp::socket::Socket]; the two kinds that are never created carry nothing. *)
Inductive Socket `{SmolSockets} : Type :=
| SkTcp (s : TcpSocket)
| SkUdp (s : UdpSocket)
| SkIcmp (s : IcmpSocket)
| SkRaw (s : RawSocket)
| SkDhcpv4
| SkDns.

(** [CaptureDevice] of [device.rs]. *)
Record CaptureDevice : Type := {
  dv_tx_queue : list (list Z);
  dv_rx_queue : list (list Z);
  dv_tun : bool }.

(** The socket set, the handle it gives to the next socket, the order in which it is
    traversed, and [Interface::poll]. *)
Class SmolIface `{SmolSockets} : Type := {
  next_handle : gmap Z Socket -> Z;
  iteration : gmap Z Socket -> list (Z * Socket);
  iface_poll : Interface -> CaptureDevice -> gmap Z Socket ->
    bool * Interface * CaptureDevice * gmap Z Socket }.

Section Network.
Context `{S : SmolSockets} {I : SmolIface}.

(** ** Sockets, [SocketExt] *)

Definition Socket_protocol (s : Socket) : Protocol :=
  match s with
  | SkTcp _ => Tcp
  | SkUdp _ => Udp
  | SkIcmp _ => Icmp
  | SkRaw _ => Ethernet
  | SkDhcpv4 | SkDns => NoProtocol
  end.

(** [From<Option<IpEndpoint>>]. *)
Definition SocketEndpoint_from (opt : option IpEndpoint) : SocketEndpoint :=
  match opt with Some endpoint => EpIp endpoint | None => EpOther end.

Definition Socket_local_endpoint (s : Socket) : SocketEndpoint :=
  match s with
  | SkTcp s => SocketEndpoint_from (tcp_local_endpoint s)
  | SkUdp s =>
      match udp_endpoint s with
      | (Some addr, port) => EpIp {| ie_addr := addr; ie_port := port |}
      | (None, _) => EpOther
      end
  | _ => EpOther
  end.

Definition Socket_remote_endpoint (s : Socket) : SocketEndpoint :=
  match s with
  | SkTcp s => SocketEndpoint_from (tcp_remote_endpoint s)
  | _ => EpOther
  end.

Definition Socket_is_closed (s : Socket) : bool :=
  match s with
  | SkTcp s => bool_decide (tcp_state s = StClosed)
  | SkUdp s => negb (udp_is_open s)
  | SkIcmp s => negb (icmp_is_open s)
  | SkRaw _ | SkDhcpv4 | SkDns => false
  end.

Definition Socket_can_recv (s : Socket) : bool :=
  match s with
  | SkTcp s => tcp_can_recv s
  | SkUdp s => udp_can_recv s
  | SkIcmp s => icmp_can_recv s
  | SkRaw s => raw_can_recv s
  | SkDhcpv4 | SkDns => false
  end.

(** [Ok(Some(..))], [Ok(None)] or an error; then the socket is as it was. *)
Definition Socket_recv (s : Socket) : result (option (IpEndpoint * list Z)) unit * Socket :=
  match s with
  | SkTcp s =>
      match tcp_recv s with
      | Some (bytes, s) =>
          match tcp_remote_endpoint s with
          | Some remote => (Ok (Some (remote, bytes)), SkTcp s)
          | None => (Ok None, SkTcp s)
          end
      | None => (Err (), SkTcp s)
      end
  | SkUdp s =>
      match udp_recv s with
      | Some (bytes, endpoint, s) => (Ok (Some (endpoint, bytes)), SkUdp s)
      | None => (Ok None, SkUdp s)
      end
  | SkIcmp s =>
      match icmp_recv s with
      | Some (bytes, address, s) =>
          (Ok (Some ({| ie_addr := address; ie_port := 0 |}, bytes)), SkIcmp s)
      | None => (Err (), SkIcmp s)
      end
  | SkRaw s =>
      match raw_recv s with
      | Some (bytes, s) => (Ok (Some (unspecified_endpoint, bytes)), SkRaw s)
      | None => (Err (), SkRaw s)
      end
  | SkDhcpv4 | SkDns => (Err (), s)
  end.

(** What a socket holds for its owner; it bounds the loop that receives. *)
Definition Socket_recv_queue (s : Socket) : nat :=
  match s with
  | SkTcp s => tcp_recv_queue s
  | SkUdp s => udp_recv_queue s
  | SkIcmp s => icmp_recv_queue s
  | SkRaw s => raw_recv_queue s
  | SkDhcpv4 | SkDns => 0%nat
  end.

Definition Socket_desc (s : Socket) : SocketDesc :=
  {| sdc_protocol := Socket_protocol s; sdc_local := Socket_local_endpoint s;
     sdc_remote := Socket_remote_endpoint s |}.

Definition endpoint_is_specified : SocketEndpoint -> bool :=
  SocketEndpoint_is_specified listen_is_specified icmp_is_specified.

(** ** The stack, [stack.rs] *)

(** The buffer sizes of [StackConfig] and its batch limits. *)
Record StackConfig : Type := {
  sc_max_send_batch : Z;
  sc_max_recv_batch : Z;
  sc_tcp_mem : Memory * Memory;
  sc_udp_mem : Memory * Memory;
  sc_icmp_mem : Memory * Memory;
  sc_raw_mem : Memory * Memory }.

Context (config : StackConfig).

(** A socket of a kind, over buffers of the maximal sizes (rx, tx). *)
Definition tcp_socket : TcpSocket :=
  tcp_set_defaults (tcp_new (mem_max (sc_tcp_mem config).1) (mem_max (sc_tcp_mem config).2)).

Definition udp_socket : UdpSocket :=
  udp_new (mem_max (sc_udp_mem config).1) (mem_max (sc_udp_mem config).2).

Definition icmp_socket : IcmpSocket :=
  icmp_new (mem_max (sc_icmp_mem config).1) (mem_max (sc_icmp_mem config).2).

Definition raw_socket (v6 : bool) (protocol : Protocol) : RawSocket :=
  raw_new v6 protocol (mem_max (sc_raw_mem config).1) (mem_max (sc_raw_mem config).2).

Record Stack : Type := {
  sk_iface : Interface;
  sk_device : CaptureDevice;
  sk_sockets : gmap Z Socket;
  sk_ports : Allocator }.

Definition with_sockets (k : Stack) (sockets : gmap Z Socket) : Stack :=
  {| sk_iface := sk_iface k; sk_device := sk_device k; sk_sockets := sockets; sk_ports := sk_ports k |}.

Definition with_ports (k : Stack) (ports : Allocator) : Stack :=
  {| sk_iface := sk_iface k; sk_device := sk_device k; sk_sockets := sk_sockets k; sk_ports := ports |}.

Definition with_device (k : Stack) (device : CaptureDevice) : Stack :=
  {| sk_iface := sk_iface k; sk_device := device; sk_sockets := sk_sockets k; sk_ports := sk_ports k |}.

(** [CaptureInterface::add_socket] and [remove_socket]. *)
Definition add_socket (k : Stack) (s : Socket) : Z * Stack :=
  let handle := next_handle (sk_sockets k) in
  (handle, with_sockets k (<[handle := s]> (sk_sockets k))).

Definition remove_socket (k : Stack) (handle : Z) : Stack :=
  with_sockets k (delete handle (sk_sockets k)).

(** [get_socket_safe::<tcp::Socket>]. *)
Definition get_tcp_socket (k : Stack) (handle : Z) : result TcpSocket GetSocketError :=
  match sk_sockets k !! handle with
  | Some (SkTcp s) => Ok s
  | Some _ => Err SocketWrongType
  | None => Err SocketNotFound
  end.

Definition map_protocol (protocol : Protocol) : result Protocol StackError :=
  match protocol with
  | HopByHop | Icmp | Igmp | Tcp | Udp | Ipv6Route | Ipv6Frag | Ipv6Icmp | Ipv6NoNxt | Ipv6Opts =>
      Ok protocol
  | _ => Err ProtocolNotSupported
  end.

Definition stack_address (k : Stack) : result IpAddress StackError :=
  match ip_addrs (sk_iface k) with
  | address :: _ => Ok address
  | [] => Err NetEmpty
  end.

Definition stack_bind (k : Stack) (protocol : Protocol) (endpoint : SocketEndpoint)
  : result (Z * Stack) StackError :=
  match protocol with
  | Tcp =>
      match endpoint with
      | EpIp ep =>
          match tcp_listen ep tcp_socket with
          | Some socket => Ok (add_socket k (SkTcp (tcp_set_defaults socket)))
          | None => Err (StackOther "ListenError")
          end
      | _ => Err (StackOther "Expected an IP endpoint")
      end
  | Udp =>
      match endpoint with
      | EpIp ep =>
          match udp_bind ep udp_socket with
          | Some socket => Ok (add_socket k (SkUdp socket))
          | None => Err (StackOther "BindError")
          end
      | _ => Err (StackOther "Expected an IP endpoint")
      end
  | Icmp | Ipv6Icmp =>
      match endpoint with
      | EpIcmp e =>
          match icmp_bind e icmp_socket with
          | Some socket => Ok (add_socket k (SkIcmp socket))
          | None => Err (StackOther "BindError")
          end
      | _ => Err (StackOther "Expected an ICMP endpoint")
      end
  | _ =>
      match endpoint with
      | EpIp ep =>
          let v6 := match ie_addr ep with AddrV4 _ => false | AddrV6 _ => true end in
          let? protocol := map_protocol protocol in
          Ok (add_socket k (SkRaw (raw_socket v6 protocol)))
      | _ => Err (StackOther "Expected an IP endpoint")
      end
  end.

(** [unbind]: the first socket with the local endpoint. *)
Definition stack_unbind (k : Stack) (protocol : Protocol) (endpoint : SocketEndpoint)
  : result (Z * Stack) StackError :=
  match find (fun hs => bool_decide (Socket_local_endpoint hs.2 = endpoint)) (iteration (sk_sockets k)) with
  | Some (handle, _) =>
      match protocol with
      | Tcp | Udp | Icmp | Ipv6Icmp =>
          let k :=
            match ip_endpoint endpoint with
            | Ok e => with_ports k (free (sk_ports k) protocol (ie_port e))
            | Err _ => k
            end in
          Ok (handle, remove_socket k handle)
      | _ => Err Cancelled
      end
  | None => Err Cancelled
  end.

(** [connect]; [sample] is the random start of the search for a port.  The stack is
    changed also when there is no port. *)
Definition stack_connect (k : Stack) (remote : IpEndpoint) (sample : Z)
  : result Connection StackError * Stack :=
  match stack_address k with
  | Err e => (Err e, k)
  | Ok ip =>
      let '(handle, k) := add_socket k (SkTcp tcp_socket) in
      match Ports.next (sk_ports k) Tcp sample with
      | (None, ports) => (Err (StackOther "no ports available"), with_ports k ports)
      | (Some port, ports) =>
          let k := with_ports k ports in
          let local := {| ie_addr := ip; ie_port := port |} in
          match tcp_connect (sk_iface k) remote local tcp_socket with
          | Some socket =>
              (Ok {| cn_handle := handle;
                     cn_meta := {| cm_protocol := Tcp; cm_local := local; cm_remote := remote |} |},
               with_sockets k (<[handle := SkTcp (tcp_set_defaults socket)]> (sk_sockets k)))
          | None =>
              let k := remove_socket k handle in
              (Err ConnectionError, with_ports k (free (sk_ports k) Tcp port))
          end
      end
  end.

(** [disconnect] and [abort]: what they do to the socket. *)
Definition on_tcp_socket (f : TcpSocket -> TcpSocket) (k : Stack) (handle : Z) : Stack :=
  match get_tcp_socket k handle with
  | Ok s => with_sockets k (<[handle := SkTcp (f s)]> (sk_sockets k))
  | Err _ => k
  end.

Definition stack_disconnect : Stack -> Z -> Stack := on_tcp_socket tcp_close.
Definition stack_abort : Stack -> Z -> Stack := on_tcp_socket tcp_abort.

Definition stack_remove (k : Stack) (meta : ConnectionMeta) (handle : Z) : Stack :=
  match sk_sockets k !! handle with
  | Some _ =>
      let k := remove_socket k handle in
      with_ports k (free (sk_ports k) (cm_protocol meta) (ie_port (cm_local meta)))
  | None => k
  end.

(** [receive]: [phy_rx] of the device. *)
Definition stack_receive (k : Stack) (data : list Z) : Stack :=
  with_device k {| dv_tx_queue := dv_tx_queue (sk_device k);
                   dv_rx_queue := dv_rx_queue (sk_device k) ++ [data];
                   dv_tun := dv_tun (sk_device k) |}.

Definition stack_poll (k : Stack) : bool * Stack :=
  let '(changed, iface, device, sockets) := iface_poll (sk_iface k) (sk_device k) (sk_sockets k) in
  (changed, {| sk_iface := iface; sk_device := device; sk_sockets := sockets; sk_ports := sk_ports k |}).

(** ** Futures of [connection.rs] *)

(** A poll of [Connect]; [None] while it waits. *)
Definition Connect_poll (k : Stack) (connection : Connection)
  : option (result Connection StackError) :=
  match get_tcp_socket k (cn_handle connection) with
  | Err e => Some (Err (InvalidSocket (cn_handle connection) e))
  | Ok socket =>
      if negb (tcp_is_open socket) then Some (Err (SocketClosed (tcp_state socket)))
      else if tcp_can_send socket then Some (Ok connection)
      else None
  end.

(** A poll of [Disconnect]. *)
Definition Disconnect_poll (k : Stack) (handle : Z) : option (result unit StackError) :=
  match get_tcp_socket k handle with
  | Err _ => Some (Ok ())
  | Ok socket => if negb (tcp_is_open socket) then Some (Ok ()) else None
  end.

(** A poll of [Send] over TCP, from an offset: the result, the new offset and the
    stack; the callback, which polls the network, runs afterwards. *)
Definition Send_poll_tcp (k : Stack) (connection : Connection) (data : list Z) (offset : Z)
  : option (result unit StackError) * Z * Stack :=
  match get_tcp_socket k (cn_handle connection) with
  | Err _ => (Some (Err (StackOther "GetSocketError")), offset, k)
  | Ok socket =>
      match tcp_send_slice (zdrop offset data) socket with
      | Some (count, socket) =>
          let k := with_sockets k (<[cn_handle connection := SkTcp socket]> (sk_sockets k)) in
          let offset := offset + count in
          (if zlen data <=? offset then Some (Ok ()) else None, offset, k)
      | None => (None, offset, k)
      end
  end.

(** A packet that is sent at once over another socket, or not at all. *)
Definition packet_sent (k : Stack) (handle : Z) (socket : option Socket)
  : result unit StackError * Stack :=
  match socket with
  | Some socket => (Ok (), with_sockets k (<[handle := socket]> (sk_sockets k)))
  | None => (Err (StackOther "SendError"), k)
  end.

(** A poll of [Send]: as above. *)
Definition Send_poll (k : Stack) (connection : Connection) (data : list Z) (offset : Z)
  : option (result unit StackError) * Z * Stack :=
  let handle := cn_handle connection in
  let remote := cm_remote (cn_meta connection) in
  let missing := (Err (StackOther "GetSocketError"), k) in
  let at_once (r : result unit StackError * Stack) := (Some r.1, offset, r.2) in
  match cm_protocol (cn_meta connection) with
  | Tcp => Send_poll_tcp k connection data offset
  | Udp =>
      at_once
        match sk_sockets k !! handle with
        | Some (SkUdp s) => packet_sent k handle (SkUdp <$> udp_send_slice data remote s)
        | _ => missing
        end
  | Icmp | Ipv6Icmp =>
      at_once
        match sk_sockets k !! handle with
        | Some (SkIcmp s) => packet_sent k handle (SkIcmp <$> icmp_send_slice data (ie_addr remote) s)
        | _ => missing
        end
  | _ =>
      at_once
        match sk_sockets k !! handle with
        | Some (SkRaw s) => packet_sent k handle (SkRaw <$> raw_send_slice data s)
        | _ => missing
        end
  end.

(** ** Tasks that send, [StackSender] *)

(** A task sends what comes through its channel, one after the other: the data it is
    sending, from an offset on, and what the channel holds. *)
Record SendTask : Type := {
  sd_current : option (list Z * Z * Connection);
  sd_queue : list (list Z * Connection) }.

(** The tasks that were spawned, the first one first, and the one whose channel is
    filed under a handle.  A task outlives its entry: it goes on with what it has. *)
Record StackSender : Type := {
  sr_map : gmap Z nat;
  sr_tasks : list SendTask }.

Definition sender_spawn (ss : StackSender) (handle : Z) : nat * StackSender :=
  let i := length (sr_tasks ss) in
  (i, {| sr_map := <[handle := i]> (sr_map ss);
         sr_tasks := sr_tasks ss ++ [{| sd_current := None; sd_queue := [] |}] |}).

(** [send], with the wait for the channel to take the data. *)
Definition sender_send (ss : StackSender) (data : list Z) (conn : Connection) : StackSender :=
  let '(i, ss) :=
    match sr_map ss !! cn_handle conn with
    | Some i => (i, ss)
    | None => sender_spawn ss (cn_handle conn)
    end in
  {| sr_map := sr_map ss;
     sr_tasks := alter (fun t => {| sd_current := sd_current t; sd_queue := sd_queue t ++ [(data, conn)] |})
                   i (sr_tasks ss) |}.

Definition sender_remove (ss : StackSender) (handle : Z) : StackSender :=
  {| sr_map := delete handle (sr_map ss); sr_tasks := sr_tasks ss |}.

(** One turn of the loop of a task: it takes data out of the channel, or polls the
    [Send] it waits for. *)
Definition task_turn (k : Stack) (t : SendTask) : Stack * SendTask :=
  match sd_current t with
  | None =>
      match sd_queue t with
      | [] => (k, t)
      | (data, conn) :: queue => (k, {| sd_current := Some (data, 0, conn); sd_queue := queue |})
      end
  | Some (data, offset, conn) =>
      match Send_poll k conn data offset with
      | (Some _, _, k) => (k, {| sd_current := None; sd_queue := sd_queue t |})
      | (None, offset, k) => (k, {| sd_current := Some (data, offset, conn); sd_queue := sd_queue t |})
      end
  end.

(** ** The network, [network.rs] *)

Inductive IngressEvent : Type :=
| InboundConnection (desc : SocketDesc)
| Disconnected (desc : SocketDesc)
| IngressPacket (desc : SocketDesc) (payload : list Z).

(** An unbounded channel: whether its receiver exists, and what it holds. *)
Record EventChannel (A : Type) : Type := { ch_open : bool; ch_items : list A }.
Arguments ch_open {A}.
Arguments ch_items {A}.

Definition channel_push {A} (c : EventChannel A) (x : A) : option (EventChannel A) :=
  if ch_open c then Some {| ch_open := true; ch_items := ch_items c ++ [x] |} else None.

(** The sockets that listen, the connections, their handles, and the tasks that
    send. *)
Record Network : Type := {
  nw_stack : Stack;
  nw_bindings : gset Z;
  nw_connections : gmap ConnectionMeta Connection;
  nw_handles : gmap Z ConnectionMeta;
  nw_senders : StackSender;
  nw_ingress : EventChannel IngressEvent;
  nw_egress : EventChannel EgressEvent }.

Definition Network_new (k : Stack) : Network :=
  {| nw_stack := k; nw_bindings := ∅; nw_connections := ∅; nw_handles := ∅;
     nw_senders := {| sr_map := ∅; sr_tasks := [] |};
     nw_ingress := {| ch_open := true; ch_items := [] |};
     nw_egress := {| ch_open := true; ch_items := [] |} |}.

Definition with_stack (n : Network) (k : Stack) : Network :=
  {| nw_stack := k; nw_bindings := nw_bindings n; nw_connections := nw_connections n;
     nw_handles := nw_handles n; nw_senders := nw_senders n; nw_ingress := nw_ingress n;
     nw_egress := nw_egress n |}.

Definition with_bindings (n : Network) (b : gset Z) : Network :=
  {| nw_stack := nw_stack n; nw_bindings := b; nw_connections := nw_connections n;
     nw_handles := nw_handles n; nw_senders := nw_senders n; nw_ingress := nw_ingress n;
     nw_egress := nw_egress n |}.

Definition with_ingress (n : Network) (c : EventChannel IngressEvent) : Network :=
  {| nw_stack := nw_stack n; nw_bindings := nw_bindings n; nw_connections := nw_connections n;
     nw_handles := nw_handles n; nw_senders := nw_senders n; nw_ingress := c;
     nw_egress := nw_egress n |}.

Definition with_egress (n : Network) (c : EventChannel EgressEvent) : Network :=
  {| nw_stack := nw_stack n; nw_bindings := nw_bindings n; nw_connections := nw_connections n;
     nw_handles := nw_handles n; nw_senders := nw_senders n; nw_ingress := nw_ingress n;
     nw_egress := c |}.

Definition with_senders (n : Network) (ss : StackSender) : Network :=
  {| nw_stack := nw_stack n; nw_bindings := nw_bindings n; nw_connections := nw_connections n;
     nw_handles := nw_handles n; nw_senders := ss; nw_ingress := nw_ingress n;
     nw_egress := nw_egress n |}.

Definition get_bound (n : Network) (protocol : Protocol) (endpoint : SocketEndpoint) : option Z :=
  fst <$> find (fun hs => bool_decide (Socket_protocol hs.2 = protocol) &&
                          bool_decide (Socket_local_endpoint hs.2 = endpoint) &&
                          bool_decide (hs.1 ∈ nw_bindings n))
            (iteration (sk_sockets (nw_stack n))).

Definition network_bind (n : Network) (protocol : Protocol) (endpoint : SocketEndpoint)
  : result (Z * Network) StackError :=
  let? hk := stack_bind (nw_stack n) protocol endpoint in
  Ok (hk.1, with_bindings (with_stack n hk.2) ({[hk.1]} ∪ nw_bindings n)).

Definition network_unbind (n : Network) (protocol : Protocol) (endpoint : SocketEndpoint)
  : result (Z * Network) StackError :=
  let? hk := stack_unbind (nw_stack n) protocol endpoint in
  Ok (hk.1, with_bindings (with_stack n hk.2) (nw_bindings n ∖ {[hk.1]})).

Definition is_connected (n : Network) (meta : ConnectionMeta) : bool :=
  is_some (nw_connections n !! meta).

Definition add_connection (n : Network) (connection : Connection) : Network :=
  {| nw_stack := nw_stack n; nw_bindings := nw_bindings n;
     nw_connections := <[cn_meta connection := connection]> (nw_connections n);
     nw_handles := <[cn_handle connection := cn_meta connection]> (nw_handles n);
     nw_senders := nw_senders n; nw_ingress := nw_ingress n; nw_egress := nw_egress n |}.

Definition remove_connection (n : Network) (meta : ConnectionMeta) (handle : Z) : Network :=
  {| nw_stack := stack_remove (nw_stack n) meta handle; nw_bindings := nw_bindings n;
     nw_connections :=
       if listen_is_specified (cm_remote meta) then delete meta (nw_connections n)
       else nw_connections n;
     nw_handles := delete handle (nw_handles n);
     nw_senders := sender_remove (nw_senders n) handle; nw_ingress := nw_ingress n; nw_egress := nw_egress n |}.

(** [connect] before the network is polled and the handshake is waited for. *)
Definition network_connect (n : Network) (remote : IpEndpoint) (sample : Z)
  : result Connection StackError * Network :=
  let '(connection, k) := stack_connect (nw_stack n) remote sample in (connection, with_stack n k).

(** [IpAddress::as_bytes]. *)
Definition addr_bytes (a : IpAddress) : list Z :=
  match a with AddrV4 b | AddrV6 b => b end.

(** [disconnect_all] before the network is polled: the connections it closes. *)
Definition disconnect_all (n : Network) (remote_ip : IpAddress) : list Connection * Network :=
  let connections :=
    filter (fun c => addr_bytes (ie_addr (cm_remote (cn_meta c))) = addr_bytes remote_ip /\
                     cm_protocol (cn_meta c) = Tcp)
      ((map_to_list (nw_connections n)).*2) in
  (connections, with_stack n (foldl (fun k c => stack_disconnect k (cn_handle c)) (nw_stack n) connections)).

(** What it does, before it polls again, when not all of them are closed in time. *)
Definition abort_connections (n : Network) (connections : list Connection) : Network :=
  with_stack n
    (foldl (fun k (conn : Connection) =>
       match find (fun cur => bool_decide (cn_meta cur = cn_meta conn))
               ((map_to_list (nw_connections n)).*2) with
       | Some cur => stack_abort k (cn_handle cur)
       | None => k
       end) (nw_stack n) connections).

(** [send]. *)
Definition network_send (n : Network) (data : list Z) (conn : Connection) : Network :=
  with_senders n (sender_send (nw_senders n) data conn).

(** A turn of a task that sends, before the network is polled. *)
Definition sender_turn (n : Network) (i : nat) : Network :=
  match sr_tasks (nw_senders n) !! i with
  | Some t =>
      let '(k, t) := task_turn (nw_stack n) t in
      with_senders (with_stack n k)
        {| sr_map := sr_map (nw_senders n); sr_tasks := <[i := t]> (sr_tasks (nw_senders n)) |}
  | None => n
  end.

(** [receive]. *)
Definition network_receive (n : Network) (data : list Z) : Network :=
  with_stack n (stack_receive (nw_stack n) data).

(** *** Received data *)

(** The [while] loop over one socket: the socket, the network with new connections,
    the events, and whether the batch limit was not reached. *)
Fixpoint recv_loop (fuel : nat) (handle : Z) (desc : SocketDesc) (received : Z)
  (socket : Socket) (n : Network) (events : list IngressEvent)
  : option (Socket * Network * list IngressEvent * bool) :=
  if negb (Socket_can_recv socket) then Some (socket, n, events, true)
  else
    match fuel with
    | O => None
    | Datatypes.S fuel =>
        match Socket_recv socket with
        | (Ok (Some (remote, payload)), socket) =>
            let received := received + zlen payload in
            let desc := {| sdc_protocol := sdc_protocol desc; sdc_local := sdc_local desc;
                           sdc_remote := EpIp remote |} in
            let '(n, events) :=
              match ConnectionMeta_try_from desc with
              | Ok meta =>
                  if is_connected n meta then (n, events)
                  else (add_connection n {| cn_handle := handle; cn_meta := meta |},
                        events ++ [InboundConnection (SocketDesc_from meta)])
              | Err _ => (n, events)
              end in
            let events := events ++ [IngressPacket desc payload] in
            if sc_max_recv_batch config <=? received then Some (socket, n, events, false)
            else recv_loop fuel handle desc received socket n events
        | (Ok None, socket) => Some (socket, n, events, true)
        | (Err _, socket) => recv_loop fuel handle desc received socket n events
        end
    end.

(** What a pass over the sockets collects. *)
Record Pass : Type := {
  ps_network : Network;
  ps_events : list IngressEvent;
  ps_remove : list (ConnectionMeta * Z);
  ps_finished : bool }.

(** A closed socket is announced, if it was connected, and is to be removed. *)
Definition note_closed (p : Pass) (handle : Z) (socket : Socket) : Pass :=
  let desc := Socket_desc socket in
  if Socket_is_closed socket then
    let meta :=
      match nw_handles (ps_network p) !! handle with
      | Some meta => Some meta
      | None => res_ok (ConnectionMeta_try_from desc)
      end in
    {| ps_network := ps_network p;
       ps_events := ps_events p ++
         match meta with Some meta => [Disconnected (SocketDesc_from meta)] | None => [] end;
       ps_remove := ps_remove p ++
         [(default (ConnectionMeta_unspecified (sdc_protocol desc)) meta, handle)];
       ps_finished := ps_finished p |}
  else p.

(** The body of the [for] loop: the pass, and what is to be bound anew. *)
Definition visit_socket (p : Pass) (handle : Z) (socket : Socket)
  : option (Pass * option (Protocol * SocketEndpoint)) :=
  let p := note_closed p handle socket in
  match recv_loop (Socket_recv_queue socket) handle (Socket_desc socket) 0 socket
          (ps_network p) (ps_events p) with
  | None => None
  | Some (socket, n, events, finished) =>
      let k := nw_stack n in
      let n := with_stack n (with_sockets k (<[handle := socket]> (sk_sockets k))) in
      let finished := ps_finished p && finished in
      if bool_decide (handle ∈ nw_bindings n) && endpoint_is_specified (Socket_remote_endpoint socket)
      then
        Some ({| ps_network := with_bindings n (nw_bindings n ∖ {[handle]}); ps_events := events;
                 ps_remove := ps_remove p; ps_finished := false |},
              Some (Socket_protocol socket, Socket_local_endpoint socket))
      else
        Some ({| ps_network := n; ps_events := events; ps_remove := ps_remove p;
                 ps_finished := finished |}, None)
  end.

Fixpoint visit_sockets (l : list (Z * Socket)) (p : Pass)
  : option (Pass * option (Protocol * SocketEndpoint)) :=
  match l with
  | [] => Some (p, None)
  | (handle, socket) :: l =>
      match visit_socket p handle socket with
      | None => None
      | Some (p, Some rebind) => Some (p, Some rebind)
      | Some (p, None) => visit_sockets l p
      end
  end.

(** Events are sent until the channel turns out to be closed. *)
Definition send_events (n : Network) (events : list IngressEvent) : Network :=
  with_ingress n (foldl (fun c e => default c (channel_push c e)) (nw_ingress n) events).

Definition poll_stack (n : Network) : bool * Network :=
  let '(changed, k) := stack_poll (nw_stack n) in (changed, with_stack n k).

Fixpoint process_ingress (fuel : nat) (n : Network) : option (bool * Network) :=
  match fuel with
  | O => None
  | Datatypes.S fuel =>
      match visit_sockets (iteration (sk_sockets (nw_stack n)))
              {| ps_network := n; ps_events := []; ps_remove := []; ps_finished := true |} with
      | None => None
      | Some (p, rebind) =>
          let n := foldl (fun n mh => remove_connection n mh.1 mh.2) (ps_network p) (ps_remove p) in
          let n := send_events n (ps_events p) in
          match rebind with
          | Some (protocol, endpoint) =>
              let n := match network_bind n protocol endpoint with Ok (_, n) => n | Err _ => n end in
              process_ingress fuel (poll_stack n).2
          | None => Some (ps_finished p, n)
          end
      end
  end.

(** *** Data to send *)

(** The loop over the packets the device is to send: what is left, and whether the
    batch limit was not reached. *)
Fixpoint egress_loop (tun : bool) (queue : list (list Z)) (sent : Z) (finished : bool)
  (c : EventChannel EgressEvent) : outcome (list (list Z) * bool * EventChannel EgressEvent) :=
  match queue with
  | [] => Ret ([], finished, c)
  | data :: queue =>
      let! event := if tun then from_ip_packet data else from_eth_frame data in
      match event with
      | Ok event =>
          let sent := sent + zlen (eg_payload event) in
          match channel_push c event with
          | None => Ret (queue, finished, c)
          | Some c => egress_loop tun queue sent (finished && (sent <? sc_max_send_batch config)) c
          end
      | Err _ => egress_loop tun queue sent (finished && (sent <? sc_max_send_batch config)) c
      end
  end.

Definition process_egress (n : Network) : outcome (bool * Network) :=
  let k := nw_stack n in
  let device := sk_device k in
  let! r := egress_loop (dv_tun device) (dv_tx_queue device) 0 true (nw_egress n) in
  let '(queue, finished, c) := r in
  let device := {| dv_tx_queue := queue; dv_rx_queue := dv_rx_queue device; dv_tun := dv_tun device |} in
  Ret (finished, with_egress (with_stack n (with_device k device)) c).

(** One turn of the loop of [poll]: whether it was the last. *)
Definition poll_round (n : Network) : option (outcome (bool * Network)) :=
  let '(changed, n) := poll_stack n in
  if changed || negb (dv_tun (sk_device (nw_stack n))) then
    match process_ingress (Datatypes.S (size (nw_bindings n))) n with
    | None => None
    | Some (true, n) => Some (process_egress n)
    | Some (false, n) => Some (Ret (false, n))
    end
  else Some (Ret (true, n)).

End Network.
