(* ===== verification/StackNetworkProps.v ===== *)
(** Properties of the virtual network ([crates/stack/src/network.rs]): its tables of
    connections agree with the sockets, and polling it returns. *)

From S2P Require Import Prelude Ports StackSocket StackPacket StackNetwork.

(** ** What is known of the library *)

(** A TCP socket that has, or had, a connection that was completed. *)
Definition synchronized (st : TcpSocketState) : Prop :=
  match st with
  | StEstablished | StFinWait1 | StFinWait2 | StCloseWait | StClosing | StLastAck | StTimeWait => True
  | _ => False
  end.

Section Peers.
Context `{S : SmolSockets}.

Definition joined (s : TcpSocket) : Prop := synchronized (tcp_state s) \/ tcp_state s = StClosed.

(** Both ends of a socket. *)
Definition ends_of (s : TcpSocket) : option (IpEndpoint * IpEndpoint) :=
  match tcp_local_endpoint s, tcp_remote_endpoint s with
  | Some local, Some remote => Some (local, remote)
  | _, _ => None
  end.

(** A connection keeps its ends until it is closed, and is never opened again. *)
Definition peer_kept (s s' : TcpSocket) : Prop :=
  joined s -> joined s' /\ (tcp_state s = StClosed -> tcp_state s' = StClosed) /\
  (ends_of s' = ends_of s \/ ends_of s' = None /\ tcp_state s' = StClosed).

(** A change that concerns neither the state nor the ends. *)
Definition same_ends (s s' : TcpSocket) : Prop :=
  tcp_state s' = tcp_state s /\ tcp_local_endpoint s' = tcp_local_endpoint s /\
  tcp_remote_endpoint s' = tcp_remote_endpoint s.

Lemma same_ends_kept s s' : same_ends s s' -> peer_kept s s'.
Proof.
  intros (Hs & Hl & Hr) Hj. unfold joined, ends_of. rewrite Hs, Hl, Hr. auto.
Qed.

(** The same socket after the interface was polled; [quiet] if no packet had come. *)
Definition polled_socket (quiet : bool) (s s' : Socket) : Prop :=
  match s, s' with
  | SkTcp s, SkTcp s' =>
      peer_kept s s' /\
      (quiet = true -> tcp_remote_endpoint s = None -> tcp_remote_endpoint s' = None)
  | SkUdp _, SkUdp _ | SkIcmp _, SkIcmp _ | SkRaw _, SkRaw _ | SkDhcpv4, SkDhcpv4 | SkDns, SkDns => True
  | _, _ => False
  end.
End Peers.

(** The documented behaviour of smoltcp the proofs rely on. *)
Class SmolLaws `{I : SmolIface} : Prop := {
  (** A new socket gets a handle that is not in use, and a traversal visits every
      socket once. *)
  next_handle_fresh m : m !! next_handle m = None;
  iteration_perm m : iteration m ≡ₚ map_to_list m;
  (** A socket that can receive does receive. *)
  tcp_recv_some s : tcp_can_recv s = true ->
    exists bytes s', tcp_recv s = Some (bytes, s') /\ (tcp_recv_queue s' < tcp_recv_queue s)%nat;
  udp_recv_some s : udp_can_recv s = true ->
    exists bytes e s', udp_recv s = Some (bytes, e, s') /\ (udp_recv_queue s' < udp_recv_queue s)%nat;
  icmp_recv_some s : icmp_can_recv s = true ->
    exists bytes a s', icmp_recv s = Some (bytes, a, s') /\ (icmp_recv_queue s' < icmp_recv_queue s)%nat;
  raw_recv_some s : raw_can_recv s = true ->
    exists bytes s', raw_recv s = Some (bytes, s') /\ (raw_recv_queue s' < raw_recv_queue s)%nat;
  tcp_recv_keeps s bytes s' : tcp_recv s = Some (bytes, s') -> same_ends s s';
  tcp_send_keeps data s count s' : tcp_send_slice data s = Some (count, s') -> same_ends s s';
  tcp_set_defaults_keeps s : same_ends s (tcp_set_defaults s);
  (** Data comes from connections. *)
  tcp_can_recv_joined s : tcp_can_recv s = true -> joined s;
  tcp_can_send_joined s : tcp_can_send s = true -> joined s;
  (** The other end of a connection has an address and a port. *)
  tcp_remote_specified s e : tcp_remote_endpoint s = Some e -> listen_is_specified e = true;
  (** A socket that is not connected has no ends. *)
  tcp_listen_unconnected ep s s' : tcp_listen ep s = Some s' ->
    tcp_state s' = StListen;
  tcp_listening_no_ends s : tcp_state s = StListen ->
    tcp_local_endpoint s = None /\ tcp_remote_endpoint s = None;
  tcp_close_keeps s : peer_kept s (tcp_close s);
  tcp_abort_keeps s : peer_kept s (tcp_abort s);
  (** Polling takes all packets in, and leaves every socket in place; a connection is
      accepted only when packets come. *)
  iface_poll_keeps i d m :
    let '(_, _, d', m') := iface_poll i d m in
    dv_rx_queue d' = [] /\ dv_tun d' = dv_tun d /\
    forall h, option_Forall2 (polled_socket (bool_decide (dv_rx_queue d = []))) (m !! h) (m' !! h) }.

Section Props.
Context `{L : SmolLaws} (config : StackConfig).

(** ** The tables *)

Abbreviation sockets n := (sk_sockets (nw_stack n)).

(** The socket of a handle that is registered for a connection. *)
Definition socket_of (m : ConnectionMeta) (sk : option Socket) : Prop :=
  exists s, sk = Some (SkTcp s) /\ joined s /\
    (ends_of s = Some (cm_local m, cm_remote m) \/ ends_of s = None /\ tcp_state s = StClosed).

(** Sockets are TCP sockets; a registered handle is that of a socket with the ends
    of its connection, or of one that was closed; and the entry of a connection is
    under its description, and its handle is registered for it. *)
Record tables_ok (n : Network) : Prop := {
  all_tcp : forall h s, sockets n !! h = Some s -> exists t, s = SkTcp t;
  handles_ok : forall h m, nw_handles n !! h = Some m ->
    socket_of m (sockets n !! h) /\ listen_is_specified (cm_remote m) = true /\ cm_protocol m = Tcp;
  connections_ok : forall m c, nw_connections n !! m = Some c ->
    cn_meta c = m /\ nw_handles n !! cn_handle c = Some m }.

(** Changes of sockets that keep the tables right. *)
Definition sockets_kept (m m' : gmap Z Socket) : Prop :=
  (forall h s, m' !! h = Some s -> exists t, s = SkTcp t) /\
  (forall h s, m !! h = Some (SkTcp s) -> exists s', m' !! h = Some (SkTcp s') /\ peer_kept s s').

Lemma socket_of_kept m s s' : peer_kept s s' -> socket_of m (Some (SkTcp s)) -> socket_of m (Some (SkTcp s')).
Proof.
  intros Hk (? & [= <-] & Hj & He). destruct (Hk Hj) as (Hj' & Hc & He').
  exists s'. split; [done|]. split; [done|]. destruct He as [He|[He Hcl]].
  - rewrite <- He. destruct He' as [->|?]; auto.
  - right. split; [|auto]. destruct He' as [->|[]]; auto.
Qed.

Lemma tables_stack n k : tables_ok n -> sockets_kept (sockets n) (sk_sockets k) -> tables_ok (with_stack n k).
Proof.
  intros [Ht Hh Hc] [Ht' Hk]. split; simpl; [done| |done].
  intros h m Hm. destruct (Hh h m Hm) as [Hs Hr]. split; [|done].
  pose proof Hs as (s & Hs1 & _). destruct (Hk h s Hs1) as (s' & -> & Hk').
  rewrite Hs1 in Hs. by eapply socket_of_kept.
Qed.

Lemma peer_kept_refl (s : TcpSocket) : peer_kept s s.
Proof. apply same_ends_kept. by split. Qed.

Lemma same_ends_trans (a b c : TcpSocket) : same_ends a b -> same_ends b c -> same_ends a c.
Proof. unfold same_ends. intros (-> & -> & ->) (-> & -> & ->). done. Qed.

(** A TCP socket under a handle, in place of one whose connection it keeps. *)
Lemma sockets_kept_insert m h t :
  (forall h s, m !! h = Some s -> exists t, s = SkTcp t) ->
  (forall s, m !! h = Some (SkTcp s) -> peer_kept s t) -> sockets_kept m (<[h := SkTcp t]> m).
Proof.
  intros Ht Hk. split.
  - intros g s [[_ <-]|[_ Hg]]%lookup_insert_Some; eauto.
  - intros g s Hg. destruct (decide (h = g)) as [->|Hne].
    + rewrite lookup_insert_eq. eauto.
    + rewrite lookup_insert_ne by done. eauto using peer_kept_refl.
Qed.

Lemma add_socket_kept k t :
  (forall h s, sk_sockets k !! h = Some s -> exists t, s = SkTcp t) ->
  sockets_kept (sk_sockets k) (sk_sockets (add_socket k (SkTcp t)).2).
Proof. intros Ht. apply sockets_kept_insert; [done|]. by rewrite next_handle_fresh. Qed.

Lemma on_tcp_socket_kept f k h : (forall s, peer_kept s (f s)) ->
  (forall h s, sk_sockets k !! h = Some s -> exists t, s = SkTcp t) ->
  sockets_kept (sk_sockets k) (sk_sockets (on_tcp_socket f k h)).
Proof.
  intros Hf Ht. unfold on_tcp_socket, get_tcp_socket.
  destruct (sk_sockets k !! h) as [[t| | | | | ]|] eqn:E; try (split; eauto using peer_kept_refl; fail).
  apply sockets_kept_insert; [done|]. intros s. rewrite E. by intros [= <-].
Qed.

Lemma peer_kept_trans (a b c : TcpSocket) : peer_kept a b -> peer_kept b c -> peer_kept a c.
Proof.
  intros Hab Hbc Ha. destruct (Hab Ha) as (Hb & Hc1 & He1). destruct (Hbc Hb) as (Hc & Hc2 & He2).
  split; [done|]. split; [auto|]. destruct He2 as [->|?]; [|auto].
  destruct He1 as [?|[? ?]]; auto.
Qed.

Lemma sockets_kept_trans a b c : sockets_kept a b -> sockets_kept b c -> sockets_kept a c.
Proof.
  intros [_ Hab] [Hc Hbc]. split; [done|]. intros h s Hs.
  destruct (Hab h s Hs) as (s' & Hs' & Hk). destruct (Hbc h s' Hs') as (s'' & ? & Hk').
  eauto using peer_kept_trans.
Qed.

Lemma sockets_kept_refl m :
  (forall h s, m !! h = Some s -> exists t, s = SkTcp t) -> sockets_kept m m.
Proof. split; eauto using peer_kept_refl. Qed.

Lemma foldl_stack_kept {A} (f : Stack -> A -> Stack) l k :
  (forall k x, (forall h s, sk_sockets k !! h = Some s -> exists t, s = SkTcp t) ->
     sockets_kept (sk_sockets k) (sk_sockets (f k x))) ->
  (forall h s, sk_sockets k !! h = Some s -> exists t, s = SkTcp t) ->
  sockets_kept (sk_sockets k) (sk_sockets (foldl f k l)).
Proof.
  intros Hf. revert k. induction l as [|x l IH]; intros k Ht; simpl; [by apply sockets_kept_refl|].
  pose proof (Hf k x Ht) as Hk. eapply sockets_kept_trans; [exact Hk|]. apply IH, Hk.
Qed.

Lemma stack_poll_kept k :
  (forall h s, sk_sockets k !! h = Some s -> exists t, s = SkTcp t) ->
  sockets_kept (sk_sockets k) (sk_sockets (stack_poll k).2).
Proof.
  intros Ht. unfold stack_poll. pose proof (iface_poll_keeps (sk_iface k) (sk_device k) (sk_sockets k)) as Hp.
  destruct (iface_poll _ _ _) as [[[b i] d] m']. destruct Hp as (_ & _ & Hp). simpl. split.
  - intros h s' Hs'. specialize (Hp h). rewrite Hs' in Hp. inversion Hp as [s ? Hsk Hs|]; subst.
    symmetry in Hs. destruct (Ht h s Hs) as [t ->]. destruct s'; try done. eauto.
  - intros h s Hs. specialize (Hp h). rewrite Hs in Hp. inversion Hp as [? s' Hsk|]; subst.
    destruct s' as [s'| | | | |]; try done. destruct Hsk. eauto.
Qed.

(** ** A pass over the sockets *)

(** Taking the sockets one by one changes neither their states nor their ends. *)
Definition same_socket (s s' : Socket) : Prop :=
  match s, s' with
  | SkTcp s, SkTcp s' => same_ends s s'
  | _, _ => False
  end.

(** Nothing else than the entry of [meta] refers to the handle. *)
Definition removable (n : Network) (mh : ConnectionMeta * Z) : Prop :=
  (forall m, nw_handles n !! mh.2 = Some m -> m = mh.1) /\
  (forall s l r, sockets n !! mh.2 = Some (SkTcp s) -> ends_of s = Some (l, r) ->
     mh.1 = {| cm_protocol := Tcp; cm_local := l; cm_remote := r |}).

Lemma ends_meta s l r :
  ConnectionMeta_try_from
    {| sdc_protocol := Tcp; sdc_local := SocketEndpoint_from (tcp_local_endpoint s); sdc_remote := EpIp r |} = Ok l ->
  tcp_remote_endpoint s = Some r ->
  ends_of s = Some (cm_local l, cm_remote l) /\ cm_protocol l = Tcp /\ cm_remote l = r.
Proof.
  unfold ConnectionMeta_try_from, ends_of. simpl. intros Hl ->.
  destruct (tcp_local_endpoint s); simpl in Hl; [|done]. by injection Hl as <-.
Qed.

(** A connection is entered for a socket with its ends. *)
Lemma add_connection_ok n h s m :
  tables_ok n -> sockets n !! h = Some (SkTcp s) -> joined s ->
  ends_of s = Some (cm_local m, cm_remote m) -> cm_protocol m = Tcp ->
  tables_ok (add_connection n {| cn_handle := h; cn_meta := m |}) /\
  (forall mh, removable n mh -> removable (add_connection n {| cn_handle := h; cn_meta := m |}) mh).
Proof.
  intros [Ht Hh Hc] Hs Hj He Hp. assert (Hsame : forall m', nw_handles n !! h = Some m' -> m' = m).
  { intros m' [(s' & Hs' & _ & He') [_ Hp']]%Hh. rewrite Hs in Hs'. injection Hs' as <-.
    destruct He' as [He'|[He' _]]; rewrite He in He'; [|done]. injection He' as H1 H2.
    destruct m, m'; simpl in *; congruence. }
  split; [split|]; cbn [add_connection nw_stack nw_handles nw_connections cn_handle cn_meta].
  - done.
  - intros g m' [[<- <-]|[_ Hg]]%lookup_insert_Some; [|by apply Hh].
    split; [exists s; auto|]. split; [|done]. unfold ends_of in He.
    destruct (tcp_local_endpoint s), (tcp_remote_endpoint s) eqn:Hr; try done.
    injection He as _ <-. by eapply tcp_remote_specified.
  - intros m' c [[<- <-]|[Hne Hg]]%lookup_insert_Some; [by rewrite lookup_insert_eq|].
    destruct (Hc m' c Hg) as [Hm Hhc]. split; [done|].
    destruct (decide (cn_handle c = h)) as [Heq|?]; [|by rewrite lookup_insert_ne].
    rewrite Heq in Hhc. by apply Hsame in Hhc.
  - intros [meta g] [H1 H2]. split; simpl in *; [|done].
    intros m' [[<- <-]|[_ Hg]]%lookup_insert_Some; [|auto].
    rewrite (H2 s _ _ Hs He). destruct m; simpl in *; congruence.
Qed.

Lemma recv_loop_ok h s0 fuel : forall desc received s n events,
  tables_ok n -> sockets n !! h = Some (SkTcp s0) -> same_ends s0 s ->
  sdc_protocol desc = Tcp -> sdc_local desc = SocketEndpoint_from (tcp_local_endpoint s0) ->
  (tcp_recv_queue s <= fuel)%nat ->
  exists s' n' events' finished,
    recv_loop config fuel h desc received (SkTcp s) n events = Some (SkTcp s', n', events', finished) /\
    tables_ok n' /\ same_ends s0 s' /\ nw_stack n' = nw_stack n /\ nw_bindings n' = nw_bindings n /\
    (forall mh, removable n mh -> removable n' mh).
Proof.
  induction fuel as [|fuel IH]; intros desc received s n events Hn Hs0 Hs Hp Hl Hq; cbn [recv_loop];
    cbn [Socket_can_recv]; destruct (tcp_can_recv s) eqn:Hcr; cbn [negb];
    try (eexists _, _, _, _; split_and!; [reflexivity|done..|eauto]).
  { destruct (tcp_recv_some s Hcr) as (? & ? & _ & ?). lia. }
  destruct (tcp_recv_some s Hcr) as (bytes & s1 & Hr & Hlt).
  pose proof (same_ends_trans _ _ _ Hs (tcp_recv_keeps _ _ _ Hr)) as Hs1.
  cbn [Socket_recv]. rewrite Hr.
  destruct (tcp_remote_endpoint s1) as [remote|] eqn:Hrem; [|eauto 15].
  cbv zeta. rewrite Hp, Hl.
  match goal with |- context [let '(n, events) := ?x in _] => assert (exists n1 ev1, x = (n1, ev1) /\
    tables_ok n1 /\ nw_stack n1 = nw_stack n /\ nw_bindings n1 = nw_bindings n /\
    (forall mh, removable n mh -> removable n1 mh)) as (n1 & ev1 & -> & Hn1 & Hk1 & Hb1 & Hrm1) end.
  { destruct (ConnectionMeta_try_from _) as [m|] eqn:Em; [|eauto 10].
    destruct (is_connected n m); [eauto 10|].
    destruct (ends_meta s0 m remote Em) as (He & Hpm & _). { by destruct Hs1 as (_ & _ & <-). }
    destruct (add_connection_ok n h s0 m Hn Hs0) as [Ha Hb]; [|done..|eauto 10].
    destruct Hs as (Hst & _). unfold joined. rewrite <- Hst. by apply tcp_can_recv_joined. }
  case_match_goal; [eauto 15|].
  destruct (IH {| sdc_protocol := Tcp; sdc_local := SocketEndpoint_from (tcp_local_endpoint s0);
                  sdc_remote := EpIp remote |} (received + zlen bytes) s1 n1
              (ev1 ++ [IngressPacket {| sdc_protocol := Tcp;
                 sdc_local := SocketEndpoint_from (tcp_local_endpoint s0);
                 sdc_remote := EpIp remote |} bytes]))
    as (s' & n' & ev' & f & -> & ? & ? & Hk & Hb & ?); try done; [by rewrite Hk1|lia|].
  eexists _, _, _, _. split; [reflexivity|]. rewrite Hk, Hb. auto 10.
Qed.

(** A socket that has accepted a connection. *)
Definition accepted (sk : option Socket) : bool :=
  match sk with Some s => endpoint_is_specified (Socket_remote_endpoint s) | None => false end.

Definition socket_same (a b : option Socket) : Prop := option_Forall2 same_socket a b.

Lemma accepted_same a b : socket_same a b -> accepted b = accepted a.
Proof.
  intros [s s' Hs|]; [|done]. destruct s as [t| | | | |], s' as [t'| | | | |]; try done.
  destruct Hs as (_ & _ & Hr). simpl. by rewrite Hr.
Qed.

(** The state of a pass that began with the network [n0]. *)
Record pass_ok (n0 : Network) (p : Pass) : Prop := {
  pass_tables : tables_ok (ps_network p);
  pass_remove : Forall (removable (ps_network p)) (ps_remove p);
  pass_sockets : forall h, socket_same (sockets n0 !! h) (sockets (ps_network p) !! h);
  pass_device : sk_device (nw_stack (ps_network p)) = sk_device (nw_stack n0) }.

(** The bindings after a pass: one of them may have accepted a connection. *)
Definition bindings_after (n0 n : Network) (rebind : option (Protocol * SocketEndpoint)) : Prop :=
  match rebind with
  | None => nw_bindings n = nw_bindings n0
  | Some (protocol, _) => protocol = Tcp /\ exists h, h ∈ nw_bindings n0 /\
      accepted (sockets n0 !! h) = true /\ nw_bindings n = nw_bindings n0 ∖ {[h]}
  end.

Lemma removable_socket n h t t' mh :
  same_ends t t' -> sockets n !! h = Some (SkTcp t) -> removable n mh ->
  removable (with_stack n (with_sockets (nw_stack n) (<[h := SkTcp t']> (sockets n)))) mh.
Proof.
  destruct mh as [meta g]. intros (_ & Hl & Hr) Ht [H1 H2]. split; simpl in *; [done|].
  intros s l r [[<- [= <-]]|[_ Hs]]%lookup_insert_Some He; [|eauto].
  apply (H2 t l r Ht). unfold ends_of in *. by rewrite <- Hl, <- Hr.
Qed.

Lemma note_closed_ok n0 p h s : pass_ok n0 p -> sockets (ps_network p) !! h = Some (SkTcp s) ->
  pass_ok n0 (note_closed p h (SkTcp s)) /\ ps_network (note_closed p h (SkTcp s)) = ps_network p.
Proof.
  intros [Ht Hr Hs Hd] Hh. unfold note_closed. destruct (Socket_is_closed _); [|done].
  split; [|done]. split; simpl; [done| |done..].
  apply Forall_app. split; [done|]. apply Forall_singleton. split; simpl.
  - by intros m ->.
  - intros s' l r. rewrite Hh. intros [= <-] He.
    destruct (nw_handles (ps_network p) !! h) as [m|] eqn:Em; simpl.
    + destruct (handles_ok _ Ht h m Em) as [(s' & Hs' & _ & He') [_ Hp]].
      rewrite Hh in Hs'. injection Hs' as <-. destruct He' as [He'|[He' _]]; rewrite He in He'; [|done].
      injection He' as -> ->. destruct m; simpl in *; congruence.
    + unfold ends_of in He. unfold ConnectionMeta_try_from, Socket_desc. simpl.
      destruct (tcp_local_endpoint s), (tcp_remote_endpoint s); try done. by injection He as -> ->.
Qed.

Lemma visit_socket_ok n0 p h s :
  pass_ok n0 p -> sockets (ps_network p) !! h = Some s ->
  nw_bindings (ps_network p) = nw_bindings n0 ->
  exists p' rebind, visit_socket config p h s = Some (p', rebind) /\ pass_ok n0 p' /\
    bindings_after n0 (ps_network p') rebind /\
    (forall g, g <> h -> sockets (ps_network p') !! g = sockets (ps_network p) !! g).
Proof.
  intros Hp Hs HB. destruct (all_tcp _ (pass_tables _ _ Hp) h s Hs) as [t ->].
  unfold visit_socket. destruct (note_closed_ok n0 p h t Hp Hs) as [Hp1 Hn1].
  set (p1 := note_closed p h (SkTcp t)) in *. cbv zeta. rewrite <- Hn1 in Hs, HB |- *.
  destruct (recv_loop_ok h t (tcp_recv_queue t) (Socket_desc (SkTcp t)) 0 t (ps_network p1) (ps_events p1))
    as (t' & n' & ev' & f & Hloop & Hn' & Ht' & Hk & HB' & Hrm); try done; [by destruct Hp1|].
  cbn [Socket_recv_queue]. rewrite Hloop. rewrite <- Hk in Hs.
  assert (forall b, pass_ok n0 {| ps_network := with_bindings (with_stack n' (with_sockets (nw_stack n')
    (<[h:=SkTcp t']> (sockets n')))) b; ps_events := ev'; ps_remove := ps_remove p1;
    ps_finished := false |}) as Hok.
  { intros b. destruct Hp1 as [_ Hr1 Hs1 Hd1]. split; simpl.
    - destruct (tables_stack n' (with_sockets (nw_stack n') (<[h := SkTcp t']> (sockets n'))) Hn') as [A B C].
      { apply sockets_kept_insert; [by destruct Hn'|]. intros s. rewrite Hs. intros [= <-].
        by apply same_ends_kept. }
      by split.
    - eapply Forall_impl; [exact Hr1|]. intros mh Hmh. apply Hrm in Hmh.
      by apply (removable_socket n' h t t' mh).
    - intros g. specialize (Hs1 g). rewrite Hk. destruct (decide (g = h)) as [->|?].
      + rewrite lookup_insert_eq. rewrite <- Hk, Hs in Hs1. inversion Hs1 as [a ? Ha|]; subst.
        constructor. destruct a; try done. by eapply same_ends_trans.
      + by rewrite lookup_insert_ne.
    - by rewrite Hk. }
  assert (Hacc : accepted (sockets n0 !! h) = endpoint_is_specified (Socket_remote_endpoint (SkTcp t'))).
  { pose proof (pass_sockets _ _ (Hok ∅) h) as Hsame. simpl in Hsame. rewrite lookup_insert_eq in Hsame.
    by rewrite <- (accepted_same _ _ Hsame). }
  cbn [nw_bindings with_stack]. case_match_goal; eexists _, _.
  - split; [reflexivity|]. split; [apply Hok|]. b2p. split.
    + split; [done|]. exists h. rewrite <- HB, <- HB'. split; [done|]. split; [congruence|done].
    + intros g ?. simpl. rewrite lookup_insert_ne by done. by rewrite Hk.
  - split; [reflexivity|]. destruct (Hok (nw_bindings n')) as [A B C D].
    split; [by split; destruct n'|]. split; [by simpl; rewrite HB'|].
    intros g ?. simpl. rewrite lookup_insert_ne by done. by rewrite Hk.
Qed.

Lemma visit_sockets_ok n0 l : forall p,
  NoDup l.*1 -> (forall h s, (h, s) ∈ l -> sockets (ps_network p) !! h = Some s) ->
  pass_ok n0 p -> nw_bindings (ps_network p) = nw_bindings n0 ->
  exists p' rebind, visit_sockets config l p = Some (p', rebind) /\ pass_ok n0 p' /\
    bindings_after n0 (ps_network p') rebind.
Proof.
  induction l as [|[h s] l IH]; intros p Hnd Hl Hp HB; cbn [visit_sockets].
  { by eexists _, None. }
  apply NoDup_cons in Hnd as [Hh Hnd].
  destruct (visit_socket_ok n0 p h s Hp) as (p' & rb & -> & Hp' & Hb & Hg); [apply Hl; by left|done|].
  destruct rb as [rb|]; [by eexists _, _|]. apply IH; [done| |done..].
  intros g s' Hin. rewrite Hg; [apply Hl; by right|]. intros ->. apply Hh.
  apply list_elem_of_fmap. by exists (h, s').
Qed.

Lemma remove_connection_ok n mh : tables_ok n -> removable n mh ->
  tables_ok (remove_connection n mh.1 mh.2) /\
  forall mh', removable n mh' -> removable (remove_connection n mh.1 mh.2) mh'.
Proof.
  destruct mh as [meta h]. intros [Ht Hh Hc] [Hr _]. simpl in *.
  assert (Hsub : forall g s, sockets (remove_connection n meta h) !! g = Some s -> sockets n !! g = Some s).
  { intros g s. simpl. unfold stack_remove. destruct (sk_sockets _ !! h); [|done]. simpl.
    by intros [_ ?]%lookup_delete_Some. }
  split; [split|].
  - eauto.
  - intros g m Hm. simpl in Hm. apply lookup_delete_Some in Hm as [Hne Hm].
    destruct (Hh g m Hm) as [Hs ?]. split; [|done]. simpl. unfold stack_remove. destruct (sk_sockets _ !! h); [|done]. simpl.
    by rewrite lookup_delete_ne.
  - intros m c. simpl. intros Hm. assert (nw_connections n !! m = Some c /\ (m <> meta \/ listen_is_specified (cm_remote meta) = false))
      as [Hm1 Hor]. { case_match; [apply lookup_delete_Some in Hm as [? ?]; auto|auto]. }
    destruct (Hc m c Hm1) as [? Hhc]. split; [done|]. apply lookup_delete_Some. split; [|done].
    intros ->. destruct (Hh _ _ Hhc) as (_ & Hsp & _). apply Hr in Hhc as ->. by destruct Hor; [|congruence].
  - intros [m g] [H1 H2]. split; simpl in *; [|eauto]. intros m' Hm'. simpl in Hm'. apply lookup_delete_Some in Hm' as [_ ?]; auto.
Qed.

Lemma remove_all_ok l : forall n, tables_ok n -> Forall (removable n) l ->
  let n' := foldl (fun n mh => remove_connection n mh.1 mh.2) n l in
  tables_ok n' /\ nw_bindings n' = nw_bindings n /\ sk_device (nw_stack n') = sk_device (nw_stack n) /\
  (forall h s, sockets n' !! h = Some s -> sockets n !! h = Some s).
Proof.
  induction l as [|mh l IH]; intros n Hn Hl; simpl; [done|].
  apply Forall_cons in Hl as [Hm Hl]. destruct (remove_connection_ok n mh Hn Hm) as [Hn1 Hr].
  destruct (IH _ Hn1) as (? & HB & Hd & Hs). { eapply Forall_impl; [exact Hl|]. auto. }
  split; [done|]. split; [by rewrite HB|]. split.
  - rewrite Hd. simpl. unfold stack_remove. by case_match_goal.
  - intros h s Hh%Hs. simpl in Hh. unfold stack_remove in Hh.
    destruct (sk_sockets _ !! mh.2); [|done]. simpl in Hh; by apply lookup_delete_Some in Hh as [_ ?].
Qed.

(** ** Accepting connections ends *)

(** The listening sockets that have accepted a connection. *)
Definition to_rebind (n : Network) : gset Z :=
  filter (fun h => accepted (sockets n !! h) = true) (nw_bindings n).

Lemma network_bind_ok n endpoint h n' : tables_ok n -> network_bind config n Tcp endpoint = Ok (h, n') ->
  tables_ok n' /\ sk_device (nw_stack n') = sk_device (nw_stack n) /\
  nw_bindings n' = {[h]} ∪ nw_bindings n /\ accepted (sockets n' !! h) = false /\
  (forall g, g <> h -> sockets n' !! g = sockets n !! g).
Proof.
  intros Hn. unfold network_bind, stack_bind. destruct endpoint as [ep| |]; try done.
  destruct (tcp_listen ep _) as [t|] eqn:Et; simpl; [|done]. intros [= <- <-].
  pose proof (add_socket_kept (nw_stack n) (tcp_set_defaults t) (all_tcp _ Hn)) as Hk.
  destruct (tables_stack n _ Hn Hk) as [A B C]. split; [by split|]. split_and!; simpl; [done|done| |].
  - rewrite lookup_insert_eq. simpl. destruct (tcp_set_defaults_keeps t) as (_ & _ & ->).
    by destruct (tcp_listening_no_ends t (tcp_listen_unconnected _ _ _ Et)) as [_ ->].
  - intros g ?. by rewrite lookup_insert_ne.
Qed.

Lemma poll_stack_ok n : tables_ok n ->
  tables_ok (poll_stack n).2 /\ dv_rx_queue (sk_device (nw_stack (poll_stack n).2)) = [] /\
  nw_bindings (poll_stack n).2 = nw_bindings n /\
  (dv_rx_queue (sk_device (nw_stack n)) = [] -> forall h,
     accepted (sockets (poll_stack n).2 !! h) = true -> accepted (sockets n !! h) = true).
Proof.
  intros Hn. pose proof (stack_poll_kept (nw_stack n) (all_tcp _ Hn)) as Hk.
  pose proof (tables_stack n _ Hn Hk) as Hn'. clear Hk. revert Hn'. unfold poll_stack, stack_poll.
  pose proof (iface_poll_keeps (sk_iface (nw_stack n)) (sk_device (nw_stack n)) (sockets n)) as Hp.
  destruct (iface_poll _ _ _) as [[[b i] d] m']. destruct Hp as (Hrx & _ & Hp). simpl. intros Hn'.
  split_and!; [done..|]. intros Hq h. specialize (Hp h). rewrite Hq, bool_decide_true in Hp by done.
  destruct Hp as [s s' Hs|]; [|done]. destruct s as [t| | | | |], s' as [t'| | | | |]; try done.
  destruct Hs as [_ Hs]. simpl. destruct (tcp_remote_endpoint t) eqn:E.
  - simpl. intros _. by eapply tcp_remote_specified.
  - by rewrite Hs.
Qed.

(** After an accepted connection was taken over, a socket listens in its place, and
    no other accepts one before packets come. *)
Lemma rebind_ok n0 n endpoint :
  tables_ok n -> dv_rx_queue (sk_device (nw_stack n)) = [] ->
  (forall h, accepted (sockets n !! h) = true -> accepted (sockets n0 !! h) = true) ->
  bindings_after n0 n (Some (Tcp, endpoint)) ->
  let n1 := match network_bind config n Tcp endpoint with Ok (_, n) => n | Err _ => n end in
  tables_ok (poll_stack n1).2 /\ dv_rx_queue (sk_device (nw_stack (poll_stack n1).2)) = [] /\
  (size (to_rebind (poll_stack n1).2) < size (to_rebind n0))%nat.
Proof.
  intros Hn Hq Hacc (_ & h & HhB & Hha & HB) n1.
  assert (tables_ok n1 /\ dv_rx_queue (sk_device (nw_stack n1)) = [] /\
    (forall g, g ∈ to_rebind n1 -> g ∈ nw_bindings n /\ accepted (sockets n !! g) = true)) as (Hn1 & Hq1 & Hr1).
  { unfold n1. destruct (network_bind config n Tcp endpoint) as [[h' n']|] eqn:Eb.
    - destruct (network_bind_ok _ _ _ _ Hn Eb) as (? & Hd & HB' & Hf & Hg). split; [done|].
      split; [by rewrite Hd|]. unfold to_rebind. intros g [Ha Hin]%elem_of_filter.
      destruct (decide (g = h')) as [->|Hne]; [congruence|]. rewrite Hg in Ha by done.
      split; [|done]. set_solver.
    - split; [done|]. split; [done|]. by intros g [? ?]%elem_of_filter. }
  destruct (poll_stack_ok n1 Hn1) as (? & ? & HB2 & Hp). split_and!; [done..|].
  assert (h ∈ to_rebind n0) by (by apply elem_of_filter).
  apply subset_size. cut (to_rebind (poll_stack n1).2 ⊆ to_rebind n0 ∖ {[h]}); [set_solver|].
  intros g [Ha Hin]%elem_of_filter. rewrite HB2 in Hin.
  destruct (Hr1 g) as [Hgb Hga]. { apply elem_of_filter. auto. }
  rewrite HB in Hgb. apply elem_of_difference. split; [|set_solver]. apply elem_of_filter.
  split; [auto|set_solver].
Qed.

(** [process_ingress] returns, and keeps the tables. *)
Lemma process_ingress_total fuel : forall n,
  tables_ok n -> dv_rx_queue (sk_device (nw_stack n)) = [] -> (size (to_rebind n) < fuel)%nat ->
  exists finished n', process_ingress config fuel n = Some (finished, n') /\ tables_ok n'.
Proof.
  induction fuel as [|fuel IH]; intros n Hn Hq Hf; [lia|]. cbn [process_ingress].
  pose proof (iteration_perm (sockets n)) as Hperm.
  destruct (visit_sockets_ok n (iteration (sockets n))
    {| ps_network := n; ps_events := []; ps_remove := []; ps_finished := true |})
    as (p & rb & -> & [Ht Hr Hs Hd] & HB).
  - rewrite Hperm. apply NoDup_fst_map_to_list.
  - intros h s. rewrite Hperm. by intros ?%elem_of_map_to_list.
  - split; simpl; [done|constructor| |done]. intros h. destruct (sockets n !! h) as [s|] eqn:E; [|constructor].
    constructor. destruct (all_tcp _ Hn h s E) as [t ->]. by split.
  - done.
  - destruct (remove_all_ok (ps_remove p) (ps_network p) Ht Hr) as (Hn1 & HB1 & Hd1 & Hs1).
    set (n1 := foldl _ (ps_network p) (ps_remove p)) in *.
    assert (Hn2 : tables_ok (send_events n1 (ps_events p))) by (destruct Hn1; by split).
    destruct rb as [[protocol ep]|]; [|eauto]. pose proof HB as [-> _].
    destruct (rebind_ok n (send_events n1 (ps_events p)) ep) as (H1 & H2 & H3); [done| | | |].
    + simpl. by rewrite Hd1, Hd.
    + simpl. intros h. destruct (sockets n1 !! h) as [s|] eqn:E; [|done]. apply Hs1 in E.
      specialize (Hs h). rewrite <- (accepted_same _ _ Hs). by rewrite E.
    + simpl in *. by rewrite HB1.
    + apply IH; [done..|]. lia.
Qed.

(** ** What happens to a network *)

(** The turns of its loop and of its tasks, and the operations of its users but for
    sending.  An attempt to connect completes on the socket it has opened. *)
Inductive network_act (n : Network) : Network -> Prop :=
| act_bind endpoint h n' :
    network_bind config n Tcp endpoint = Ok (h, n') -> network_act n n'
| act_connect remote sample : network_act n (network_connect config n remote sample).2
| act_connected c s :
    Connect_poll (nw_stack n) c = Some (Ok c) ->
    sockets n !! cn_handle c = Some (SkTcp s) -> cm_protocol (cn_meta c) = Tcp ->
    ends_of s = Some (cm_local (cn_meta c), cm_remote (cn_meta c)) ->
    network_act n (add_connection n c)
| act_disconnect remote_ip : network_act n (disconnect_all n remote_ip).2
| act_abort connections : network_act n (abort_connections n connections)
| act_receive data : network_act n (network_receive n data)
| act_turn i : network_act n (sender_turn n i)
| act_poll finished n' : poll_round config n = Some (Ret (finished, n')) -> network_act n n'.

Inductive network_step (n : Network) : Network -> Prop :=
| step_act n' : network_act n n' -> network_step n n'
| step_send data conn : network_step n (network_send n data conn).

Lemma stack_connect_kept k remote sample :
  (forall h s, sk_sockets k !! h = Some s -> exists t, s = SkTcp t) ->
  sockets_kept (sk_sockets k) (sk_sockets (stack_connect config k remote sample).2).
Proof.
  intros Ht. unfold stack_connect. destruct (stack_address k); [|by apply sockets_kept_refl].
  pose proof (add_socket_kept k (tcp_socket config) Ht) as Hadd. unfold add_socket in *. cbn [snd] in Hadd.
  destruct (Ports.next _ _ _) as [[port|] ports]; [|done].
  destruct (tcp_connect _ _ _ _) as [t|]; simpl.
  - rewrite insert_insert_eq. apply (add_socket_kept k (tcp_set_defaults t) Ht).
  - rewrite delete_insert_id by apply next_handle_fresh. by apply sockets_kept_refl.
Qed.

Lemma poll_round_total n : tables_ok n ->
  exists r, poll_round config n = Some r /\ forall finished n', r = Ret (finished, n') -> tables_ok n'.
Proof.
  intros Hn. unfold poll_round. pose proof (poll_stack_ok n Hn) as (Hn1 & Hq & HB & _).
  destruct (poll_stack n) as [changed n1]. cbn [snd] in *.
  case_match_goal; [|eexists; split; [done|]; by intros ? ? [= <- <-]].
  destruct (process_ingress_total (Datatypes.S (size (nw_bindings n1))) n1 Hn1 Hq) as (f & n2 & -> & Hn2).
  { apply le_n_S, subseteq_size. by intros h [_ ?]%elem_of_filter. }
  destruct f; (eexists; split; [done|]); [|by intros ? ? [= <- <-]].
  intros f n'. unfold process_egress. destruct (egress_loop _ _ _ _ _ _) as [[[q f'] c]|]; [|done].
  simpl. intros [= <- <-]. destruct Hn2. by split.
Qed.

(** What a poll of [Send] does where all sockets are TCP sockets. *)
Lemma Send_poll_tcp_only k c data offset :
  (forall h s, sk_sockets k !! h = Some s -> exists t, s = SkTcp t) ->
  Send_poll k c data offset = Send_poll_tcp k c data offset /\ cm_protocol (cn_meta c) = Tcp \/
  Send_poll k c data offset = (Some (Err (StackOther "GetSocketError")), offset, k) /\
    cm_protocol (cn_meta c) <> Tcp.
Proof.
  intros Ht. unfold Send_poll.
  destruct (sk_sockets k !! cn_handle c) as [s|] eqn:Hs; [destruct (Ht _ _ Hs) as [t ->]|];
    destruct (cm_protocol (cn_meta c)); auto.
Qed.

Lemma task_turn_kept k t :
  (forall h s, sk_sockets k !! h = Some s -> exists t, s = SkTcp t) ->
  sockets_kept (sk_sockets k) (sk_sockets (task_turn k t).1).
Proof.
  intros Ht. assert (Hr : sockets_kept (sk_sockets k) (sk_sockets k)) by by apply sockets_kept_refl.
  unfold task_turn. destruct (sd_current t) as [[[data offset] c]|]; [|by repeat case_match].
  destruct (Send_poll_tcp_only k c data offset Ht) as [[-> _]|[-> _]]; [|done].
  unfold Send_poll_tcp, get_tcp_socket. destruct (sk_sockets k !! cn_handle c) as [[s| | | | |]|] eqn:Hs; try done.
  destruct (tcp_send_slice _ s) as [[count s']|] eqn:Hsend; [|done].
  assert (sockets_kept (sk_sockets k) (<[cn_handle c := SkTcp s']> (sk_sockets k))); [|by case_match].
  apply sockets_kept_insert; [done|]. intros s0. rewrite Hs. intros [= <-].
  by apply same_ends_kept, (tcp_send_keeps _ _ _ _ Hsend).
Qed.

Lemma sender_turn_ok n i : tables_ok n -> tables_ok (sender_turn n i).
Proof.
  intros Hn. unfold sender_turn. destruct (_ !! i) as [t|]; [|done].
  pose proof (tables_stack n _ Hn (task_turn_kept (nw_stack n) t (all_tcp _ Hn))) as Ho.
  destruct (task_turn _ t) as [k t']. destruct Ho. by split.
Qed.

Lemma network_act_ok n n' : network_act n n' -> tables_ok n -> tables_ok n'.
Proof.
  intros Hst Hn. destruct Hst as [ep h n' Hb|remote sample|c s Hc Hs Hp He|ip|cs|data|i|f n' Hp].
  - by destruct (network_bind_ok _ _ _ _ Hn Hb).
  - unfold network_connect. pose proof (stack_connect_kept (nw_stack n) remote sample (all_tcp _ Hn)) as Hk.
    destruct (stack_connect _ _ _ _) as [r k]. by apply tables_stack.
  - destruct c as [h m]. apply (add_connection_ok n h s m); [done..| |done|done].
    unfold Connect_poll, get_tcp_socket in Hc. simpl in *. rewrite Hs in Hc.
    repeat case_match; try done. by apply tcp_can_send_joined.
  - apply tables_stack; [done|]. apply foldl_stack_kept; [|by destruct Hn].
    intros. apply on_tcp_socket_kept; [apply tcp_close_keeps|done].
  - apply tables_stack; [done|]. apply foldl_stack_kept; [|by destruct Hn].
    intros k x Hk. destruct (find _ _); [|by apply sockets_kept_refl].
    apply on_tcp_socket_kept; [apply tcp_abort_keeps|done].
  - apply tables_stack; [done|]. simpl. apply sockets_kept_refl, Hn.
  - by apply sender_turn_ok.
  - destruct (poll_round_total n Hn) as (r & Hr & Hok). rewrite Hp in Hr. injection Hr as <-. eauto.
Qed.

Lemma network_step_ok n n' : network_step n n' -> tables_ok n -> tables_ok n'.
Proof. intros [n'' Ha|data c]; [by apply network_act_ok|]. intros []. by split. Qed.

Lemma Network_new_ok k : sk_sockets k = ∅ -> tables_ok (Network_new k).
Proof. intros Hk. split; simpl; [by rewrite Hk|done|done]. Qed.


(** ** Listening sockets stay *)

Definition is_listening (s : Socket) : bool :=
  match s with SkTcp s => bool_decide (tcp_state s = StListen) | _ => false end.

Definition listening (n : Network) : gmap Z Socket :=
  filter (fun hs => is_listening hs.2 = true) (sockets n).

(** [unbind] does not stop listening.  It looks for a socket whose local endpoint
    is the one given, and a socket that listens has none.  So whatever it removes is
    not a listening socket, all of those are still there, and when there are only
    listening sockets it fails. *)
Theorem unbind_spares_listeners (n : Network) (endpoint : IpEndpoint) :
  match network_unbind n Tcp (EpIp endpoint) with
  | Ok (h, n') =>
      listening n' = listening n /\
      exists s, sockets n !! h = Some s /\ sockets n' = delete h (sockets n) /\
        Socket_local_endpoint s = EpIp endpoint
  | Err _ => True
  end /\
  (listening n = sockets n -> network_unbind n Tcp (EpIp endpoint) = Err Cancelled).
Proof.
  assert (forall h s, sockets n !! h = Some s -> Socket_local_endpoint s = EpIp endpoint ->
    listening n !! h = None) as Hno.
  { intros h s Hs He. apply map_lookup_filter_None. right. intros s' Hs'. rewrite Hs in Hs'.
    injection Hs' as <-. destruct s as [t| | | | |]; simpl; try done. intros Hl%bool_decide_eq_true.
    destruct (tcp_listening_no_ends t Hl) as [Hle _]. simpl in He. by rewrite Hle in He. }
  unfold network_unbind, stack_unbind. pose proof (iteration_perm (sockets n)) as Hperm.
  destruct (find _ _) as [[h s]|] eqn:Ef; [|done].
  apply find_some in Ef as [Hin He]. apply bool_decide_eq_true in He. simpl in He.
  apply list_elem_of_In in Hin. rewrite Hperm in Hin. apply elem_of_map_to_list in Hin.
  simpl. split; [split|].
  - unfold listening. simpl. rewrite map_filter_delete. apply delete_id. by eapply Hno.
  - by exists s.
  - intros Hall. pose proof (Hno h s Hin He). congruence.
Qed.

End Props.
