(* ===== verification/StackNetworkToy.v ===== *)
(** A small instance of the socket library, which satisfies its laws, and runs of the
    virtual network over it. *)

From stdpp Require Import sorting.
From S2P Require Import Prelude Ports StackSocket StackPacket StackNetwork StackNetworkProps.

(** A TCP socket: its state, where it listens, its ends, the data received, and the
    bytes it was given to send. *)
Record ToyTcp : Type := {
  tt_state : TcpSocketState;
  tt_listen : IpEndpoint;
  tt_ends : option (IpEndpoint * IpEndpoint);
  tt_rx : list (list Z);
  tt_tx : list Z }.

(** The virtual address of a node. *)
Definition toy_address (node : Z) : IpAddress := AddrV6 (node :: replicate 15 0).

Definition toy_specified (e : IpEndpoint) : bool := negb (ie_port e =? 0).

(** The ends are known once a connection is attempted, to a port. *)
Definition toy_ends (s : ToyTcp) : option (IpEndpoint * IpEndpoint) :=
  match tt_state s, tt_ends s with
  | StListen, _ => None
  | _, Some (l, r) => if toy_specified r then Some (l, r) else None
  | _, None => None
  end.

Definition toy_joined (s : ToyTcp) : bool :=
  match tt_state s with StListen | StSynSent | StSynReceived => false | _ => true end.

Definition toy_set (st : TcpSocketState) (ends : option (IpEndpoint * IpEndpoint)) (s : ToyTcp) : ToyTcp :=
  {| tt_state := st; tt_listen := tt_listen s; tt_ends := ends; tt_rx := tt_rx s; tt_tx := tt_tx s |}.

#[export] Instance toy_sockets : SmolSockets := {
  Interface := unit; TcpSocket := ToyTcp; UdpSocket := unit; IcmpSocket := unit; RawSocket := unit;
  listen_is_specified := toy_specified;
  icmp_is_specified := fun _ => false;
  ip_addrs := fun _ => [toy_address 1];
  tcp_new := fun _ _ => {| tt_state := StClosed; tt_listen := unspecified_endpoint; tt_ends := None; tt_rx := []; tt_tx := [] |};
  tcp_set_defaults := id;
  tcp_listen := fun ep s => Some {| tt_state := StListen; tt_listen := ep; tt_ends := None; tt_rx := []; tt_tx := [] |};
  tcp_connect := fun _ remote local s => Some (toy_set StSynSent (Some (local, remote)) s);
  tcp_state := tt_state;
  tcp_local_endpoint := fun s => fst <$> toy_ends s;
  tcp_remote_endpoint := fun s => snd <$> toy_ends s;
  tcp_is_open := fun s => negb (bool_decide (tt_state s = StClosed)) && negb (bool_decide (tt_state s = StTimeWait));
  tcp_can_send := fun s => bool_decide (tt_state s = StEstablished);
  tcp_can_recv := fun s => toy_joined s && bool_decide (tt_rx s <> []);
  tcp_recv_queue := fun s => length (tt_rx s);
  tcp_recv := fun s =>
    match tt_rx s with
    | data :: rx => Some (data, {| tt_state := tt_state s; tt_listen := tt_listen s; tt_ends := tt_ends s; tt_rx := rx; tt_tx := tt_tx s |})
    | [] => None
    end;
  tcp_send_slice := fun data s =>
    match tt_state s with
    | StEstablished =>
        Some (Z.min 2 (zlen data),
          {| tt_state := tt_state s; tt_listen := tt_listen s; tt_ends := tt_ends s; tt_rx := tt_rx s;
             tt_tx := tt_tx s ++ ztake 2 data |})
    | _ => None
    end;
  tcp_close := fun s => toy_set StClosed (toy_ends s) s;
  tcp_abort := fun s => toy_set StClosed (toy_ends s) s;
  udp_new := fun _ _ => (); udp_bind := fun _ s => Some s; udp_endpoint := fun _ => (None, 0);
  udp_is_open := fun _ => true; udp_can_recv := fun _ => false; udp_recv_queue := fun _ => 0%nat;
  udp_recv := fun _ => None; udp_send_slice := fun _ _ => Some;
  icmp_new := fun _ _ => (); icmp_bind := fun _ s => Some s; icmp_is_open := fun _ => true;
  icmp_can_recv := fun _ => false; icmp_recv_queue := fun _ => 0%nat; icmp_recv := fun _ => None;
  icmp_send_slice := fun _ _ => Some;
  raw_new := fun _ _ _ _ => (); raw_can_recv := fun _ => false; raw_recv_queue := fun _ => 0%nat;
  raw_recv := fun _ => None; raw_send_slice := fun _ => Some }.

(** What packets do to the socket they are for: a connection is refused, accepted
    from a node and port, brings data, is established, or closed. *)
Definition toy_packet (packet : list Z) (s : ToyTcp) : ToyTcp :=
  match packet, tt_state s with
  | [1; _], StSynSent => toy_set StClosed None s
  | [2; _; node; port], StListen =>
      toy_set StEstablished (Some (tt_listen s, {| ie_addr := toy_address node; ie_port := port |})) s
  | [3; _; byte], StEstablished =>
      {| tt_state := tt_state s; tt_listen := tt_listen s; tt_ends := tt_ends s; tt_rx := tt_rx s ++ [[byte]];
         tt_tx := tt_tx s |}
  | [4; _], StSynSent => toy_set StEstablished (tt_ends s) s
  | [5; _], StEstablished => toy_set StClosed None s
  | _, _ => s
  end.

Definition toy_input (m : gmap Z Socket) (packet : list Z) : gmap Z Socket :=
  alter (fun s => match s with SkTcp s => SkTcp (toy_packet packet s) | s => s end)
    (nth 1 packet 0) m.

(** The lowest handle that is free. *)
Definition toy_handle (m : gmap Z Socket) : Z :=
  default (fresh (dom m : gset Z))
    (find (fun h => bool_decide (m !! h = None)) (seqZ 0 (Z.of_nat (size m) + 1))).

Definition handle_le (a b : Z * Socket) : Prop := a.1 <= b.1.

#[export] Instance handle_le_dec : RelDecision handle_le.
Proof. unfold handle_le. intros a b. apply _. Defined.

#[export] Instance toy_iface : SmolIface := {
  next_handle := toy_handle;
  iteration := fun m => merge_sort handle_le (map_to_list m);
  iface_poll := fun i d m =>
    (true, i, {| dv_tx_queue := dv_tx_queue d; dv_rx_queue := []; dv_tun := dv_tun d |},
     foldl toy_input m (dv_rx_queue d)) }.

(** ** The laws *)

Lemma toy_packet_kept packet s : peer_kept (S := toy_sockets) s (toy_packet packet s).
Proof.
  intros Hj. destruct s as [st l e rx tx]. unfold toy_packet. simpl in *.
  repeat case_match; simplify_eq/=; try (by apply same_ends_kept); unfold joined in *; simpl in *;
    try (by destruct Hj); auto 10.
Qed.

Lemma toy_input_kept packet (m : gmap Z Socket) h :
  option_Forall2 (polled_socket false) (m !! h) (toy_input m packet !! h).
Proof.
  unfold toy_input. destruct (decide (nth 1 packet 0 = h)) as [<-|?].
  - rewrite lookup_alter_eq. destruct (m !! _) as [[t| | | | |]|]; constructor; try done.
    split; [apply toy_packet_kept|done].
  - rewrite lookup_alter_ne by done. destruct (m !! h) as [[t| | | | |]|]; constructor; try done.
    split; [apply peer_kept_refl|done].
Qed.

Lemma toy_inputs_kept packets : forall (m : gmap Z Socket) h,
  option_Forall2 (polled_socket (bool_decide (packets = []))) (m !! h) (foldl toy_input m packets !! h).
Proof.
  induction packets as [|p ps IH]; intros m h.
  - simpl. destruct (m !! h) as [[t| | | | |]|]; constructor; try done. split; [apply peer_kept_refl|done].
  - simpl foldl. rewrite bool_decide_false by done. specialize (IH (toy_input m p) h).
    destruct (toy_input_kept p m h) as [s s' Hs|]; inversion IH as [? s'' Hs'|]; constructor.
    destruct s as [t| | | | |], s' as [t'| | | | |]; try done; destruct s'' as [t''| | | | |]; try done.
    destruct Hs as [Hs _], Hs' as [Hs' _]. split; [by eapply peer_kept_trans|done].
Qed.

Lemma toy_close_kept s : peer_kept (S := toy_sockets) s (toy_set StClosed (toy_ends s) s).
Proof.
  intros Hj. split; [by right|]. split; [done|]. left. destruct s as [st l [[? r]|] rx tx];
    unfold joined, ends_of in *; simpl in *; unfold toy_ends; simpl.
  - destruct (toy_specified r) eqn:E; destruct st; simpl in *; rewrite ?E; try done; by destruct Hj.
  - by destruct st.
Qed.

#[export] Instance toy_laws : SmolLaws.
Proof.
  split; try (done || by intros []).
  - intros m. simpl. unfold toy_handle. destruct (find _ _) as [h|] eqn:E; simpl.
    + apply find_some in E as [_ ?%bool_decide_eq_true]. done.
    + apply (not_elem_of_dom (D := gset Z)), (is_fresh (dom m : gset Z)).
  - intros m. apply merge_sort_Permutation.
  - intros s. simpl. rewrite andb_true_iff, bool_decide_eq_true. intros [_ Hne].
    destruct (tt_rx s) as [|d rx]; [done|]. eexists _, _. split; [done|simpl; lia].
  - intros s bytes s'. simpl. destruct (tt_rx s); [done|]. intros [= _ <-]. by split.
  - intros data s count s'. simpl. destruct (tt_state s) eqn:E; try done. intros [= _ <-].
    by rewrite <- E.
  - intros s. simpl. rewrite andb_true_iff. unfold toy_joined, joined. simpl.
    intros [Hj _]. destruct (tt_state s); simpl; auto; done.
  - intros s. simpl. rewrite bool_decide_eq_true. unfold joined. simpl. intros ->. by left.
  - intros s e. simpl. unfold toy_ends. intros Hs.
    destruct (tt_state s), (tt_ends s) as [[l r]|]; try done; destruct (toy_specified r) eqn:E; by simplify_eq/=.
  - intros ep s s'. simpl. by intros [= <-].
  - intros s. simpl. unfold toy_ends. by intros ->.
  - apply toy_close_kept.
  - apply toy_close_kept.
  - intros i d m. simpl. split_and!; [done|done|]. intros h. apply toy_inputs_kept.
Qed.

(** ** Runs *)

Definition toy_stack_config : StackConfig :=
  let mem := {| mem_min := 1; mem_default := 2; mem_max := 4 |} in
  {| sc_max_send_batch := 2048; sc_max_recv_batch := 4096; sc_tcp_mem := (mem, mem);
     sc_udp_mem := (mem, mem); sc_icmp_mem := (mem, mem); sc_raw_mem := (mem, mem) |}.

Definition toy_stack : Stack :=
  {| sk_iface := (); sk_device := {| dv_tx_queue := []; dv_rx_queue := []; dv_tun := true |};
     sk_sockets := ∅; sk_ports := ∅ |}.

Definition toy_endpoint (node port : Z) : IpEndpoint := {| ie_addr := toy_address node; ie_port := port |}.

(** A network that listens on port 1. *)
Definition toy_bound : Network :=
  match network_bind toy_stack_config (Network_new toy_stack) Tcp (EpIp (toy_endpoint 1 1)) with
  | Ok (_, n) => n
  | Err _ => Network_new toy_stack
  end.

(** Packets come, and a turn of the loop takes them in. *)
Definition toy_turn (n : Network) (packets : list (list Z)) : Network :=
  match poll_round toy_stack_config (foldl network_receive n packets) with
  | Some (Ret (_, n)) => n
  | _ => n
  end.

(** A node connects and sends a byte; then it closes the connection. *)
Definition toy_accepted : Network := toy_turn toy_bound [[2; 0; 7; 1234]; [3; 0; 42]].
Definition toy_released : Network := toy_turn toy_accepted [[5; 0]].

(** An attempt to connect to node 9. *)
Definition toy_attempt : result Connection StackError * Network :=
  network_connect toy_stack_config toy_released (toy_endpoint 9 1) 5000.

(** It is refused, while node 8 connects; then node 6 connects. *)
Definition toy_refused : Network := toy_turn toy_attempt.2 [[1; 0]; [2; 1; 8; 77]].
Definition toy_adopted : Network := toy_turn toy_refused [[2; 0; 6; 88]].

Lemma toy_turn_steps n packets : rtc (network_step toy_stack_config) n (toy_turn n packets).
Proof.
  unfold toy_turn. assert (Hr : rtc (network_step toy_stack_config) n (foldl network_receive n packets)).
  { revert n. induction packets as [|p ps IH]; intros n; [done|]. simpl.
    eapply rtc_l; [apply step_act, (act_receive _ _ p)|apply IH]. }
  destruct (poll_round _ _) as [[[f n']|]|] eqn:E; try done.
  eapply rtc_r; [exact Hr|]. by eapply step_act, act_poll.
Qed.

Lemma toy_adopted_steps : rtc (network_step toy_stack_config) (Network_new toy_stack) toy_adopted.
Proof.
  etrans; [|apply toy_turn_steps]. etrans; [|apply toy_turn_steps].
  eapply rtc_r; [|apply step_act, act_connect]. etrans; [|apply toy_turn_steps]. etrans; [|apply toy_turn_steps].
  eapply rtc_l; [|apply rtc_refl]. unfold toy_bound.
  destruct (network_bind _ _ _ _) as [[h n]|] eqn:E; [by eapply step_act, act_bind|by vm_compute in E].
Qed.


Lemma unbind_spares_listeners_witness :
  network_unbind toy_bound Tcp (EpIp (toy_endpoint 1 1)) = Err Cancelled /\
  (exists n, network_unbind toy_accepted Tcp (EpIp (toy_endpoint 1 1)) = Ok (0, n)).
Proof.
  split; [|eexists; by vm_compute].
  apply (unbind_spares_listeners toy_bound (toy_endpoint 1 1)). by vm_compute.
Defined.

(** A refused attempt to connect can end as a success on the connection of another
    node.  The attempt keeps its handle; when its socket is closed the handle is free,
    and the socket that takes over listening gets it.  So the attempt to connect to
    node 9, which was refused, still waits, completes when node 6 connects to that
    socket, and reports the connection to node 9 with the socket that is connected to
    node 6.  Also the local port of the attempt is not given back, though no socket
    has it. *)
Theorem refused_connect_adopts :
  rtc (network_step toy_stack_config) (Network_new toy_stack) toy_adopted /\
  exists c s, toy_attempt.1 = Ok c /\
    cm_remote (cn_meta c) = toy_endpoint 9 1 /\
    Connect_poll (nw_stack toy_refused) c = None /\
    Connect_poll (nw_stack toy_adopted) c = Some (Ok c) /\
    sk_sockets (nw_stack toy_adopted) !! cn_handle c = Some (SkTcp s) /\
    ends_of s = Some (toy_endpoint 1 1, toy_endpoint 6 88) /\
    ie_port (cm_local (cn_meta c)) ∈ entry (sk_ports (nw_stack toy_adopted)) Tcp /\
    map_Forall (fun _ s => match Socket_local_endpoint s with
                           | EpIp e => ie_port e <> ie_port (cm_local (cn_meta c))
                           | _ => True
                           end) (sk_sockets (nw_stack toy_adopted)).
Proof.
  split; [exact toy_adopted_steps|]. eexists _, _.
  split_and!; try (vm_compute; reflexivity).
  apply map_Forall_to_list. vm_compute map_to_list. repeat constructor; by vm_compute.
Qed.
