(* ===== verification/StackSend.v ===== *)
(** [StackSender] of [crates/stack/src/network.rs] and [Send] of [connection.rs]:
    what the tasks that send make of the data they are given. *)

From S2P Require Import Prelude Ports StackSocket StackNetwork StackNetworkProps.

(** The bytes a TCP socket has been given to send, the first one first, and the
    documented behaviour of smoltcp on them: a socket takes a prefix of what it is
    offered, and no other operation adds to its stream. *)
Class SendLaws `{L : SmolLaws} : Type := {
  tcp_accepted : TcpSocket -> list Z;
  send_accepts data s count s' : tcp_send_slice data s = Some (count, s') ->
    0 <= count <= zlen data /\ tcp_accepted s' = tcp_accepted s ++ ztake count data;
  recv_accepts s bytes s' : tcp_recv s = Some (bytes, s') -> tcp_accepted s' = tcp_accepted s;
  close_accepts s : tcp_accepted (tcp_close s) = tcp_accepted s;
  abort_accepts s : tcp_accepted (tcp_abort s) = tcp_accepted s;
  poll_accepts i d m h s : m !! h = Some (SkTcp s) ->
    let '(_, _, _, m') := iface_poll i d m in
    exists s', m' !! h = Some (SkTcp s') /\ tcp_accepted s' = tcp_accepted s }.

Section Streams.
Context `{A : SendLaws} (config : StackConfig).

Abbreviation sockets n := (sk_sockets (nw_stack n)).
Abbreviation task_of n := (sr_map (nw_senders n)).
Abbreviation tasks n := (sr_tasks (nw_senders n)).

(** ** The network leaves streams alone *)

Definition stream_kept (a b : option Socket) : Prop :=
  forall s, a = Some (SkTcp s) -> exists s', b = Some (SkTcp s') /\ tcp_accepted s' = tcp_accepted s.

(** The tasks stay as they are; a socket is in place, with its stream, or the entry
    of its task is gone. *)
Definition flows (n n' : Network) : Prop :=
  tasks n' = tasks n /\
  forall h, task_of n' !! h = None \/
    task_of n' !! h = task_of n !! h /\ stream_kept (sockets n !! h) (sockets n' !! h).

#[local] Instance stream_kept_preorder : PreOrder stream_kept.
Proof.
  split; [by intros a s ->; eauto|]. intros a b c Hab Hbc s Ha.
  destruct (Hab s Ha) as (s1 & Hb & <-). by apply Hbc.
Qed.

#[local] Instance flows_preorder : PreOrder flows.
Proof.
  split.
  - intros n. split; [done|]. intros h. by right.
  - intros a b c [Ht1 H1] [Ht2 H2]. split; [by rewrite Ht2|]. intros h.
    destruct (H2 h) as [?|[-> Hs2]]; [by left|]. destruct (H1 h) as [?|[-> Hs1]]; [by left|].
    right. split; [done|]. by etrans.
Qed.

Lemma flows_sockets n n' : nw_senders n' = nw_senders n ->
  (forall h, stream_kept (sockets n !! h) (sockets n' !! h)) -> flows n n'.
Proof. intros Hs Hk. split; rewrite Hs; [done|]. intros h. by right. Qed.

Lemma flows_same n n' : nw_senders n' = nw_senders n -> sockets n' = sockets n -> flows n n'.
Proof. intros Hs Hk. apply flows_sockets; [done|]. by rewrite Hk. Qed.

Lemma insert_streams (m : gmap Z Socket) h s : stream_kept (m !! h) (Some s) ->
  forall g, stream_kept (m !! g) (<[h := s]> m !! g).
Proof. intros Hs g. destruct (decide (h = g)) as [->|?]; by rewrite ?lookup_insert_eq, ?lookup_insert_ne. Qed.

Lemma fresh_streams (m : gmap Z Socket) s g : stream_kept (m !! g) (<[next_handle m := s]> m !! g).
Proof. apply insert_streams. by rewrite next_handle_fresh. Qed.

Lemma bind_flows n protocol endpoint h n' :
  network_bind config n protocol endpoint = Ok (h, n') -> flows n n'.
Proof.
  unfold network_bind. destruct (stack_bind _ _ _ _) as [[g k]|] eqn:Hb; [|done].
  intros [= <- <-]. apply flows_sockets; [done|]. simpl. intros h. unfold stack_bind, map_protocol in Hb.
  repeat case_match; simplify_eq/=; apply fresh_streams.
Qed.

Lemma connect_flows n remote sample : flows n (network_connect config n remote sample).2.
Proof.
  unfold network_connect, stack_connect. destruct (stack_address _); [|by apply flows_same].
  unfold add_socket. destruct (Ports.next _ _ _) as [[port|] ports];
    [destruct (tcp_connect _ _ _ _)|]; (apply flows_sockets; [done|]); simpl; intros h.
  - rewrite insert_insert_eq. apply fresh_streams.
  - by rewrite delete_insert_id by apply next_handle_fresh.
  - apply fresh_streams.
Qed.

Lemma on_tcp_streams f k h g : (forall s, tcp_accepted (f s) = tcp_accepted s) ->
  stream_kept (sk_sockets k !! g) (sk_sockets (on_tcp_socket f k h) !! g).
Proof.
  intros Hf. unfold on_tcp_socket, get_tcp_socket. destruct (sk_sockets k !! h) as [[s| | | | |]|] eqn:E; try done.
  apply insert_streams. rewrite E. intros s' [= <-]. eauto.
Qed.

Lemma foldl_streams {B} (f : Stack -> B -> Stack) l g :
  (forall k x, stream_kept (sk_sockets k !! g) (sk_sockets (f k x) !! g)) ->
  forall k, stream_kept (sk_sockets k !! g) (sk_sockets (foldl f k l) !! g).
Proof. intros Hf. induction l as [|x l IH]; intros k; [done|]. simpl. etrans; [apply Hf|apply IH]. Qed.

Lemma poll_flows n : flows n (poll_stack n).2.
Proof.
  unfold poll_stack, stack_poll.
  pose proof (fun h s => poll_accepts (sk_iface (nw_stack n)) (sk_device (nw_stack n)) (sockets n) h s) as Hp.
  destruct (iface_poll _ _ _) as [[[c i] d] m]. apply flows_sockets; [done|]. intros h s. apply Hp.
Qed.
(** Receiving takes nothing out of what is to be sent. *)
Lemma recv_loop_flows h fuel : forall desc received s n events s' n' events' f,
  recv_loop config fuel h desc received s n events = Some (s', n', events', f) ->
  nw_senders n' = nw_senders n /\ nw_stack n' = nw_stack n /\ stream_kept (Some s) (Some s').
Proof.
  induction fuel as [|fuel IH]; intros desc received s n events s' n' events' f; cbn [recv_loop];
    (case_match_goal; [by intros [= <- <- <- <-]|]); [done|].
  assert (Hr : stream_kept (Some s) (Some (Socket_recv s).2)).
  { destruct s; simpl; repeat case_match; simplify_eq/=; try done.
    all: intros s0 [= <-]; eexists; (split; [done|]); by eapply recv_accepts. }
  destruct (Socket_recv s) as [[[[remote payload]|]|e] s1]; cbn [snd] in Hr.
  - cbv zeta. intros Hl.
    match type of Hl with context [let '(n, events) := ?x in _] =>
      assert (nw_senders x.1 = nw_senders n /\ nw_stack x.1 = nw_stack n) as [H1 H2] by
        (clear; by repeat case_match); destruct x as [n1 ev1] end.
    revert Hl. case_match_goal; [intros [= <- <- <- <-]; auto|].
    intros (H3 & H4 & H5)%IH. rewrite H3, H4. split_and!; [done..|by etrans].
  - by intros [= <- <- <- <-].
  - intros (H3 & H4 & H5)%IH. rewrite H3, H4. split_and!; [done..|by etrans].
Qed.

Lemma visit_socket_flows p h s p' rebind :
  visit_socket config p h s = Some (p', rebind) -> sockets (ps_network p) !! h = Some s ->
  flows (ps_network p) (ps_network p') /\
  (forall g, g <> h -> sockets (ps_network p') !! g = sockets (ps_network p) !! g).
Proof.
  unfold visit_socket. assert (Hn : ps_network (note_closed p h s) = ps_network p).
  { unfold note_closed. by case_match. }
  destruct (recv_loop _ _ _ _ _ _ _ _) as [[[[s' n] ev] f]|] eqn:Hl; [|done].
  apply recv_loop_flows in Hl as (Hs & Hk & Hst). rewrite Hn in Hs, Hk. intros Hv Hh.
  assert (nw_senders (ps_network p') = nw_senders n /\
    sockets (ps_network p') = <[h := s']> (sockets n)) as [H1 H2] by (by case_match; simplify_eq/=).
  rewrite Hk in H2. split; [|intros g ?; by rewrite H2, lookup_insert_ne].
  apply flows_sockets; [congruence|]. rewrite H2. apply insert_streams. by rewrite Hh.
Qed.

Lemma visit_sockets_flows l : forall p p' rebind,
  NoDup l.*1 -> (forall h s, (h, s) ∈ l -> sockets (ps_network p) !! h = Some s) ->
  visit_sockets config l p = Some (p', rebind) -> flows (ps_network p) (ps_network p').
Proof.
  induction l as [|[h s] l IH]; intros p p' rebind Hnd Hl; cbn [visit_sockets]; [by intros [= <- <-]|].
  apply NoDup_cons in Hnd as [Hh Hnd]. destruct (visit_socket _ _ _ _) as [[p1 rb]|] eqn:Hv; [|done].
  apply visit_socket_flows in Hv as [H1 H2]; [|apply Hl; by left].
  destruct rb as [rb|]; [by intros [= <- <-]|]. intros Hvs. etrans; [exact H1|].
  apply (IH p1 p' rebind); [done| |done]. intros g s' Hin. rewrite H2; [apply Hl; by right|].
  intros ->. apply Hh, list_elem_of_fmap. by exists (h, s').
Qed.

Lemma remove_flows n meta handle : flows n (remove_connection n meta handle).
Proof.
  split; [done|]. intros h. simpl. destruct (decide (handle = h)) as [->|Hne].
  - left. apply lookup_delete_eq.
  - right. rewrite lookup_delete_ne by done. split; [done|]. unfold stack_remove.
    case_match; [|done]. simpl. by rewrite lookup_delete_ne.
Qed.

Lemma remove_all_flows (l : list (ConnectionMeta * Z)) : forall n,
  flows n (foldl (fun n mh => remove_connection n mh.1 mh.2) n l).
Proof. induction l as [|mh l IH]; intros n; [done|]. simpl. etrans; [apply remove_flows|apply IH]. Qed.

Lemma process_ingress_flows fuel : forall n f n', process_ingress config fuel n = Some (f, n') -> flows n n'.
Proof.
  induction fuel as [|fuel IH]; intros n f n'; [done|]. cbn [process_ingress].
  destruct (visit_sockets _ _ _) as [[p rb]|] eqn:Hv; [|done]. cbv zeta.
  pose proof (iteration_perm (sockets n)) as Hperm.
  apply visit_sockets_flows in Hv; [|rewrite Hperm; apply NoDup_fst_map_to_list|
    intros h s; rewrite Hperm; by intros ?%elem_of_map_to_list].
  set (n1 := send_events _ _).
  assert (Hn1 : flows n n1).
  { etrans; [exact Hv|]. etrans; [apply (remove_all_flows (ps_remove p))|]. by apply flows_same. }
  destruct rb as [[protocol ep]|]; [|by intros [= <- <-]]. intros Hi%IH. etrans; [exact Hn1|].
  etrans; [|exact Hi]. etrans; [|apply poll_flows].
  destruct (network_bind _ _ _ _) as [[h n2]|] eqn:Hb; [by eapply bind_flows|done].
Qed.

Lemma poll_round_flows n f n' : poll_round config n = Some (Ret (f, n')) -> flows n n'.
Proof.
  unfold poll_round. pose proof (poll_flows n) as Hp. destruct (poll_stack n) as [c n1]. cbn [snd] in Hp.
  case_match_goal; [|by intros [= <- <-]].
  destruct (process_ingress _ _ n1) as [[f2 n2]|] eqn:Hi; [|done]. apply process_ingress_flows in Hi.
  destruct f2; [|intros [= <- <-]; by etrans].
  unfold process_egress. destruct (egress_loop _ _ _ _ _ _) as [[[q f3] c3]|]; [|done].
  simpl. intros [= <- <-]. etrans; [exact Hp|]. etrans; [exact Hi|]. by apply flows_same.
Qed.
(** Whatever happens but for sending, and the turns of the tasks. *)
Lemma act_flows n n' : network_act config n n' -> (exists i, n' = sender_turn n i) \/ flows n n'.
Proof.
  intros [ep h n1 Hb|remote sample|c s _ _ _ _|ip|cs|data|i|f n1 Hp]; [right..|left; eauto|right].
  - by eapply bind_flows.
  - apply connect_flows.
  - by apply flows_same.
  - apply flows_sockets; [done|]. intros h. apply foldl_streams. intros k x.
    apply on_tcp_streams, close_accepts.
  - apply flows_sockets; [done|]. intros h. apply foldl_streams. intros k x.
    case_match; [apply on_tcp_streams, abort_accepts|done].
  - by apply flows_same.
  - by eapply poll_round_flows.
Qed.

(** ** What a task has yet to send *)

(** Only TCP connections have a stream. *)
Definition tcp_bytes (conn : Connection) (data : list Z) : list Z :=
  if decide (cm_protocol (cn_meta conn) = Tcp) then data else [].

Definition queued (l : list (list Z * Connection)) : list Z :=
  concat (map (fun dc => tcp_bytes dc.2 dc.1) l).

Definition waiting (t : SendTask) : list Z :=
  match sd_current t with
  | Some (data, offset, conn) => tcp_bytes conn (zdrop offset data)
  | None => []
  end ++ queued (sd_queue t).

(** A task sends over the socket of a handle only, or never over it. *)
Definition task_conns (t : SendTask) : list Connection :=
  match sd_current t with Some (_, _, conn) => [conn] | None => [] end ++ (sd_queue t).*2.

Definition task_of_handle (h : Z) (t : SendTask) : Prop :=
  Forall (fun c => cn_handle c = h) (task_conns t) /\
  match sd_current t with Some (_, offset, _) => 0 <= offset | None => True end.

Definition task_off_handle (h : Z) (t : SendTask) : Prop :=
  Forall (fun c => cn_handle c <> h) (task_conns t).

Lemma queued_app l1 l2 : queued (l1 ++ l2) = queued l1 ++ queued l2.
Proof. unfold queued. by rewrite map_app, concat_app. Qed.

(** A poll of [Send] moves bytes from the data to the stream. *)
Lemma Send_poll_moves k conn data offset s :
  0 <= offset -> sk_sockets k !! cn_handle conn = Some (SkTcp s) ->
  let '(r, offset', k') := Send_poll k conn data offset in
  exists s', sk_sockets k' !! cn_handle conn = Some (SkTcp s') /\ 0 <= offset' /\
    tcp_accepted s' ++ match r with Some _ => [] | None => tcp_bytes conn (zdrop offset' data) end =
    tcp_accepted s ++ tcp_bytes conn (zdrop offset data).
Proof.
  intros Ho Hs. unfold Send_poll, tcp_bytes. destruct (decide _) as [->|Hne].
  - unfold Send_poll_tcp, get_tcp_socket. rewrite Hs.
    destruct (tcp_send_slice _ s) as [[count s']|] eqn:Hsend; [|eauto].
    destruct (send_accepts _ _ _ _ Hsend) as [Hc Ha]. exists s'. simpl. rewrite lookup_insert_eq, Ha.
    split_and!; [done|lia|]. rewrite <- app_assoc. f_equal.
    rewrite <- (ztake_zdrop count (zdrop offset data)) at 2. rewrite zdrop_zdrop by lia.
    f_equal. destruct (Z.leb_spec (zlen data) (offset + count)); [|done]. by rewrite zdrop_all.
  - destruct (cm_protocol (cn_meta conn)); try done; simpl; rewrite Hs; simpl; eauto.
Qed.

(** A turn over the socket moves bytes from the task to the stream; a turn over
    another leaves it alone. *)
Lemma task_turn_moves h k t s : task_of_handle h t -> sk_sockets k !! h = Some (SkTcp s) ->
  exists s', sk_sockets (task_turn k t).1 !! h = Some (SkTcp s') /\
    tcp_accepted s' ++ waiting (task_turn k t).2 = tcp_accepted s ++ waiting t /\
    task_of_handle h (task_turn k t).2.
Proof.
  destruct t as [[[[data offset] conn]|] q]; unfold task_turn, waiting, task_of_handle, task_conns; simpl.
  - intros [[<- Hq]%Forall_cons Ho] Hs. pose proof (Send_poll_moves k conn data offset s Ho Hs) as Hp.
    destruct (Send_poll _ _ _ _) as [[[r|] o] k']; destruct Hp as (s' & Hs' & Ho' & Heq); exists s'; simpl.
    + rewrite app_nil_r in Heq. rewrite Heq, app_assoc. auto.
    + rewrite !app_assoc, Heq. auto.
  - intros [Hq _] Hs. exists s. destruct q as [|[d c] q]; simpl; [auto|].
    rewrite zdrop_0. auto with lia.
Qed.

Lemma task_turn_elsewhere h k t : task_off_handle h t ->
  sk_sockets (task_turn k t).1 !! h = sk_sockets k !! h /\ task_off_handle h (task_turn k t).2.
Proof.
  destruct t as [[[[data offset] conn]|] q]; unfold task_turn, task_off_handle, task_conns; simpl.
  - intros [Hne Hq]%Forall_cons.
    assert (Hk : sk_sockets (Send_poll k conn data offset).2 !! h = sk_sockets k !! h).
    { unfold Send_poll, Send_poll_tcp, get_tcp_socket, packet_sent.
      repeat case_match; simplify_eq/=; try done; by rewrite lookup_insert_ne. }
    destruct (Send_poll _ _ _ _) as [[[r|] o] k']; simpl in *; auto.
  - intros Hq. destruct q as [|[d c] q]; auto.
Qed.

(** ** Streams in order *)

(** The task of a socket and its stream: what was accepted and what waits is what has
    been given, and no other task sends over the socket. *)
Record in_order (h : Z) (i : nat) (given : list Z) (n : Network) : Prop := {
  io_entry : task_of n !! h = Some i;
  io_only : forall g, task_of n !! g = Some i -> g = h;
  io_task : exists t s, tasks n !! i = Some t /\ sockets n !! h = Some (SkTcp s) /\
    task_of_handle h t /\ tcp_accepted s ++ waiting t = given;
  io_others : forall j t, j <> i -> tasks n !! j = Some t -> task_off_handle h t }.

(** Entries are of tasks that were spawned. *)
Definition senders_ok (n : Network) : Prop :=
  forall h i, task_of n !! h = Some i -> (i < length (tasks n))%nat.

Lemma flows_senders n n' : flows n n' -> senders_ok n -> senders_ok n'.
Proof.
  intros [Ht Hf] Hn h i Hi. rewrite Ht. destruct (Hf h) as [?|[He _]]; [congruence|].
  apply (Hn h). congruence.
Qed.

Lemma turn_senders n i : task_of (sender_turn n i) = task_of n /\ length (tasks (sender_turn n i)) = length (tasks n).
Proof.
  unfold sender_turn. destruct (_ !! i); [|done]. destruct (task_turn _ _). simpl.
  by rewrite length_insert.
Qed.

Lemma send_senders n data conn : senders_ok n -> senders_ok (network_send n data conn).
Proof.
  intros Hn h i. unfold network_send, sender_send. simpl.
  destruct (task_of n !! cn_handle conn) as [j|]; simpl; rewrite length_alter; [apply Hn|].
  rewrite length_app. simpl. intros [[_ <-]|[_ Hi%Hn]]%lookup_insert_Some; lia.
Qed.

Lemma reachable_senders k n : rtc (network_step config) (Network_new k) n -> senders_ok n.
Proof.
  apply rtc_invariant; [|by intros h i].
  intros n1 n2 Hn [n3 [[i ->]|Hf]%act_flows|data conn].
  - unfold senders_ok. destruct (turn_senders n1 i) as [-> ->]. apply Hn.
  - by eapply flows_senders.
  - by apply send_senders.
Qed.

Lemma flows_in_order h i given n n' : flows n n' -> is_Some (task_of n' !! h) ->
  in_order h i given n -> in_order h i given n'.
Proof.
  intros [Ht Hf] [j Hj] [He Ho (t & s & Hti & Hs & Hown & Heq) Hoth].
  assert (task_of n' !! h = Some i /\ stream_kept (sockets n !! h) (sockets n' !! h)) as [Hi Hk].
  { destruct (Hf h) as [?|[-> ?]]; [congruence|done]. }
  split; [done| | |by rewrite Ht].
  - intros g Hgi. destruct (Hf g) as [?|[Hsame _]]; [congruence|]. apply Ho. congruence.
  - destruct (Hk s Hs) as (s' & Hs' & Ha). exists t, s'. rewrite Ht, Ha. auto.
Qed.

Lemma turn_in_order h i given n j : in_order h i given n -> in_order h i given (sender_turn n j).
Proof.
  intros [He Ho (t & s & Hti & Hs & Hown & Heq) Hoth].
  unfold sender_turn. destruct (tasks n !! j) as [tj|] eqn:Hj; [|by split; eauto 10].
  destruct (decide (j = i)) as [->|Hne].
  - rewrite Hti in Hj. injection Hj as <-. destruct (task_turn_moves h (nw_stack n) t s Hown Hs)
      as (s' & Hs' & Heq' & Hown'). destruct (task_turn _ t) as [k' t'].
    split; simpl in *; [done..| |].
    + exists t', s'. rewrite list_lookup_insert_eq by (by eapply lookup_lt_Some). by rewrite Heq'.
    + intros g t0 Hg. rewrite list_lookup_insert_ne by done. by apply Hoth.
  - destruct (task_turn_elsewhere h (nw_stack n) tj (Hoth _ _ Hne Hj)) as [Hs' Hoff].
    destruct (task_turn _ tj) as [k' t']. split; simpl in *; [done..| |].
    + exists t, s. rewrite list_lookup_insert_ne, Hs' by done. auto.
    + intros g t0 Hg. rewrite list_lookup_insert_Some. intros [(<- & <- & _)|[_ ?]]; eauto.
Qed.

(** What has been given for a socket. *)
Definition given_for (h : Z) (sent : list (list Z * Connection)) : list Z :=
  queued (filter (fun dc => cn_handle dc.2 = h) sent).

Lemma given_for_snoc h sent data conn : given_for h (sent ++ [(data, conn)]) =
  given_for h sent ++ if decide (cn_handle conn = h) then tcp_bytes conn data else [].
Proof.
  unfold given_for. rewrite filter_app, queued_app, filter_cons, filter_nil. simpl.
  case_match; [|done]. unfold queued. simpl. by rewrite app_nil_r.
Qed.

Lemma enqueue_task h t data conn : cn_handle conn = h -> task_of_handle h t ->
  let t' := {| sd_current := sd_current t; sd_queue := sd_queue t ++ [(data, conn)] |} in
  task_of_handle h t' /\ waiting t' = waiting t ++ tcp_bytes conn data.
Proof.
  intros Hc [Hf Ho]. split.
  - split; [|done]. unfold task_conns in *. simpl. rewrite fmap_app, app_assoc.
    apply Forall_app. split; [done|by repeat constructor].
  - unfold waiting. simpl. rewrite queued_app, app_assoc. f_equal. unfold queued. simpl. apply app_nil_r.
Qed.

Lemma send_in_order h i given n data conn : in_order h i given n ->
  in_order h i (given ++ if decide (cn_handle conn = h) then tcp_bytes conn data else [])
    (network_send n data conn).
Proof.
  intros [He Ho (t & s & Hti & Hs & Hown & Heq) Hoth]. unfold network_send, sender_send.
  destruct (decide (cn_handle conn = h)) as [Hc|Hc].
  - rewrite Hc, He. split; simpl; [done..| |].
    + destruct (enqueue_task h t data conn Hc Hown) as [H1 H2]. eexists _, s.
      rewrite list_lookup_alter_eq, Hti. simpl. rewrite H2, app_assoc, Heq. auto.
    + intros j t' Hne. rewrite list_lookup_alter_ne by done. by apply Hoth.
  - assert (Hlt : (i < length (tasks n))%nat) by (by eapply lookup_lt_Some). rewrite app_nil_r.
    assert (Hother : forall t', task_off_handle h t' -> task_off_handle h
      {| sd_current := sd_current t'; sd_queue := sd_queue t' ++ [(data, conn)] |}).
    { intros t' Ht'. unfold task_off_handle, task_conns in *. simpl. rewrite fmap_app, app_assoc.
      apply Forall_app. split; [done|by repeat constructor]. }
    destruct (task_of n !! cn_handle conn) as [j|] eqn:Hj; simpl.
    + assert (j <> i) by (intros ->; by apply Hc, Ho). split; simpl; [done..| |].
      * exists t, s. rewrite list_lookup_alter_ne by done. auto.
      * intros j' t' Hne. rewrite list_lookup_alter. case_decide; [subst j'|by apply Hoth].
        destruct (tasks n !! j) as [t0|] eqn:E; [|done]. intros [= <-]. eauto.
    + split; simpl.
      * by rewrite lookup_insert_ne.
      * intros g [[_ ?]|[_ ?]]%lookup_insert_Some; [lia|auto].
      * exists t, s. rewrite list_lookup_alter_ne, lookup_app_l by lia. auto.
      * intros j' t' Hne. rewrite list_lookup_alter. case_decide as Hd.
        -- subst j'. rewrite list_lookup_middle by done. intros [= <-]. by repeat constructor.
        -- rewrite lookup_app. destruct (tasks n !! j') eqn:E; [intros [= <-]; eauto|].
           intros Hl%list_lookup_singleton_Some. destruct Hl as [Hl _].
           apply lookup_ge_None in E. lia.
Qed.

(** Data is first sent over a socket; then more data is sent, over any sockets, and
    anything else happens, but the task of the socket keeps its entry: the network
    has not removed the connection. *)
Inductive sending (h : Z) (n0 : Network) : list (list Z * Connection) -> Network -> Prop :=
| sending_first data conn : cn_handle conn = h ->
    sending h n0 [(data, conn)] (network_send n0 data conn)
| sending_more sent n data conn : sending h n0 sent n ->
    sending h n0 (sent ++ [(data, conn)]) (network_send n data conn)
| sending_act sent n n' : sending h n0 sent n -> network_act config n n' ->
    is_Some (task_of n' !! h) -> sending h n0 sent n'.

Lemma first_in_order h n0 s0 data conn :
  senders_ok n0 -> sockets n0 !! h = Some (SkTcp s0) -> task_of n0 !! h = None ->
  Forall (task_off_handle h) (tasks n0) -> cn_handle conn = h ->
  in_order h (length (tasks n0)) (tcp_accepted s0 ++ given_for h [(data, conn)]) (network_send n0 data conn).
Proof.
  intros Hok Hs He Hoff Hc. rewrite (given_for_snoc h [] data conn : given_for h [(data, conn)] = _).
  rewrite decide_True by done. simpl.
  unfold network_send, sender_send. rewrite Hc, He. split; simpl.
  - apply lookup_insert_eq.
  - intros g [[? _]|[_ Hg%Hok]]%lookup_insert_Some; [done|lia].
  - eexists _, s0. rewrite list_lookup_alter_eq, list_lookup_middle by done. split; [done|].
    split; [done|]. split; [by split; [repeat constructor|]|]. unfold waiting, queued. simpl.
    by rewrite app_nil_r.
  - intros j t Hne. rewrite list_lookup_alter_ne, lookup_app by done.
    destruct (tasks n0 !! j) as [t'|] eqn:E.
    + intros [= <-]. by eapply Forall_lookup_1 in Hoff.
    + apply lookup_ge_None in E. intros [? _]%list_lookup_singleton_Some. lia.
Qed.

Lemma sending_in_order h n0 s0 sent n :
  senders_ok n0 -> sockets n0 !! h = Some (SkTcp s0) -> task_of n0 !! h = None ->
  Forall (task_off_handle h) (tasks n0) -> sending h n0 sent n ->
  in_order h (length (tasks n0)) (tcp_accepted s0 ++ given_for h sent) n.
Proof.
  intros Hok Hs He Hoff. induction 1 as [data conn Hc|sent n data conn _ IH|sent n n' _ IH Ha Hreg].
  - by apply first_in_order.
  - rewrite given_for_snoc, app_assoc. by apply send_in_order.
  - apply act_flows in Ha as [[j ->]|Hf]; [by apply turn_in_order|by eapply flows_in_order].
Qed.

(** ** Everything is sent *)

(** Sockets that take some of what they are offered. *)
Definition willing (P : TcpSocket -> Prop) : Prop :=
  forall s data, P s -> exists count s', tcp_send_slice data s = Some (count, s') /\ P s' /\
    (data <> [] -> 0 < count).

Definition work (t : SendTask) : nat :=
  match sd_current t with Some (data, offset, _) => 1 + length (zdrop offset data) | None => 0 end +
  sum_list_with (fun dc => 2 + length dc.1)%nat (sd_queue t).

Lemma turn_works h P k t s : willing P -> P s -> task_of_handle h t ->
  sk_sockets k !! h = Some (SkTcp s) -> (0 < work t)%nat ->
  (work (task_turn k t).2 < work t)%nat /\
  exists s', sk_sockets (task_turn k t).1 !! h = Some (SkTcp s') /\ P s'.
Proof.
  intros HP Hs Ht Hh. destruct t as [[[[data offset] conn]|] q]; unfold task_turn, work; simpl; intros Hw.
  - destruct Ht as [[Hc _]%Forall_cons Ho]. simpl in Ho. unfold Send_poll.
    destruct (decide (cm_protocol (cn_meta conn) = Tcp)) as [->|Hne].
    + unfold Send_poll_tcp, get_tcp_socket. rewrite Hc, Hh.
      destruct (HP s (zdrop offset data) Hs) as (count & s' & Hsend & Hs' & Hpos). rewrite Hsend.
      destruct (send_accepts _ _ _ _ Hsend) as [Hb _].
      destruct (Z.leb_spec (zlen data) (offset + count)); simpl;
        (split; [|exists s'; by rewrite lookup_insert_eq]); [lia|].
      assert (Hd : zdrop offset data <> []).
      { intros E. assert (E' : zlen (zdrop offset data) = 0) by (by rewrite E).
        rewrite zlen_zdrop in E', Hb by done. lia. }
      specialize (Hpos Hd). rewrite <- zdrop_zdrop by lia.
      assert (zlen (zdrop count (zdrop offset data)) < zlen (zdrop offset data)).
      { rewrite zlen_zdrop by lia. lia. }
      unfold zlen in *. lia.
    + destruct (cm_protocol (cn_meta conn)); try done; simpl; rewrite ?Hc, Hh; simpl; split; eauto; lia.
  - destruct q as [|[d c] q]; simpl in *; [lia|]. rewrite zdrop_0. split; [lia|eauto].
Qed.

Definition turns (i : nat) (m : nat) (n : Network) : Network := Nat.iter m (fun n => sender_turn n i) n.

Lemma turns_drain h i given P : willing P -> forall fuel n,
  in_order h i given n -> (forall t, tasks n !! i = Some t -> work t <= fuel)%nat ->
  (forall s, sockets n !! h = Some (SkTcp s) -> P s) ->
  exists m s, sockets (turns i m n) !! h = Some (SkTcp s) /\ tcp_accepted s = given.
Proof.
  intros HP. induction fuel as [|fuel IH]; intros n Hn Hw Hs;
    pose proof (io_task _ _ _ _ Hn) as (t & s & Ht & Hh & Hown & Heq).
  all: destruct (decide (work t = 0)%nat) as [H0|H0]; [|specialize (Hw t Ht)].
  1, 3: exists 0%nat, s; split; [done|]; rewrite <- Heq;
    destruct t as [[[[d o] c]|] [|dc q]]; unfold work in H0; simpl in H0; try lia;
    unfold waiting, queued; simpl; by rewrite app_nil_r.
  { lia. }
  destruct (turn_works h P (nw_stack n) t s HP (Hs s Hh) Hown Hh) as [Hlt (s' & Hs' & HPs')]; [lia|].
  pose proof (turn_in_order _ _ _ _ i Hn) as Hn'.
  destruct (IH (sender_turn n i) Hn') as (m & s'' & Hm & Ha).
  - unfold sender_turn. rewrite Ht. destruct (task_turn _ t) as [k' t']. simpl in *.
    rewrite list_lookup_insert_eq by (by eapply lookup_lt_Some). intros ? [= <-]. lia.
  - unfold sender_turn. rewrite Ht. destruct (task_turn _ t) as [k' t']. simpl in *. congruence.
  - exists (Datatypes.S m), s''. unfold turns in *. by rewrite Nat.iter_succ_r.
Qed.

End Streams.
