(* ===== verification/StackSendToy.v ===== *)
(** Runs of the tasks that send, over the small instance of the socket library. *)

From S2P Require Import Prelude Ports StackSocket StackPacket StackNetwork StackNetworkProps.
From S2P Require Import StackNetworkToy StackSend.

(** ** The laws *)

Lemma toy_packet_stream packet s : tt_tx (toy_packet packet s) = tt_tx s.
Proof. unfold toy_packet. by repeat case_match. Qed.

Lemma toy_inputs_stream packets : forall (m : gmap Z Socket) h s, m !! h = Some (SkTcp s) ->
  exists s', foldl toy_input m packets !! h = Some (SkTcp s') /\ tt_tx s' = tt_tx s.
Proof.
  induction packets as [|p ps IH]; intros m h s Hs; simpl; [eauto|].
  assert (exists s1, toy_input m p !! h = Some (SkTcp s1) /\ tt_tx s1 = tt_tx s) as (s1 & H1 & <-).
  { unfold toy_input. destruct (decide (nth 1 p 0 = h)) as [->|?].
    - rewrite lookup_alter_eq, Hs. eexists. split; [done|]. apply toy_packet_stream.
    - rewrite lookup_alter_ne by done. eauto. }
  by apply IH.
Qed.

#[export] Instance toy_send_laws : SendLaws.
Proof.
  refine {| tcp_accepted := tt_tx : TcpSocket -> list Z |}; try done.
  - intros data s count s'. simpl. destruct (tt_state s); try done. intros [= <- <-]. simpl.
    split; [pose proof (zlen_nonneg data); lia|]. f_equal.
    destruct (Z.min_spec 2 (zlen data)) as [[_ ->]|[? ->]]; [done|]. by rewrite !ztake_all.
  - intros s bytes s'. simpl. destruct (tt_rx s); [done|]. by intros [= _ <-].
  - intros i d m h s Hs. by apply toy_inputs_stream.
Defined.

Lemma toy_willing : willing (fun s : TcpSocket => tt_state s = StEstablished).
Proof.
  intros s data Hs. simpl in *. rewrite Hs. eexists _, _. split; [reflexivity|]. split; [done|].
  intros Hd. destruct data; [done|]. rewrite zlen_cons. pose proof (zlen_nonneg data). lia.
Qed.

(** ** A connection *)

(** The connection of node 7, which [toy_accepted] has accepted. *)
Definition toy_conn : Connection :=
  {| cn_handle := 0;
     cn_meta := {| cm_protocol := Tcp; cm_local := toy_endpoint 1 1; cm_remote := toy_endpoint 7 1234 |} |}.

Definition toy_sending : Network :=
  network_send (sender_turn (sender_turn (network_send toy_accepted [10; 11; 12; 13] toy_conn) 0) 0)
    [14; 15; 16] toy_conn.

Lemma toy_accepted_steps : rtc (network_step toy_stack_config) (Network_new toy_stack) toy_accepted.
Proof.
  etrans; [|apply toy_turn_steps]. eapply rtc_l; [|apply rtc_refl]. unfold toy_bound.
  destruct (network_bind _ _ _ _) as [[h n]|] eqn:E; [by eapply step_act, act_bind|by vm_compute in E].
Qed.


(** ** Data left behind *)

(** Half of the data for node 7 is taken by its socket, then node 7 closes the
    connection, and a connection to node 9 is made. *)
Definition toy_half : Network :=
  sender_turn (sender_turn (network_send toy_accepted [10; 11; 12; 13] toy_conn) 0) 0.

Definition toy_elsewhere : Network :=
  toy_turn (network_connect toy_stack_config (toy_turn toy_half [[5; 0]]) (toy_endpoint 9 1) 5000).2 [[4; 0]].

(** Data that waits when a connection is closed can go out over another connection.
    The task that sends has the handle of the socket only, and outlives the socket.
    So when the handle is given to the socket of a connection to node 9, the rest of
    the data for node 7 is sent to node 9. *)
Theorem leftover_goes_astray :
  rtc (network_step toy_stack_config) (Network_new toy_stack) (sender_turn toy_elsewhere 0) /\
  nw_connections (toy_turn toy_half [[5; 0]]) = ∅ /\
  exists s, sk_sockets (nw_stack (sender_turn toy_elsewhere 0)) !! 0 = Some (SkTcp s) /\
    snd <$> ends_of s = Some (toy_endpoint 9 1) /\ tt_tx s = [12; 13].
Proof.
  split; [|split; [by vm_compute|eexists; split_and!; vm_compute; reflexivity]].
  eapply rtc_r; [|apply step_act, act_turn]. etrans; [|apply toy_turn_steps].
  eapply rtc_r; [|apply step_act, act_connect]. etrans; [|apply toy_turn_steps].
  eapply rtc_r; [|apply step_act, act_turn]. eapply rtc_r; [|apply step_act, act_turn].
  eapply rtc_r; [|apply step_send]. exact toy_accepted_steps.
Qed.
