(* ===== verification/ClientConfig.v ===== *)
(** [client/src/config.rs], with [StackConfig::default] of
    [crates/stack/src/network.rs], the addresses of [crates/core/src/utils.rs] and
    [Client::spawn]: how a client is configured and started.

    The variables of the environment, the fresh keys, and what the tasks that
    are started report are arguments.  URLs are those of the crate [url]. *)

From stdpp Require Import pretty.
From S2P Require Import Prelude Payload Proto Codec Challenge NodeInfo DirectSession Encryption ClientForward.
From S2P Require Import SessionInit FallbackCrypto UdpStream StackSocket StackNetwork.

(** ** Addresses and the environment, [utils.rs] *)

(** [url::Url]: parsing, the host and the port. *)
Class UrlOps : Type := {
  Url : Type;
  url_parse : string -> option Url;
  url_host_str : Url -> option string;
  url_port : Url -> option Z }.

(** [typed_from_env], for the value of the variable. *)
Definition typed_from_env {T} (parse : string -> option T) (var : option string) (def_value : T) : T :=
  match var with
  | Some s => default def_value (parse s)
  | None => def_value
  end.

(** [str::parse::<u16>]: the digits of [parse_usize], within 16 bits. *)
Definition parse_u16 (s : string) : option Z :=
  match parse_usize s with
  | Some n => if n <? 2 ^ 16 then Some n else None
  | None => None
  end.

(** [DEFAULT_NET_PORT] of [lib.rs]. *)
Definition DEFAULT_NET_PORT (var : option string) : Z := typed_from_env parse_u16 var 7464.

(** The variables that are read: [YA_NET_STACK_POLL_SENT_BATCH],
    [YA_NET_STACK_POLL_RECV_BATCH], [YA_NET_PCAP_FILE], [YA_NET_MTU] and
    [DEFAULT_NET_PORT]. *)
Record ConfigEnv : Type := {
  ce_sent_batch : option string;
  ce_recv_batch : option string;
  ce_pcap_file : option string;
  ce_mtu : option string;
  ce_net_port : option string }.

Definition DEFAULT_POLL_SENT_BATCH : Z := 16348.
Definition DEFAULT_POLL_RECV_BATCH : Z := 32768.
Definition MIN_STACK_POLL_SENT_BATCH : Z := 2048.
Definition MIN_STACK_POLL_RECV_BATCH : Z := 4096.

(** ** The configuration of the stack, [network.rs] *)

(** [SocketMemory]: the sizes of the receive and of the send buffer. *)
Definition SocketMemory_of (rx tx : outcome Memory) : outcome (Memory * Memory) :=
  let! rx := rx in let! tx := tx in Ret (rx, tx).

Definition default_tcp : outcome (Memory * Memory) := SocketMemory_of default_tcp_rx default_tcp_tx.
Definition default_udp : outcome (Memory * Memory) := SocketMemory_of default_udp_rx default_udp_tx.
Definition default_icmp : outcome (Memory * Memory) := default_udp.
Definition default_raw : outcome (Memory * Memory) := SocketMemory_of default_raw_rx default_raw_tx.

(** The whole of [StackConfig]: the file packets are captured to, the largest
    packet, and what the stack reads of it. *)
Record NetStackConfig : Type := {
  ns_pcap_path : option string;
  ns_max_transmission_unit : Z;
  ns_stack : StackConfig }.

Definition StackConfig_default (env : ConfigEnv) : outcome NetStackConfig :=
  let max_send_batch :=
    Z.max (default DEFAULT_POLL_SENT_BATCH (ce_sent_batch env ≫= parse_usize)) MIN_STACK_POLL_SENT_BATCH in
  let max_recv_batch :=
    Z.max (default DEFAULT_POLL_RECV_BATCH (ce_recv_batch env ≫= parse_usize)) MIN_STACK_POLL_RECV_BATCH in
  let! tcp_mem := default_tcp in
  let! udp_mem := default_udp in
  let! icmp_mem := default_icmp in
  let! raw_mem := default_raw in
  Ret {| ns_pcap_path := ce_pcap_file env;
         ns_max_transmission_unit := 1400;
         ns_stack := {| sc_max_send_batch := max_send_batch; sc_max_recv_batch := max_recv_batch;
                        sc_tcp_mem := tcp_mem; sc_udp_mem := udp_mem;
                        sc_icmp_mem := icmp_mem; sc_raw_mem := raw_mem |} |}.

Definition with_tcp_mem (mem : Memory * Memory) (c : NetStackConfig) : NetStackConfig :=
  {| ns_pcap_path := ns_pcap_path c; ns_max_transmission_unit := ns_max_transmission_unit c;
     ns_stack := {| sc_max_send_batch := sc_max_send_batch (ns_stack c);
                    sc_max_recv_batch := sc_max_recv_batch (ns_stack c);
                    sc_tcp_mem := mem; sc_udp_mem := sc_udp_mem (ns_stack c);
                    sc_icmp_mem := sc_icmp_mem (ns_stack c); sc_raw_mem := sc_raw_mem (ns_stack c) |} |}.
Definition with_udp_mem (mem : Memory * Memory) (c : NetStackConfig) : NetStackConfig :=
  {| ns_pcap_path := ns_pcap_path c; ns_max_transmission_unit := ns_max_transmission_unit c;
     ns_stack := {| sc_max_send_batch := sc_max_send_batch (ns_stack c);
                    sc_max_recv_batch := sc_max_recv_batch (ns_stack c);
                    sc_tcp_mem := sc_tcp_mem (ns_stack c); sc_udp_mem := mem;
                    sc_icmp_mem := sc_icmp_mem (ns_stack c); sc_raw_mem := sc_raw_mem (ns_stack c) |} |}.
Definition with_mtu (mtu : Z) (c : NetStackConfig) : NetStackConfig :=
  {| ns_pcap_path := ns_pcap_path c; ns_max_transmission_unit := mtu; ns_stack := ns_stack c |}.

(** ** The builder, [config.rs] *)

Section ClientConfig.
Context `{E : EthSign} `{KA : !KeyAgreement} `{U : UrlOps} `{T : IpText}.

Inductive FailFast : Type :=
| FailFastYes
| FailFastNo.

#[export] Instance FailFast_eq_dec : EqDecision FailFast.
Proof. solve_decision. Defined.

(** [CryptoProvider], as far as a configuration uses it: the default id, and the
    answer of [public_key] of the key of an id. *)
Record KeyProvider : Type := {
  kp_default_id : option NodeId;
  kp_get : NodeId -> option (option PublicKey) }.

(** The fallback provider: its keys always know their public key. *)
Definition fallback_keys (p : FallbackCryptoProvider) : KeyProvider :=
  {| kp_default_id := Some (fp_default_id p);
     kp_get id := (fun c => Some (public_of (fc_secret c))) <$> fallback_get p id |}.

(** [FallbackCryptoProvider::default], for the key that is generated. *)
Definition FallbackCryptoProvider_default (generated : SecretKey) : FallbackCryptoProvider :=
  FallbackCryptoProvider_new generated.

(** Times are in milliseconds; [cfg_node_info_ttl] is the field of
    [registry_config]. *)
Record ClientConfig : Type := {
  cfg_node_id : NodeId;
  cfg_node_pub_key : PublicKey;
  cfg_session_crypto : SessionCrypto;
  cfg_crypto : KeyProvider;
  cfg_challenge_difficulty : Z;
  cfg_bind_url : Url;
  cfg_srv_addr : SocketAddr;
  cfg_auto_connect : bool;
  cfg_auto_connect_fail_fast : bool;
  cfg_session_expiration : Z;
  cfg_stack_config : NetStackConfig;
  cfg_ping_measure_interval : Z;
  cfg_server_session_reconnect_max_interval : Z;
  cfg_session_request_timeout : Z;
  cfg_challenge_request_timeout : Z;
  cfg_reverse_connection_tmp_timeout : Z;
  cfg_reverse_connection_real_timeout : Z;
  cfg_incoming_session_timeout : Z;
  cfg_neighbourhood_ttl : Z;
  cfg_node_info_ttl : Z }.

Record ClientBuilder : Type := {
  cb_bind_url : option Url;
  cb_srv_url : Url;
  cb_crypto : option KeyProvider;
  cb_auto_connect : bool;
  cb_auto_connect_fail_fast : bool;
  cb_session_expiration : option Z;
  cb_session_request_timeout : option Z;
  cb_stack_config : NetStackConfig }.

Definition from_url (env : ConfigEnv) (url : Url) : outcome ClientBuilder :=
  let! stack_config := StackConfig_default env in
  Ret {| cb_bind_url := None; cb_srv_url := url; cb_crypto := None;
         cb_auto_connect := false; cb_auto_connect_fail_fast := false;
         cb_session_expiration := None; cb_session_request_timeout := None;
         cb_stack_config := stack_config |}.

Definition set_crypto (provider : KeyProvider) (b : ClientBuilder) : ClientBuilder :=
  {| cb_bind_url := cb_bind_url b; cb_srv_url := cb_srv_url b; cb_crypto := Some provider;
     cb_auto_connect := cb_auto_connect b; cb_auto_connect_fail_fast := cb_auto_connect_fail_fast b;
     cb_session_expiration := cb_session_expiration b;
     cb_session_request_timeout := cb_session_request_timeout b;
     cb_stack_config := cb_stack_config b |}.

Definition set_connect (fail_fast : FailFast) (b : ClientBuilder) : ClientBuilder :=
  {| cb_bind_url := cb_bind_url b; cb_srv_url := cb_srv_url b; cb_crypto := cb_crypto b;
     cb_auto_connect := true;
     cb_auto_connect_fail_fast := match fail_fast with FailFastYes => true | FailFastNo => false end;
     cb_session_expiration := cb_session_expiration b;
     cb_session_request_timeout := cb_session_request_timeout b;
     cb_stack_config := cb_stack_config b |}.

Definition set_listen (url : Url) (b : ClientBuilder) : ClientBuilder :=
  {| cb_bind_url := Some url; cb_srv_url := cb_srv_url b; cb_crypto := cb_crypto b;
     cb_auto_connect := cb_auto_connect b; cb_auto_connect_fail_fast := cb_auto_connect_fail_fast b;
     cb_session_expiration := cb_session_expiration b;
     cb_session_request_timeout := cb_session_request_timeout b;
     cb_stack_config := cb_stack_config b |}.

Definition expire_session_after (expiration : Z) (b : ClientBuilder) : ClientBuilder :=
  {| cb_bind_url := cb_bind_url b; cb_srv_url := cb_srv_url b; cb_crypto := cb_crypto b;
     cb_auto_connect := cb_auto_connect b; cb_auto_connect_fail_fast := cb_auto_connect_fail_fast b;
     cb_session_expiration := Some expiration;
     cb_session_request_timeout := cb_session_request_timeout b;
     cb_stack_config := cb_stack_config b |}.

Definition set_session_request_timeout (timeout : Z) (b : ClientBuilder) : ClientBuilder :=
  {| cb_bind_url := cb_bind_url b; cb_srv_url := cb_srv_url b; cb_crypto := cb_crypto b;
     cb_auto_connect := cb_auto_connect b; cb_auto_connect_fail_fast := cb_auto_connect_fail_fast b;
     cb_session_expiration := cb_session_expiration b;
     cb_session_request_timeout := Some timeout;
     cb_stack_config := cb_stack_config b |}.

Definition with_stack_config (c : NetStackConfig) (b : ClientBuilder) : ClientBuilder :=
  {| cb_bind_url := cb_bind_url b; cb_srv_url := cb_srv_url b; cb_crypto := cb_crypto b;
     cb_auto_connect := cb_auto_connect b; cb_auto_connect_fail_fast := cb_auto_connect_fail_fast b;
     cb_session_expiration := cb_session_expiration b;
     cb_session_request_timeout := cb_session_request_timeout b;
     cb_stack_config := c |}.

(** The buffers of the two kinds of sockets a client may resize. *)
Definition tcp_mem (b : ClientBuilder) : Memory * Memory := sc_tcp_mem (ns_stack (cb_stack_config b)).
Definition udp_mem (b : ClientBuilder) : Memory * Memory := sc_udp_mem (ns_stack (cb_stack_config b)).

Definition tcp_max_recv_buffer_size (max : Z) (b : ClientBuilder) : result ClientBuilder StackError :=
  let? rx := Memory_set_max (tcp_mem b).1 max in
  Ok (with_stack_config (with_tcp_mem (rx, (tcp_mem b).2) (cb_stack_config b)) b).
Definition tcp_max_send_buffer_size (max : Z) (b : ClientBuilder) : result ClientBuilder StackError :=
  let? tx := Memory_set_max (tcp_mem b).2 max in
  Ok (with_stack_config (with_tcp_mem ((tcp_mem b).1, tx) (cb_stack_config b)) b).
Definition udp_max_recv_buffer_size (max : Z) (b : ClientBuilder) : result ClientBuilder StackError :=
  let? rx := Memory_set_max (udp_mem b).1 max in
  Ok (with_stack_config (with_udp_mem (rx, (udp_mem b).2) (cb_stack_config b)) b).
Definition udp_max_send_buffer_size (max : Z) (b : ClientBuilder) : result ClientBuilder StackError :=
  let? tx := Memory_set_max (udp_mem b).2 max in
  Ok (with_stack_config (with_udp_mem ((udp_mem b).1, tx) (cb_stack_config b)) b).

(** A call of a method of the builder. *)
Inductive BuilderCall : Type :=
| CallCrypto (provider : KeyProvider)
| CallConnect (fail_fast : FailFast)
| CallListen (url : Url)
| CallExpire (expiration : Z)
| CallTimeout (timeout : Z)
| CallTcpRecv (max : Z)
| CallTcpSend (max : Z)
| CallUdpRecv (max : Z)
| CallUdpSend (max : Z).

Definition builder_call (c : BuilderCall) (b : ClientBuilder) : result ClientBuilder StackError :=
  match c with
  | CallCrypto provider => Ok (set_crypto provider b)
  | CallConnect fail_fast => Ok (set_connect fail_fast b)
  | CallListen url => Ok (set_listen url b)
  | CallExpire expiration => Ok (expire_session_after expiration b)
  | CallTimeout timeout => Ok (set_session_request_timeout timeout b)
  | CallTcpRecv max => tcp_max_recv_buffer_size max b
  | CallTcpSend max => tcp_max_send_buffer_size max b
  | CallUdpRecv max => udp_max_recv_buffer_size max b
  | CallUdpSend max => udp_max_send_buffer_size max b
  end.

Fixpoint builder_calls (cs : list BuilderCall) (b : ClientBuilder) : result ClientBuilder StackError :=
  match cs with
  | [] => Ok b
  | c :: cs => let? b := builder_call c b in builder_calls cs b
  end.

(** [parse_udp_url]. *)
Definition parse_udp_url (env : ConfigEnv) (url : Url) : option string :=
  match url_host_str url with
  | None => None
  | Some host =>
      let port := default (DEFAULT_NET_PORT (ce_net_port env)) (url_port url) in
      Some (host +:+ ":" +:+ pretty port)
  end.

(** What [build_config] and [build] fail with. *)
Inductive BuildError : Type :=
| NoDefaultId
| NoDefaultKey
| NoPublicKey
| BuildMtu (e : MtuError)
| NoHost
| BadAddress
| BindFailed
| VirtualTcpFailed
| IngressTaken
| AutoConnectFailed.

(** [build_config], for the variables, the secret key of a fallback provider,
    and the key pair of the sessions. *)
Definition build_config (feature_encryption : bool) (env : ConfigEnv) (generated : SecretKey)
  (session_crypto : SessionCrypto) (b : ClientBuilder) : outcome (result ClientConfig BuildError) :=
  let! bind_url :=
    match cb_bind_url b with
    | Some url => Ret url
    | None => match url_parse "udp://0.0.0.0:0" with Some url => Ret url | None => Panic end
    end in
  let crypto := default (fallback_keys (FallbackCryptoProvider_default generated)) (cb_crypto b) in
  Ret match kp_default_id crypto with
      | None => Err NoDefaultId
      | Some default_id =>
          match kp_get crypto default_id with
          | None => Err NoDefaultKey
          | Some None => Err NoPublicKey
          | Some (Some default_pub_key) =>
              match stack_mtu feature_encryption (ce_mtu env) with
              | Err e => Err (BuildMtu e)
              | Ok mtu =>
                  match parse_udp_url env (cb_srv_url b) with
                  | None => Err NoHost
                  | Some text =>
                      match sock_from_str text with
                      | None => Err BadAddress
                      | Some srv_addr =>
                          Ok {| cfg_node_id := default_id;
                                cfg_node_pub_key := default_pub_key;
                                cfg_session_crypto := session_crypto;
                                cfg_crypto := crypto;
                                cfg_challenge_difficulty := 1;
                                cfg_bind_url := bind_url;
                                cfg_srv_addr := srv_addr;
                                cfg_auto_connect := cb_auto_connect b;
                                cfg_auto_connect_fail_fast := cb_auto_connect_fail_fast b;
                                cfg_session_expiration := default 25000 (cb_session_expiration b);
                                cfg_stack_config := with_mtu mtu (cb_stack_config b);
                                cfg_ping_measure_interval := 300000;
                                cfg_server_session_reconnect_max_interval := 300000;
                                cfg_session_request_timeout :=
                                  default 3000 (cb_session_request_timeout b);
                                cfg_challenge_request_timeout := 8000;
                                cfg_reverse_connection_tmp_timeout := 3000;
                                cfg_reverse_connection_real_timeout := 13000;
                                cfg_incoming_session_timeout := 16000;
                                cfg_neighbourhood_ttl := 300000;
                                cfg_node_info_ttl := 300000 |}
                      end
                  end
              end
          end
      end.

(** What the tasks that are started report: the address the socket is bound to;
    whether the virtual network starts, the receiver of forwarded packets was not
    taken before, and the session with the relay is established. *)
Record SpawnEnv : Type := {
  se_bound : option SocketAddr;
  se_virtual_tcp : bool;
  se_receiver : bool;
  se_server_session : bool }.

(** What runs afterwards: the address, the task that keeps the session with the
    relay alive, and the one that measures round trips. *)
Record SpawnedTasks : Type := {
  sp_bind_addr : option SocketAddr;
  sp_keep_alive : bool;
  sp_ping : bool }.

Definition SpawnedTasks_none : SpawnedTasks :=
  {| sp_bind_addr := None; sp_keep_alive := false; sp_ping := false |}.

(** [SessionLayer::spawn]. *)
Definition SessionLayer_spawn (cfg : ClientConfig) (env : SpawnEnv)
  : result SocketAddr BuildError * SpawnedTasks :=
  match se_bound env with
  | None => (Err BindFailed, SpawnedTasks_none)
  | Some bind_addr =>
      (Ok bind_addr,
       {| sp_bind_addr := None;
          sp_keep_alive := cfg_auto_connect cfg && negb (cfg_auto_connect_fail_fast cfg);
          sp_ping := false |})
  end.

(** [TransportLayer::spawn]. *)
Definition TransportLayer_spawn (cfg : ClientConfig) (env : SpawnEnv)
  : result SocketAddr BuildError * SpawnedTasks :=
  match SessionLayer_spawn cfg env with
  | (Err e, s) => (Err e, s)
  | (Ok bind_addr, s) =>
      if se_virtual_tcp env
      then if se_receiver env then (Ok bind_addr, s) else (Err IngressTaken, s)
      else (Err VirtualTcpFailed, s)
  end.

(** [Client::spawn]. *)
Definition Client_spawn (cfg : ClientConfig) (env : SpawnEnv) : result unit BuildError * SpawnedTasks :=
  match TransportLayer_spawn cfg env with
  | (Err e, s) => (Err e, s)
  | (Ok bind_addr, s) =>
      if cfg_auto_connect cfg && negb (se_server_session env) && cfg_auto_connect_fail_fast cfg
      then (Err AutoConnectFailed,
            {| sp_bind_addr := Some bind_addr; sp_keep_alive := sp_keep_alive s; sp_ping := false |})
      else (Ok tt,
            {| sp_bind_addr := Some bind_addr; sp_keep_alive := sp_keep_alive s; sp_ping := true |})
  end.

(** [build]. *)
Definition build (feature_encryption : bool) (env : ConfigEnv) (generated : SecretKey)
  (session_crypto : SessionCrypto) (spawn_env : SpawnEnv) (b : ClientBuilder)
  : outcome (result (ClientConfig * SpawnedTasks) BuildError) :=
  let! r := build_config feature_encryption env generated session_crypto b in
  Ret (let? cfg := r in
       match Client_spawn cfg spawn_env with
       | (Ok tt, s) => Ok (cfg, s)
       | (Err e, _) => Err e
       end).

(** ** The calls of the builder *)

(** What the last call that [f] selects gives. *)
Fixpoint latest {A} (f : BuilderCall -> option A) (cs : list BuilderCall) : option A :=
  match cs with
  | [] => None
  | c :: cs => match latest f cs with Some a => Some a | None => f c end
  end.

Definition call_crypto (c : BuilderCall) : option KeyProvider :=
  match c with CallCrypto p => Some p | _ => None end.
Definition call_connect (c : BuilderCall) : option FailFast :=
  match c with CallConnect f => Some f | _ => None end.
Definition call_listen (c : BuilderCall) : option Url :=
  match c with CallListen u => Some u | _ => None end.
Definition call_expire (c : BuilderCall) : option Z :=
  match c with CallExpire t => Some t | _ => None end.
Definition call_timeout (c : BuilderCall) : option Z :=
  match c with CallTimeout t => Some t | _ => None end.
Definition call_tcp_recv (c : BuilderCall) : option Z :=
  match c with CallTcpRecv n => Some n | _ => None end.
Definition call_tcp_send (c : BuilderCall) : option Z :=
  match c with CallTcpSend n => Some n | _ => None end.
Definition call_udp_recv (c : BuilderCall) : option Z :=
  match c with CallUdpRecv n => Some n | _ => None end.
Definition call_udp_send (c : BuilderCall) : option Z :=
  match c with CallUdpSend n => Some n | _ => None end.

(** A call the builder [b] accepts: a maximum is not below the default. *)
Definition accepted (b : ClientBuilder) (c : BuilderCall) : bool :=
  match c with
  | CallTcpRecv n => mem_default (tcp_mem b).1 <=? n
  | CallTcpSend n => mem_default (tcp_mem b).2 <=? n
  | CallUdpRecv n => mem_default (udp_mem b).1 <=? n
  | CallUdpSend n => mem_default (udp_mem b).2 <=? n
  | _ => true
  end.

Definition resized (m : Memory) (max : option Z) : Memory :=
  {| mem_min := mem_min m; mem_default := mem_default m; mem_max := default (mem_max m) max |}.

(** The builder after accepted calls: each setting is that of its last call. *)
Definition builder_of (cs : list BuilderCall) (b : ClientBuilder) : ClientBuilder :=
  {| cb_bind_url := from_option Some (cb_bind_url b) (latest call_listen cs);
     cb_srv_url := cb_srv_url b;
     cb_crypto := from_option Some (cb_crypto b) (latest call_crypto cs);
     cb_auto_connect := from_option (fun _ => true) (cb_auto_connect b) (latest call_connect cs);
     cb_auto_connect_fail_fast :=
       from_option (fun f => match f with FailFastYes => true | FailFastNo => false end)
         (cb_auto_connect_fail_fast b) (latest call_connect cs);
     cb_session_expiration := from_option Some (cb_session_expiration b) (latest call_expire cs);
     cb_session_request_timeout :=
       from_option Some (cb_session_request_timeout b) (latest call_timeout cs);
     cb_stack_config :=
       with_udp_mem (resized (udp_mem b).1 (latest call_udp_recv cs),
                     resized (udp_mem b).2 (latest call_udp_send cs))
         (with_tcp_mem (resized (tcp_mem b).1 (latest call_tcp_recv cs),
                        resized (tcp_mem b).2 (latest call_tcp_send cs)) (cb_stack_config b)) |}.

Lemma builder_of_nil b : builder_of [] b = b.
Proof. by destruct b as [? ? ? ? ? ? ? [? ? [? ? [[] []] [[] []] ? ?]]]. Qed.

Lemma builder_call_spec c b :
  builder_call c b = if accepted b c then Ok (builder_of [c] b)
                     else Err (StackOther "Invalid max memory bound").
Proof.
  destruct b as [? ? ? ? ? ? ? [? ? [? ? [[] []] [[] []] ? ?]]], c; try done;
    cbn; unfold tcp_max_recv_buffer_size, tcp_max_send_buffer_size, udp_max_recv_buffer_size,
      udp_max_send_buffer_size, Memory_set_max; cbn; rewrite Z.leb_antisym; by case_match.
Qed.

Lemma builder_of_cons c cs b : builder_of cs (builder_of [c] b) = builder_of (c :: cs) b.
Proof.
  unfold builder_of, resized. cbn. f_equal;
    by repeat match goal with |- context [latest ?f cs] => destruct (latest f cs) end.
Qed.

(** The defaults do not change. *)
Lemma forallb_accepted c b cs : forallb (accepted (builder_of [c] b)) cs = forallb (accepted b) cs.
Proof. induction cs as [|d cs IH]; [done|]. simpl. rewrite IH. by destruct d. Qed.

Lemma builder_calls_spec cs b :
  builder_calls cs b = if forallb (accepted b) cs then Ok (builder_of cs b)
                       else Err (StackOther "Invalid max memory bound").
Proof.
  revert b. induction cs as [|c cs IH]; intros b; cbn [builder_calls forallb].
  - by rewrite builder_of_nil.
  - rewrite builder_call_spec. destruct (accepted b c); [|done]. simpl.
    by rewrite IH, builder_of_cons, forallb_accepted.
Qed.

(** ** The configuration *)

(** What a configuration adds to a packet of the virtual network. *)
Definition packet_overhead (fe : bool) : Z :=
  NETWORK_HEADERS_SIZE + MAX_TAG_SIZE + Forward_header_size + MAX_CIPHERTEXT_EXPANSION fe.

(** The least maximum each buffer may be given. *)
Definition size_allowed (c : BuilderCall) : Prop :=
  match c with
  | CallTcpRecv n | CallUdpRecv n | CallUdpSend n => 128 * 1024 <= n
  | CallTcpSend n => 16 * 1024 <= n
  | _ => True
  end.

(** The settings of a configuration, as the calls give them. *)
Record settings_of (env : ConfigEnv) (cs : list BuilderCall) (cfg : ClientConfig) : Prop := {
  so_key : kp_get (cfg_crypto cfg) (cfg_node_id cfg) = Some (Some (cfg_node_pub_key cfg));
  so_own_key : latest call_crypto cs = None -> cfg_node_id cfg = pk_address (cfg_node_pub_key cfg);
  so_given_key : forall p, latest call_crypto cs = Some p -> cfg_crypto cfg = p;
  so_listen : forall u, latest call_listen cs = Some u -> cfg_bind_url cfg = u;
  so_connect : cfg_auto_connect cfg = true <-> is_Some (latest call_connect cs);
  so_fail_fast : cfg_auto_connect_fail_fast cfg = true <-> latest call_connect cs = Some FailFastYes;
  so_expiration : cfg_session_expiration cfg = default 25000 (latest call_expire cs);
  so_timeout : cfg_session_request_timeout cfg = default 3000 (latest call_timeout cs);
  so_tcp : let '(rx, tx) := sc_tcp_mem (ns_stack (cfg_stack_config cfg)) in
    mem_max rx = default (4 * 1024 * 1024) (latest call_tcp_recv cs) /\ memory_ok rx /\
    mem_max tx = default (128 * 1024) (latest call_tcp_send cs) /\ memory_ok tx;
  so_udp : let '(rx, tx) := sc_udp_mem (ns_stack (cfg_stack_config cfg)) in
    mem_max rx = default (128 * 1024) (latest call_udp_recv cs) /\ memory_ok rx /\
    mem_max tx = default (128 * 1024) (latest call_udp_send cs) /\ memory_ok tx;
  so_send_batch : 2048 <= sc_max_send_batch (ns_stack (cfg_stack_config cfg));
  so_recv_batch : 4096 <= sc_max_recv_batch (ns_stack (cfg_stack_config cfg)) }.

Lemma from_url_spec env url : exists b0, from_url env url = Ret b0 /\
  cb_srv_url b0 = url /\ cb_bind_url b0 = None /\ cb_crypto b0 = None /\
  cb_auto_connect b0 = false /\ cb_auto_connect_fail_fast b0 = false /\
  cb_session_expiration b0 = None /\ cb_session_request_timeout b0 = None /\
  default_tcp = Ret (tcp_mem b0) /\ default_udp = Ret (udp_mem b0) /\
  2048 <= sc_max_send_batch (ns_stack (cb_stack_config b0)) /\
  4096 <= sc_max_recv_batch (ns_stack (cb_stack_config b0)).
Proof.
  eexists. split; [reflexivity|]. split_and!; try reflexivity; simpl;
    unfold MIN_STACK_POLL_SENT_BATCH, MIN_STACK_POLL_RECV_BATCH; lia.
Qed.

Lemma accepted_allowed b0 cs :
  default_tcp = Ret (tcp_mem b0) -> default_udp = Ret (udp_mem b0) ->
  forallb (accepted b0) cs = true <-> Forall size_allowed cs.
Proof.
  intros Ht Hu. rewrite forallb_forall, Forall_forall. setoid_rewrite list_elem_of_In.
  injection Ht as Ht. injection Hu as Hu.
  split; intros Hc c Hin; specialize (Hc c Hin); revert Hc;
    destruct c; simpl; rewrite <- ?Ht, <- ?Hu; simpl; lia.
Qed.

Lemma latest_elem {A} (f : BuilderCall -> option A) cs a :
  latest f cs = Some a -> exists c, c ∈ cs /\ f c = Some a.
Proof.
  induction cs as [|c cs IH]; simpl; [done|]. destruct (latest f cs); intros Hl.
  - destruct IH as (d & ? & ?); [done|]. exists d. split; [by right|done].
  - exists c. split; [by left|done].
Qed.

Lemma resized_ok f cs m bound :
  Forall size_allowed cs -> (forall c n, f c = Some n -> size_allowed c -> bound <= n) ->
  memory_ok m -> mem_default m = bound -> memory_ok (resized m (latest f cs)).
Proof.
  intros Hcs Hf [? ?] Hb. split; [done|]. simpl.
  destruct (latest f cs) as [n|] eqn:El; [|done]. simpl.
  destruct (latest_elem _ _ _ El) as (c & Hc & Hn). rewrite Hb. apply (Hf c); [done|].
  rewrite Forall_forall in Hcs. by apply Hcs.
Qed.

(** A fallback provider knows its own key. *)
Lemma fallback_keys_default k :
  kp_get (fallback_keys (FallbackCryptoProvider_default k)) (pk_address (public_of k)) =
  Some (Some (public_of k)).
Proof. simpl. unfold fallback_get. simpl. by rewrite lookup_singleton_eq. Qed.

Lemma stack_mtu_exact fe var mtu :
  stack_mtu fe var = Ok mtu <-> packet_overhead fe < resolve_mtu var /\ mtu = resolve_mtu var - packet_overhead fe.
Proof.
  unfold stack_mtu, resolve_max_payload_overhead_size, packet_overhead.
  assert (0 <= MAX_CIPHERTEXT_EXPANSION fe <= 28) by by destruct fe; vm_compute.
  rewrite max_payload_size_small by (unfold MAX_TAG_SIZE, Forward_header_size, KEY_SIZE, SESSION_ID_SIZE; lia).
  case_match_goal; b2p.
  - split; [done|lia].
  - split; [intros [= <-]; lia|intros [? ->]; f_equal; lia].
Qed.

(** A provider that is given has a key for its default id. *)
Definition provider_complete (cs : list BuilderCall) : Prop :=
  forall p, latest call_crypto cs = Some p ->
    exists id key, kp_default_id p = Some id /\ kp_get p id = Some (Some key).

(** When the calls and the environment make a configuration. *)
Definition buildable (fe : bool) (env : ConfigEnv) (url : Url) (cs : list BuilderCall) : Prop :=
  provider_complete cs /\
  packet_overhead fe < resolve_mtu (ce_mtu env) /\
  exists text addr, parse_udp_url env url = Some text /\ sock_from_str text = Some addr.

(** The provider of a builder, and that one that was not given has its key. *)
Definition provider_of (k : SecretKey) (cs : list BuilderCall) : KeyProvider :=
  default (fallback_keys (FallbackCryptoProvider_default k)) (latest call_crypto cs).

Lemma provider_of_spec k cs :
  (exists id key, kp_default_id (provider_of k cs) = Some id /\ kp_get (provider_of k cs) id = Some (Some key)) <->
  provider_complete cs.
Proof.
  unfold provider_of, provider_complete. destruct (latest call_crypto cs) as [p|]; cbn [default from_option].
  - split; [by intros Hp ? [= <-]|intros Hp; by apply Hp].
  - split; [done|intros _]. eexists _, _. split; [reflexivity|]. apply fallback_keys_default.
Qed.

Lemma bind_url_spec cs : (latest call_listen cs = None -> is_Some (url_parse "udp://0.0.0.0:0")) ->
  exists u, match from_option Some None (latest call_listen cs) with
    | Some url => Ret url
    | None => match url_parse "udp://0.0.0.0:0" with Some url => Ret url | None => Panic end
    end = Ret u /\ forall v, latest call_listen cs = Some v -> u = v.
Proof.
  destruct (latest call_listen cs) as [v|]; simpl; intros Hbind.
  - exists v. split; [done|by intros ? [= ->]].
  - destruct (Hbind eq_refl) as [v ->]. by exists v.
Qed.

(** The buffers of the builder after allowed calls. *)
Lemma buffers_spec cs b : Forall size_allowed cs ->
  default_tcp = Ret (tcp_mem b) -> default_udp = Ret (udp_mem b) ->
  (mem_max (tcp_mem (builder_of cs b)).1 = default (4 * 1024 * 1024) (latest call_tcp_recv cs) /\
   memory_ok (tcp_mem (builder_of cs b)).1 /\
   mem_max (tcp_mem (builder_of cs b)).2 = default (128 * 1024) (latest call_tcp_send cs) /\
   memory_ok (tcp_mem (builder_of cs b)).2) /\
  (mem_max (udp_mem (builder_of cs b)).1 = default (128 * 1024) (latest call_udp_recv cs) /\
   memory_ok (udp_mem (builder_of cs b)).1 /\
   mem_max (udp_mem (builder_of cs b)).2 = default (128 * 1024) (latest call_udp_send cs) /\
   memory_ok (udp_mem (builder_of cs b)).2).
Proof.
  intros Hcs [= Ht] [= Hu]. cbn. rewrite <- Ht, <- Hu. cbn [fst snd].
  split_and!; try reflexivity; (eapply resized_ok; [done| |by split|reflexivity]);
    intros [] n; simpl; try done; intros [= <-]; done.
Qed.

(** When [build_config] succeeds, over the builder that the calls leave. *)
Lemma build_config_spec fe env k crypto url cs b0 :
  from_url env url = Ret b0 -> Forall size_allowed cs ->
  (latest call_listen cs = None -> is_Some (url_parse "udp://0.0.0.0:0")) ->
  exists r, build_config fe env k crypto (builder_of cs b0) = Ret r /\
    (is_ok r = true <-> buildable fe env url cs) /\
    (forall cfg, r = Ok cfg -> settings_of env cs cfg /\
       stack_mtu fe (ce_mtu env) = Ok (ns_max_transmission_unit (cfg_stack_config cfg)) /\
       cfg_session_crypto cfg = crypto /\
       exists text, parse_udp_url env url = Some text /\ sock_from_str text = Some (cfg_srv_addr cfg)).
Proof.
  destruct (from_url_spec env url) as (b & -> & Hurl & Hb & Hc & Ha & Hf & He & Ht & Htcp & Hudp & Hs & Hr).
  intros [= <-] Hcs Hbind. destruct (buffers_spec cs b Hcs Htcp Hudp) as [Hbt Hbu].
  unfold build_config, buildable. cbn [builder_of cb_bind_url cb_crypto cb_srv_url].
  rewrite Hb, Hc, Hurl. destruct (bind_url_spec cs Hbind) as (u & -> & Hu).
  replace (default _ (from_option Some None (latest call_crypto cs))) with (provider_of k cs)
    by (unfold provider_of; by destruct (latest call_crypto cs)).
  eexists. split; [reflexivity|]. rewrite <- (provider_of_spec k).
  destruct (kp_default_id (provider_of k cs)) as [id|] eqn:Hid;
    [|split; [split; [done|by intros ((? & ? & ? & ?) & ?)]|done]].
  destruct (kp_get (provider_of k cs) id) as [[key|]|] eqn:Hkey;
    [|split; [split; [done|intros ((? & ? & ? & ?) & ?); congruence]|done]..].
  destruct (stack_mtu fe (ce_mtu env)) as [mtu|e] eqn:Hmtu;
    [|split; [split; [done|intros (_ & Hlt & _)]|done];
      by rewrite (proj2 (stack_mtu_exact fe (ce_mtu env) _) (conj Hlt eq_refl)) in Hmtu].
  destruct (parse_udp_url env url) as [text|] eqn:Htext;
    [|split; [split; [done|by intros (_ & _ & ? & ? & ? & ?)]|done]].
  destruct (sock_from_str text) as [addr|] eqn:Haddr;
    [|split; [split; [done|intros (_ & _ & ? & ? & [= <-] & ?); congruence]|done]].
  split; [split; [intros _|done]; split_and!; [eauto|by apply stack_mtu_exact in Hmtu as [? _]|eauto]|].
  intros cfg [= <-]. split_and!; [|done|done|eauto]. constructor; simpl; try done.
  - intros El. revert Hid Hkey. unfold provider_of. rewrite El. intros [= <-].
    change (default _ None) with (fallback_keys (FallbackCryptoProvider_default k)).
    rewrite fallback_keys_default. by intros [= <-].
  - intros p El. unfold provider_of. by rewrite El.
  - rewrite Ha. destruct (latest call_connect cs); simpl; split; [eauto|done|done|by intros []].
  - rewrite Hf. by destruct (latest call_connect cs) as [[]|].
  - rewrite He. by destruct (latest call_expire cs).
  - rewrite Ht. by destruct (latest call_timeout cs).
Qed.

(** [Client::spawn] of a configuration. *)
Lemma Client_spawn_spec cfg se :
  (is_ok (Client_spawn cfg se).1 = true <->
     is_Some (se_bound se) /\ se_virtual_tcp se = true /\ se_receiver se = true /\
     (cfg_auto_connect cfg = true -> cfg_auto_connect_fail_fast cfg = true ->
      se_server_session se = true)) /\
  (is_ok (Client_spawn cfg se).1 = true ->
     sp_bind_addr (Client_spawn cfg se).2 = se_bound se /\ sp_ping (Client_spawn cfg se).2 = true) /\
  (is_Some (se_bound se) -> sp_keep_alive (Client_spawn cfg se).2 =
     cfg_auto_connect cfg && negb (cfg_auto_connect_fail_fast cfg)).
Proof.
  unfold Client_spawn, TransportLayer_spawn, SessionLayer_spawn.
  destruct (se_bound se); [|split_and!; [split; [done|by intros [[] _]]|done|by intros []]].
  destruct (se_virtual_tcp se), (se_receiver se); try by (split_and!; naive_solver).
  destruct (cfg_auto_connect cfg), (cfg_auto_connect_fail_fast cfg), (se_server_session se);
    split_and!; naive_solver.
Qed.

(** The same, for the calls the configuration was made with. *)
Lemma build_spec fe env k crypto se b cfg cs :
  build_config fe env k crypto b = Ret (Ok cfg) -> settings_of env cs cfg ->
  exists r, build fe env k crypto se b = Ret r /\
    (is_ok r = true <->
       is_Some (se_bound se) /\ se_virtual_tcp se = true /\ se_receiver se = true /\
       (latest call_connect cs = Some FailFastYes -> se_server_session se = true)) /\
    forall cfg' s, r = Ok (cfg', s) ->
      cfg' = cfg /\ sp_bind_addr s = se_bound se /\ sp_ping s = true /\
      (sp_keep_alive s = true <-> latest call_connect cs = Some FailFastNo).
Proof.
  intros Hr [_ _ _ _ Hc Hf _ _ _ _ _ _]. unfold build. rewrite Hr. simpl. eexists. split; [reflexivity|].
  destruct (Client_spawn_spec cfg se) as (Hs & Hb & Hk). revert Hs Hb Hk.
  replace (cfg_auto_connect cfg) with (from_option (fun _ => true) false (latest call_connect cs)).
  2: { destruct (cfg_auto_connect cfg), (latest call_connect cs); naive_solver. }
  replace (cfg_auto_connect_fail_fast cfg) with (bool_decide (latest call_connect cs = Some FailFastYes)).
  2: { case_bool_decide; destruct (cfg_auto_connect_fail_fast cfg); naive_solver. }
  clear Hc Hf. destruct (Client_spawn cfg se) as [[[]|e] s]; simpl;
    destruct (latest call_connect cs) as [[]|]; simpl.
  all: intros Hs Hb Hk; (split; [intuition congruence|]); try done;
    intros ? ? [= <- <-]; destruct (Hb eq_refl) as [-> ->], (proj1 Hs eq_refl) as [Hbound _];
    rewrite (Hk Hbound); by split_and!.
Qed.

(** C17: how a client is configured and started.  No default panics.  The calls of
    the builder are accepted exactly when every maximum of a buffer reaches the
    default size of the buffer.  Then [build_config] gives a result, which is a
    configuration exactly when a provider that was given has a key for its
    default id, the MTU leaves room for every header, and the URL of the server
    names a socket address, with the default port where it has none.  In the
    configuration every setting is that of its last call, or its default; the
    key is that of the node's id; buffers are ordered.  Every packet the
    virtual network may send leaves as a datagram within the maximum of the
    sink.  The client starts exactly when its parts do, where the session with
    the relay counts only for a client that was told to fail fast; and the task
    that restores that session runs exactly for one told to connect and not to
    fail fast. *)
Theorem config_well_formed {P} `{PL : ProstLaws P} `{AL : AeadLaws} (fe strict : bool) (env : ConfigEnv)
  (k : SecretKey) (crypto : SessionCrypto) (url : Url) (cs : list BuilderCall) :
  (latest call_listen cs = None -> is_Some (url_parse "udp://0.0.0.0:0")) ->
  exists b0, from_url env url = Ret b0 /\
  (is_ok (builder_calls cs b0) = true <-> Forall size_allowed cs) /\
  forall b, builder_calls cs b0 = Ok b ->
  exists r, build_config fe env k crypto b = Ret r /\
    (is_ok r = true <-> buildable fe env url cs) /\
    forall cfg, r = Ok cfg ->
      settings_of env cs cfg /\
      (exists text, parse_udp_url env url = Some text /\ sock_from_str text = Some (cfg_srv_addr cfg)) /\
      (exists max, resolve_max_payload_size (ce_mtu env) = Ok max /\
        forall supported key routing direct nonce packet transport f,
          encryption_new fe strict supported key (cfg_session_crypto cfg) = Ok (nr_encryption routing) ->
          zlen nonce = NONCE_SIZE -> zlen (ds_id direct) = SESSION_ID_SIZE ->
          Payload_len packet <= ns_max_transmission_unit (cfg_stack_config cfg) ->
          routing_send routing direct nonce packet transport = Some f ->
          exists buf, datagram_encode (P := P) (KForward f) [] = Ok buf /\ zlen buf <= max) /\
      forall se, exists r', build fe env k crypto se b = Ret r' /\
        (is_ok r' = true <->
           is_Some (se_bound se) /\ se_virtual_tcp se = true /\ se_receiver se = true /\
           (latest call_connect cs = Some FailFastYes -> se_server_session se = true)) /\
        forall cfg' s, r' = Ok (cfg', s) ->
          cfg' = cfg /\ sp_bind_addr s = se_bound se /\ sp_ping s = true /\
          (sp_keep_alive s = true <-> latest call_connect cs = Some FailFastNo).
Proof.
  intros Hbind. destruct (from_url_spec env url) as (b0 & Hb0 & _ & _ & _ & _ & _ & _ & _ & Htcp & Hudp & _).
  exists b0. split; [done|]. rewrite builder_calls_spec, <- (accepted_allowed b0 cs) by done.
  destruct (forallb (accepted b0) cs) eqn:Eok; [|done]. split; [done|].
  apply accepted_allowed in Eok; [|done..]. intros b [= <-].
  destruct (build_config_spec fe env k crypto url cs b0 Hb0 Eok Hbind) as (r & Hr & Hok & Hcfg).
  exists r. split; [done|]. split; [done|]. intros cfg ->.
  destruct (Hcfg cfg eq_refl) as (Hset & Hmtu & Hcr & Haddr). split; [done|]. split; [done|]. split.
  - destruct (stack_mtu_fits (P := P) fe strict (ce_mtu env) [] None crypto) as (max & Hmax & _).
    exists max. split; [done|]. rewrite Hcr. intros supported key routing direct nonce packet transport f.
    intros. destruct (stack_mtu_fits (P := P) fe strict (ce_mtu env) supported key crypto)
      as (max' & Hmax' & _ & _ & _ & Hfit).
    rewrite Hmax in Hmax'. injection Hmax' as <-. by eapply Hfit.
  - intros se. by apply build_spec.
Qed.
End ClientConfig.

(** ** Example *)

Section Witness.
Import RawProst ToyCrypto ToyCipher ToyIp.

(** URLs as a host with a port, all of them read as one. *)
#[local] Instance toy_url : UrlOps := {
  Url := option string * option Z;
  url_parse _ := Some (Some "0.0.0.0"%string, Some 0);
  url_host_str u := u.1;
  url_port u := u.2 }.

Definition toy_env : ConfigEnv :=
  {| ce_sent_batch := Some "1"%string; ce_recv_batch := None; ce_pcap_file := None;
     ce_mtu := Some "131"%string; ce_net_port := Some "70000"%string |}.

Definition toy_server : Url := (Some "10.0.0.1"%string, None).

Definition toy_calls : list BuilderCall :=
  [CallConnect FailFastYes; CallTcpRecv 200000; CallConnect FailFastNo].

Lemma config_well_formed_witness :
  exists b0 b cfg, from_url toy_env toy_server = Ret b0 /\
    builder_calls toy_calls b0 = Ok b /\
    build_config (KA := toy_agreement) true toy_env 3 4 b = Ret (Ok cfg) /\
    mem_max (sc_tcp_mem (ns_stack (cfg_stack_config cfg))).1 = 200000 /\
    cfg_auto_connect cfg = true /\ cfg_session_request_timeout cfg = 3000.
Proof.
  destruct (config_well_formed (P := list Z) (KA := toy_agreement) (U := toy_url) true true toy_env 3 4
    toy_server toy_calls) as (b0 & Hb & Hok & Hbuild).
  { intros _. by eexists. }
  assert (is_ok (builder_calls toy_calls b0) = true) as Hcalls.
  { apply Hok. repeat constructor; vm_compute; discriminate. }
  destruct (builder_calls toy_calls b0) as [b|] eqn:Eb; [|discriminate Hcalls].
  destruct (Hbuild b eq_refl) as (r & Hr & Hbok & Hcfg).
  assert (is_ok r = true) as Hisok.
  { apply Hbok. split; [intros p Hp; discriminate Hp|]. split; [by vm_compute|].
    eexists _, _. split; reflexivity. }
  destruct r as [cfg|]; [|discriminate Hisok].
  destruct (Hcfg cfg eq_refl) as [[_ _ _ _ Hc _ _ Ht Htcp _ _ _] _].
  exists b0, b, cfg. destruct (sc_tcp_mem _) as [rx tx]. destruct Htcp as (Hrx & _).
  split_and!; [done|done|done|exact Hrx|apply Hc; by eexists|exact Ht].
Defined.
End Witness.
