(* ===== verification/TcpRegistry.v ===== *)
(** [client/src/transport/tcp_registry.rs]: the virtual TCP channels to other
    nodes, and the exclusive right to open one.

    The channels of a [VirtNode] are shared by its clones, so they live in a heap
    and a node holds their locations.  The runtime is single-threaded and no lock
    is held across an [await], so each operation is one step; the tasks that hold
    a permit or wait for one are interleaved by the step relation. *)

From stdpp Require Import vector.
From S2P Require Import Prelude Challenge.

Inductive ChannelType : Type := ChMessages | ChTransfer.
Inductive ChannelDirection : Type := Out | In.

Record ChannelDesc : Type := { cd_type : ChannelType; cd_direction : ChannelDirection }.

#[export] Instance ChannelType_eq_dec : EqDecision ChannelType.
Proof. solve_decision. Defined.

#[export] Instance ChannelDirection_eq_dec : EqDecision ChannelDirection.
Proof. solve_decision. Defined.

#[export] Instance ChannelDesc_eq_dec : EqDecision ChannelDesc.
Proof. solve_decision. Defined.

Definition ChannelDesc_index (d : ChannelDesc) : fin 4 :=
  match cd_type d, cd_direction d with
  | ChTransfer, In => 0%fin
  | ChTransfer, Out => 1%fin
  | ChMessages, In => 2%fin
  | ChMessages, Out => 3%fin
  end.

Definition ChannelDesc_port (d : ChannelDesc) : Z :=
  match cd_type d with ChMessages => 1 | ChTransfer => 2 end.

(** The address of a node in the virtual network. *)
Definition IPV6_ADDRESS_LEN : Z := 16.

Definition to_ipv6 (bytes : list Z) : list Z :=
  let len := Z.min IPV6_ADDRESS_LEN (zlen bytes) in
  let ipv6_bytes := ztake len bytes ++ replicate (Z.to_nat (IPV6_ADDRESS_LEN - len)) 0 in
  let ipv6_bytes := alter (fun b => b mod 255) 0%nat ipv6_bytes in
  if bool_decide (ztake 15 ipv6_bytes = replicate 15 0) && (nth 15 ipv6_bytes 0 <? 2)
  then <[15%nat := 2]> ipv6_bytes
  else ipv6_bytes.

(** ** Errors and states *)

(** [TcpError]; the boxed source of a generic error is left out. *)
Inductive TcpError : Type :=
| TcpGeneric (msg : string)
| TcpClosed
| TcpProgrammingError (msg : string)
| TcpOther (msg : string).

Section Registry.
(** [ya_relay_stack::Connection]. *)
Context {Connection : Type}.

Record TcpConnection : Type := {
  tc_id : NodeId;
  tc_conn : Connection;
  tc_channel : ChannelDesc }.

Inductive TcpState : Type :=
| Connecting
| Connected (conn : TcpConnection)
| Failed (e : TcpError)
| Closing
| Closed.

Inductive TcpTransitionError : Type := InvalidTransition (from to : TcpState).

Definition TcpState_transition (state new_state : TcpState)
  : result TcpState TcpTransitionError :=
  match state, new_state with
  | Closed, Connecting
  | Failed _, Connecting
  | Connecting, Failed _
  | Connecting, Connected _
  | Connected _, Closing
  | Connected _, Closed => Ok new_state
  | _, _ => Err (InvalidTransition state new_state)
  end.

Record VirtChannel : Type := { vc_channel : ChannelDesc; vc_state : TcpState }.

Definition VirtChannel_new (desc : ChannelDesc) : VirtChannel :=
  {| vc_channel := desc; vc_state := Closed |}.

Abbreviation Heap := (list VirtChannel).

(** The target of the routing sender is the id of the node. *)
Record VirtNode : Type := {
  vn_address : list Z;
  vn_id : NodeId;
  vn_channels : vec nat 4 }.

(** [VirtNode::new]: the four channels, created in the order of the source. *)
Definition VirtNode_new (id : NodeId) (heap : Heap) : VirtNode * Heap :=
  let k := length heap in
  let heap := heap ++
    [VirtChannel_new {| cd_type := ChMessages; cd_direction := In |};
     VirtChannel_new {| cd_type := ChMessages; cd_direction := Out |};
     VirtChannel_new {| cd_type := ChTransfer; cd_direction := In |};
     VirtChannel_new {| cd_type := ChTransfer; cd_direction := Out |}] in
  ({| vn_address := to_ipv6 id; vn_id := id; vn_channels := [# k + 2; k + 3; k; k + 1]%nat |}, heap).

Definition VirtNode_channel (node : VirtNode) (d : ChannelDesc) : nat :=
  vn_channels node !!! ChannelDesc_index d.

(** The state of a channel; a location is never dangling. *)
Definition channel_state (heap : Heap) (l : nat) : TcpState :=
  match heap !! l with Some c => vc_state c | None => Closed end.

(** [VirtNode::transition]. *)
Definition VirtNode_transition (heap : Heap) (node : VirtNode) (channel : ChannelDesc)
  (new_state : TcpState) : result unit TcpTransitionError * Heap :=
  let l := VirtNode_channel node channel in
  match TcpState_transition (channel_state heap l) new_state with
  | Ok s => (Ok (), alter (fun c => {| vc_channel := vc_channel c; vc_state := s |}) l heap)
  | Err e => (Err e, heap)
  end.

(** ** The registry *)

Record TcpRegistry : Type := {
  tr_nodes : gmap (list Z) VirtNode;
  tr_ips : gmap NodeId (list Z) }.

Definition TcpRegistry_new : TcpRegistry := {| tr_nodes := ∅; tr_ips := ∅ |}.

Definition resolve_node (r : TcpRegistry) (node : NodeId) : option VirtNode :=
  match tr_ips r !! node with
  | Some ip => tr_nodes r !! ip
  | None => None
  end.

Definition get_by_address (r : TcpRegistry) (addr : list Z) : option VirtNode := tr_nodes r !! addr.

Definition add_virt_node (r : TcpRegistry) (heap : Heap) (node_id : NodeId)
  : VirtNode * TcpRegistry * Heap :=
  let '(node, heap) := VirtNode_new node_id heap in
  (node, {| tr_nodes := <[vn_address node := node]> (tr_nodes r);
            tr_ips := <[node_id := vn_address node]> (tr_ips r) |}, heap).

Definition close_channel (heap : Heap) (node : VirtNode) (channel : ChannelDesc) : Heap :=
  match channel_state heap (VirtNode_channel node channel) with
  | Closed => heap
  | _ => (VirtNode_transition heap node channel Closed).2
  end.

Definition remove_node (r : TcpRegistry) (heap : Heap) (node_id : NodeId) : Heap :=
  match resolve_node r node_id with
  | Some node =>
      let heap := close_channel heap node {| cd_type := ChMessages; cd_direction := Out |} in
      close_channel heap node {| cd_type := ChTransfer; cd_direction := Out |}
  | None => heap
  end.

(** [TcpLayer::receive] of [virtual_layer.rs], as far as the registry goes. *)
Definition receive (r : TcpRegistry) (heap : Heap) (node : NodeId) : TcpRegistry * Heap :=
  match resolve_node r node with
  | Some _ => (r, heap)
  | None => let '(_, r, heap) := add_virt_node r heap node in (r, heap)
  end.

(** ** Permits and waiting *)

Record TcpPermit : Type := {
  tp_node : VirtNode;
  tp_channel : ChannelDesc;
  tp_result : option (result TcpConnection TcpError) }.

(** The waiter: whether it is past the first look at the state, and what its
    subscription to the notifier has received. *)
Record TcpAwaiting : Type := {
  ta_channel : nat;
  ta_waiting : bool;
  ta_received : list (result TcpConnection TcpError) }.

Inductive TcpLock : Type :=
| Permit (p : TcpPermit)
| Wait (w : TcpAwaiting).

Definition connect_attempt (r : TcpRegistry) (heap : Heap) (node : NodeId) (channel : ChannelDesc)
  : TcpLock * TcpRegistry * Heap :=
  let '(node, r, heap) :=
    match resolve_node r node with
    | Some node => (node, r, heap)
    | None => add_virt_node r heap node
    end in
  match VirtNode_transition heap node channel Connecting with
  | (Ok _, heap) =>
      (Permit {| tp_node := node; tp_channel := channel; tp_result := None |}, r, heap)
  | (Err _, heap) =>
      (Wait {| ta_channel := VirtNode_channel node channel; ta_waiting := false;
               ta_received := [] |}, r, heap)
  end.

Definition TcpPermit_finish (p : TcpPermit) (res : result TcpConnection TcpError) : TcpPermit :=
  {| tp_node := tp_node p; tp_channel := tp_channel p; tp_result := Some res |}.

(** [async_drop] of a permit: the new heap, and what is sent to the waiters. *)
Definition async_drop (heap : Heap) (node : VirtNode) (channel : ChannelDesc)
  (res : option (result TcpConnection TcpError)) : result TcpConnection TcpError * Heap :=
  match res with
  | Some (Ok conn) =>
      match VirtNode_transition heap node channel (Connected conn) with
      | (Ok _, heap) => (Ok conn, heap)
      | (Err _, heap) => (Err (TcpGeneric "failed to change channel state"), heap)
      end
  | Some (Err e) => (Err e, (VirtNode_transition heap node channel (Failed e)).2)
  | None => (Err (TcpOther "Dropping `TcpPermit` without result."), heap)
  end.

(** The end of [await_for_finish]: the notifier keeps one message. *)
Definition notifier_recv (received : list (result TcpConnection TcpError))
  : option (result TcpConnection TcpError) :=
  match received with
  | [] => None
  | [res] => Some res
  | _ => Some (Err (TcpGeneric "Waiting for tcp connection initialization: notifier lagged."))
  end.

(** A poll of [await_for_finish]; [None] while it waits. *)
Definition await_for_finish (heap : Heap) (w : TcpAwaiting)
  : option (result TcpConnection TcpError) :=
  if ta_waiting w then notifier_recv (ta_received w)
  else
    match channel_state heap (ta_channel w) with
    | Connected conn => Some (Ok conn)
    | Closed => Some (Err TcpClosed)
    | Failed _ => Some (Err (TcpGeneric "Wait for Finish"))
    | Connecting | Closing => notifier_recv (ta_received w)
    end.

(** ** Interleavings *)

Record World : Type := {
  w_registry : TcpRegistry;
  w_heap : Heap;
  w_permits : list TcpPermit;
  w_waiters : list TcpAwaiting;
  (** channels whose permit was dropped without a result *)
  w_abandoned : list nat }.

Definition World_new : World :=
  {| w_registry := TcpRegistry_new; w_heap := []; w_permits := []; w_waiters := [];
     w_abandoned := [] |}.

Definition permit_loc (p : TcpPermit) : nat := VirtNode_channel (tp_node p) (tp_channel p).

(** [notifier.send] reaches the waiters subscribed to the channel. *)
Definition notify (l : nat) (res : result TcpConnection TcpError) (ws : list TcpAwaiting)
  : list TcpAwaiting :=
  map (fun w =>
    if bool_decide (ta_channel w = l)
    then {| ta_channel := ta_channel w; ta_waiting := ta_waiting w;
            ta_received := ta_received w ++ [res] |}
    else w) ws.

Definition do_connect (w : World) (node : NodeId) (channel : ChannelDesc) : World :=
  let '(lock, r, heap) := connect_attempt (w_registry w) (w_heap w) node channel in
  {| w_registry := r; w_heap := heap;
     w_permits := match lock with Permit p => p :: w_permits w | Wait _ => w_permits w end;
     w_waiters := match lock with Permit _ => w_waiters w | Wait a => a :: w_waiters w end;
     w_abandoned := w_abandoned w |}.

(** The task of [async_drop] runs for the permit [p], which leaves [others]. *)
Definition do_drop (w : World) (p : TcpPermit) (others : list TcpPermit) : World :=
  let '(res, heap) := async_drop (w_heap w) (tp_node p) (tp_channel p) (tp_result p) in
  {| w_registry := w_registry w; w_heap := heap; w_permits := others;
     w_waiters := notify (permit_loc p) res (w_waiters w);
     w_abandoned :=
       match tp_result p with
       | Some _ => w_abandoned w
       | None => permit_loc p :: w_abandoned w
       end |}.

Definition with_permits (w : World) (ps : list TcpPermit) : World :=
  {| w_registry := w_registry w; w_heap := w_heap w; w_permits := ps; w_waiters := w_waiters w;
     w_abandoned := w_abandoned w |}.

Definition with_waiters (w : World) (ws : list TcpAwaiting) : World :=
  {| w_registry := w_registry w; w_heap := w_heap w; w_permits := w_permits w; w_waiters := ws;
     w_abandoned := w_abandoned w |}.

Definition with_registry (w : World) (r : TcpRegistry) (heap : Heap) : World :=
  {| w_registry := r; w_heap := heap; w_permits := w_permits w; w_waiters := w_waiters w;
     w_abandoned := w_abandoned w |}.

(** The steps of the tasks that use the registry, for the nodes of [known]. *)
Inductive tcp_step (known : NodeId -> Prop) (w : World) : World -> Prop :=
| step_connect node channel : known node -> tcp_step known w (do_connect w node channel)
| step_finish ps1 p ps2 res :
    w_permits w = ps1 ++ p :: ps2 ->
    tcp_step known w (with_permits w (ps1 ++ TcpPermit_finish p res :: ps2))
| step_drop ps1 p ps2 :
    w_permits w = ps1 ++ p :: ps2 -> tcp_step known w (do_drop w p (ps1 ++ ps2))
| step_remove node :
    tcp_step known w (with_registry w (w_registry w) (remove_node (w_registry w) (w_heap w) node))
| step_receive node : known node ->
    tcp_step known w
      (with_registry w (receive (w_registry w) (w_heap w) node).1
                       (receive (w_registry w) (w_heap w) node).2)
| step_await ws1 a ws2 :
    w_waiters w = ws1 ++ a :: ws2 ->
    tcp_step known w
      (with_waiters w
        (match await_for_finish (w_heap w) a with
         | Some _ => ws1 ++ ws2
         | None => ws1 ++ {| ta_channel := ta_channel a; ta_waiting := true;
                             ta_received := ta_received a |} :: ws2
         end)).

End Registry.

(** ** The invariant *)

Section Invariant.
Context {Connection : Type}.
Context (known : NodeId -> Prop).
Context (known_inj : forall a b, known a -> known b -> to_ipv6 a = to_ipv6 b -> a = b).

Abbreviation Heap := (list (VirtChannel (Connection := Connection))).
Abbreviation World := (World (Connection := Connection)).

(** What channel each location of the heap is. *)
Definition kinds (heap : Heap) : list ChannelDesc := vc_channel <$> heap.

Record registry_inv (r : TcpRegistry) (heap : Heap) : Prop := {
  ri_ips n ip : tr_ips r !! n = Some ip -> ip = to_ipv6 n /\ is_Some (tr_nodes r !! ip);
  ri_nodes ip v : tr_nodes r !! ip = Some v ->
    vn_address v = ip /\ ip = to_ipv6 (vn_id v) /\ known (vn_id v) /\
    tr_ips r !! vn_id v = Some ip /\
    forall d, kinds heap !! VirtNode_channel v d = Some d;
  ri_disjoint ip1 v1 ip2 v2 d :
    tr_nodes r !! ip1 = Some v1 -> tr_nodes r !! ip2 = Some v2 ->
    VirtNode_channel v1 d = VirtNode_channel v2 d -> v1 = v2 }.

Definition registered (r : TcpRegistry) (p : TcpPermit (Connection := Connection)) : Prop :=
  tr_nodes r !! vn_address (tp_node p) = Some (tp_node p).

(** The channels somebody is responsible for. *)
Definition claimed (w : World) : list nat := map permit_loc (w_permits w) ++ w_abandoned w.

Definition blocked (a : TcpAwaiting (Connection := Connection)) : Prop :=
  ta_waiting a = true /\ ta_received a = [].

Record tcp_inv (w : World) : Prop := {
  ti_registry : registry_inv (w_registry w) (w_heap w);
  ti_permits : Forall (registered (w_registry w)) (w_permits w);
  ti_claimed_once : NoDup (claimed w);
  ti_connecting l : channel_state (w_heap w) l = Connecting <-> l ∈ claimed w;
  ti_closing l : channel_state (w_heap w) l <> Closing;
  ti_blocked a : a ∈ w_waiters w -> blocked a -> ta_channel a ∈ claimed w }.

(** *** Heaps *)

Definition set_state (l : nat) (s : TcpState) (heap : Heap) : Heap :=
  alter (fun c => {| vc_channel := vc_channel c; vc_state := s |}) l heap.

Lemma kinds_set_state l s heap : kinds (set_state l s heap) = kinds heap.
Proof.
  unfold kinds, set_state. apply list_eq. intros i. rewrite !list_lookup_fmap.
  destruct (decide (i = l)) as [->|Hne].
  - rewrite list_lookup_alter_eq. by destruct (heap !! l).
  - by rewrite list_lookup_alter_ne.
Qed.

Lemma channel_state_set l l' s heap :
  is_Some (kinds heap !! l) ->
  channel_state (set_state l s heap) l' = if decide (l' = l) then s else channel_state heap l'.
Proof.
  unfold kinds, channel_state, set_state. rewrite list_lookup_fmap, fmap_is_Some.
  intros [c Hc]. case_decide as Hl.
  - subst. by rewrite list_lookup_alter_eq, Hc.
  - by rewrite list_lookup_alter_ne.
Qed.

Lemma transition_eq heap v d s :
  VirtNode_transition heap v d s =
    match TcpState_transition (channel_state heap (VirtNode_channel v d)) s with
    | Ok s => (Ok (), set_state (VirtNode_channel v d) s heap)
    | Err e => (Err e, heap)
    end.
Proof. done. Qed.

Lemma VirtNode_new_channel n heap d :
  VirtNode_channel (VirtNode_new (Connection := Connection) n heap).1 d =
    (length heap + match cd_type d, cd_direction d with
                   | ChMessages, In => 0 | ChMessages, Out => 1
                   | ChTransfer, In => 2 | ChTransfer, Out => 3 end)%nat.
Proof. destruct d as [[] []]; unfold VirtNode_channel, VirtNode_new; simpl; lia. Qed.

Lemma VirtNode_new_kinds n heap d :
  kinds (VirtNode_new n heap).2 !! VirtNode_channel (VirtNode_new (Connection := Connection) n heap).1 d
    = Some d.
Proof.
  rewrite VirtNode_new_channel. unfold VirtNode_new, kinds. simpl.
  rewrite fmap_app, lookup_app_r by (rewrite length_fmap; lia). rewrite length_fmap.
  replace (length heap + _ - length heap)%nat with
    (match cd_type d, cd_direction d with
     | ChMessages, In => 0 | ChMessages, Out => 1
     | ChTransfer, In => 2 | ChTransfer, Out => 3 end)%nat by lia.
  by destruct d as [[] []].
Qed.

Lemma VirtNode_new_state n heap l :
  channel_state (VirtNode_new (Connection := Connection) n heap).2 l = channel_state heap l.
Proof.
  unfold channel_state. simpl. destruct (heap !! l) as [c|] eqn:E.
  - by rewrite (lookup_app_l_Some _ _ _ _ E).
  - apply lookup_ge_None in E. rewrite lookup_app_r by done.
    destruct (l - length heap)%nat as [|[|[|[|k]]]]; try done.
Qed.

Lemma VirtNode_new_kinds_old n heap l d :
  kinds heap !! l = Some d -> kinds (VirtNode_new n heap).2 !! l = Some d.
Proof. intros Hl. unfold kinds. simpl. rewrite fmap_app. by apply lookup_app_l_Some. Qed.

(** *** The registry *)

Lemma registry_inv_heap r heap heap' :
  kinds heap' = kinds heap -> registry_inv r heap -> registry_inv r heap'.
Proof. intros Hk [Hi Hn Hd]. split; [done| |done]. intros ip v. rewrite Hk. apply Hn. Qed.

Lemma resolve_node_spec r heap n :
  registry_inv r heap -> known n ->
  match resolve_node r n with
  | Some v => tr_nodes r !! vn_address v = Some v /\ vn_id v = n
  | None => tr_ips r !! n = None /\ tr_nodes r !! to_ipv6 n = None
  end.
Proof.
  intros Hr Hn. unfold resolve_node. destruct (tr_ips r !! n) as [ip|] eqn:Ei.
  - destruct (ri_ips _ _ Hr _ _ Ei) as [-> [v Hv]]. rewrite Hv.
    destruct (ri_nodes _ _ Hr _ _ Hv) as (Ha & Hid & Hk & _). rewrite Ha. split; [done|].
    symmetry. by apply known_inj.
  - split; [done|]. destruct (tr_nodes r !! to_ipv6 n) as [v|] eqn:Hv; [|done].
    destruct (ri_nodes _ _ Hr _ _ Hv) as (_ & Hid & Hk & Hips & _).
    assert (vn_id v = n) as E by (symmetry; by apply known_inj). rewrite E in Hips. congruence.
Qed.

(** The node a task works with: the registered one, or a new one. *)
Definition ensure_node (r : TcpRegistry) (heap : Heap) (n : NodeId) : VirtNode * TcpRegistry * Heap :=
  match resolve_node r n with
  | Some v => (v, r, heap)
  | None => add_virt_node r heap n
  end.

Lemma VirtNode_new_registry r heap n :
  registry_inv r heap -> known n -> tr_ips r !! n = None -> tr_nodes r !! to_ipv6 n = None ->
  registry_inv
    {| tr_nodes := <[to_ipv6 n := (VirtNode_new n heap).1]> (tr_nodes r);
       tr_ips := <[n := to_ipv6 n]> (tr_ips r) |} (VirtNode_new n heap).2.
Proof.
  intros Hr Hn Hi Hno.
  assert (forall ip v d, tr_nodes r !! ip = Some v ->
    VirtNode_channel v d <> VirtNode_channel (VirtNode_new (Connection := Connection) n heap).1 d) as Hold.
  { intros ip v d Hv. destruct (ri_nodes _ _ Hr _ _ Hv) as (_ & _ & _ & _ & Hk).
    specialize (Hk d). apply lookup_lt_Some in Hk. unfold kinds in Hk. rewrite length_fmap in Hk.
    rewrite VirtNode_new_channel. lia. }
  split; cbn [tr_nodes tr_ips].
  - intros m ip. rewrite lookup_insert_Some. intros [[<- <-]|[Hne Hm]].
    + split; [done|]. rewrite lookup_insert_eq. by eexists.
    + destruct (ri_ips _ _ Hr _ _ Hm) as [-> Hs]. split; [done|]. by apply lookup_insert_is_Some'; right.
  - intros ip v. rewrite lookup_insert_Some. intros [[<- <-]|[Hne Hv]].
    + split_and!; [done..|by rewrite lookup_insert_eq|]. intros d. apply VirtNode_new_kinds.
    + destruct (ri_nodes _ _ Hr _ _ Hv) as (Ha & Hid & Hk & Hips & Hc). split_and!; try done.
      * rewrite lookup_insert_ne; [done|]. intros E. rewrite E in Hi. congruence.
      * intros d. apply VirtNode_new_kinds_old, Hc.
  - intros ip1 v1 ip2 v2 d. rewrite !lookup_insert_Some.
    intros [[_ <-]|[_ H1]] [[_ <-]|[_ H2]] E; [done| | |].
    + by destruct (Hold _ _ d H2).
    + by destruct (Hold _ _ d H1).
    + by eapply (ri_disjoint _ _ Hr).
Qed.

Lemma ensure_node_spec r heap n v r' heap' :
  registry_inv r heap -> known n -> ensure_node r heap n = (v, r', heap') ->
  registry_inv r' heap' /\ tr_nodes r' !! vn_address v = Some v /\ vn_id v = n /\
  (forall l, channel_state heap' l = channel_state heap l) /\
  (forall p, registered r p -> registered r' p).
Proof.
  intros Hr Hn. unfold ensure_node. pose proof (resolve_node_spec r heap n Hr Hn) as Hs.
  destruct (resolve_node r n) as [v0|].
  - intros [= <- <- <-]. by destruct Hs.
  - destruct Hs as [Hi Hno]. unfold add_virt_node.
    pose proof (VirtNode_new_registry r heap n Hr Hn Hi Hno) as Hr'.
    pose proof (VirtNode_new_state n heap) as Hst.
    assert (vn_address (VirtNode_new n heap).1 = to_ipv6 n /\ vn_id (VirtNode_new n heap).1 = n)
      as [Ha Hid] by done.
    destruct (VirtNode_new n heap) as [v0 h0]. cbn [fst snd] in *.
    rewrite Ha. intros [= <- <- <-]. rewrite Ha. split_and!; try done.
    + cbn [tr_nodes]. by rewrite lookup_insert_eq.
    + intros p Hp. unfold registered in *. cbn [tr_nodes]. rewrite lookup_insert_ne; [done|]. congruence.
Qed.

Lemma connect_attempt_eq r heap n d :
  connect_attempt r heap n d =
    let '(v, r, heap) := ensure_node r heap n in
    match VirtNode_transition heap v d Connecting with
    | (Ok _, heap) => (Permit {| tp_node := v; tp_channel := d; tp_result := None |}, r, heap)
    | (Err _, heap) =>
        (Wait {| ta_channel := VirtNode_channel v d; ta_waiting := false; ta_received := [] |}, r, heap)
    end.
Proof. done. Qed.

Lemma receive_eq r heap n : receive r heap n = ((ensure_node r heap n).1.2, (ensure_node r heap n).2).
Proof.
  unfold receive, ensure_node. destruct (resolve_node r n); [done|].
  by destruct (add_virt_node r heap n) as [[? ?] ?].
Qed.

Lemma registered_kind r heap v d :
  registry_inv r heap -> tr_nodes r !! vn_address v = Some v ->
  is_Some (kinds heap !! VirtNode_channel v d).
Proof. intros Hr Hv. destruct (ri_nodes _ _ Hr _ _ Hv) as (_ & _ & _ & _ & Hk). by eexists. Qed.

(** *** Steps *)

Lemma tcp_inv_new : tcp_inv World_new.
Proof.
  split; simpl.
  - split; cbn [tr_ips tr_nodes TcpRegistry_new]; intros *; by rewrite lookup_empty.
  - constructor.
  - constructor.
  - intros l. unfold channel_state. rewrite lookup_nil. by rewrite elem_of_nil.
  - intros l. by unfold channel_state; rewrite lookup_nil.
  - intros a. by rewrite elem_of_nil.
Qed.

(** Only the registry and the waiters of [claimed] channels change. *)
Lemma tcp_inv_registry w r heap :
  tcp_inv w -> registry_inv r heap -> (forall p, registered (w_registry w) p -> registered r p) ->
  (forall l, channel_state heap l = channel_state (w_heap w) l) ->
  tcp_inv (with_registry w r heap).
Proof.
  intros Hw Hr Hp Hs. split; cbn; try apply Hw.
  - done.
  - eapply Forall_impl; [apply Hw|done].
  - intros l. rewrite Hs. apply Hw.
  - intros l. rewrite Hs. apply Hw.
Qed.

Lemma do_connect_inv w n d : tcp_inv w -> known n -> tcp_inv (do_connect w n d).
Proof.
  intros Hw Hn. unfold do_connect. rewrite connect_attempt_eq.
  destruct (ensure_node (w_registry w) (w_heap w) n) as [[v r] heap] eqn:E.
  apply ensure_node_spec in E as (Hr & Hv & _ & Hs & Hp); [|apply Hw|done].
  pose proof (tcp_inv_registry w r heap Hw Hr Hp Hs) as Hw'.
  pose proof (registered_kind r heap v d Hr Hv) as Hk. set (l := VirtNode_channel v d) in *.
  rewrite transition_eq. fold l. destruct (TcpState_transition (channel_state heap l) Connecting) eqn:Et.
  - assert (channel_state heap l <> Connecting /\ a = Connecting) as [Hne ->].
    { destruct (channel_state heap l); by simplify_eq/=. }
    assert (l ∉ claimed w) as Hl by by rewrite <- (ti_connecting _ Hw'). split; cbn.
    + eapply registry_inv_heap; [apply kinds_set_state|done].
    + constructor; [done|apply Hw'].
    + constructor; [done|apply Hw'].
    + intros l'. rewrite channel_state_set by done. case_decide as Hd.
      * subst. split; [by left|done].
      * rewrite (ti_connecting _ Hw'). unfold claimed. cbn. rewrite elem_of_cons. naive_solver.
    + intros l'. rewrite channel_state_set by done. case_decide; [done|apply Hw'].
    + intros a Ha Hb. right. by apply (ti_blocked _ Hw').
  - split; cbn; try apply Hw'. intros a [->|Ha]%elem_of_cons Hb; [by destruct Hb|].
    by apply (ti_blocked _ Hw').
Qed.

(** A permit is always dropped on a channel that is still connecting. *)
Lemma async_drop_connecting heap v d res :
  channel_state heap (VirtNode_channel v d) = Connecting ->
  async_drop heap v d res =
    match res with
    | Some r =>
        (r, set_state (VirtNode_channel v d)
              (match r with Ok conn => Connected conn | Err e => Failed e end) heap)
    | None => (Err (TcpOther "Dropping `TcpPermit` without result."), heap)
    end.
Proof.
  intros Hs. unfold async_drop. destruct res as [[conn|e]|]; [| |done];
    rewrite transition_eq, Hs; done.
Qed.

Lemma claimed_split w ps1 p ps2 :
  w_permits w = ps1 ++ p :: ps2 ->
  claimed w ≡ₚ permit_loc p :: map permit_loc (ps1 ++ ps2) ++ w_abandoned w.
Proof.
  intros E. unfold claimed. rewrite E, !map_app. cbn [map].
  rewrite <- !app_assoc. cbn [app]. by rewrite <- Permutation_middle.
Qed.

Lemma notify_blocked l res ws a :
  a ∈ notify l res ws -> blocked a -> a ∈ ws /\ ta_channel a <> l.
Proof.
  unfold notify. intros (w & -> & Hw)%list_elem_of_fmap. case_bool_decide; [|done].
  intros [_ E]. by apply app_nil in E as [_ ?].
Qed.

Lemma do_drop_inv w ps1 p ps2 :
  tcp_inv w -> w_permits w = ps1 ++ p :: ps2 -> tcp_inv (do_drop w p (ps1 ++ ps2)).
Proof.
  intros Hw E. pose proof (claimed_split _ _ _ _ E) as Hc.
  assert (forall l, l ∈ claimed w <-> l = permit_loc p \/ l ∈ map permit_loc (ps1 ++ ps2) ++ w_abandoned w)
    as Hin by (intros l; by rewrite Hc, elem_of_cons).
  pose proof (ti_claimed_once _ Hw) as Hnd. rewrite Hc in Hnd. apply NoDup_cons in Hnd as [Hnp Hnd].
  assert (channel_state (w_heap w) (permit_loc p) = Connecting) as Hs by (apply Hw, Hin; by left).
  pose proof (ti_permits _ Hw) as Hps. rewrite E in Hps.
  apply Forall_app in Hps as [Hp1 [Hp Hp2]%Forall_cons_1].
  pose proof (registered_kind _ _ _ (tp_channel p) (ti_registry _ Hw) Hp) as Hk.
  unfold do_drop. rewrite async_drop_connecting by done. fold (permit_loc p) in *.
  destruct (tp_result p) as [res|].
  - split; unfold claimed; cbn.
    + eapply registry_inv_heap; [apply kinds_set_state|apply Hw].
    + by apply Forall_app.
    + done.
    + intros l. rewrite channel_state_set by done. case_decide as Hd.
      * subst. by destruct res.
      * rewrite (ti_connecting _ Hw), Hin. naive_solver.
    + intros l. rewrite channel_state_set by done. case_decide; [by destruct res|apply Hw].
    + intros a Ha Hb. apply notify_blocked in Ha as [Ha Hne]; [|done].
      apply (ti_blocked _ Hw) in Ha; [|done]. apply Hin in Ha. naive_solver.
  - split; unfold claimed; cbn; try apply Hw.
    + by apply Forall_app.
    + rewrite <- Permutation_middle. by constructor.
    + intros l. rewrite (ti_connecting _ Hw), Hin, <- Permutation_middle, elem_of_cons. done.
    + intros a Ha Hb. apply notify_blocked in Ha as [Ha Hne]; [|done].
      rewrite <- Permutation_middle, elem_of_cons. apply Hin. by apply (ti_blocked _ Hw).
Qed.

(** Closing a channel never touches one that is being connected. *)
Lemma close_channel_spec heap v d :
  is_Some (kinds heap !! VirtNode_channel v d) -> (forall l, channel_state heap l <> Closing) ->
  kinds (close_channel heap v d) = kinds heap /\
  (forall l, channel_state (close_channel heap v d) l = Connecting <-> channel_state heap l = Connecting) /\
  (forall l, channel_state (close_channel heap v d) l <> Closing).
Proof.
  intros Hk Hc. unfold close_channel. rewrite transition_eq.
  destruct (channel_state heap (VirtNode_channel v d)) eqn:Es; cbn; try done.
  split; [apply kinds_set_state|]. split; intros l; rewrite channel_state_set by done;
    case_decide; subst; [by rewrite Es|done|done|apply Hc].
Qed.

Lemma remove_node_inv w n :
  tcp_inv w -> tcp_inv (with_registry w (w_registry w) (remove_node (w_registry w) (w_heap w) n)).
Proof.
  intros Hw. unfold remove_node. destruct (resolve_node (w_registry w) n) as [v|] eqn:Ev; [|by destruct w].
  assert (forall d, is_Some (kinds (w_heap w) !! VirtNode_channel v d)) as Hk.
  { intros d. revert Ev. unfold resolve_node. destruct (tr_ips (w_registry w) !! n) as [ip|]; [|done].
    intros Hv. destruct (ri_nodes _ _ (ti_registry _ Hw) _ _ Hv) as (_ & _ & _ & _ & Hk). by eexists. }
  destruct (close_channel_spec (w_heap w) v {| cd_type := ChMessages; cd_direction := Out |})
    as (Hk1 & Hc1 & Hn1); [done|apply Hw|].
  destruct (close_channel_spec (close_channel (w_heap w) v {| cd_type := ChMessages; cd_direction := Out |})
    v {| cd_type := ChTransfer; cd_direction := Out |}) as (Hk2 & Hc2 & Hn2); [by rewrite Hk1|done|].
  split; cbn; try apply Hw.
  - eapply registry_inv_heap; [by rewrite Hk2|apply Hw].
  - intros l. by rewrite Hc2, Hc1, (ti_connecting _ Hw).
  - done.
Qed.

Lemma tcp_step_inv w w' : tcp_inv w -> tcp_step known w w' -> tcp_inv w'.
Proof.
  intros Hw Hs. destruct Hs as [n d Hn|ps1 p ps2 res E|ps1 p ps2 E|n|n Hn|ws1 a ws2 E].
  - by apply do_connect_inv.
  - assert (claimed (with_permits w (ps1 ++ TcpPermit_finish p res :: ps2)) = claimed w) as Hc.
    { unfold claimed. cbn. by rewrite E, !map_app. }
    split; rewrite ?Hc; try apply Hw. cbn. pose proof (ti_permits _ Hw) as Hp. rewrite E in Hp.
    apply Forall_app in Hp as [? [? ?]%Forall_cons_1]. apply Forall_app. split; [done|]. by constructor.
  - by apply do_drop_inv.
  - by apply remove_node_inv.
  - rewrite receive_eq. destruct (ensure_node (w_registry w) (w_heap w) n) as [[v r] heap] eqn:Ee.
    apply ensure_node_spec in Ee as (Hr & _ & _ & Hs & Hp); [|apply Hw|done].
    by apply tcp_inv_registry.
  - assert (forall b, b ∈ ws1 ++ ws2 -> blocked b -> ta_channel b ∈ claimed w) as Hb.
    { intros b Hb. apply (ti_blocked _ Hw). rewrite E. revert Hb. rewrite !elem_of_app, elem_of_cons. tauto. }
    split; try apply Hw. unfold with_waiters, claimed. cbn. intros b.
    destruct (await_for_finish (w_heap w) a) eqn:Ea; [apply Hb|].
    rewrite elem_of_app, elem_of_cons. intros [Hin|[->|Hin]] Hbl.
    + apply Hb; [|done]. rewrite elem_of_app. by left.
    + cbn. revert Ea. unfold await_for_finish. destruct (ta_waiting a) eqn:Et.
      * intros _. apply (ti_blocked _ Hw a); [rewrite E; set_solver|]. by destruct Hbl as [_ ?].
      * pose proof (ti_closing _ Hw (ta_channel a)) as Hcl.
        destruct (channel_state (w_heap w) (ta_channel a)) eqn:Es; try done.
        intros _. by apply (ti_connecting _ Hw).
    + apply Hb; [|done]. rewrite elem_of_app. by right.
Qed.

Lemma tcp_inv_reachable w : rtc (tcp_step known) World_new w -> tcp_inv w.
Proof. apply rtc_invariant; [apply tcp_step_inv|apply tcp_inv_new]. Qed.

(** Permits for the same node and channel are for the same location. *)
Lemma permit_loc_inj w p q :
  tcp_inv w -> p ∈ w_permits w -> q ∈ w_permits w ->
  vn_id (tp_node p) = vn_id (tp_node q) -> tp_channel p = tp_channel q -> permit_loc p = permit_loc q.
Proof.
  intros Hw Hp Hq Hid Hc. pose proof (ti_permits _ Hw) as Hps. rewrite Forall_forall in Hps.
  pose proof (Hps _ Hp) as Rp. pose proof (Hps _ Hq) as Rq. unfold registered in *.
  pose proof (ri_nodes _ _ (ti_registry _ Hw) _ _ Rp) as (_ & Ap & _).
  pose proof (ri_nodes _ _ (ti_registry _ Hw) _ _ Rq) as (_ & Aq & _).
  rewrite Hid in Ap. unfold permit_loc. rewrite Ap in Rp. rewrite Aq in Rq. congruence.
Qed.

Lemma permits_unique w i j p q :
  tcp_inv w -> w_permits w !! i = Some p -> w_permits w !! j = Some q ->
  vn_id (tp_node p) = vn_id (tp_node q) -> tp_channel p = tp_channel q -> i = j.
Proof.
  intros Hw Hi Hj Hid Hc. pose proof (ti_claimed_once _ Hw) as Hnd. unfold claimed in Hnd.
  apply NoDup_app in Hnd as [Hnd _]. eapply (NoDup_lookup _ _ _ (permit_loc p) Hnd).
  - change (map permit_loc) with (fmap (M := list) (permit_loc (Connection := Connection))).
    by rewrite list_lookup_fmap, Hi.
  - change (map permit_loc) with (fmap (M := list) (permit_loc (Connection := Connection))).
    rewrite list_lookup_fmap, Hj. simpl. f_equal. symmetry.
    eapply permit_loc_inj; eauto using list_elem_of_lookup_2.
Qed.

End Invariant.

(** The address is a unicast one: not multicast, unspecified or loopback. *)
Definition unicast (ip : list Z) : Prop :=
  zlen ip = IPV6_ADDRESS_LEN /\ hd 0 ip < 255 /\
  ip <> replicate 16 0 /\ ip <> replicate 15 0 ++ [1].

Lemma to_ipv6_unicast bytes : bytes_ok bytes -> unicast (to_ipv6 bytes).
Proof.
  intros Hok. unfold to_ipv6, IPV6_ADDRESS_LEN.
  set (b := ztake _ bytes ++ _).
  assert (length b = 16%nat) as Hl.
  { subst b. unfold ztake, zlen. rewrite length_app, length_take, length_replicate. lia. }
  do 17 (destruct b as [|? b]; [try done|]); [|done]. clear.
  cbn [alter list_alter nth]. pose proof (Z.mod_pos_bound z 255 ltac:(lia)) as Hz.
  revert Hz. generalize (z mod 255). intros y Hy.
  case_bool_decide as Hb; [destruct (Z.ltb_spec z14 2)|]; cbn [andb]; unfold unicast.
  - split; [done|]. cbn in *. injection Hb as -> -> -> -> -> -> -> -> -> -> -> -> -> -> ->. by split_and!.
  - split; [done|]. split; [cbn; lia|]. split; intros E; injection E; intros; lia.
  - split; [done|]. split; [cbn; lia|]. split; intros E; apply Hb; injection E; intros; by subst.
Qed.

(** ** Properties *)

(** C13: at most one attempt at a time.  However the tasks are interleaved, no two
    outstanding permits are for the same channel to the same node, and the
    registry never gives a task the channels of another node (the addresses of
    the nodes in use being distinct), each channel at the index of its kind and
    the node at a unicast address.  A permit that is dropped with a result
    leaves its channel in the state of the result and every task blocked on the
    channel gets that result; and unless a permit was dropped without a result,
    a blocked task always waits for somebody who holds the permit. *)
Theorem tcp_single_attempt {Connection : Type} (known : NodeId -> Prop)
  (w : World (Connection := Connection)) :
  (forall a b, known a -> known b -> to_ipv6 a = to_ipv6 b -> a = b) ->
  rtc (tcp_step known) World_new w ->
  (forall i j p q, w_permits w !! i = Some p -> w_permits w !! j = Some q ->
     vn_id (tp_node p) = vn_id (tp_node q) -> tp_channel p = tp_channel q -> i = j) /\
  (forall n v, known n -> resolve_node (w_registry w) n = Some v ->
     vn_id v = n /\ (bytes_ok n -> unicast (vn_address v)) /\
     forall d, (vc_channel <$> w_heap w) !! VirtNode_channel v d = Some d) /\
  (forall ps1 p ps2 res, w_permits w = ps1 ++ p :: ps2 -> tp_result p = Some res ->
     let w' := do_drop w p (ps1 ++ ps2) in
     channel_state (w_heap w') (permit_loc p) =
       match res with Ok conn => Connected conn | Err e => Failed e end /\
     forall a, a ∈ w_waiters w -> ta_channel a = permit_loc p -> blocked a ->
       exists a', a' ∈ w_waiters w' /\ await_for_finish (w_heap w') a' = Some res) /\
  (forall a, w_abandoned w = [] -> a ∈ w_waiters w -> blocked a ->
     exists p, p ∈ w_permits w /\ permit_loc p = ta_channel a).
Proof.
  intros Hinj Hr. pose proof (tcp_inv_reachable known Hinj w Hr) as Hw. split_and!.
  - intros i j p q. by apply (permits_unique known).
  - intros n v Hn Hv. pose proof (resolve_node_spec known Hinj _ _ _ (ti_registry _ _ Hw) Hn) as Hs.
    rewrite Hv in Hs. destruct Hs as [Ha Hid]. split; [done|].
    destruct (ri_nodes _ _ _ (ti_registry _ _ Hw) _ _ Ha) as (_ & Hip & _ & _ & Hk). split; [|done].
    rewrite Hip, Hid. apply to_ipv6_unicast.
  - intros ps1 p ps2 res E Hres. cbn zeta.
    assert (p ∈ w_permits w) as Hp by (rewrite E; set_solver).
    pose proof (ti_permits _ _ Hw) as Hps. rewrite Forall_forall in Hps. apply Hps in Hp.
    pose proof (registered_kind known _ _ _ (tp_channel p) (ti_registry _ _ Hw) Hp) as Hk.
    unfold do_drop. rewrite async_drop_connecting, Hres.
    2: { apply (ti_connecting _ _ Hw). rewrite (claimed_split _ _ _ _ E). by left. }
    cbn. split; [by rewrite channel_state_set, decide_True|].
    intros a Ha Hl [Hwt Hnil].
    exists {| ta_channel := ta_channel a; ta_waiting := true; ta_received := [res] |}. split; [|done].
    apply list_elem_of_fmap. exists a. split; [|done]. by rewrite bool_decide_true, Hwt, Hnil.
  - intros a Hab Ha Hb. apply (ti_blocked _ _ Hw) in Ha; [|done]. unfold claimed in Ha.
    rewrite Hab, app_nil_r in Ha. apply list_elem_of_fmap in Ha as (p & ? & ?). eauto.
Qed.

Lemma abandoned_kept {Connection : Type} (known : NodeId -> Prop)
  (w w' : World (Connection := Connection)) l :
  tcp_step known w w' -> l ∈ w_abandoned w -> l ∈ w_abandoned w'.
Proof.
  intros Hs Hl. destruct Hs as [n d| |ps1 p ps2| | | ]; cbn; try done.
  - unfold do_connect. by destruct (connect_attempt _ _ _ _) as [[? ?] ?].
  - unfold do_drop. destruct (async_drop _ _ _ _), (tp_result p); [done|]. by right.
Qed.

(** A channel whose permit was dropped without a result is lost: it stays in the
    connecting state, and every later attempt on it is told to wait. *)
Theorem abandoned_channel_lost {Connection : Type} (known : NodeId -> Prop)
  (w w' : World (Connection := Connection)) (n : NodeId) (v : VirtNode) (d : ChannelDesc) :
  (forall a b, known a -> known b -> to_ipv6 a = to_ipv6 b -> a = b) ->
  rtc (tcp_step known) World_new w -> VirtNode_channel v d ∈ w_abandoned w ->
  rtc (tcp_step known) w w' -> resolve_node (w_registry w') n = Some v ->
  connect_attempt (w_registry w') (w_heap w') n d =
    (Wait {| ta_channel := VirtNode_channel v d; ta_waiting := false; ta_received := [] |},
     w_registry w', w_heap w').
Proof.
  intros Hinj Hr Hl Hr' Hv.
  assert (VirtNode_channel v d ∈ w_abandoned w') as Hl'.
  { revert Hl. clear -Hr'. induction Hr'; eauto using abandoned_kept. }
  assert (tcp_inv known w') as Hw by (apply tcp_inv_reachable; [done|by etrans]).
  assert (channel_state (w_heap w') (VirtNode_channel v d) = Connecting) as Hc.
  { apply (ti_connecting _ _ Hw). apply elem_of_app. by right. }
  unfold connect_attempt. rewrite Hv. unfold VirtNode_transition. by rewrite Hc.
Qed.

(** ** Example *)

(** A task opens a channel, another waits for it, and the first one succeeds. *)
Definition toy_node : NodeId := replicate 20 7.
Definition toy_out : ChannelDesc := {| cd_type := ChMessages; cd_direction := Out |}.
Definition toy_conn : TcpConnection := {| tc_id := replicate 20 7; tc_conn := 5; tc_channel := toy_out |}.
Definition toy_w1 : World (Connection := Z) := do_connect (do_connect World_new toy_node toy_out) toy_node toy_out.
Definition toy_permit : TcpPermit (Connection := Z) :=
  {| tp_node := (VirtNode_new (Connection := Z) toy_node []).1; tp_channel := toy_out; tp_result := Some (Ok toy_conn) |}.
Definition toy_waiter : TcpAwaiting (Connection := Z) :=
  {| ta_channel := 1; ta_waiting := true; ta_received := [] |}.
Definition toy_w2 : World (Connection := Z) := with_permits (with_waiters toy_w1 [toy_waiter]) [toy_permit].

Lemma tcp_single_attempt_witness :
  channel_state (w_heap (do_drop toy_w2 toy_permit [])) 1 = Connected toy_conn /\
  exists a', a' ∈ w_waiters (do_drop toy_w2 toy_permit []) /\
    await_for_finish (w_heap (do_drop toy_w2 toy_permit [])) a' = Some (Ok toy_conn).
Proof.
  destruct (tcp_single_attempt (Connection := Z) (fun n => n = toy_node) toy_w2) as (_ & _ & Hd & _).
  - intros a b -> ->. reflexivity.
  - apply rtc_l with (do_connect World_new toy_node toy_out); [by apply step_connect|].
    apply rtc_l with toy_w1; [by apply step_connect|].
    apply rtc_l with (with_waiters toy_w1 [toy_waiter]).
    { apply (step_await _ toy_w1 [] {| ta_channel := 1; ta_waiting := false; ta_received := [] |} []).
      vm_compute. reflexivity. }
    apply rtc_once.
    apply (step_finish _ (with_waiters toy_w1 [toy_waiter]) []
      {| tp_node := (VirtNode_new (Connection := Z) toy_node []).1; tp_channel := toy_out; tp_result := None |}
      [] (Ok toy_conn)). vm_compute. reflexivity.
  - destruct (Hd [] toy_permit [] (Ok toy_conn) eq_refl eq_refl) as [Hs Hw]. split; [exact Hs|].
    apply (Hw toy_waiter); [by left|reflexivity|split; reflexivity].
Defined.

(** The permit is dropped before the attempt has a result. *)
Definition toy_lost : World (Connection := Z) :=
  do_drop (do_connect World_new toy_node toy_out)
    {| tp_node := (VirtNode_new (Connection := Z) toy_node []).1; tp_channel := toy_out; tp_result := None |} [].

Lemma abandoned_channel_lost_witness :
  connect_attempt (w_registry toy_lost) (w_heap toy_lost) toy_node toy_out =
    (Wait {| ta_channel := 1; ta_waiting := false; ta_received := [] |},
     w_registry toy_lost, w_heap toy_lost).
Proof.
  apply (abandoned_channel_lost (fun n => n = toy_node) toy_lost toy_lost toy_node
    (VirtNode_new (Connection := Z) toy_node []).1 toy_out).
  - intros a b -> ->. reflexivity.
  - apply rtc_l with (do_connect World_new toy_node toy_out); [by apply step_connect|].
    apply rtc_once. apply (step_drop _ (do_connect World_new toy_node toy_out) []
      {| tp_node := (VirtNode_new (Connection := Z) toy_node []).1; tp_channel := toy_out; tp_result := None |} []).
    vm_compute. reflexivity.
  - by left.
  - reflexivity.
  - vm_compute. reflexivity.
Defined.
