(* ===== verification/VirtualLayer.v ===== *)
(** [client/src/transport/virtual_layer.rs] and [transport.rs]: the layer that carries
    the virtual TCP network over the sessions between nodes.

    The layer holds the virtual network and the registry of nodes.  Packets that
    sessions deliver are put into the network, what its sockets receive goes to the
    application with the node it is from, and what it sends is routed to nodes.  A
    handler between two waits is one definition; what happens in between are steps
    of the network. *)

From S2P Require Import Prelude Payload Challenge DirectSession ClientForward Ports StackSocket.
From S2P Require Import StackPacket StackNetwork StackNetworkProps TcpRegistry.

#[export] Instance TransportType_eq_dec : EqDecision TransportType.
Proof. solve_decision. Defined.

Section VirtualLayer.
Context `{S : SmolSockets} {I : SmolIface} (config : StackConfig).

Abbreviation Heap := (list (VirtChannel (Connection := Connection))).

(** The network, the registry of nodes with their channels, the nodes known to be in
    it, what is known of the identities of nodes, and what the application was given. *)
Record TcpLayer : Type := {
  tl_net : Network;
  tl_registry : TcpRegistry;
  tl_heap : Heap;
  tl_fast_lane : gset NodeId;
  tl_authenticated : gmap NodeId (option (list NodeId));
  tl_out : list Forwarded }.

Definition TcpLayer_new (net : Network) : TcpLayer :=
  {| tl_net := net; tl_registry := TcpRegistry_new; tl_heap := []; tl_fast_lane := ∅;
     tl_authenticated := ∅; tl_out := [] |}.

Definition with_net (l : TcpLayer) (net : Network) : TcpLayer :=
  {| tl_net := net; tl_registry := tl_registry l; tl_heap := tl_heap l;
     tl_fast_lane := tl_fast_lane l; tl_authenticated := tl_authenticated l; tl_out := tl_out l |}.

(** ** Packets from sessions *)

Definition update_node_authentication (authenticated : gmap NodeId (option (list NodeId)))
  (node_id : NodeId) (incoming : option (list NodeId)) : gmap NodeId (option (list NodeId)) :=
  match authenticated !! node_id with
  | None => <[node_id := incoming]> authenticated
  | Some known =>
      if bool_decide (known = incoming) then authenticated else <[node_id := None]> authenticated
  end.

(** [inject] up to the poll of the network. *)
Definition inject (l : TcpLayer) (payload : list Z) : TcpLayer :=
  with_net l (network_receive (tl_net l) payload).

Definition tcp_dispatch (l : TcpLayer) (packet : Forwarded) : TcpLayer :=
  let node_id := fd_node_id packet in
  let l :=
    {| tl_net := tl_net l; tl_registry := tl_registry l; tl_heap := tl_heap l;
       tl_fast_lane := tl_fast_lane l;
       tl_authenticated :=
         update_node_authentication (tl_authenticated l) node_id (fd_authenticated_identities packet);
       tl_out := tl_out l |} in
  if bool_decide (node_id ∈ tl_fast_lane l) then inject l (Payload_as_ref (fd_payload packet))
  else
    let '(registry, heap) := TcpRegistry.receive (tl_registry l) (tl_heap l) node_id in
    let l := inject l (Payload_as_ref (fd_payload packet)) in
    {| tl_net := tl_net l; tl_registry := registry; tl_heap := heap;
       tl_fast_lane := {[node_id]} ∪ tl_fast_lane l; tl_authenticated := tl_authenticated l;
       tl_out := tl_out l |}.

Definition deliver (l : TcpLayer) (f : Forwarded) : TcpLayer :=
  {| tl_net := tl_net l; tl_registry := tl_registry l; tl_heap := tl_heap l;
     tl_fast_lane := tl_fast_lane l; tl_authenticated := tl_authenticated l;
     tl_out := tl_out l ++ [f] |}.

(** [TransportLayer::dispatch]. *)
Definition transport_dispatch (l : TcpLayer) (packet : Forwarded) : TcpLayer :=
  match fd_transport packet with
  | Unreliable => deliver l packet
  | Reliable | Transfer => tcp_dispatch l packet
  end.

(** ** Nodes that leave *)

(** [remove_node] up to the wait for the connections to close: those it closes. *)
Definition begin_removal (l : TcpLayer) (node_id : NodeId) : list Connection * TcpLayer :=
  let '(closing, net) := disconnect_all (tl_net l) (AddrV6 (to_ipv6 node_id)) in
  (closing, with_net l net).

(** [remove_node] after that wait. *)
Definition finish_removal (l : TcpLayer) (node_id : NodeId) : TcpLayer :=
  {| tl_net := tl_net l; tl_registry := tl_registry l;
     tl_heap := TcpRegistry.remove_node (tl_registry l) (tl_heap l) node_id;
     tl_fast_lane := tl_fast_lane l ∖ {[node_id]};
     tl_authenticated := delete node_id (tl_authenticated l); tl_out := tl_out l |}.

(** ** Routers *)

(** [From<u16> for ChannelType]. *)
Definition ChannelType_from (port : Z) : ChannelType :=
  if port =? 1 then ChMessages else if port =? 2 then ChTransfer else ChMessages.

(** What the ingress router does with an event: nothing, begin to remove a node, or
    give data to the application. *)
Inductive Routed : Type :=
| Dropped
| Removing (node_id : NodeId)
| Delivered (f : Forwarded).

Definition ingress_router (l : TcpLayer) (event : IngressEvent) : Routed :=
  match event with
  | InboundConnection _ => Dropped
  | Disconnected desc =>
      match ip_endpoint (sdc_remote desc) with
      | Ok endpoint =>
          match get_by_address (tl_registry l) (addr_bytes (ie_addr endpoint)) with
          | Some node => Removing (vn_id node)
          | None => Dropped
          end
      | Err _ => Dropped
      end
  | IngressPacket desc payload =>
      if negb (bool_decide (sdc_protocol desc = Tcp)) then Dropped
      else
        match sdc_remote desc, sdc_local desc with
        | EpIp remote, EpIp local =>
            match get_by_address (tl_registry l) (addr_bytes (ie_addr remote)) with
            | Some node =>
                Delivered
                  {| fd_transport :=
                       match ChannelType_from (ie_port local) with
                       | ChMessages => Reliable
                       | ChTransfer => Transfer
                       end;
                     fd_node_id := vn_id node;
                     fd_authenticated_identities :=
                       match tl_authenticated l !! vn_id node with Some ids => ids | None => None end;
                     fd_payload := PVec payload |}
            | None => Dropped
            end
        | _, _ => Dropped
        end
  end.

(** A turn of the loop of the ingress router: it takes an event from the network. *)
Definition ingress_turn (l : TcpLayer) : option (Routed * TcpLayer) :=
  match ch_items _ (nw_ingress (tl_net l)) with
  | [] => None
  | event :: events =>
      let l := with_net l (with_ingress (tl_net l)
        {| ch_open := ch_open _ (nw_ingress (tl_net l)); ch_items := events |}) in
      let routed := ingress_router l event in
      Some (routed, match routed with
                    | Dropped => l
                    | Removing node_id => (begin_removal l node_id).2
                    | Delivered f => deliver l f
                    end)
  end.

(** A turn of the loop of the egress router: the node a packet is sent to. *)
Definition egress_turn (l : TcpLayer) : option (option (NodeId * list Z) * TcpLayer) :=
  match ch_items _ (nw_egress (tl_net l)) with
  | [] => None
  | egress :: events =>
      let l := with_net l (with_egress (tl_net l)
        {| ch_open := ch_open _ (nw_egress (tl_net l)); ch_items := events |}) in
      Some (match get_by_address (tl_registry l) (eg_remote egress) with
            | Some node => Some (vn_id node, eg_payload egress)
            | None => None
            end, l)
  end.

(** ** Connecting *)

Definition channel_endpoint (id : NodeId) (channel : ChannelType) : IpEndpoint :=
  {| ie_addr := AddrV6 (to_ipv6 id); ie_port := match channel with ChMessages => 1 | ChTransfer => 2 end |}.

(** [spawn]: the two endpoints of the node are bound. *)
Definition layer_spawn (l : TcpLayer) (our_id : NodeId) : result TcpLayer StackError :=
  let? n := network_bind config (tl_net l) Tcp (EpIp (channel_endpoint our_id ChMessages)) in
  let? n := network_bind config n.2 Tcp (EpIp (channel_endpoint our_id ChTransfer)) in
  Ok (with_net l n.2).

(** [connect_internal] with the session to the node, up to the wait for the network. *)
Definition connect_internal (l : TcpLayer) (node : VirtNode) (channel : ChannelDesc) (sample : Z)
  : result Connection StackError * TcpLayer :=
  let endpoint := {| ie_addr := AddrV6 (vn_address node); ie_port := ChannelDesc_port channel |} in
  let '(connection, net) := network_connect config (tl_net l) endpoint sample in
  (connection, with_net l net).

(** [shutdown] up to the waits: both endpoints, then the connections. *)
Definition layer_shutdown (l : TcpLayer) (id : NodeId) : TcpLayer :=
  let unbind net channel :=
    match network_unbind net Tcp (EpIp (channel_endpoint id channel)) with
    | Ok (_, net) => net
    | Err _ => net
    end in
  let net := unbind (unbind (tl_net l) ChMessages) ChTransfer in
  with_net l
    (foldl (fun net meta => (disconnect_all net (ie_addr (cm_remote meta))).2) net
       (map_to_list (nw_connections net)).*1).

(** ** What happens to the layer *)

Inductive LayerAction : Type :=
| ActDispatch (packet : Forwarded)
| ActRouted (r : Routed)
| ActRemoved (node_id : NodeId)
| ActOther.

Definition with_channels (l : TcpLayer) (registry : TcpRegistry) (heap : Heap) : TcpLayer :=
  {| tl_net := tl_net l; tl_registry := registry; tl_heap := heap; tl_fast_lane := tl_fast_lane l;
     tl_authenticated := tl_authenticated l; tl_out := tl_out l |}.

(** Packets come from sessions, the network works, the routers take their turns, the
    removal of a node completes, a connection is attempted, or an attempt ends. *)
Inductive layer_step (l : TcpLayer) : LayerAction -> TcpLayer -> Prop :=
| step_dispatch packet : layer_step l (ActDispatch packet) (transport_dispatch l packet)
| step_network n : network_step config (tl_net l) n -> layer_step l ActOther (with_net l n)
| step_ingress r l' : ingress_turn l = Some (r, l') -> layer_step l (ActRouted r) l'
| step_egress r l' : egress_turn l = Some (r, l') -> layer_step l ActOther l'
| step_removed node_id : layer_step l (ActRemoved node_id) (finish_removal l node_id)
| step_attempt node_id channel lock registry heap :
    connect_attempt (tl_registry l) (tl_heap l) node_id channel = (lock, registry, heap) ->
    layer_step l ActOther (with_channels l registry heap)
| step_channels heap : layer_step l ActOther (with_channels l (tl_registry l) heap).

(** The actions of a run, the last one first. *)
Inductive layer_run (l0 : TcpLayer) : list LayerAction -> TcpLayer -> Prop :=
| run_nil : layer_run l0 [] l0
| run_cons acts l a l' : layer_run l0 acts l -> layer_step l a l' -> layer_run l0 (a :: acts) l'.

(** How the packets for the virtual network that came from a node since it was last
    removed were authenticated, the last one first. *)
Fixpoint authentications (acts : list LayerAction) (node_id : NodeId) : list (option (list NodeId)) :=
  match acts with
  | [] => []
  | ActDispatch packet :: acts =>
      if negb (bool_decide (fd_transport packet = Unreliable)) && bool_decide (fd_node_id packet = node_id)
      then fd_authenticated_identities packet :: authentications acts node_id
      else authentications acts node_id
  | ActRemoved removed :: acts =>
      if bool_decide (removed = node_id) then [] else authentications acts node_id
  | _ :: acts => authentications acts node_id
  end.

(** They count if they are all the same. *)
Definition agreed (l : list (option (list NodeId))) : option (option (list NodeId)) :=
  match l with
  | [] => None
  | x :: xs => Some (if forallb (fun y => bool_decide (y = x)) xs then x else None)
  end.

Lemma agreed_cons x l : agreed (x :: l) =
  Some match agreed l with Some y => if bool_decide (y = x) then y else None | None => x end.
Proof.
  destruct l as [|y ys]; [done|]. simpl. f_equal. destruct (decide (y = x)) as [->|Hne].
  - rewrite (bool_decide_true (x = x)) by done. simpl.
    destruct (forallb _ ys); [by rewrite bool_decide_true|]. case_bool_decide; congruence.
  - rewrite (bool_decide_false (y = x)) by done. simpl.
    destruct (forallb _ ys); [by rewrite bool_decide_false|]. case_bool_decide; congruence.
Qed.

Lemma update_authentication_lookup auth node incoming n :
  update_node_authentication auth node incoming !! n =
    if bool_decide (node = n)
    then Some match auth !! n with Some y => if bool_decide (y = incoming) then y else None | None => incoming end
    else auth !! n.
Proof.
  unfold update_node_authentication. case_bool_decide as Hn.
  - subst. destruct (auth !! n) as [y|] eqn:E; [case_bool_decide; [done|]|]; by rewrite lookup_insert_eq.
  - destruct (auth !! node); [case_bool_decide; [done|]|]; by rewrite lookup_insert_ne.
Qed.

(** ** The invariant *)

(** A node is found under its address. *)
Record registry_ok (r : TcpRegistry) : Prop := {
  nodes_addressed : forall ip v, tr_nodes r !! ip = Some v -> ip = to_ipv6 (vn_id v);
  ips_found : forall n ip, tr_ips r !! n = Some ip -> ip = to_ipv6 n /\ is_Some (tr_nodes r !! ip) }.

Abbreviation found r n := (is_Some (get_by_address r (to_ipv6 n))).

Lemma add_virt_node_ok r (heap : Heap) n v r' heap' : registry_ok r ->
  add_virt_node r heap n = (v, r', heap') ->
  registry_ok r' /\ found r' n /\ (forall m, found r m -> found r' m).
Proof.
  intros [Hn Hi] [= _ <- _]. unfold get_by_address. simpl.
  assert (forall m, is_Some (tr_nodes r !! m) -> is_Some (<[to_ipv6 n := (VirtNode_new n heap).1]> (tr_nodes r) !! m)).
  { intros m Hm. apply lookup_insert_is_Some'. auto. }
  split; [split; simpl|].
  - intros ip w [[<- <-]|[_ ?]]%lookup_insert_Some; [done|auto].
  - intros m ip [[<- <-]|[_ Hm]]%lookup_insert_Some; [by rewrite lookup_insert_eq|].
    destruct (Hi m ip Hm). auto.
  - split; [by rewrite lookup_insert_eq|auto].
Qed.

Lemma resolve_found r n v : registry_ok r -> resolve_node r n = Some v -> found r n.
Proof.
  intros [_ Hi]. unfold resolve_node, get_by_address. destruct (tr_ips r !! n) as [ip|] eqn:E; [|done].
  by destruct (Hi n ip E) as [-> ?].
Qed.

Record layer_inv (acts : list LayerAction) (l : TcpLayer) : Prop := {
  inv_registry : registry_ok (tl_registry l);
  inv_fast_lane : forall n, n ∈ tl_fast_lane l -> found (tl_registry l) n;
  inv_known : forall n, authentications acts n <> [] -> found (tl_registry l) n;
  inv_authenticated : forall n, tl_authenticated l !! n = agreed (authentications acts n) }.

Lemma layer_inv_new net : layer_inv [] (TcpLayer_new net).
Proof. split; simpl; [by split|set_solver|done|done]. Qed.

(** Steps that concern neither the registry nor what is known of identities. *)
Lemma layer_inv_same acts acts' l l' : layer_inv acts l ->
  (forall n, authentications acts' n = authentications acts n) ->
  tl_registry l' = tl_registry l -> tl_fast_lane l' = tl_fast_lane l ->
  tl_authenticated l' = tl_authenticated l -> layer_inv acts' l'.
Proof.
  intros [Hr Hf Hk Ha] Hacts Er Ef Ea. split; rewrite ?Er, ?Ef, ?Ea; [done|done| |];
    intros n; rewrite Hacts; auto.
Qed.

Lemma layer_inv_registry acts l registry heap : layer_inv acts l -> registry_ok registry ->
  (forall n, found (tl_registry l) n -> found registry n) ->
  layer_inv acts (with_channels l registry heap).
Proof. intros [Hr Hf Hk Ha] Hok Hg. split; simpl; auto. Qed.

Lemma connect_attempt_ok r (heap : Heap) n channel lock r' heap' : registry_ok r ->
  connect_attempt r heap n channel = (lock, r', heap') ->
  registry_ok r' /\ forall m, found r m -> found r' m.
Proof.
  intros Hr. unfold connect_attempt. destruct (resolve_node r n) as [v|].
  - destruct (VirtNode_transition _ _ _ _) as [[] ?]; by intros [= _ <- _].
  - destruct (add_virt_node r heap n) as [[v r1] heap1] eqn:E.
    destruct (add_virt_node_ok _ _ _ _ _ _ Hr E) as (? & _ & ?).
    destruct (VirtNode_transition _ _ _ _) as [[] ?]; by intros [= _ <- _].
Qed.

Lemma receive_ok r (heap : Heap) n : registry_ok r ->
  let r' := (TcpRegistry.receive r heap n).1 in
  registry_ok r' /\ found r' n /\ forall m, found r m -> found r' m.
Proof.
  intros Hr. unfold TcpRegistry.receive. destruct (resolve_node r n) as [v|] eqn:E; simpl.
  - split; [done|]. split; [by eapply resolve_found|done].
  - destruct (add_virt_node r heap n) as [[v r1] heap1] eqn:E1. by eapply add_virt_node_ok.
Qed.

Lemma dispatch_inv acts l packet : layer_inv acts l ->
  layer_inv (ActDispatch packet :: acts) (transport_dispatch l packet).
Proof.
  intros Hinv. unfold transport_dispatch. destruct (decide (fd_transport packet = Unreliable)) as [Hu|Hu].
  { rewrite Hu. apply (layer_inv_same acts _ l); [done| |done..]. intros n. simpl.
    by rewrite bool_decide_true. }
  assert (exists r heap fast, registry_ok r /\ found r (fd_node_id packet) /\
      (forall m, found (tl_registry l) m -> found r m) /\ (forall m, m ∈ fast -> found r m) /\
      tcp_dispatch l packet =
        {| tl_net := network_receive (tl_net l) (Payload_as_ref (fd_payload packet)); tl_registry := r;
           tl_heap := heap; tl_fast_lane := fast;
           tl_authenticated := update_node_authentication (tl_authenticated l) (fd_node_id packet)
             (fd_authenticated_identities packet); tl_out := tl_out l |})
    as (r & heap & fast & Hr & Hn & Hm & Hf & ->).
  { destruct Hinv as [Hr Hf _ _]. unfold tcp_dispatch. cbn [tl_fast_lane]. case_bool_decide as Hin.
    - eexists _, _, _. split_and!; [..|reflexivity]; auto.
    - cbn [tl_registry tl_heap].
      pose proof (receive_ok (tl_registry l) (tl_heap l) (fd_node_id packet) Hr) as (? & ? & ?).
      destruct (TcpRegistry.receive _ _ _) as [r heap]. simpl in *.
      exists r, heap, ({[fd_node_id packet]} ∪ tl_fast_lane l). split_and!; try done.
      intros m [->%elem_of_singleton|?]%elem_of_union; auto. }
  replace (match fd_transport packet with Unreliable => _ | _ => _ end) with
    {| tl_net := network_receive (tl_net l) (Payload_as_ref (fd_payload packet)); tl_registry := r;
       tl_heap := heap; tl_fast_lane := fast;
       tl_authenticated := update_node_authentication (tl_authenticated l) (fd_node_id packet)
         (fd_authenticated_identities packet); tl_out := tl_out l |} by (by destruct (fd_transport packet)).
  destruct Hinv as [_ _ Hk Ha]. split; simpl; [done|done| |]; intros n;
    rewrite (bool_decide_false (fd_transport packet = Unreliable)) by done; simpl.
  - case_bool_decide as Hne; [by subst|auto].
  - rewrite update_authentication_lookup. case_bool_decide; [|done]. by rewrite agreed_cons, <- Ha.
Qed.

Lemma layer_step_inv acts l a l' : layer_inv acts l -> layer_step l a l' -> layer_inv (a :: acts) l'.
Proof.
  intros Hinv Hst. destruct Hst as [packet|n Hn|r l' Ht|r l' Ht|node_id|node_id channel lock r heap Hc|heap].
  - by apply dispatch_inv.
  - by apply (layer_inv_same acts _ l).
  - unfold ingress_turn in Ht. destruct (ch_items _ _) as [|ev evs]; [done|]. cbv zeta in Ht.
    injection Ht as <- <-. apply (layer_inv_same acts _ l); [done..| | |];
      by destruct (ingress_router _ _).
  - unfold egress_turn in Ht. destruct (ch_items _ _) as [|ev evs]; [done|].
    injection Ht as _ <-. by apply (layer_inv_same acts _ l).
  - destruct Hinv as [Hr Hf Hk Ha]. split; simpl; [done|set_solver| |]; intros n.
    + case_bool_decide; [done|auto].
    + case_bool_decide as Hne; [subst; by rewrite lookup_delete_eq|]. by rewrite lookup_delete_ne.
  - destruct (connect_attempt_ok _ _ _ _ _ _ _ (inv_registry _ _ Hinv) Hc) as [? ?].
    apply (layer_inv_same acts _ (with_channels l r heap)); [|done..]. by apply layer_inv_registry.
  - apply (layer_inv_same acts _ l); done.
Qed.

Lemma layer_run_inv net acts l : layer_run (TcpLayer_new net) acts l -> layer_inv acts l.
Proof. induction 1; [apply layer_inv_new|by eapply layer_step_inv]. Qed.

(** C16: what the application is told of the sender of data from the virtual network.
    Data is given to the application under the node whose virtual address is that of
    the other end of the connection, and only data received over TCP; the transport
    follows from the local port.  If it comes with identities, then packets came from
    that node since it was last removed, and every one of them was authenticated
    with exactly these identities: one packet without, or with others, and there are
    none until the node is removed.  Every node packets came from since then can be
    answered: packets for its virtual address are routed to a node with that address. *)
Theorem delivered_with_agreed_identities (net : Network) (acts : list LayerAction) (l : TcpLayer) :
  layer_run (TcpLayer_new net) acts l ->
  (forall f l', ingress_turn l = Some (Delivered f, l') ->
     tl_out l' = tl_out l ++ [f] /\
     (exists desc payload remote local events,
        ch_items _ (nw_ingress (tl_net l)) = IngressPacket desc payload :: events /\
        sdc_protocol desc = Tcp /\ sdc_remote desc = EpIp remote /\ sdc_local desc = EpIp local /\
        addr_bytes (ie_addr remote) = to_ipv6 (fd_node_id f) /\
        Payload_as_ref (fd_payload f) = payload /\
        fd_transport f = if ie_port local =? 2 then Transfer else Reliable) /\
     (forall ids, fd_authenticated_identities f = Some ids ->
        authentications acts (fd_node_id f) <> [] /\
        Forall (eq (Some ids)) (authentications acts (fd_node_id f)))) /\
  (forall n, authentications acts n <> [] ->
     exists v, get_by_address (tl_registry l) (to_ipv6 n) = Some v /\ to_ipv6 (vn_id v) = to_ipv6 n).
Proof.
  intros Hrun. destruct (layer_run_inv _ _ _ Hrun) as [Hr Hf Hk Ha]. split.
  - intros f l'. unfold ingress_turn. destruct (ch_items _ _) as [|ev evs]; [done|]. cbv zeta.
    intros [= Hrt <-]. rewrite Hrt. split; [done|]. unfold ingress_router in Hrt.
    destruct ev as [|desc|desc payload]; [done|by destruct (ip_endpoint _); [destruct (get_by_address _ _)|]|].
    destruct (bool_decide (sdc_protocol desc = Tcp)) eqn:Ep; [|done]. apply bool_decide_eq_true in Ep.
    destruct (sdc_remote desc) as [remote| |] eqn:Er; try done.
    destruct (sdc_local desc) as [local| |] eqn:El; try done. simpl in Hrt.
    destruct (get_by_address _ _) as [v|] eqn:Ev; [|done]. injection Hrt as <-. simpl. split.
    + exists desc, payload, remote, local, evs. split_and!; try done.
      * by apply (nodes_addressed _ Hr) in Ev.
      * unfold ChannelType_from. destruct (Z.eqb_spec (ie_port local) 1); [|by destruct (_ =? 2)].
        by destruct (Z.eqb_spec (ie_port local) 2); [lia|].
    + rewrite Ha. intros ids Hids. destruct (authentications acts (vn_id v)) as [|x xs]; [done|].
      split; [done|]. simpl in Hids. destruct (forallb _ xs) eqn:Hall; [|done]. subst x.
      constructor; [done|]. apply Forall_forall. intros y Hy. rewrite forallb_forall in Hall.
      symmetry. apply (bool_decide_eq_true_1 _). by apply Hall, list_elem_of_In.
  - intros n Hn. destruct (Hk n Hn) as [v Hv]. exists v. split; [done|].
    symmetry. by apply (nodes_addressed _ Hr).
Qed.

End VirtualLayer.
