(* ===== verification/VirtualLayerToy.v ===== *)
(** Runs of the virtual layer over the small network of [StackNetworkToy]. *)

From S2P Require Import Prelude Payload Challenge DirectSession ClientForward Ports StackSocket.
From S2P Require Import StackPacket StackNetwork StackNetworkProps StackNetworkToy TcpRegistry VirtualLayer.

(** The id of a node. *)
Definition toy_id20 (node : Z) : NodeId := node :: replicate 19 0.

Definition toy_forwarded (node : Z) (ids : option (list NodeId)) (packet : list Z) : Forwarded :=
  {| fd_transport := Reliable; fd_node_id := toy_id20 node; fd_authenticated_identities := ids;
     fd_payload := PVec packet |}.

(** What happens, as far as it is chosen: a packet comes and the network takes it in,
    the router takes a turn, or the removal of a node completes. *)
Inductive ToyMove : Type :=
| MvPacket (f : Forwarded)
| MvRoute
| MvRemoved (node_id : NodeId).

Definition toy_poll (l : TcpLayer) : TcpLayer :=
  match poll_round toy_stack_config (tl_net l) with
  | Some (Ret (_, n)) => with_net l n
  | _ => l
  end.

Definition toy_move (la : TcpLayer * list LayerAction) (mv : ToyMove) : TcpLayer * list LayerAction :=
  match mv with
  | MvPacket f => (toy_poll (transport_dispatch la.1 f), ActOther :: ActDispatch f :: la.2)
  | MvRoute =>
      match ingress_turn la.1 with
      | Some (r, l) => (l, ActRouted r :: la.2)
      | None => la
      end
  | MvRemoved node_id => (finish_removal la.1 node_id, ActRemoved node_id :: la.2)
  end.

Definition toy_play (mvs : list ToyMove) : TcpLayer * list LayerAction :=
  foldl toy_move (TcpLayer_new toy_bound, []) mvs.

Lemma toy_poll_step l : layer_step toy_stack_config l ActOther (toy_poll l).
Proof.
  unfold toy_poll. destruct (poll_round _ _) as [[[f n]|]|] eqn:E.
  - apply step_network. by eapply step_act, act_poll.
  - destruct l as [net r heap fast auth out]. apply (step_channels _ (Build_TcpLayer net r heap fast auth out) heap).
  - destruct l as [net r heap fast auth out]. apply (step_channels _ (Build_TcpLayer net r heap fast auth out) heap).
Qed.

Lemma toy_play_run mvs : layer_run toy_stack_config (TcpLayer_new toy_bound) (toy_play mvs).2 (toy_play mvs).1.
Proof.
  unfold toy_play. induction mvs as [|mv mvs IH] using rev_ind; [apply run_nil|].
  rewrite foldl_snoc. destruct (foldl _ _ _) as [l acts]. simpl in IH.
  destruct mv as [f| |node_id]; simpl.
  - eapply run_cons; [|apply toy_poll_step]. eapply run_cons; [exact IH|apply step_dispatch].
  - destruct (ingress_turn l) as [[r l']|] eqn:E; [|done]. eapply run_cons; [exact IH|by apply step_ingress].
  - eapply run_cons; [exact IH|apply step_removed].
Qed.

(** Node 7 connects and sends a byte. *)
Definition toy_session (ids : option (list NodeId)) : list ToyMove :=
  [MvPacket (toy_forwarded 7 ids [2; 0; 7; 1234]); MvPacket (toy_forwarded 7 ids [3; 0; 42])].

Lemma delivered_with_agreed_identities_witness :
  let mvs := toy_session (Some [toy_id20 7]) ++ [MvRoute] in
  let f := toy_forwarded 7 (Some [toy_id20 7]) [42] in
  (exists l, ingress_turn (toy_play mvs).1 = Some (Delivered f, l)) /\
  Forall (eq (Some [toy_id20 7])) (authentications (toy_play mvs).2 (toy_id20 7)).
Proof.
  intros mvs f. assert (exists l, ingress_turn (toy_play mvs).1 = Some (Delivered f, l)) as [l Hl].
  { eexists. vm_compute. reflexivity. }
  split; [by exists l|].
  destruct (proj1 (delivered_with_agreed_identities toy_stack_config toy_bound (toy_play mvs).2
    (toy_play mvs).1 (toy_play_run mvs)) f l Hl) as (_ & _ & Hids).
  exact (proj2 (Hids [toy_id20 7] eq_refl)).
Defined.

(** The identities that come with data need not be those that authenticated it.
    First, node 7 sends a byte without encryption; before the router takes it, the
    node is removed and a packet authenticated with its identity comes: the byte is
    delivered with that identity.  Second, node 7 is connected and authenticated, and
    node 8 sends a packet that belongs to the connection of node 7: its data is
    delivered as data of node 7, with the identities of node 7, though it was
    authenticated as from node 8. *)
Theorem identities_not_of_payload :
  (let play := toy_play (toy_session None ++
     [MvRemoved (toy_id20 7); MvPacket (toy_forwarded 7 (Some [toy_id20 7]) [0]); MvRoute; MvRoute]) in
   layer_run toy_stack_config (TcpLayer_new toy_bound) play.2 play.1 /\
   tl_out play.1 = [toy_forwarded 7 (Some [toy_id20 7]) [42]]) /\
  (let play := toy_play (toy_session (Some [toy_id20 7]) ++
     [MvPacket (toy_forwarded 8 (Some [toy_id20 8]) [3; 0; 66]); MvRoute; MvRoute; MvRoute]) in
   layer_run toy_stack_config (TcpLayer_new toy_bound) play.2 play.1 /\
   tl_out play.1 = [toy_forwarded 7 (Some [toy_id20 7]) [42]; toy_forwarded 7 (Some [toy_id20 7]) [66]]).
Proof.
  split; (split; [apply toy_play_run|vm_compute; reflexivity]).
Qed.
