(* ===== verification/ClientApi.v ===== *)
(** The interface of the client: the tables of senders of [client/src/transport.rs]
    and [transport/transport_sender.rs], and neighbours and broadcasts of
    [client/src/client.rs].

    A call runs against the state of the session layer, which it shares with other
    tasks as in [SessionInit], and against the tables of senders, which other calls
    may change whenever it waits. *)

From S2P Require Import TcpRegistry.
From S2P Require Import Prelude Payload Proto Framing Challenge NodeInfo SessionState DirectSession Encryption.
From S2P Require Import ClientForward NetworkView ClientSessions SessionInit ConnectSession Dispatch ClientDispatch.
From S2P Require Import SessionEntry EncryptionSync.

Notation "'do!' x := t 'in' k" := (task_bind t (fun x => k))
  (at level 10, x name, t at level 100, k at level 200).

(** ** Senders *)

(** [TcpSender]: the node, the channel, and the place of the connection. *)
Record TcpSender : Type := {
  ts_target : NodeId;
  ts_channel : ChannelDesc;
  ts_connection : nat }.

Inductive ForwardSender : Type :=
| UnreliableSender (s : RoutingSender)
| ReliableSender (s : TcpSender)
| FramedSender (s : TcpSender).

(** [ForwardSender::framed]. *)
Definition framed (s : ForwardSender) : ForwardSender :=
  match s with ReliableSender sender => FramedSender sender | s => s end.

(** [send_payload]: what a sender hands to the stream of its connection; packets of an
    unreliable one go through its routing. *)
Definition stream_payload (s : ForwardSender) (packet : Payload) : option (outcome Payload) :=
  match s with
  | UnreliableSender _ => None
  | ReliableSender _ => Some (Ret packet)
  | FramedSender _ => Some (frame_encode packet)
  end.

(** The tables of the transport layer. *)
Record Transport : Type := {
  tl_unreliable : gmap NodeId ForwardSender;
  tl_transfer : gmap NodeId ForwardSender;
  tl_reliable : gmap NodeId ForwardSender }.

Definition Transport_default : Transport :=
  {| tl_unreliable := ∅; tl_transfer := ∅; tl_reliable := ∅ |}.

Definition get_forward_channel (t : Transport) (node_id : NodeId) (channel : TransportType)
  : option ForwardSender :=
  match channel with
  | Reliable => tl_reliable t !! node_id
  | Transfer => tl_transfer t !! node_id
  | Unreliable => tl_unreliable t !! node_id
  end.

Definition set_forward_channel (t : Transport) (node_id : NodeId) (channel : TransportType)
  (tx : ForwardSender) : Transport :=
  match channel with
  | Reliable => {| tl_unreliable := tl_unreliable t; tl_transfer := tl_transfer t;
                   tl_reliable := <[node_id := tx]> (tl_reliable t) |}
  | Transfer => {| tl_unreliable := tl_unreliable t; tl_transfer := <[node_id := tx]> (tl_transfer t);
                   tl_reliable := tl_reliable t |}
  | Unreliable => {| tl_unreliable := <[node_id := tx]> (tl_unreliable t);
                     tl_transfer := tl_transfer t; tl_reliable := tl_reliable t |}
  end.

(** [TransportLayer::shutdown]: the senders that are told to disconnect. *)
Definition drain_channels (t : Transport) : list (NodeId * ForwardSender) * Transport :=
  (map_to_list (tl_unreliable t) ++ map_to_list (tl_transfer t) ++ map_to_list (tl_reliable t),
   Transport_default).

Section ClientApi.
Context `{Hs : Hashes} `{K : KeyAgreement} `{B : ExponentialBackoff} `{T : IpText}.
Context (env : Environment) (now node_info_ttl : Z).
(** The tasks that give the session with the relay server, the routing to a node
    ([SessionLayer::session]), and a connection of the virtual network, with the node
    it is with and its place. *)
Context (server : Task nat) (session : NodeId -> Task nat).
Context (connection : NodeId -> ChannelDesc -> Task (NodeId * nat)).
(** What other calls do to the tables while this one waits. *)
Context (callers : nat -> Transport -> Transport).

(** ** Calls *)

Definition Call (A : Type) : Type := Transport -> World -> run (A * Transport).

Definition call_ret {A} (x : A) : Call A := fun t w => Done (Ok (x, t)) w.
Definition call_err {A} (e : SessionError) : Call A := fun t w => Done (Err e) w.
Definition call_bind {A U} (c : Call A) (k : A -> Call U) : Call U := fun t w =>
  match c t w with
  | Done (Ok (x, t)) w => k x t w
  | Done (Err e) w => Done (Err e) w
  | Panicked => Panicked
  | Unfinished => Unfinished
  end.

(** Waits for a task of the session layer. *)
Definition call_await {A} (task : Task A) : Call A := fun t w =>
  match task w with
  | Done (Ok x) w => Done (Ok (x, callers (wd_time w) t)) w
  | Done (Err e) w => Done (Err e) w
  | Panicked => Panicked
  | Unfinished => Unfinished
  end.

(** ** Opening channels *)

(** [TcpLayer::connect]. *)
Definition tcp_layer_connect (node_id : NodeId) (channel : ChannelType) : Task TcpSender :=
  let channel := {| cd_type := channel; cd_direction := Out |} in
  do! c := connection node_id channel in
  task_ret {| ts_target := c.1; ts_channel := channel; ts_connection := c.2 |}.

(** [forward_virtual_tcp], given the answer of the server about the node. *)
Definition forward_virtual_tcp (node_id : NodeId) (channel : TransportType) (request_id : Z)
  (answer : option response_Node) : Call ForwardSender := fun t w =>
  match get_forward_channel t node_id channel with
  | Some tx => Done (Ok (tx, t)) w
  | None =>
      call_bind (call_await (query_node_info env now node_info_ttl server node_id request_id answer))
        (fun info t w =>
           match NodeInfo_default_node_id info with
           | Panic => Panicked
           | Ret default_id =>
               match get_forward_channel t default_id channel with
               | Some tx => Done (Ok (tx, set_forward_channel t node_id channel tx)) w
               | None =>
                   match (match channel with
                          | Reliable => Some ChMessages
                          | Transfer => Some ChTransfer
                          | Unreliable => None
                          end) with
                   | None => Done (Err (SeInternal "Programming error")) w
                   | Some channel_port =>
                       call_bind (call_await (tcp_layer_connect default_id channel_port))
                         (fun sender t w =>
                            Done (Ok (ReliableSender sender,
                                      set_forward_channel t node_id channel (ReliableSender sender))) w) t w
                   end
               end
           end) t w
  end.

Definition forward_reliable (node_id : NodeId) := forward_virtual_tcp node_id Reliable.
Definition forward_transfer (node_id : NodeId) := forward_virtual_tcp node_id Transfer.

(** [forward_unreliable]. *)
Definition forward_unreliable (node_id : NodeId) : Call ForwardSender := fun t w =>
  match get_forward_channel t node_id Unreliable with
  | Some tx => Done (Ok (tx, t)) w
  | None =>
      call_bind (call_await (session node_id))
        (fun r t w =>
           match get_forward_channel t node_id Unreliable with
           | Some tx => Done (Ok (tx, t)) w
           | None =>
               let routing := UnreliableSender (from_node_routing node_id r) in
               Done (Ok (routing, set_forward_channel t node_id Unreliable routing)) w
           end) t w
  end.

(** ** Neighbours *)

Record Neighbourhood : Type := { nb_updated : Z; nb_nodes : list NodeId }.

(** The neighbours that are remembered, when they are enough and recent. *)
Definition cached_neighbours (neighbourhood_ttl count : Z) (cache : option Neighbourhood)
  : option (list NodeId) :=
  match cache with
  | Some n =>
      if (count <=? wrap 32 (zlen (nb_nodes n))) && (now <? nb_updated n + neighbourhood_ttl)
      then Some (nb_nodes n) else None
  | None => None
  end.

(** The ids in the answer of the server. *)
Definition neighbour_ids (nodes : list response_Node) : list NodeId :=
  omap (fun n => head (rn_identities n) ≫= fun ident => NodeId_try_from (id_node_id ident)) nodes.

(** What [neighbours] gives: the nodes, the cache afterwards, and the previous
    neighbours that a task of its own is to check. *)
Record Neighbours : Type := {
  ns_nodes : list NodeId;
  ns_cache : option Neighbourhood;
  ns_check : option (list NodeId) }.

(** [Client::neighbours], given the cache at the start and when the answer is there. *)
Definition neighbours (neighbourhood_ttl count : Z) (cache later : option Neighbourhood) (request_id : Z)
  (answer : option (list response_Node)) : Task Neighbours :=
  match cached_neighbours neighbourhood_ttl count cache with
  | Some nodes => task_ret {| ns_nodes := nodes; ns_cache := cache; ns_check := None |}
  | None =>
      do! d := server in
      do! answer := raw_neighbours env d count true request_id answer in
      let nodes := neighbour_ids answer in
      task_ret {| ns_nodes := nodes;
                  ns_cache := Some {| nb_updated := now; nb_nodes := nodes |};
                  ns_check := nb_nodes <$> later |}
  end.

(** [SessionLayer::is_p2p]. *)
Definition is_p2p (upgrade : nat -> bool) (c : Client) (node_id : NodeId) : bool :=
  match get_node_routing c node_id with
  | None => false
  | Some r =>
      match session_type upgrade (cl_state c) (from_node_routing node_id r) with
      | Some P2P => true
      | _ => false
      end
  end.

(** The loop of [check_nodes_connection] over the neighbours that were lost. *)
Fixpoint check_lost (upgrade : nat -> bool) (pick : list nat -> option nat) (d : nat) (request_id : Z)
  (answers : NodeId -> option response_Node) (lost : list NodeId) : Task unit := fun w =>
  match lost with
  | [] => Done (Ok tt) w
  | neighbor :: lost =>
      if is_p2p upgrade (wd_client w) neighbor
      then check_lost upgrade pick d request_id answers lost w
      else
        (do! r := attempt (SessionEntry.find_node env d neighbor request_id (answers neighbor)) in fun w =>
         match r with
         | Ok _ => check_lost upgrade pick d request_id answers lost w
         | Err _ =>
             (do! _ := await_others env in
              check_lost upgrade pick d request_id answers lost)
               (with_client w (ClientSessions.disconnect pick (wd_client w) neighbor))
         end) w
  end.

Definition check_nodes_connection (upgrade : nat -> bool) (pick : list nat -> option nat) (request_id : Z)
  (answers : NodeId -> option response_Node) (prev_neighbors new_neighbors : list NodeId) : Task unit :=
  let lost := elements (list_to_set prev_neighbors ∖ list_to_set new_neighbors : gset NodeId) in
  match lost with
  | [] => task_ret tt
  | _ => do! d := server in check_lost upgrade pick d request_id answers lost
  end.

(** ** Broadcasts *)

(** The owners of sessions that a broadcast goes to first, for the sessions in the
    order they are shuffled into. *)
Definition session_targets (s : SessionLayerState) (shuffled : list nat) (count : Z) : gset NodeId :=
  list_to_set (ztake count
    (List.filter (fun id => negb (bool_decide (id = NodeId_default)))
       (omap (fun d => (fun x => nde_default_id (ds_owner x)) <$> session_at s d) shuffled))).

(** Neighbours are added until there are enough. *)
Fixpoint add_neighbours (count : Z) (targets : gset NodeId) (nodes : list NodeId) : gset NodeId :=
  match nodes with
  | [] => targets
  | id :: nodes =>
      let targets := {[id]} ∪ targets in
      if count <=? Z.of_nat (size targets) then targets else add_neighbours count targets nodes
  end.

(** The nodes [broadcast] sends to. *)
Definition broadcast_targets (s : SessionLayerState) (shuffled : list nat) (count : Z)
  (query : Task (list NodeId)) : Task (gset NodeId) :=
  let targets := session_targets s shuffled count in
  if Z.of_nat (size targets) <? count
  then do! nodes := query in task_ret (add_neighbours count targets nodes)
  else task_ret targets.

(** ** Information *)

(** [Client::set_public_addr] and the other direct accesses to the session layer. *)
Definition layer_set_public_addr (s : SessionLayerState) (addr : option SocketAddr) : SessionLayerState :=
  {| ly_public_addr := addr; ly_bind_addr := ly_bind_addr s; ly_sink := ly_sink s;
     ly_nodes := ly_nodes s; ly_p2p_sessions := ly_p2p_sessions s; ly_p2p_nodes := ly_p2p_nodes s;
     ly_sync_backoff := ly_sync_backoff s; ly_refresh_backoff := ly_refresh_backoff s;
     ly_sessions := ly_sessions s; ly_routings := ly_routings s |}.
Definition set_public_addr (s : SessionLayerState) (addr : option SocketAddr) : SessionLayerState :=
  layer_set_public_addr s None.

Definition remote_id (s : SessionLayerState) (addr : SocketAddr) : option NodeId :=
  (fun x => nde_default_id (ds_owner x)) <$> (ly_p2p_sessions s !! addr ≫= session_at s).

Definition list_connected (s : SessionLayerState) : list NodeId := map fst (map_to_list (ly_nodes s)).

Definition default_id (c : Client) (node_id : NodeId) : option NodeId :=
  nv_id <$> get_entry (cl_registry c) node_id.

Definition connected_nodes (c : Client) : list (NodeId * option NodeId) :=
  map (fun id => (id, default_id c id)) (list_connected (cl_state c)).

(** [reconnect_server]. *)
Definition reconnect_server : Task unit :=
  do! d := attempt server in
  match d with
  | Err _ => task_ret tt
  | Ok d =>
      do! _ := (fun w => Done (Ok tt) (with_client w (close_session (wd_client w) d))) in
      do! _ := attempt server in
      task_ret tt
  end.
End ClientApi.
