(* ===== verification/ClientApiProps.v ===== *)
(** The interface of the client: the senders it gives out are those of the node and
    the channel that was asked for, opening them never panics, and broadcasts reach as
    many distinct nodes as they can. *)

From S2P Require Import TcpRegistry.
From S2P Require Import Prelude Payload Proto Challenge NodeInfo SessionState DirectSession Encryption.
From S2P Require Import ClientForward NetworkView ClientSessions SessionInit ConnectSession Dispatch ClientDispatch.
From S2P Require Import SessionEntry EncryptionSync ClientApi.

Section ClientApiProps.
Context `{HH : Hashes} `{K : KeyAgreement} `{B : ExponentialBackoff} `{T : IpText}.
Context (env : Environment) (now node_info_ttl : Z).
Context (server : Task nat) (session : NodeId -> Task nat).
Context (connection : NodeId -> ChannelDesc -> Task (NodeId * nat)).
Context (callers : nat -> Transport -> Transport).

(** ** Lookups *)

Lemma NodeInfo_try_from_nonempty node info : NodeInfo_try_from node = Ok info -> nf_identities info <> [].
Proof.
  unfold NodeInfo_try_from. destruct (mapM _ _) as [[|i ids]|]; cbn; [done| |done].
  destruct (node_session_key _ _ _) as [[authenticated key]|]; cbn; [|done].
  destruct (mapM _ _); cbn; [|done]. by intros [= <-].
Qed.

Lemma NodeView_info_nonempty reg v info :
  NodeView_info node_info_ttl now reg v = UpToDate _ info -> nf_identities info <> [].
Proof.
  unfold NodeView_info. destruct (vs_node (nc_state (cell reg v))) as [|i ids] eqn:E; [done|].
  destruct (match vs_state _ with Established _ => _ | _ => _ end); [done|]. intros [= <-]. cbn. by rewrite E.
Qed.

Lemma update_entry_returns reg info :
  nf_identities info <> [] -> exists r, update_entry now reg info = Ret r.
Proof.
  intros Hi. unfold update_entry. destruct (omap _ _); cbn [outcome_bind].
  - unfold NodeInfo_default_node_id. destruct (nf_identities info); [done|]. cbn. eauto.
  - destruct (forallb _ _); cbn; eauto.
Qed.

(** A task that does not panic, and what it gives when it succeeds. *)
Definition safe {A} (t : Task A) (Q : A -> Prop) : Prop :=
  forall w, match t w with Done (Ok x) _ => Q x | Panicked => False | _ => True end.

Lemma safe_bind {A U} (t : Task A) (k : A -> Task U) P Q :
  safe t P -> (forall x, P x -> safe (k x) Q) -> safe (task_bind t k) Q.
Proof.
  intros Ht Hk w. unfold task_bind. specialize (Ht w). destruct (t w) as [[x|] w1| |]; try done. by apply Hk.
Qed.

Lemma safe_await : safe (await_others env) (fun _ => True).
Proof.
  intros w. unfold await_others. destruct (ev_interrupt _ _); [done|]. by destruct (ev_others _ _ _).
Qed.

Lemma safe_request {A} d kind request_id (answer : option A) :
  safe (raw_request env d kind request_id answer) (fun _ => True).
Proof.
  intros w. unfold raw_request. destruct (session_at _ _) as [x|]; [|done].
  refine (safe_bind _ _ (fun _ => True) _ _ _ w); [done|]. intros _ _.
  eapply safe_bind; [apply safe_await|]. intros _ _ w1. by destruct answer.
Qed.

Lemma safe_query node_id request_id answer :
  safe server (fun _ => True) ->
  safe (query_node_info env now node_info_ttl server node_id request_id answer) (fun info => nf_identities info <> []).
Proof.
  intros Hserver. unfold query_node_info.
  apply (safe_bind _ _ (fun known => match known with Some info => nf_identities info <> [] | None => True end)).
  { eapply safe_bind; [apply safe_await|]. intros _ _ w. destruct (get_entry _ _) as [entry|]; [|done].
    destruct (NodeView_info _ _ _ entry) as [info|] eqn:E; [|done]. by eapply NodeView_info_nonempty. }
  intros [info|] Hi; [by intros w|]. eapply safe_bind; [exact Hserver|]. intros d _.
  eapply safe_bind; [apply safe_request|]. intros node _.
  destruct (NodeInfo_try_from node) as [info|] eqn:E; [|by intros w].
  pose proof (NodeInfo_try_from_nonempty _ _ E) as Hne. eapply safe_bind; [apply safe_await|]. intros _ _ w.
  destruct (update_entry_returns (cl_registry (wd_client w)) info Hne) as [[[] reg] ->]; done.
Qed.

(** ** Channels *)

#[local] Instance TransportType_eq : EqDecision TransportType.
Proof. solve_decision. Defined.

(** The sender of a channel to a node. *)
Definition sender_ok (channel : TransportType) (node_id : NodeId) (s : ForwardSender) : Prop :=
  match channel, s with
  | Unreliable, UnreliableSender r => rs_target r = node_id
  | Reliable, ReliableSender x => ts_channel x = {| cd_type := ChMessages; cd_direction := Out |}
  | Transfer, ReliableSender x => ts_channel x = {| cd_type := ChTransfer; cd_direction := Out |}
  | _, _ => False
  end.

Definition transport_ok (t : Transport) : Prop :=
  forall channel node_id s, get_forward_channel t node_id channel = Some s -> sender_ok channel node_id s.

Lemma get_set_channel t node_id channel tx node_id' channel' :
  get_forward_channel (set_forward_channel t node_id channel tx) node_id' channel' =
  if decide (node_id = node_id' /\ channel = channel') then Some tx else get_forward_channel t node_id' channel'.
Proof.
  destruct channel, channel'; cbn; (rewrite decide_False by naive_solver; done) || idtac;
    destruct (decide (node_id = node_id')) as [->|Hne];
    rewrite ?lookup_insert_eq, ?lookup_insert_ne by done; case_decide; naive_solver.
Qed.

Lemma set_channel_ok t node_id channel tx :
  transport_ok t -> sender_ok channel node_id tx -> transport_ok (set_forward_channel t node_id channel tx).
Proof.
  intros Ht Htx channel' node_id' s. rewrite get_set_channel. case_decide as E; [|apply Ht].
  destruct E as [-> ->]. by intros [= <-].
Qed.

(** A call for a channel is in order: it does not panic, keeps the tables in order,
    and gives the sender that the table has for the node from now on. *)
Definition opens (channel : TransportType) (node_id : NodeId) (c : Call ForwardSender) : Prop :=
  forall t w, transport_ok t ->
    match c t w with
    | Done (Ok (s, t')) _ => transport_ok t' /\ sender_ok channel node_id s /\
                             get_forward_channel t' node_id channel = Some s
    | Panicked => False
    | _ => True
    end.

Context (Hcallers : forall n t, transport_ok t -> transport_ok (callers n t)).

Lemma call_await_bind {A} (task : Task A) (Q : A -> Prop) channel node_id (k : A -> Call ForwardSender) t w :
  safe task Q -> transport_ok t -> (forall x, Q x -> opens channel node_id (k x)) ->
  match call_bind (call_await callers task) k t w with
  | Done (Ok (s, t')) _ => transport_ok t' /\ sender_ok channel node_id s /\
                           get_forward_channel t' node_id channel = Some s
  | Panicked => False
  | _ => True
  end.
Proof.
  intros Hs Ht Hk. unfold call_bind, call_await. specialize (Hs w).
  destruct (task w) as [[x|] w1| |]; try done. apply (Hk x Hs). by apply Hcallers.
Qed.

Lemma found_opens channel node_id t s :
  transport_ok t -> get_forward_channel t node_id channel = Some s ->
  transport_ok t /\ sender_ok channel node_id s /\ get_forward_channel t node_id channel = Some s.
Proof. intros Ht Hs. split_and!; [done|by apply Ht|done]. Qed.

Lemma stored_opens channel node_id t s :
  transport_ok t -> sender_ok channel node_id s ->
  transport_ok (set_forward_channel t node_id channel s) /\ sender_ok channel node_id s /\
  get_forward_channel (set_forward_channel t node_id channel s) node_id channel = Some s.
Proof.
  intros Ht Hs. split_and!; [by apply set_channel_ok|done|]. by rewrite get_set_channel, decide_True.
Qed.

Lemma virtual_tcp_opens channel node_id request_id answer :
  channel <> Unreliable -> safe server (fun _ => True) ->
  (forall id c, safe (connection id c) (fun _ => True)) ->
  opens channel node_id
    (forward_virtual_tcp env now node_info_ttl server connection callers node_id channel request_id answer).
Proof.
  intros Hch Hserver Hconn t w Ht. unfold forward_virtual_tcp.
  destruct (get_forward_channel t node_id channel) as [tx|] eqn:E; [by apply found_opens|].
  eapply call_await_bind; [by apply safe_query|done|]. intros info Hi t1 w1 Ht1.
  unfold NodeInfo_default_node_id. destruct (nf_identities info) as [|default ids] eqn:Ei; [done|].
  destruct (get_forward_channel t1 (ni_node_id default) channel) as [tx|] eqn:E1.
  { apply stored_opens; [done|]. apply Ht1 in E1. by destruct channel. }
  set (port := match channel with Reliable => _ | Transfer => _ | Unreliable => _ end).
  destruct port as [port'|] eqn:Ep; [|done].
  eapply (call_await_bind _ (fun s => ts_channel s = {| cd_type := port'; cd_direction := Out |})); [|done|].
  - unfold tcp_layer_connect. eapply safe_bind; [apply Hconn|]. by intros c _ w2.
  - intros s Hs' t2 w2 Ht2. apply stored_opens; [done|]. by destruct channel; cbn in *; simplify_eq.
Qed.

Lemma unreliable_opens node_id :
  safe (session node_id) (fun _ => True) -> opens Unreliable node_id (forward_unreliable session callers node_id).
Proof.
  intros Hs t w Ht. unfold forward_unreliable.
  destruct (get_forward_channel t node_id Unreliable) as [tx|] eqn:E; [by apply found_opens|].
  eapply call_await_bind; [exact Hs|done|]. intros r _ t1 w1 Ht1.
  destruct (get_forward_channel t1 node_id Unreliable) as [tx|] eqn:E1; [by apply found_opens|].
  by apply stored_opens.
Qed.


End ClientApiProps.

(** ** Broadcasts *)

Section Broadcasts.
Context `{K : KeyAgreement} `{B : ExponentialBackoff}.

Lemma add_neighbours_spec count nodes : forall targets,
  Z.of_nat (size targets) < count ->
  let targets' := add_neighbours count targets nodes in
  targets ⊆ targets' /\ targets' ⊆ targets ∪ list_to_set nodes /\
  Z.of_nat (size targets') <= count /\
  (Z.of_nat (size targets') = count \/ list_to_set nodes ⊆ targets').
Proof.
  induction nodes as [|id nodes IH]; intros targets Hlt; cbn zeta; cbn [add_neighbours].
  { split_and!; [done|set_solver|lia|right; set_solver]. }
  assert (Z.of_nat (size ({[id]} ∪ targets)) <= Z.of_nat (size targets) + 1) as Hsize.
  { rewrite size_union_alt, size_singleton.
    assert (size (targets ∖ {[id]}) <= size targets)%nat by (apply subseteq_size; set_solver). lia. }
  destruct (Z.leb_spec count (Z.of_nat (size ({[id]} ∪ targets)))) as [E|E].
  - split_and!; [set_solver|set_solver|lia|left; lia].
  - destruct (IH ({[id]} ∪ targets) E) as (H1 & H2 & H3 & H4). split_and!; [set_solver|set_solver|done|].
    destruct H4 as [H4|H4]; [by left|right; set_solver].
Qed.

Lemma session_targets_size s shuffled count :
  0 <= count -> Z.of_nat (size (session_targets s shuffled count)) <= count.
Proof.
  intros Hc. unfold session_targets. set (l := List.filter _ _).
  assert (size (list_to_set (C := gset NodeId) (ztake count l)) <= length (ztake count l))%nat as Hl.
  { induction (ztake count l) as [|x l' IH]; cbn; [done|].
    rewrite size_union_alt, size_singleton.
    assert (size (list_to_set (C := gset NodeId) l' ∖ {[x]}) <= size (list_to_set (C := gset NodeId) l'))%nat
      by (apply subseteq_size; set_solver). lia. }
  pose proof (zlen_ztake count l Hc) as Hz. unfold zlen in Hz. lia.
Qed.

(** Broadcasts reach as many distinct nodes as asked for.  The nodes a broadcast
    goes to are at most as many as asked for.  They are the owners of sessions, the
    relay server left out, and if these are too few, neighbours in addition; when
    still fewer than asked for, all neighbours are among them.  When there are enough
    sessions, the server is not asked. *)
Theorem broadcast_reaches s shuffled count query w targets w' :
  0 <= count ->
  broadcast_targets s shuffled count query w = Done (Ok targets) w' ->
  let owned := session_targets s shuffled count in
  Z.of_nat (size targets) <= count /\ owned ⊆ targets /\ (NodeId_default ∉ owned) /\
  (forall id, id ∈ owned -> exists d x, d ∈ shuffled /\ session_at s d = Some x /\ nde_default_id (ds_owner x) = id) /\
  (w' = w /\ targets = owned /\ Z.of_nat (size owned) = count \/
   exists nodes, query w = Done (Ok nodes) w' /\ targets ⊆ owned ∪ list_to_set nodes /\
     (Z.of_nat (size targets) = count \/ list_to_set nodes ⊆ targets)).
Proof.
  intros Hc Hrun owned. pose proof (session_targets_size s shuffled count Hc) as Hsize. fold owned in Hsize.
  assert (forall id, id ∈ owned -> id <> NodeId_default /\ exists d x, d ∈ shuffled /\
    session_at s d = Some x /\ nde_default_id (ds_owner x) = id) as Hown.
  { intros id Hid. unfold owned, session_targets, ztake in Hid. apply elem_of_list_to_set in Hid.
    apply (subseteq_take _ _ id), list_elem_of_In, filter_In in Hid as [Hid Hne].
    apply list_elem_of_In, list_elem_of_omap in Hid as (d & Hd & Hx). split; [by case_bool_decide|].
    destruct (session_at s d) as [x|] eqn:Ex; [|done]. exists d, x. by injection Hx as <-. }
  assert (NodeId_default ∉ owned) as Hzero by (intros [? _]%Hown; done).
  unfold broadcast_targets in Hrun. fold owned in Hrun.
  destruct (Z.of_nat (size owned) <? count) eqn:E; b2p.
  - unfold task_bind in Hrun. destruct (query w) as [[nodes|] w1| |] eqn:Eq; try done. injection Hrun as <- <-.
    destruct (add_neighbours_spec count nodes owned E) as (H1 & H2 & H3 & H4).
    split_and!; [done|done|done|by intros id [_ ?]%Hown|]. right. exists nodes. split_and!; [done|done|].
    destruct H4; [by left|by right].
  - injection Hrun as <- <-. split_and!; [lia|done|done|by intros id [_ ?]%Hown|]. left. split_and!; [done|done|lia].
Qed.
End Broadcasts.

(** ** Examples *)

From S2P Require Import HandshakeProps.

Section Witness.
Import ToyHandshake.

#[local] Instance mute_text : IpText :=
  {| ip_to_string _ := EmptyString; ip_from_str _ := None; sock_from_str _ := None |}.

(** The session with node 12, and a neighbour 13. *)
Definition alone (n : nat) (t : Transport) : Transport := t.
Definition one_routing (id : NodeId) : Task nat := task_ret 0%nat.
Definition one_connection (id : NodeId) (c : ChannelDesc) : Task (NodeId * nat) := task_ret (id, 0%nat).
Definition api_world : World := match toy_run with Done _ w => w | _ => toy_world 12 false end.


Lemma broadcast_reaches_witness :
  exists targets w', broadcast_targets (cl_state (wd_client api_world)) [0%nat] 2 (task_ret [toy_id 13]) api_world
    = Done (Ok targets) w' /\ Z.of_nat (size targets) <= 2.
Proof.
  destruct (broadcast_targets (cl_state (wd_client api_world)) [0%nat] 2 (task_ret [toy_id 13]) api_world)
    as [[targets|] w'| |] eqn:E; [|vm_compute in E; discriminate E..].
  exists targets, w'. split; [done|].
  exact (proj1 (broadcast_reaches (cl_state (wd_client api_world)) [0%nat] 2 (task_ret [toy_id 13]) api_world
    targets w' ltac:(lia) E)).
Defined.
End Witness.
