(* ===== verification/Examples.v ===== *)
(** The logic of the example programs of the client: how [client/examples/http_client.rs]
    cuts what nodes send it into messages, and the plans of requests of
    [client/examples/perf.rs].

    A string is the list of its characters, a character its code point. *)

From S2P Require Import Prelude Proto Challenge.

(** ** Messages, [http_client.rs] *)

(** [char::is_whitespace]. *)
Definition is_whitespace (c : Z) : bool :=
  (9 <=? c) && (c <=? 13) || (c =? 0x20) || (c =? 0x85) || (c =? 0xA0) || (c =? 0x1680) ||
  (0x2000 <=? c) && (c <=? 0x200A) || (c =? 0x2028) || (c =? 0x2029) || (c =? 0x202F) ||
  (c =? 0x205F) || (c =? 0x3000).

Fixpoint trim_start (s : list Z) : list Z :=
  match s with
  | c :: r => if is_whitespace c then trim_start r else s
  | [] => []
  end.

Definition trim (s : list Z) : list Z := rev (trim_start (rev (trim_start s))).

Definition MSG_SEPARATOR : Z := 59.

(** [str::split] on the separator: the parts that it ends, and the last one. *)
Fixpoint split (s : list Z) : list (list Z) * list Z :=
  match s with
  | [] => ([], [])
  | c :: s =>
      let '(parts, rest) := split s in
      if c =? MSG_SEPARATOR then ([] :: parts, rest)
      else
        match parts with
        | [] => ([], c :: rest)
        | part :: parts => ((c :: part) :: parts, rest)
        end
  end.

Definition starts_with_separator (s : list Z) : bool := bool_decide (head s = Some MSG_SEPARATOR).
Definition ends_with_separator (s : list Z) : bool := bool_decide (last s = Some MSG_SEPARATOR).

(** [PartialMessages]. *)
Abbreviation PartialMessages := (gmap NodeId (list Z)).

(** The part that was kept in front of the messages of a chunk. *)
Definition merge_previous (previous : option (list Z)) (previous_last_is_complete : bool)
  (msgs : list (list Z)) : result (list (list Z)) unit :=
  match previous with
  | None => Ok msgs
  | Some previous =>
      if previous_last_is_complete then Ok (previous :: msgs)
      else
        match msgs with
        | continuation :: msgs => Ok ((previous ++ continuation) :: msgs)
        | [] => Err ()
        end
  end.

(** [split_messages]: the complete messages, or an error, and what is kept. *)
Definition split_messages (msgs : list Z) (node_id : NodeId) (partial : PartialMessages)
  : result (list (list Z)) unit * PartialMessages :=
  let msgs := trim msgs in
  let previous_last_is_complete := starts_with_separator msgs in
  let current_last_is_complete := ends_with_separator msgs in
  let '(parts, rest) := split msgs in
  let msgs := filter (fun s => trim s <> []) (parts ++ [rest]) in
  let merged := merge_previous (partial !! node_id) previous_last_is_complete msgs in
  let partial := delete node_id partial in
  match merged with
  | Err e => (Err e, partial)
  | Ok msgs =>
      if current_last_is_complete then (Ok msgs, partial)
      else
        match last msgs with
        | Some current => (Ok (removelast msgs), <[node_id := current]> partial)
        | None => (Ok msgs, partial)
        end
  end.

(** [receiver_task]: all messages that come, with the node they are of. *)
Fixpoint receive_all (chunks : list (NodeId * list Z)) (partial : PartialMessages)
  : list (NodeId * list Z) * PartialMessages :=
  match chunks with
  | [] => ([], partial)
  | (node_id, chunk) :: chunks =>
      let '(r, partial) := split_messages chunk node_id partial in
      let '(received, partial) := receive_all chunks partial in
      (match r with Ok msgs => map (pair node_id) msgs | Err _ => [] end ++ received, partial)
  end.

(** *** Splitting *)

Definition no_separator (s : list Z) : Prop := MSG_SEPARATOR ∉ s.
Definition no_whitespace (s : list Z) : Prop := forall c, c ∈ s -> is_whitespace c = false.

Definition terminated (msgs : list (list Z)) : list Z := concat (map (fun m => m ++ [MSG_SEPARATOR]) msgs).

Lemma split_join s : s = terminated (split s).1 ++ (split s).2.
Proof.
  induction s as [|c s IH]; [done|]. simpl. destruct (split s) as [parts rest]. cbn [fst snd] in IH.
  destruct (Z.eqb_spec c MSG_SEPARATOR) as [->|_]; [by rewrite IH at 1|].
  destruct parts as [|part parts]; simpl in *; by rewrite IH at 1.
Qed.

Lemma split_prefix p s : no_separator p ->
  split (p ++ s) =
  match split s with
  | ([], rest) => ([], p ++ rest)
  | (part :: parts, rest) => ((p ++ part) :: parts, rest)
  end.
Proof.
  intros Hp. induction p as [|c p IH]; simpl; [by destruct (split s) as [[] ?]|].
  rewrite IH by (intros ?; apply Hp; by right).
  destruct (Z.eqb_spec c MSG_SEPARATOR) as [->|_]; [by destruct Hp; left|].
  by destruct (split s) as [[] ?].
Qed.

Lemma split_terminated msgs s : Forall no_separator msgs ->
  split (terminated msgs ++ s) = (msgs ++ (split s).1, (split s).2).
Proof.
  induction 1 as [|m msgs Hm _ IH]; [simpl; by destruct (split s)|].
  unfold terminated in *. simpl. rewrite <- !app_assoc, split_prefix by done. simpl. rewrite IH.
  by rewrite app_nil_r.
Qed.

Lemma split_no_separator s : no_separator s -> split s = ([], s).
Proof. intros Hs. pose proof (split_prefix s [] Hs) as E. rewrite app_nil_r in E. by rewrite E; simpl; rewrite app_nil_r. Qed.

Lemma split_clean s : Forall no_separator (split s).1 /\ no_separator (split s).2.
Proof.
  induction s as [|c s IH]; [split; [constructor|by intros ?%elem_of_nil]|]. simpl.
  destruct (split s) as [parts rest]. simpl in IH. destruct IH as [Hp Hr].
  destruct (Z.eqb_spec c MSG_SEPARATOR) as [->|Hc].
  - split; [constructor; [by intros ?%elem_of_nil|done]|done].
  - assert (forall l, no_separator l -> no_separator (c :: l)) as Hcons.
    { intros l Hl [?|?]%elem_of_cons; [congruence|done]. }
    destruct Hp as [|part parts Hpart Hparts]; split; simpl; auto.
Qed.

(** *** One chunk *)

Lemma trim_start_id s : no_whitespace s -> trim_start s = s.
Proof. destruct s as [|c s]; [done|]. intros Hs. simpl. by rewrite (Hs c) by left. Qed.

Lemma trim_id s : no_whitespace s -> trim s = s.
Proof.
  intros Hs. unfold trim. rewrite (trim_start_id s Hs), trim_start_id; [apply rev_involutive|].
  intros c. rewrite list_elem_of_In, <- in_rev, <- list_elem_of_In. apply Hs.
Qed.

Lemma starts_split c s : starts_with_separator (c :: s) = true <->
  exists parts, (split (c :: s)).1 = [] :: parts.
Proof.
  unfold starts_with_separator. rewrite bool_decide_eq_true. simpl.
  destruct (split s) as [parts rest]. destruct (Z.eqb_spec c MSG_SEPARATOR) as [->|Hc]; simpl; [naive_solver|].
  destruct parts; simpl; naive_solver.
Qed.

Lemma ends_split s : s <> [] -> ends_with_separator s = true <-> (split s).2 = [].
Proof.
  intros Hs. unfold ends_with_separator. rewrite bool_decide_eq_true.
  pose proof (split_join s) as Hj. destruct (split_clean s) as [_ Hr].
  destruct (split s) as [parts rest]. simpl in *. destruct rest as [|c rest] using rev_ind.
  - split; [done|]. intros _. subst s. rewrite app_nil_r in *.
    destruct parts as [|part parts] using rev_ind; [done|]. unfold terminated.
    rewrite map_app, concat_app. simpl. rewrite app_nil_r, app_assoc. apply last_snoc.
  - split; [|by destruct rest]. rewrite Hj, app_assoc, last_snoc. intros [= ->]. destruct Hr.
    apply elem_of_app. right. by apply list_elem_of_singleton.
Qed.

Lemma split_no_whitespace s : no_whitespace s ->
  Forall no_whitespace (split s).1 /\ no_whitespace (split s).2.
Proof.
  intros Hs. rewrite (split_join s) in Hs. split.
  - apply Forall_forall. intros m Hm c Hc. apply Hs, elem_of_app. left. unfold terminated.
    apply list_elem_of_In, in_concat. exists (m ++ [MSG_SEPARATOR]). split.
    + apply list_elem_of_In, list_elem_of_fmap. by exists m.
    + apply list_elem_of_In, elem_of_app. by left.
  - intros c Hc. apply Hs, elem_of_app. by right.
Qed.

Lemma filter_nonblank l : Forall no_whitespace l -> Forall (.≠ []) l -> filter (fun s => trim s <> []) l = l.
Proof.
  induction 1 as [|s l Hs _ IH]; [done|]. intros [Hne Hl]%Forall_cons. rewrite filter_cons_True, IH; [done..|].
  by rewrite trim_id.
Qed.

Definition set_partial (node_id : NodeId) (rest : list Z) (partial : PartialMessages) : PartialMessages :=
  if decide (rest = []) then delete node_id partial else <[node_id := rest]> (delete node_id partial).

(** The parts of a chunk with a separator: what is left of them when the empty ones
    are filtered out, with the kept part in front. *)
Lemma merge_previous_parts previous c s part parts rest :
  let p := default [] previous in
  split (c :: s) = (part :: parts, rest) -> no_whitespace (c :: s) -> previous <> Some [] ->
  Forall (.≠ []) ((p ++ part) :: parts) ->
  merge_previous previous (starts_with_separator (c :: s))
    (filter (fun s => trim s <> []) ((part :: parts) ++ [rest])) =
  Ok ((p ++ part) :: parts ++ if decide (rest = []) then [] else [rest]).
Proof.
  intros p Hs Hw Hne [Hpp Hparts]%Forall_cons. pose proof (starts_split c s) as Hst.
  pose proof (split_no_whitespace _ Hw) as Hws. rewrite Hs in Hst, Hws. cbn [fst snd] in *.
  destruct Hws as [[Hwpart Hwparts]%Forall_cons Hwr]. cbn [app].
  rewrite filter_cons, trim_id, filter_app, (filter_nonblank parts) by done.
  rewrite (filter_cons _ rest), filter_nil, trim_id by done.
  replace (if decide (rest <> []) then [rest] else []) with (if decide (rest = []) then [] else [rest])
    by (by repeat case_decide).
  destruct part as [|c' part].
  - rewrite decide_False by naive_solver. rewrite app_nil_r in *.
    assert (starts_with_separator (c :: s) = true) as -> by (apply Hst; eauto).
    unfold p in *. by destruct previous.
  - rewrite decide_True by done.
    assert (starts_with_separator (c :: s) = false) as -> by (apply not_true_is_false; rewrite Hst; naive_solver).
    unfold p. by destruct previous.
Qed.

Lemma split_messages_step (chunk : list Z) (node_id : NodeId) (partial : PartialMessages) :
  let p := default [] (partial !! node_id) in
  partial !! node_id <> Some [] -> no_separator p -> chunk <> [] -> no_whitespace chunk ->
  Forall (.≠ []) (split (p ++ chunk)).1 ->
  split_messages chunk node_id partial =
    (Ok (split (p ++ chunk)).1, set_partial node_id (split (p ++ chunk)).2 partial).
Proof.
  intros p Hne Hp Hc Hw. unfold split_messages. rewrite trim_id by done. cbv zeta.
  rewrite (split_prefix p chunk Hp). destruct chunk as [|c s]; [done|].
  pose proof (ends_split _ Hc) as Hen. pose proof (split_join (c :: s)) as Hj.
  pose proof (starts_split c s) as Hst.
  destruct (split (c :: s)) as [[|part parts] rest] eqn:Hs; cbn [fst snd] in *.
  - intros _. unfold terminated in Hj. simpl in Hj. subst rest.
    assert (starts_with_separator (c :: s) = false) as -> by (apply not_true_is_false; rewrite Hst; naive_solver).
    assert (ends_with_separator (c :: s) = false) as -> by (apply not_true_is_false; by rewrite Hen).
    cbn [app]. rewrite filter_nonblank by (by repeat constructor).
    unfold set_partial, p. destruct (partial !! node_id) as [q|]; simpl; [|done].
    rewrite decide_False by (by destruct q). done.
  - intros Hparts. rewrite (merge_previous_parts _ _ _ _ _ _ Hs Hw Hne Hparts). fold p. unfold set_partial.
    destruct (decide (rest = [])) as [->|Hr].
    + assert (ends_with_separator (c :: s) = true) as -> by by apply Hen. by rewrite app_nil_r.
    + assert (ends_with_separator (c :: s) = false) as -> by (apply not_true_is_false; by rewrite Hen).
      rewrite app_comm_cons, last_snoc, removelast_last. done.
Qed.

(** *** All chunks *)

Definition of_node {A} (node_id : NodeId) (l : list (NodeId * A)) : list A :=
  (filter (fun x => x.1 = node_id) l).*2.

(** A message the program sends. *)
Definition message (m : list Z) : Prop := m <> [] /\ no_separator m /\ no_whitespace m.

Lemma terminated_no_whitespace msgs : Forall message msgs -> no_whitespace (terminated msgs).
Proof.
  induction 1 as [|m msgs (_ & _ & Hm) _ IH]; [by intros c ?%elem_of_nil|].
  intros c. unfold terminated. simpl. rewrite !elem_of_app, list_elem_of_singleton.
  intros [[?| ->]|?]; [by apply Hm|done|by apply IH].
Qed.

(** A node sends terminated messages: what a prefix of them is cut into. *)
Lemma split_stream s r msgs : Forall message msgs -> s ++ r = terminated msgs ->
  exists msgs', msgs = (split s).1 ++ msgs' /\ (split s).2 ++ r = terminated msgs' /\
    Forall message (split s).1 /\ Forall message msgs'.
Proof.
  intros Hm Hs. rewrite (split_join s), <- app_assoc in Hs. destruct (split_clean s) as [Hp Hr].
  pose proof (split_terminated msgs [] (Forall_impl _ _ _ Hm (fun m H => proj1 (proj2 H)))) as E.
  rewrite app_nil_r, <- Hs, split_terminated in E by done. injection E as E1 E2.
  pose proof (split_join ((split s).2 ++ r)) as Hj. simpl in E1, E2. rewrite E2, app_nil_r in *.
  exists (split ((split s).2 ++ r)).1. rewrite <- E1 in Hm. apply Forall_app in Hm as [H1 H2]. auto.
Qed.

Lemma nothing_left p msgs : no_separator p -> p = terminated msgs -> msgs = [] /\ p = [].
Proof.
  intros Hp ->. destruct msgs as [|m l]; [done|]. destruct Hp. unfold terminated. simpl.
  rewrite !elem_of_app. left. right. by apply list_elem_of_singleton.
Qed.

Lemma of_node_cons {A} n n0 (x : A) l :
  of_node n ((n0, x) :: l) = (if decide (n0 = n) then [x] else []) ++ of_node n l.
Proof. unfold of_node. rewrite filter_cons. simpl. by case_decide. Qed.

Lemma of_node_pairs {A} n n0 (l : list A) :
  of_node n (map (pair n0) l) = if decide (n0 = n) then l else [].
Proof.
  induction l as [|m l IH]; cbn [map]; [by case_decide|]. rewrite of_node_cons, IH. by case_decide.
Qed.

Lemma set_partial_lookup (n0 : NodeId) (rest : list Z) (partial : PartialMessages) (n : NodeId) : partial !! n <> Some [] ->
  default [] (set_partial n0 rest partial !! n) =
    (if decide (n0 = n) then rest else default [] (partial !! n)) /\
  set_partial n0 rest partial !! n <> Some [].
Proof.
  intros Hn. unfold set_partial. destruct (decide (n0 = n)) as [<-|?]; case_decide; subst;
    rewrite ?lookup_insert_eq, ?lookup_insert_ne, ?lookup_delete_eq, ?lookup_delete_ne by done;
    naive_solver.
Qed.

Lemma of_node_app {A} n (l1 l2 : list (NodeId * A)) : of_node n (l1 ++ l2) = of_node n l1 ++ of_node n l2.
Proof. unfold of_node. by rewrite filter_app, fmap_app. Qed.

Lemma receive_all_spec chunks : forall (partial : PartialMessages) (sent : NodeId -> list (list Z)),
  (forall n, Forall message (sent n)) -> Forall (fun c => c.2 <> []) chunks ->
  (forall n, partial !! n <> Some []) ->
  (forall n, no_separator (default [] (partial !! n))) ->
  (forall n, default [] (partial !! n) ++ concat (of_node n chunks) = terminated (sent n)) ->
  (forall n, of_node n (receive_all chunks partial).1 = sent n) /\ (receive_all chunks partial).2 = ∅.
Proof.
  induction chunks as [|[n0 chunk] chunks IH]; intros partial sent Hsent Hne Hp Hsep Heq.
  - assert (forall n, sent n = [] /\ default [] (partial !! n) = []) as Hn.
    { intros n. specialize (Heq n). simpl in Heq. rewrite app_nil_r in Heq. by apply nothing_left. }
    split; [intros n; by destruct (Hn n) as [-> _]|]. simpl. apply map_eq. intros n. rewrite lookup_empty.
    specialize (Hp n). destruct (Hn n) as [_ E]. destruct (partial !! n); simpl in E; by subst.
  - apply Forall_cons in Hne as [Hc Hne]. pose proof (Heq n0) as H0.
    rewrite of_node_cons, decide_True in H0 by done. cbn [app concat] in H0.
    rewrite app_assoc in H0. destruct (split_stream _ _ _ (Hsent n0) H0) as (msgs' & Hm & Hr & Hm1 & Hm2).
    assert (Hw : no_whitespace chunk).
    { intros c Hcc. apply (terminated_no_whitespace _ (Hsent n0)). rewrite <- H0, !elem_of_app. auto. }
    cbn [receive_all]. rewrite split_messages_step; [|done..|].
    2: { eapply Forall_impl; [exact Hm1|]. by intros m []. }
    set (parts := (split _).1) in *. set (rest := (split _).2) in *.
    pose proof (fun n => set_partial_lookup n0 rest partial n (Hp n)) as Hl.
    destruct (IH (set_partial n0 rest partial) (fun n => if decide (n0 = n) then msgs' else sent n))
      as [IH1 IH2]; [|done|..].
    + intros n. by case_decide.
    + intros n. apply Hl.
    + intros n. destruct (Hl n) as [-> _]. case_decide; [by apply split_clean|done].
    + intros n. destruct (Hl n) as [-> _]. specialize (Heq n). rewrite of_node_cons in Heq.
      case_decide; [by subst|]. by rewrite <- Heq.
    + destruct (receive_all chunks _) as [received final]. simpl in *. split; [|done].
      intros n. rewrite of_node_app, of_node_pairs, IH1. case_decide; [subst; by rewrite Hm|done].
Qed.

(** The example program gets the messages that were sent to it.  Nodes send messages
    that are not empty and contain neither separators nor white space, each followed
    by a separator; what they send comes in any pieces, those of different nodes
    interleaved in any way.  Then the program receives from each node exactly its
    messages, in order, and nothing is left over. *)
Theorem messages_reassembled (chunks : list (NodeId * list Z)) (sent : NodeId -> list (list Z)) :
  (forall n, Forall message (sent n)) -> Forall (fun c => c.2 <> []) chunks ->
  (forall n, concat (of_node n chunks) = terminated (sent n)) ->
  (forall n, of_node n (receive_all chunks ∅).1 = sent n) /\ (receive_all chunks ∅).2 = ∅.
Proof.
  intros Hs Hc Heq. apply receive_all_spec; [done|done|done|by intros n ?%elem_of_nil|].
  intros n. rewrite lookup_empty. apply Heq.
Qed.

(** Two nodes: "ab" and "c" come from the first in three pieces, "d" from the second in
    two. *)
Definition sample_sent (n : NodeId) : list (list Z) :=
  if decide (n = replicate 20 1) then [[97; 98]; [99]]
  else if decide (n = replicate 20 2) then [[100]] else [].

Definition sample_chunks : list (NodeId * list Z) :=
  [(replicate 20 1, [97]); (replicate 20 2, [100]); (replicate 20 1, [98]); (replicate 20 2, [59]);
   (replicate 20 1, [59; 99; 59])].

Lemma message_checked m :
  negb (bool_decide (m = [])) && forallb (fun c => negb (c =? MSG_SEPARATOR) && negb (is_whitespace c)) m = true ->
  message m.
Proof.
  rewrite andb_true_iff, negb_true_iff, bool_decide_eq_false, forallb_forall. intros [Hne Hall].
  split; [done|]. split.
  - intros Hm%list_elem_of_In. by apply Hall in Hm.
  - intros c Hm%list_elem_of_In. apply Hall, andb_true_iff in Hm as [_ Hm]. by apply negb_true_iff.
Qed.

Lemma messages_reassembled_witness :
  of_node (replicate 20 1) (receive_all sample_chunks ∅).1 = [[97; 98]; [99]] /\
  of_node (replicate 20 2) (receive_all sample_chunks ∅).1 = [[100]] /\
  (receive_all sample_chunks ∅).2 = ∅.
Proof.
  destruct (messages_reassembled sample_chunks sample_sent) as [H1 H2].
  - intros n. unfold sample_sent. repeat case_decide; repeat (apply Forall_cons; split); try exact (List.Forall_nil _);
      by apply message_checked.
  - repeat constructor; done.
  - intros n. unfold sample_chunks, sample_sent. rewrite !of_node_cons.
    destruct (decide (n = replicate 20 1)) as [->|H1]; [by vm_compute|].
    destruct (decide (n = replicate 20 2)) as [->|H2]; [by vm_compute|].
    rewrite !(decide_False (P := replicate 20 1 = n)), !(decide_False (P := replicate 20 2 = n)) by congruence.
    done.
  - split; [|split]; [apply H1..|exact H2].
Defined.

(** ** Plans, [perf.rs] *)

Inductive PlannedRequest : Type :=
| PlannedFindNode
| PlannedNeighbours (n : Z)
| PlannedPing.

(** [Task] and [FrequencyTask]: a request and how often it is to be made. *)
Record PlannedTask : Type := {
  pk_request : PlannedRequest;
  pk_count : Z }.

Definition u32_add (a b : Z) : outcome Z := if a + b <? 2 ^ 32 then Ret (a + b) else Panic.

(** [load_test::plan_tasks]. *)
Definition plan_tasks (find_node_weight neighbours_weight ping_weight neighbours_size
  requests_per_connection : Z) : outcome (list PlannedTask) :=
  let! all_count := u32_add find_node_weight neighbours_weight in
  let! all_count := u32_add all_count ping_weight in
  if all_count =? 0 then Panic
  else
    let scale := requests_per_connection / all_count in
    Ret [{| pk_request := PlannedFindNode; pk_count := find_node_weight * scale |};
         {| pk_request := PlannedNeighbours neighbours_size; pk_count := neighbours_weight * scale |};
         {| pk_request := PlannedPing; pk_count := ping_weight * scale |}].

(** [TaskPlan::count_requests] and [FrequencyPlan::count_requests]. *)
Definition count_requests (tasks : list PlannedTask) : Z := foldr (fun t n => pk_count t + n) 0 tasks.

(** [TaskPlan::next]. *)
Fixpoint task_next (tasks : list PlannedTask) : option PlannedRequest * list PlannedTask :=
  match tasks with
  | [] => (None, [])
  | task :: rest =>
      if 0 <? pk_count task
      then (Some (pk_request task),
            {| pk_request := pk_request task; pk_count := pk_count task - pk_count task |} :: rest)
      else task_next rest
  end.

(** [FrequencyPlan::next], from a sample below the sum of the frequencies. *)
Fixpoint frequency_next (tasks : list PlannedTask) (start_range sample : Z) : option PlannedRequest :=
  match tasks with
  | [] => None
  | task :: rest =>
      if (start_range <=? sample) && (sample <? start_range + pk_count task) then Some (pk_request task)
      else frequency_next rest (start_range + pk_count task) sample
  end.

(** Among the samples every request is picked as often as its frequency says. *)
Lemma frequency_exact tasks : forall start, Forall (fun t => 0 <= pk_count t) tasks ->
  map (frequency_next tasks start) (seqZ start (count_requests tasks)) =
  concat (map (fun t => replicate (Z.to_nat (pk_count t)) (Some (pk_request t))) tasks).
Proof.
  induction tasks as [|t tasks IH]; intros start Ht; [done|]. apply Forall_cons in Ht as [H0 Ht].
  assert (0 <= count_requests tasks).
  { clear -Ht. induction Ht as [|t' l ? _ IH]; unfold count_requests in *; simpl; lia. }
  cbn [count_requests foldr] in *. fold (count_requests tasks).
  rewrite seqZ_app, map_app by done. cbn [map concat]. f_equal.
  - apply list_eq. intros i. destruct (decide (i < Z.to_nat (pk_count t))%nat) as [Hi|Hi].
    + rewrite lookup_replicate_2 by done. rewrite list_lookup_fmap, lookup_seqZ_lt by lia. simpl.
      rewrite (proj2 (Z.leb_le _ _)), (proj2 (Z.ltb_lt _ _)) by lia. done.
    + rewrite !lookup_ge_None_2; [done|rewrite length_replicate; lia|rewrite length_fmap, length_seqZ; lia].
  - rewrite <- (IH (start + pk_count t) Ht). apply map_ext_in. intros i Hi.
    apply list_elem_of_In, elem_of_seqZ in Hi. simpl.
    rewrite (proj2 (Z.ltb_ge i _)) by lia. by rewrite andb_false_r.
Qed.

(** The counts of a plan are in the proportion of the weights, and are as many as was
    asked for, but for the remainder of the division. *)
Lemma plan_tasks_counts f n p size requests tasks :
  0 <= f -> 0 <= n -> 0 <= p -> 0 <= requests -> plan_tasks f n p size requests = Ret tasks ->
  map pk_count tasks = [f * (requests / (f + n + p)); n * (requests / (f + n + p)); p * (requests / (f + n + p))] /\
  requests - (f + n + p) < count_requests tasks <= requests.
Proof.
  intros Hf Hn Hp Hr. unfold plan_tasks, u32_add.
  destruct (_ <? _); [|done]. simpl. destruct (_ <? _); [|done]. simpl.
  destruct (Z.eqb_spec (f + n + p) 0) as [|Hne]; [done|]. intros [= <-]. split; [done|].
  unfold count_requests. simpl. pose proof (Z.div_mod requests (f + n + p) Hne).
  pose proof (Z.mod_pos_bound requests (f + n + p)). lia.
Qed.

Fixpoint task_requests (fuel : nat) (tasks : list PlannedTask) : list PlannedRequest :=
  match fuel with
  | O => []
  | S fuel =>
      match task_next tasks with
      | (Some request, tasks) => request :: task_requests fuel tasks
      | (None, _) => []
      end
  end.

(** But a [TaskPlan] gives each request once, however large its count is. *)
Lemma task_requests_once tasks : forall fuel, (length tasks < fuel)%nat ->
  task_requests fuel tasks = map pk_request (filter (fun t => 0 < pk_count t) tasks).
Proof.
  induction tasks as [|t tasks IH]; intros [|fuel] Hf; simpl in Hf; try lia; [done|].
  cbn [task_requests task_next]. rewrite filter_cons.
  destruct (Z.ltb_spec 0 (pk_count t)) as [Hlt|Hge].
  - rewrite decide_True by done. cbn [map]. f_equal. rewrite <- (IH fuel) by lia.
    destruct fuel; [lia|]. cbn [task_requests task_next pk_count]. by rewrite Z.sub_diag.
  - rewrite decide_False by lia. rewrite <- (IH (S fuel)) by lia. done.
Qed.
